(* ===== verification/_CoqProject ===== *)
-Q . S2P
Prelude.v
GridTypes.v
Provisioner.v
Sorting.v
StartupOrder.v
Engine.v
EngineApi.v
EngineLaws.v
EngineWorkloads.v
EngineDeployments.v
EngineQueue.v
EngineWorker.v
Sample.v
Gateway.v
Capacity.v
Events.v
Reporter.v
Paths.v
Migration.v
Power.v
UpgradeFiles.v
Upgrade.v
Registrar.v
Auth.v
UpdateWorker.v
Identity.v
EventsEngine.v
EngineSystem.v
EngineProvisioner.v
Daemon.v
Powerd.v
Noded.v
Identityd.v
Vmd.v
Modules.v
Provisiond.v
DebugTools.v
JsStrings.v
Zui.v
BootstrapHub.v
Bootstrap.v
Internet.v
SampleNode.v
SwaggerUi.v
SwaggerCurl.v
SwaggerBase64.v
SwaggerSearch.v
SwaggerOauth.v
SwaggerParams.v
SwaggerWitnesses.v
BootstrapWitnesses.v
NodeWitnesses.v
DaemonWitnesses.v
Witnesses.v
