(* ===== verification/Prelude.v ===== *)
(** * Verification of the Zero-OS v4 node services

    Zero-OS is the operating system of a grid node.  Its daemons talk to each
    other over a message bus (zbus) and to the grid through a registrar.  This
    development models the code that decides what the node does: the
    provision engine and its provisioner, the registration of the node, the
    handling of contracts, consumption reports, power and uptime, upgrades,
    identity and the worker that publishes releases, and the program in Rust that
    installs the node at boot.

    ** How code is modelled

    A Go function that touches anything outside itself is a program of the monad
    [M S C A] below: it runs on a state [S] of everything outside, returns an
    [A] and lists the external calls it made, each with its answer, as values of
    a type [C] of the component ([ecall] for the engine, [ucall] for the
    upgrader, and so on).  External code is a class of functions
    [S -> answer * S], one class per component ([EngineEnv], [GridTypes],
    [RegistrarClient], [PowerEnv], ...); nothing is assumed of it but what a class
    of laws states ([EngineLaws], [GridTypesLaws], [FileLaws], ...), and only the
    theorems that mention such a class rely on it.  Those laws are the documented
    behaviour of the library in question and are shown to hold for a concrete
    environment in [Sample] and [SampleNode].

    Error values are the type [error]: sentinels compared by identity, wrapped
    errors and fresh ones, with [errors_Is] and [errors.As] computed on them.  A
    function that returns a value or an error returns [res A], one that returns
    both at once a pair.  Machine integers are [Z] with [uint32], [uint64] and
    [int64] written where the code converts or computes; a float64 is the
    [spec_float] of the Standard Library at precision 53.  A map that is ranged
    over goes through the class [RangeMap], whose law leaves the order open;
    sort.Slice goes through [SortSlice], whose law leaves ties open.

    Loops over data recurse on the data.  A loop that runs until its context is
    done takes the number of its rounds, or the list of the select cases that
    came ready, as an argument, and its theorems hold for every such argument; a
    retry takes the number of attempts; a daemon that still waits when its rounds are
    used up ends as [Blocked], and the theorems on what it did hold for every
    number.  Where the code itself bounds the
    attempts (six questions to the KYC service, each with a client that retries its
    request five times, five to send a consumption, four
    to fetch a key) the bound is the code's.  A panic is [Panicked] in the
    upgrader, [Panic] in the bootstrap program, whose destructors still run, and [None] in the engine's options.  Log statements and metrics are
    left out, pauses take no step unless they are recorded.

    ** The files

    - [Prelude] (this file): errors, the monad with its equations and the
      tactics [run] and [every_call], loops, integers, maps, hexadecimal.
    - [GridTypes]: the data of zosbase's gridtypes and provision packages and the
      functions called on them; the context values of pkg/provision/engine.go.
    - [Sorting], [Paths]: sort.Slice and sort.SliceStable, path/filepath.
    - [Provisioner]: pkg/provision/provisiner.go, the map from workload types to
      managers and how their answers become results.
    - [StartupOrder], [Engine], [EngineApi]: pkg/provision/engine.go, in this
      order the order of types and operations; the options, the operations on
      workloads and deployments, the requests that queue a job, [validate], the
      worker loop [Run] and [boot]; the zbus methods.
    - [EngineLaws], [EngineWorkloads], [EngineDeployments], [EngineQueue],
      [EngineWorker]: the theorems on the engine, below.
    - [Gateway]: pkg/registrar_gateway, the methods over the registrar client,
      each under the mutex, and the stubs left of the chain.
    - [Capacity], [Events], [Reporter], [Migration]: cap.go, events.go,
      reporter.go and migration.go of cmds/modules/provisiond.
    - [Power]: pkg/power, the power server and the uptime reports.
    - [UpgradeFiles], [Upgrade]: pkg/upgrade, copying flists to the root file
      system and deciding what to install when.
    - [Registrar]: pkg/registrar_light, the registration and its state.
    - [Auth]: pkg/provision/auth.go, the keys of twins and of the administrator.
    - [Identity]: pkg/identity/identityd.go and cmds/identityd/ssh.go.
    - [UpdateWorker]: tools/zos-update-worker/internal.
    - [EventsEngine]: the event handler of [Events] over the engine of [Engine],
      as the provision daemon composes them.
    - [EngineSystem]: the engine as a system, in which requests, the steps of the
      worker and crashes interleave ([node_step], [crash_step]).
    - [EngineProvisioner]: the engine of [Engine] over the map provisioner of
      [Provisioner] ([engine_with_managers]), which keeps the engine's laws.
    - [Daemon]: what the main functions share, how a process ends and how a program
      is followed to one of its calls.
    - [Provisiond], [Powerd], [Noded]: main.go of cmds/modules/provisiond, powerd and
      noded, with the programs of the components above inside them.
    - [Identityd]: main.go and monitor.go of cmds/identityd.
    - [Vmd]: main.go of cmds/modules/vmd; [Modules]: cmds/zos/main.go and main.go of
      the modules storaged, flistd, contd, gateway, netlightd and api_gateway.
    - [DebugTools]: cmds/modules/zbusdebug and zlf.
    - [Zui]: of cmds/modules/zui the flag (main.go), the table of services
      (service.go), the header (header.go), the addresses (net.go) and the keys of the
      storage pools (disk.go).
    - [JsStrings], [SwaggerUi], [SwaggerCurl], [SwaggerBase64], [SwaggerSearch],
      [SwaggerOauth], [SwaggerParams]: code of the JavaScript bundles that provisiond
      serves from cmds/modules/provisiond/swagger.  Each bundle is one minified line of code;
      the files name the minified functions they model: the curl commands of a
      request and the OAuth 2 login with oauth2-redirect.html (swagger-ui.js), base64 and the PKCE code verifier and the check of
      a parameter against its schema (swagger-ui-bundle.js), the query of the
      page's address (swagger-ui-es-bundle.js), deep links
      (swagger-ui-es-bundle-core.js) and the url sanitizer
      (swagger-ui-standalone-preset.js).
    - [Internet]: cmds/internet/main.go, the bridge of the node and the check of its
      connection.
    - [BootstrapHub], [Bootstrap]: the Rust program of bootstrap/bootstrap/src that
      installs the node: kernel parameters, configuration and hub client
      (kparams.rs, config.rs, hub.rs), then mounts, the working directory, services
      and the stages (zfs.rs, workdir.rs, zinit.rs, bootstrap.rs, main.rs).
    - [Sample], [SampleNode], [Witnesses], [NodeWitnesses], [DaemonWitnesses],
      [SwaggerWitnesses], [BootstrapWitnesses]: concrete environments, the laws on
      them, and the properties that have hypotheses applied to concrete runs.

    ** The abstract specifications

    The state of a workload is its stored record, a value of
    [option Workload].  [install_step], [uninstall_step], [lock_step] and
    [update_step] (EngineWorkloads) list the sequences of calls one operation can make,
    from the first to the last, each with the error it returns and the record before
    and after it; the refinement theorems
    show that the detailed operations implement these steps, failures of the
    storage included, and leave every other record alone.  The job queue is a
    list: requests append one job to it, [boot] appends the active deployments it
    could queue,
    and the worker handles a prefix of it in order; with crashes it is an
    at-least-once queue ([attempts] and [served], EngineSystem): the removed jobs
    were each handled once or more in a row, in their order.  The code only logs a
    failed call of the storage or the queue in many places; a theorem whose conclusion
    such a failure would break asks that none occurs in the trace of the very run it
    speaks of ([storage_failed], [queue_failed], [dequeues_served]), and assumes nothing
    of other calls.  The file system of
    [UpgradeFiles] and the links of [UpdateWorker] are maps from paths; the old
    storage of [Migration] and the power state of [Power] are followed through
    the trace of calls.  For the pages, [conforms] (SwaggerParams) says which
    values satisfy a schema, [placed] where an error may point and [calm] which values
    bring no exception, [sh_read]
    (SwaggerCurl) how a POSIX shell splits a command into words, and [base64]
    (SwaggerBase64) is the encoding three bytes at a time.  A run of the bootstrap
    program is followed by an automaton ([mount_step], Bootstrap) that knows what is
    mounted and refuses what must not happen in that state; a failed unmount is
    remembered, and nothing is claimed from then on.

    ** What the theorems show

    - Workloads and deployments: the refinements above; a provision error is
      recorded and not returned; deployments are walked in the startup order, in
      reverse to uninstall; when a deployment is deleted.
    - Requests and jobs: what has to hold, and in which order it was asked, before a
      request writes anything; how many requests are sent; which job a request queues; what [validate] accepts; the worker handles the
      queue in order, each job once; what [boot] queues.
    - The engine as a system: whatever interleaves, no job is lost or overtaken, and
      without a crash or a failed removal each is handled once; over the map provisioner the record of a
      new workload is what its manager answered, a pause and a resume leave a
      workload as it was, but a resume asked for before the pause was handled does
      nothing.
    - Daemons: what happened before the provision daemon starts its engine and
      before it removes the old storage; what the power daemon has set up before the
      node can go down; which ids the node daemon serves; how the identity daemon
      ends; what was done before each of the other daemons serves its module, and when
      the virtual machine daemon removes its old configuration.
    - Console and tools: the table of services is complete whatever the order of the
      reports, no request for a rendering is lost, when an error is pushed; every log
      line is forwarded once, trimmed; which modules are asked for their status.
    - Order: WithStartupOrder is a permutation with the given types first;
      sortOperations puts removals first and is stable.
    - Contracts: [sync] deprovisions exactly the active contracts the chain does
      not list and pauses or resumes by the grace period; run over the engine and
      followed by the engine's worker it empties the queue when no queue call failed, deprovisions the
      workloads of those contracts and deletes their deployments; the consumption
      of a contract is the sum of its workloads; callbacks are reported in order.
    - Reports: one entry per contract with a nonzero total; the queue of reports
      is delivered in order and a report is removed only when accepted.
    - Registration, identity, keys: when a node is created or updated, what the
      published state is, that the identity survives a restart, that the key
      cache is sound.
    - Power: the node goes down only when the chain says so and never with power
      management disabled.
    - Upgrades: what an update may do before its gate is passed, the order of the
      downloads, what a finished install has copied and started, what a failing
      copy leaves behind.
    - Migration and releases: nothing is deleted that was not migrated; what the
      release links are after a round.
    - Internet: a node that reports success has wired its interface in the right
      order and reached the hub afterwards.
    - Bootstrap: an flist is mounted once, used while it is mounted and unmounted
      whatever fails but an unmount, the packages are installed in order, the working directory is
      always left and removed, and a working hub is chosen without a panic; the two
      retries without a limit are given a number of attempts, and more attempts do
      not change an answer ([retry_until_more]).
    - Pages: the check of a parameter answers no error exactly for the values that
      conform to the schema as the code reads it, its errors are well placed, and no
      exception leaves it but in the cases named; base64 decodes what it encoded and the code
      verifier has the length and characters of the standard; the bash command is
      read back as the arguments that were meant, and not when an argument that is
      left without quotes holds a separator; the query of the address is read back; a
      login with PKCE exchanges its code once, with the verifier it announced, no value
      in the authorization request can change another parameter, and a form that has a
      code keeps it for every later login.

    ** What is not modelled

    The command lines (of cmds/zos beyond the choice of the module, of the log
    forwarder and of tools/zos-update-worker) are read by libraries; in the main
    functions that are modelled a goroutine is the call that starts it and signals
    only end a context; what the console draws, its memory gauge and the numbers in its
    resource tables are left out; the zbus stubs of
    pkg/stubs are generated; the interfaces of pkg/*.go declare no behaviour; the
    packaging scripts under bins are other programs; of the vendored swagger
    bundles only the functions above are modelled, on ASCII strings and finite
    numbers, and neither their rendering nor their stores, but for the one of the
    logins. Everything imported
    from zosbase, zinit, zbus, rfs, the registrar client and the Go libraries is
    outside the repository. The method [Version] and the signal wrapper [safe] of
    the upgrader, and the log fields everywhere, are left out. *)

From stdpp Require Export base list strings gmap.
From Stdlib Require Export ZArith Lia.
From Stdlib Require Import Sorted Permutation.

(** ** Go error values

    [Sentinel] is a package-level error variable, compared by identity;
    [Fresh] is a value made by [fmt.Errorf] or [errors.New] at the point of
    use, identical to nothing else; [Wrapped] is what [errors.Wrap],
    [errors.Wrapf] and the [%w] verb build; [Response] is the [*response] type
    of pkg/provision/provisiner.go, a state with an optional cause. *)
Inductive error : Type :=
| Sentinel (id : string) (text : string)
| Fresh (text : string)
| Wrapped (text : string) (cause : error)
| Response (s : string) (e : option error).

Lemma error_dec (x y : error) : {x = y} + {x <> y}.
Proof.
  revert x y. fix go 1. intros x y.
  destruct x as [i t|t|t c|s e], y as [i' t'|t'|t' c'|s' e']; try (right; discriminate).
  - destruct (decide (i = i')) as [->|]; [|right; congruence].
    destruct (decide (t = t')) as [->|]; [left; reflexivity|right; congruence].
  - destruct (decide (t = t')) as [->|]; [left; reflexivity|right; congruence].
  - destruct (go c c') as [->|]; [|right; congruence].
    destruct (decide (t = t')) as [->|]; [left; reflexivity|right; congruence].
  - destruct (decide (s = s')) as [->|]; [|right; congruence].
    destruct e as [c|], e' as [c'|]; try (right; discriminate); [|left; reflexivity].
    destruct (go c c') as [->|]; [left; reflexivity|right; congruence].
Defined.
#[export] Instance error_eq_dec : EqDecision error := error_dec.

(** [err.Error()]. *)
Fixpoint error_string (e : error) : string :=
  match e with
  | Sentinel _ text => text
  | Fresh text => text
  | Wrapped text cause => text +:+ ": " +:+ error_string cause
  | Response _ (Some e) => error_string e
  | Response _ None => ""
  end.

(** [errors.Is(err, target)] for a package-level [target]: the identity is
    looked for along the chain of [Unwrap]. *)
Fixpoint errors_Is (e : error) (id : string) : bool :=
  match e with
  | Sentinel id' _ => bool_decide (id' = id)
  | Fresh _ => false
  | Wrapped _ cause => errors_Is cause id
  | Response _ (Some e) => errors_Is e id
  | Response _ None => false
  end.

(** [errors.As(err, &resp)] for [resp *response]: the first response of the
    chain, given by its state and cause. *)
Fixpoint errors_As_response (e : error) : option (string * option error) :=
  match e with
  | Sentinel _ _ | Fresh _ => None
  | Wrapped _ cause => errors_As_response cause
  | Response s e => Some (s, e)
  end.

(** [errors.Is] on an [error] interface value, which may be nil. *)
Definition is_err (e : option error) (id : string) : bool :=
  match e with Some e => errors_Is e id | None => false end.

(** [errors.Wrap(err, text)] on an interface value: nil stays nil. *)
Definition wrap (e : option error) (text : string) : option error :=
  Wrapped text <$> e.

(** The value of a call with results [(T, error)] whose value is only read when
    the error is nil. *)
Inductive res (A : Type) : Type :=
| Val (a : A)
| Err (e : error).
Arguments Val {A} _.
Arguments Err {A} _.

Definition res_err {A} (r : res A) : option error :=
  match r with Val _ => None | Err e => Some e end.

(** ** Programs with external calls

    A program of type [M S C A] runs on a state [S] of everything outside the
    modelled code (storage, managers, registrar, file system, clock), returns a
    value [A], and records the external calls it made, in order, as a list of
    [C]. External code enters as a function [S -> A * S]. *)
Definition M (S C A : Type) : Type := S -> (A * S) * list C.

Definition ret {S C A} (a : A) : M S C A := fun s => ((a, s), []).

Definition bind {S C A B} (m : M S C A) (k : A -> M S C B) : M S C B := fun s =>
  let '((a, s1), l1) := m s in
  let '((b, s2), l2) := k a s1 in
  ((b, s2), l1 ++ l2).

(** An external call: the effect [f], recorded as [c] of its answer. *)
Definition act {S C A} (f : S -> A * S) (c : A -> C) : M S C A := fun s =>
  let '(a, s') := f s in ((a, s'), [c a]).

(** An external call that is not recorded (a read of the clock). *)
Definition peek {S C A} (f : S -> A * S) : M S C A := fun s =>
  let '(a, s') := f s in ((a, s'), []).

Definition result {S C A} (m : M S C A) (s : S) : A := (m s).1.1.
Definition final {S C A} (m : M S C A) (s : S) : S := (m s).1.2.
Definition calls {S C A} (m : M S C A) (s : S) : list C := (m s).2.

Declare Scope go_scope.
Delimit Scope go_scope with go.
Open Scope go_scope.
Notation "x <- m ;; k" := (bind m (fun x => k))
  (at level 100, m at next level, right associativity) : go_scope.
Notation "' p <- m ;; k" := (bind m (fun x => match x with p => k end))
  (at level 100, p pattern, m at next level, right associativity) : go_scope.
Notation "m ;;; k" := (bind m (fun _ => k))
  (at level 100, k at level 200, right associativity) : go_scope.

(** [for _, x := range l { f x }], the results dropped. *)
Fixpoint for_each {S C A B} (f : A -> M S C B) (l : list A) : M S C unit :=
  match l with
  | [] => ret tt
  | x :: l => f x ;;; for_each f l
  end.

(** A [range] loop that stops with the first error a body returns. *)
Fixpoint for_err {S C A} (f : A -> M S C (option error)) (l : list A)
    : M S C (option error) :=
  match l with
  | [] => ret None
  | x :: l =>
      e <- f x ;;
      match e with
      | Some e => ret (Some e)
      | None => for_err f l
      end
  end.

(** A [range] loop that collects what the bodies produce. *)
Fixpoint for_collect {S C A B} (f : A -> M S C B) (l : list A) : M S C (list B) :=
  match l with
  | [] => ret []
  | x :: l => y <- f x ;; ys <- for_collect f l ;; ret (y :: ys)
  end.

(** A [range] loop that appends what the bodies produce and returns the first
    error. *)
Fixpoint append_err {S C A B} (f : A -> M S C (res (list B))) (l : list A)
    : M S C (res (list B)) :=
  match l with
  | [] => ret (Val [])
  | x :: l =>
      r <- f x ;;
      match r with
      | Err e => ret (Err e)
      | Val ys =>
          r' <- append_err f l ;;
          match r' with
          | Err e => ret (Err e)
          | Val zs => ret (Val (ys ++ zs))
          end
      end
  end.

(** [backoff.Retry(f, b)] with at most [max] retries: [f] runs until it returns
    nil, the retries are used up, or the policy [stop] (elapsed time) gives up;
    the last error is returned. *)
Fixpoint retry {S C} (stop : S -> bool * S) (max : nat) (f : M S C (option error))
    : M S C (option error) :=
  e <- f ;;
  match e with
  | None => ret None
  | Some e =>
      match max with
      | 0 => ret (Some e)
      | Datatypes.S max =>
          stopped <- peek stop ;;
          if (stopped : bool) then ret (Some e) else retry stop max f
      end
  end.

(** A program of a component run inside a program with more calls. *)
Definition embed {S C D A} (f : C -> D) (m : M S C A) : M S D A := fun s =>
  let '((a, s'), l) := m s in ((a, s'), map f l).

Section programs.
Context {S C : Type}.

Lemma result_ret {A} (a : A) (s : S) : result (ret (C:=C) a) s = a.
Proof. reflexivity. Qed.
Lemma final_ret {A} (a : A) (s : S) : final (ret (C:=C) a) s = s.
Proof. reflexivity. Qed.
Lemma calls_ret {A} (a : A) (s : S) : calls (ret (C:=C) a) s = [].
Proof. reflexivity. Qed.

Lemma result_bind {A B} (m : M S C A) (k : A -> M S C B) s :
  result (bind m k) s = result (k (result m s)) (final m s).
Proof.
  unfold result, final, bind. destruct (m s) as [[a s1] l1]. simpl.
  by destruct (k a s1) as [[b s2] l2].
Qed.
Lemma final_bind {A B} (m : M S C A) (k : A -> M S C B) s :
  final (bind m k) s = final (k (result m s)) (final m s).
Proof.
  unfold result, final, bind. destruct (m s) as [[a s1] l1]. simpl.
  by destruct (k a s1) as [[b s2] l2].
Qed.
Lemma calls_bind {A B} (m : M S C A) (k : A -> M S C B) s :
  calls (bind m k) s = calls m s ++ calls (k (result m s)) (final m s).
Proof.
  unfold result, final, calls, bind. destruct (m s) as [[a s1] l1]. simpl.
  by destruct (k a s1) as [[b s2] l2].
Qed.

Lemma result_act {A} (f : S -> A * S) (c : A -> C) s : result (act f c) s = (f s).1.
Proof. unfold result, act. by destruct (f s). Qed.
Lemma final_act {A} (f : S -> A * S) (c : A -> C) s : final (act f c) s = (f s).2.
Proof. unfold final, act. by destruct (f s). Qed.
Lemma calls_act {A} (f : S -> A * S) (c : A -> C) s : calls (act f c) s = [c (f s).1].
Proof. unfold calls, act. by destruct (f s). Qed.
Lemma result_peek {A} (f : S -> A * S) s : result (peek (C:=C) f) s = (f s).1.
Proof. unfold result, peek. by destruct (f s). Qed.
Lemma final_peek {A} (f : S -> A * S) s : final (peek (C:=C) f) s = (f s).2.
Proof. unfold final, peek. by destruct (f s). Qed.
Lemma calls_peek {A} (f : S -> A * S) s : calls (peek (C:=C) f) s = [].
Proof. unfold calls, peek. by destruct (f s). Qed.

Lemma result_embed {D A} (f : C -> D) (m : M S C A) s : result (embed f m) s = result m s.
Proof. unfold result, embed. by destruct (m s) as [[a s'] l]. Qed.
Lemma final_embed {D A} (f : C -> D) (m : M S C A) s : final (embed f m) s = final m s.
Proof. unfold final, embed. by destruct (m s) as [[a s'] l]. Qed.
Lemma calls_embed {D A} (f : C -> D) (m : M S C A) s : calls (embed f m) s = map f (calls m s).
Proof. unfold calls, embed. by destruct (m s) as [[a s'] l]. Qed.

(** Every external call of a program satisfies [P], whatever the state. *)
Definition all_calls {A} (P : C -> Prop) (m : M S C A) : Prop :=
  forall s, Forall P (calls m s).

Lemma all_calls_ret {A} P (a : A) : all_calls P (ret a).
Proof. intros s. constructor. Qed.
Lemma all_calls_bind {A B} P (m : M S C A) (k : A -> M S C B) :
  all_calls P m -> (forall a, all_calls P (k a)) -> all_calls P (bind m k).
Proof. intros Hm Hk s. rewrite calls_bind. apply Forall_app. by split; [apply Hm|apply Hk]. Qed.
Lemma all_calls_act {A} P (f : S -> A * S) (c : A -> C) :
  (forall a, P (c a)) -> all_calls P (act f c).
Proof. intros H s. rewrite calls_act. by constructor. Qed.
Lemma all_calls_peek {A} P (f : S -> A * S) : all_calls P (peek f).
Proof. intros s. rewrite calls_peek. constructor. Qed.
Lemma all_calls_for_each {A B} P (f : A -> M S C B) l :
  (forall x, x ∈ l -> all_calls P (f x)) -> all_calls P (for_each f l).
Proof.
  induction l as [|x l IH]; intros H; simpl; [apply all_calls_ret|].
  apply all_calls_bind; [apply H; left|intros _; apply IH; intros y Hy; apply H; by right].
Qed.

Lemma all_calls_for_err {A} P (f : A -> M S C (option error)) l :
  (forall x, x ∈ l -> all_calls P (f x)) -> all_calls P (for_err f l).
Proof.
  induction l as [|x l IH]; intros H; simpl; [apply all_calls_ret|].
  apply all_calls_bind; [apply H; left|intros [e|]; [apply all_calls_ret|]].
  apply IH. intros y Hy. apply H. by right.
Qed.

Lemma all_calls_append_err {A B} P (f : A -> M S C (res (list B))) l :
  (forall x, all_calls P (f x)) -> all_calls P (append_err f l).
Proof.
  intros H. induction l as [|x l IH]; simpl; [apply all_calls_ret|].
  apply all_calls_bind; [done|intros [ys|e]; [|apply all_calls_ret]].
  apply all_calls_bind; [done|intros []; apply all_calls_ret].
Qed.
Lemma all_calls_retry P (stop : S -> bool * S) n (f : M S C (option error)) :
  all_calls P f -> all_calls P (retry stop n f).
Proof.
  intros H. induction n as [|n IH]; simpl; (apply all_calls_bind; [done|]);
    intros [e|]; try apply all_calls_ret.
  apply all_calls_bind; [apply all_calls_peek|intros []; [apply all_calls_ret|done]].
Qed.

Lemma for_each_calls {A B} (f : A -> M S C B) l x s :
  x ∈ l -> exists s', forall c, c ∈ calls (f x) s' -> c ∈ calls (for_each f l) s.
Proof.
  intros Hx. revert s. induction Hx as [x l|x y l _ IH]; intros s; simpl; rewrite calls_bind.
  - exists s. intros c Hc. apply elem_of_app. by left.
  - destruct (IH (final (f y) s)) as [s' Hs']. exists s'. intros c Hc.
    apply elem_of_app. right. by apply Hs'.
Qed.
Lemma for_each_calls_inv {A B} (f : A -> M S C B) l c s :
  c ∈ calls (for_each f l) s ->
  exists x s', x ∈ l /\ c ∈ calls (f x) s' /\
    forall c', c' ∈ calls (f x) s' -> c' ∈ calls (for_each f l) s.
Proof.
  revert s. induction l as [|x l IH]; intros s; simpl; [by intros ?%elem_of_nil|].
  rewrite calls_bind, elem_of_app. intros [Hc|(y & s' & Hy & Hc & Hin)%IH].
  - exists x, s. split; [left|split; [done|]]. intros c'. rewrite elem_of_app. tauto.
  - exists y, s'. split; [by right|split; [done|]]. intros c' Hc'.
    rewrite elem_of_app. right. by apply Hin.
Qed.

(** A program moves the state along a preorder [R]. *)
Definition steps {A} (R : S -> S -> Prop) (m : M S C A) : Prop :=
  forall s, R s (final m s).

Lemma steps_ret {A} R `{!Reflexive R} (a : A) : steps R (ret a).
Proof. by intros s. Qed.
Lemma steps_bind {A B} R `{!Transitive R} (m : M S C A) (k : A -> M S C B) :
  steps R m -> (forall a, steps R (k a)) -> steps R (bind m k).
Proof. intros Hm Hk s. rewrite final_bind. etrans; [apply Hm|apply Hk]. Qed.
Lemma steps_act {A} (R : S -> S -> Prop) (f : S -> A * S) (c : A -> C) :
  (forall s, R s (f s).2) -> steps R (act f c).
Proof. intros H s. rewrite final_act. apply H. Qed.
Lemma steps_peek {A} (R : S -> S -> Prop) (f : S -> A * S) :
  (forall s, R s (f s).2) -> steps R (peek f).
Proof. intros H s. rewrite final_peek. apply H. Qed.
Lemma steps_for_each {A B} R `{!Reflexive R, !Transitive R} (f : A -> M S C B) l :
  (forall x, x ∈ l -> steps R (f x)) -> steps R (for_each f l).
Proof.
  induction l as [|x l IH]; intros H; simpl; [by apply steps_ret|].
  apply steps_bind; [done| |intros _; apply IH; intros y Hy]; apply H; set_solver.
Qed.
End programs.

(** A retried call: [k] failures, then a success or, with the retries used up,
    one more failure. *)
Lemma retry_calls_act {S C} (n : nat) (f : S -> option error * S) (c : option error -> C) s :
  let m := retry (fun s => (false, s)) n (act f c) in
  exists errs last, calls m s = map (fun e => c (Some e)) errs ++ [c last] /\
    result m s = last /\
    match last with None => length errs <= n | Some _ => length errs = n end.
Proof.
  revert s. induction n as [|n IH]; intros s; simpl;
    rewrite result_bind, calls_bind, calls_act, result_act, final_act;
    destruct (f s).1 as [e|].
  - exists [], (Some e). done.
  - exists [], None. done.
  - rewrite result_bind, calls_bind, calls_peek, result_peek, final_peek. simpl.
    destruct (IH (f s).2) as (errs & last & -> & -> & Hl).
    exists (e :: errs), last. split; [done|]. split; [done|].
    destruct last; simpl; lia.
  - exists [], None. simpl. split; [done|]. split; [done|lia].
Qed.

(** A retry that succeeded ends with an attempt that did. *)
Lemma retry_last {S C} (stop : S -> bool * S) n (f : M S C (option error)) : forall s,
  result (retry stop n f) s = None ->
  exists pre s', calls (retry stop n f) s = pre ++ calls f s' /\ result f s' = None.
Proof.
  assert (forall s, result f s = None ->
    exists pre s', calls f s ++ [] = pre ++ calls f s' /\ result f s' = None) as Hdone.
  { intros s Hr. exists [], s. by rewrite app_nil_r. }
  induction n as [|n IH]; intros s; simpl; rewrite result_bind, calls_bind;
    destruct (result f s) as [e|] eqn:Hr; rewrite ?result_ret, ?calls_ret; try done; auto.
  rewrite result_bind, calls_bind, result_peek, final_peek, calls_peek.
  destruct (stop (final f s)).1; [done|]. intros (pre & s' & Hc & Hs')%IH.
  exists (calls f s ++ pre), s'. simpl. by rewrite Hc, app_assoc.
Qed.

Create HintDb run discriminated.
#[export] Hint Rewrite @result_ret @final_ret @calls_ret @result_bind @final_bind @calls_bind
  @result_act @final_act @calls_act @result_peek @final_peek @calls_peek
  @result_embed @final_embed @calls_embed : run.

(** Push [result], [final] and [calls] through the structure of a program. *)
Ltac run := autorewrite with run; simpl.
Tactic Notation "run" "in" hyp(H) := autorewrite with run in H; simpl in H.
Ltac run_all := repeat (progress (autorewrite with run in *; simpl in *)).

(** Case split on the scrutinee of a [match] of the goal or a hypothesis. *)
Ltac case_goal :=
  match goal with |- context [match ?x with _ => _ end] => destruct x eqn:? end.
Ltac case_any :=
  match goal with
  | |- context [match ?x with _ => _ end] => destruct x eqn:?
  | H : context [match ?x with _ => _ end] |- _ => destruct x eqn:?
  end.

(** Decide a property of every call of a program, by the lemmas of [calls] and
    its structure. *)
Create HintDb calls discriminated.
Ltac every_call :=
  repeat first
    [ solve [eauto 3 with calls nocore] | apply all_calls_ret | apply all_calls_for_each; intros | apply all_calls_for_err; intros
    | apply all_calls_append_err; intros | apply all_calls_retry
    | apply all_calls_bind; [|intros]
    | apply all_calls_act; intros; first [exact I | reflexivity | solve [auto] | solve [repeat split]]
    | apply all_calls_peek
    | match goal with |- all_calls _ (match ?x with _ => _ end) => destruct x end
    | progress simpl ].

Create HintDb go discriminated.
#[export] Hint Resolve all_calls_ret all_calls_bind all_calls_peek : go.

(** ** Lists *)
Lemma filter_none {A} (p : A -> bool) (l : list A) :
  Forall (fun x => p x = false) l -> filter p l = [].
Proof.
  induction 1 as [|x l Hx _ IH]; [done|].
  rewrite filter_cons_False; [done|]. rewrite Hx. simpl. tauto.
Qed.

Definition sum_Z (l : list Z) : Z := foldr Z.add 0%Z l.
Lemma sum_Z_app l k : sum_Z (l ++ k) = (sum_Z l + sum_Z k)%Z.
Proof. induction l as [|x l IH]; simpl; [done|]. rewrite IH. lia. Qed.
#[export] Instance sum_Z_perm : Proper (Permutation ==> eq) sum_Z.
Proof. intros l k Hp. induction Hp; simpl; lia. Qed.

(** ** [range] over a map: every entry once, in an order the language leaves open *)
Class RangeMap := range_map : forall (K A : Type) (eqK : EqDecision K) (cK : Countable K),
  gmap K A -> list (K * A).
Arguments range_map {_ K A _ _} _.
Class RangeMapLaws `{!RangeMap} : Prop :=
  range_map_perm : forall (K A : Type) (eqK : EqDecision K) (cK : Countable K) (m : gmap K A),
    range_map m ≡ₚ map_to_list m.
Definition map_to_list_range : RangeMap := fun K A _ _ m => map_to_list m.
Lemma map_to_list_range_laws : @RangeMapLaws map_to_list_range.
Proof. intros K A eqK cK m. reflexivity. Qed.

(** ** Machine integers *)
Definition uint32 (x : Z) : Z := (x mod 2 ^ 32)%Z.
Definition uint64 (x : Z) : Z := (x mod 2 ^ 64)%Z.

Definition int64 (x : Z) : Z := ((x + 2 ^ 63) mod 2 ^ 64 - 2 ^ 63)%Z.

Lemma uint64_range x : (0 <= uint64 x < 2 ^ 64)%Z.
Proof. apply Z.mod_pos_bound. lia. Qed.
Lemma uint32_range x : (0 <= uint32 x < 2 ^ 32)%Z.
Proof. apply Z.mod_pos_bound. lia. Qed.
Lemma uint64_small x : (0 <= x < 2 ^ 64)%Z -> uint64 x = x.
Proof. apply Z.mod_small. Qed.
Lemma uint32_small x : (0 <= x < 2 ^ 32)%Z -> uint32 x = x.
Proof. apply Z.mod_small. Qed.
Lemma int64_small x : (- 2 ^ 63 <= x < 2 ^ 63)%Z -> int64 x = x.
Proof. intros Hx. unfold int64. rewrite Z.mod_small; lia. Qed.
Lemma uint64_add_l x y : uint64 (uint64 x + y) = uint64 (x + y).
Proof. unfold uint64. by rewrite Z.add_mod_idemp_l. Qed.

(** ** [encoding/hex]: bytes are the characters of a string *)
Definition hex_digit (n : N) : Ascii.ascii :=
  Ascii.ascii_of_N (if (n <? 10)%N then 48 + n else 87 + n)%N.

Fixpoint hex_EncodeToString (s : string) : string :=
  match s with
  | EmptyString => EmptyString
  | String c s =>
      let n := Ascii.N_of_ascii c in
      String (hex_digit (n / 16)) (String (hex_digit (n mod 16)) (hex_EncodeToString s))
  end.

Example hex_ff0a : hex_EncodeToString (String (Ascii.ascii_of_N 255) (String (Ascii.ascii_of_N 10) "")) = "ff0a".
Proof. reflexivity. Qed.
