(* ===== verification/GridTypes.v ===== *)
(** * Data shared by the provision components

    The structs of zosbase's gridtypes and provision packages, with the fields
    the modelled code reads or builds (they are declared outside this
    repository), and the interface [GridTypes] of the functions on them that
    the code calls.  [GridTypesLaws] states what the code relies on.  The second
    part is the context of a provision operation, from pkg/provision/engine.go. *)

From S2P Require Import Prelude.

(** [gridtypes.Result], built field by field in pkg/provision. *)
Record Result := MkResult {
  Created : Z;
  State : string;
  Error : string;
  Data : string }.

(** The zero value of [gridtypes.Result]. *)
Definition zero_result : Result := MkResult 0 "" "" "".

Record Workload := MkWorkload {
  Name : string;
  Type_ : string;
  WData : string;
  WResult : Result }.

(** [gridtypes.WorkloadWithID]: a workload and its global id. *)
Record WorkloadWithID := MkWorkloadWithID {
  wl_of : Workload;
  ID : string }.

Record Deployment := MkDeployment {
  Version : Z;
  TwinID : Z;
  ContractID : Z;
  Metadata : string;
  Description : string;
  SignatureRequirement : string;
  Workloads : list Workload }.

(** [gridtypes.JobOperation] and [gridtypes.UpgradeOp]. *)
Inductive JobOperation := OpRemove | OpAdd | OpUpdate.
Record UpgradeOp := MkUpgradeOp { WlID : WorkloadWithID; Op : JobOperation }.

(** [provision.Field]: what [Storage.Update] changes. *)
Inductive Field :=
| VersionField (v : Z)
| SignatureRequirementField (s : string)
| DescriptionField (s : string)
| MetadataField (s : string).

(** [gridtypes.Capacity]; each unit is a uint64. *)
Record Capacity := MkCapacity { CRU : Z; SRU : Z; HRU : Z; MRU : Z; IPV4U : Z }.
Definition zero_capacity : Capacity := MkCapacity 0 0 0 0 0.

(** The dynamic types [WorkloadData] is switched on. *)
Inductive WorkloadData :=
| DZMount (size : Z)
| DVolume (size : Z)
| DZMachine (interfaces : list (string * string))
| DOther.

#[export] Instance result_eq_dec : EqDecision Result.
Proof. solve_decision. Defined.
#[export] Instance workload_eq_dec : EqDecision Workload.
Proof. solve_decision. Defined.
#[export] Instance workload_with_id_eq_dec : EqDecision WorkloadWithID.
Proof. solve_decision. Defined.
#[export] Instance deployment_eq_dec : EqDecision Deployment.
Proof. solve_decision. Defined.

(** The functions of zosbase the code calls on this data. *)
Class GridTypes := {
  (* gridtypes.ResultState *)
  StateOk : string;
  StateError : string;
  StateDeleted : string;
  StateUnChanged : string;
  StatePaused : string;
  IsOkay : string -> bool;
  IsAny : string -> list string -> bool;
  (* the texts of the error variables of zosbase's provision package *)
  ErrText : string -> string;
  (* gridtypes.WorkloadType *)
  Types : list string;
  ZMountType : string;
  VolumeType : string;
  NetworkType : string;
  PublicIPv4Type : string;
  PublicIPType : string;
  ZMachineType : string;
  (* gridtypes.Workload and gridtypes.WorkloadID *)
  WithResults : Workload -> Result -> Workload;
  Parts : string -> (Z * Z * string) * option error;
  NewWorkloadID : Z -> Z -> string -> res string;
  NewUncheckedWorkloadID : Z -> Z -> string -> string;
  WorkloadData_ : Workload -> res WorkloadData;
  WCapacity : Workload -> res Capacity;
  CapacityAdd : Capacity -> Capacity -> Capacity;
  UnmarshalPublicIP : Result -> res (option string);
  (* gridtypes.Deployment *)
  ByType : Deployment -> list string -> list WorkloadWithID;
  IsActive : Deployment -> bool;
  Upgrade : Deployment -> Deployment -> res (list UpgradeOp);
  Valid : Deployment -> option error;
  ChallengeHash : Deployment -> res string (* the bytes of the hash *) }.

(** What the code relies on of these functions: the states are different
    constants, [IsAny] is membership, a workload's results can be replaced
    without touching the rest, the capacity counters are uint64 sums, and the
    workloads [ByType] selects have the type asked for. *)
Class GridTypesLaws `{!GridTypes} : Prop := {
  states_NoDup : NoDup [StateOk; StateError; StateDeleted; StateUnChanged; StatePaused];
  IsAny_spec st l : IsAny st l = true <-> st ∈ l;
  IsOkay_StateOk : IsOkay StateOk = true;
  IsOkay_StatePaused : IsOkay StatePaused = true;
  IsOkay_StateError : IsOkay StateError = false;
  IsOkay_StateDeleted : IsOkay StateDeleted = false;
  WithResults_result w r : WResult (WithResults w r) = r;
  WithResults_name w r : Name (WithResults w r) = Name w;
  WithResults_type w r : Type_ (WithResults w r) = Type_ w;
  CapacityAdd_spec a b : CapacityAdd a b = MkCapacity
    (uint64 (CRU a + CRU b)) (uint64 (SRU a + SRU b)) (uint64 (HRU a + HRU b))
    (uint64 (MRU a + MRU b)) (uint64 (IPV4U a + IPV4U b));
  ByType_type d typs w : w ∈ ByType d typs -> Type_ (wl_of w) ∈ typs }.

(** Sentinel errors of zosbase's provision package. *)
Definition ErrWorkloadNotExist_id : string := "provision.ErrWorkloadNotExist".
Definition ErrDeploymentNotExists_id : string := "provision.ErrDeploymentNotExists".
Definition ErrNoActionNeeded_id : string := "provision.ErrNoActionNeeded".
Definition ErrInvalidVersion_id : string := "provision.ErrInvalidVersion".
Definition ErrDeploymentUpgradeValidationError_id : string :=
  "provision.ErrDeploymentUpgradeValidationError".

(** ** The context of a provision operation

    [context.Context] as the engine uses it: the values stored under
    [engineKey], [deploymentKey], [contractKey] and [rentKey]. *)
Record NodeContract := MkNodeContract { nc_Node : Z; nc_DeploymentHash : string }.

Record Ctx := MkCtx {
  ctx_engine : bool;
  ctx_deployment : option (Z * Z);
  ctx_contract : option NodeContract;
  ctx_rented : option bool }.

Definition Background : Ctx := MkCtx false None None None.

Definition withEngine (c : Ctx) : Ctx :=
  MkCtx true (ctx_deployment c) (ctx_contract c) (ctx_rented c).

Definition withDeployment (c : Ctx) (twin deployment : Z) : Ctx :=
  MkCtx (ctx_engine c) (Some (twin, deployment)) (ctx_contract c) (ctx_rented c).

Definition withContract (c : Ctx) (contract : NodeContract) : Ctx :=
  MkCtx (ctx_engine c) (ctx_deployment c) (Some contract) (ctx_rented c).

Definition withRented (c : Ctx) (rent : bool) : Ctx :=
  MkCtx (ctx_engine c) (ctx_deployment c) (ctx_contract c) (Some rent).

(** The type assertions of these getters panic on a context without the value:
    [None] is the panic. *)
Definition GetDeploymentID (c : Ctx) : option (Z * Z) := ctx_deployment c.

Definition GetContract (c : Ctx) : option NodeContract := ctx_contract c.

Definition IsRentedNode (c : Ctx) : bool :=
  match ctx_rented c with
  | None => false
  | Some b => b
  end.

Section laws.
Context `{!GridTypes, !GridTypesLaws}.

Lemma IsAny_true st l : st ∈ l -> IsAny st l = true.
Proof. apply IsAny_spec. Qed.
Lemma IsAny_false st l : st ∉ l -> IsAny st l = false.
Proof. intros Hn. destruct (IsAny st l) eqn:E; [|done]. by apply IsAny_spec in E. Qed.

Local Ltac states_differ :=
  let H := fresh in pose proof states_NoDup as H; rewrite !NoDup_cons in H; set_solver.

Lemma Ok_ne_Error : StateOk <> StateError.
Proof. states_differ. Qed.
Lemma Ok_ne_Deleted : StateOk <> StateDeleted.
Proof. states_differ. Qed.
Lemma Ok_ne_Paused : StateOk <> StatePaused.
Proof. states_differ. Qed.
Lemma Error_ne_Deleted : StateError <> StateDeleted.
Proof. states_differ. Qed.
Lemma Error_ne_Paused : StateError <> StatePaused.
Proof. states_differ. Qed.
Lemma IsOkay_ne_Error st : IsOkay st = true -> st <> StateError.
Proof. intros Hs ->. by rewrite IsOkay_StateError in Hs. Qed.
End laws.

#[export] Hint Resolve Ok_ne_Error Ok_ne_Deleted Ok_ne_Paused Error_ne_Deleted
  Error_ne_Paused : go.
#[export] Hint Rewrite @WithResults_result @WithResults_name @WithResults_type
  using typeclasses eauto : run.
