(* ===== verification/Provisioner.v ===== *)
(** * The map provisioner (pkg/provision/provisiner.go)

    The provisioner dispatches a workload to the manager of its type and turns
    what the manager returns into the workload's result.  Managers are
    parameters: a record of the two mandatory methods and the optional
    interfaces a type assertion asks for. *)

From S2P Require Import Prelude GridTypes.

(** ** Responses *)

Section responses.
Context `{!GridTypes}.

Definition Ok : error := Response StateOk None.
Definition UnChanged (cause : error) : error := Response StateUnChanged (Some cause).
Definition Paused : error := Response StatePaused (Some (Fresh "paused")).

(** The methods [Error], [Unwrap], [state] and [err] of [*response]. *)
Definition response_err (r : string * option error) : option error := r.2.
Definition response_state (r : string * option error) : string := r.1.
Definition response_Error (r : string * option error) : string :=
  match response_err r with
  | Some err => error_string err
  | None => ""
  end.
Definition response_Unwrap (r : string * option error) : option error := r.2.
End responses.

(** ** Managers *)

Inductive mcall :=
| MInitialize (typ : string)
| MProvision (w : WorkloadWithID)
| MDeprovision (w : WorkloadWithID)
| MUpdate (w : WorkloadWithID)
| MPause (w : WorkloadWithID)
| MResume (w : WorkloadWithID).

(** A [Manager] with its optional [Initializer], [Updater] and [Pauser]. [V] is
    [interface{}], the data a manager returns. *)
Record Manager (S V : Type) := MkManager {
  mgProvision : Ctx -> WorkloadWithID -> S -> (V * option error) * S;
  mgDeprovision : Ctx -> WorkloadWithID -> S -> option error * S;
  mgInitialize : option (Ctx -> S -> option error * S);
  mgUpdate : option (Ctx -> WorkloadWithID -> S -> (V * option error) * S);
  mgPauser : option ((Ctx -> WorkloadWithID -> S -> option error * S) *
                     (Ctx -> WorkloadWithID -> S -> option error * S)) }.
Arguments mgProvision {S V} _.
Arguments mgDeprovision {S V} _.
Arguments mgInitialize {S V} _.
Arguments mgUpdate {S V} _.
Arguments mgPauser {S V} _.

Section provisioner.
Context `{!GridTypes} {S V : Type}.
(** [gridtypes.Now], [json.Marshal], and the order in which a [range] over the
    managers visits them. *)
Variable now : S -> Z * S.
Variable json_marshal : V -> res string.
Variable range_order : gmap string (Manager S V) -> list (string * Manager S V).
Variable managers : gmap string (Manager S V).

Definition unknown_type (w : WorkloadWithID) : error :=
  Fresh ("unknown workload type '" +:+ Type_ (wl_of w) +:+ "' for reservation id '"
         +:+ ID w +:+ "'").

Definition setState (result : Result) (err : option error) : M S mcall Result :=
  created <- peek now ;;
  let '(state, str) :=
    match err with
    | None => (StateOk, "")
    | Some err =>
        let str := error_string err in
        match errors_As_response err with
        | Some resp => (response_state resp, str)
        | None => (StateError, str)
        end
    end in
  ret (MkResult created state str (Data result)).

Definition buildResult (data : V) (err : option error) : M S mcall (Result * option error) :=
  result <- setState zero_result err ;;
  match json_marshal data with
  | Err err => ret (result, Some (Wrapped "failed to encode result" err))
  | Val br => ret (MkResult (Created result) (State result) (Error result) br, None)
  end.

Definition Initialize (ctx : Ctx) : M S mcall (option error) :=
  for_err (fun '(typ, mgr) =>
    match mgInitialize mgr with
    | None => ret None
    | Some init =>
        err <- act (init ctx) (fun _ => MInitialize typ) ;;
        match err with
        | Some err => ret (Some (Wrapped
            ("failed to run initializers for workload type '" +:+ typ +:+ "'") err))
        | None => ret None
        end
    end) (range_order managers).

Definition Provision (ctx : Ctx) (wl : WorkloadWithID) : M S mcall (Result * option error) :=
  match managers !! Type_ (wl_of wl) with
  | None => ret (zero_result, Some (unknown_type wl))
  | Some manager =>
      '(data, err) <- act (mgProvision manager ctx wl) (fun _ => MProvision wl) ;;
      if is_err err ErrNoActionNeeded_id then ret (zero_result, err)
      else buildResult data err
  end.

Definition Deprovision (ctx : Ctx) (wl : WorkloadWithID) : M S mcall (option error) :=
  match managers !! Type_ (wl_of wl) with
  | None => ret (Some (unknown_type wl))
  | Some manager => act (mgDeprovision manager ctx wl) (fun _ => MDeprovision wl)
  end.

Definition Pause (ctx : Ctx) (wl : WorkloadWithID) : M S mcall (Result * option error) :=
  if negb (bool_decide (State (WResult (wl_of wl)) = StateOk))
  then ret (WResult (wl_of wl), Some (Fresh "can only pause workloads in ok state"))
  else
    match managers !! Type_ (wl_of wl) with
    | None => ret (WResult (wl_of wl), Some (unknown_type wl))
    | Some manager =>
        err <- (match mgPauser manager with
                | Some (pause, _) => act (pause ctx wl) (fun _ => MPause wl)
                | None => ret (Some Paused)
                end) ;;
        result <- setState (WResult (wl_of wl)) err ;;
        ret (result, None)
    end.

Definition Resume (ctx : Ctx) (wl : WorkloadWithID) : M S mcall (Result * option error) :=
  if negb (bool_decide (State (WResult (wl_of wl)) = StatePaused))
  then ret (WResult (wl_of wl), Some (Fresh "can only resume workloads in paused state"))
  else
    match managers !! Type_ (wl_of wl) with
    | None => ret (WResult (wl_of wl), Some (unknown_type wl))
    | Some manager =>
        err <- (match mgPauser manager with
                | Some (_, resume) => act (resume ctx wl) (fun _ => MResume wl)
                | None => ret (Some Ok)
                end) ;;
        result <- setState (WResult (wl_of wl)) err ;;
        ret (result, None)
    end.

Definition Update (ctx : Ctx) (wl : WorkloadWithID) : M S mcall (Result * option error) :=
  match managers !! Type_ (wl_of wl) with
  | None => ret (zero_result, Some (unknown_type wl))
  | Some manager =>
      match mgUpdate manager with
      | None => ret (zero_result, Some (Fresh
          ("workload type '" +:+ Type_ (wl_of wl) +:+ "' does not support updating")))
      | Some update =>
          '(data, err) <- act (update ctx wl) (fun _ => MUpdate wl) ;;
          if is_err err ErrNoActionNeeded_id then ret (zero_result, err)
          else buildResult data err
      end
  end.

Definition CanUpdate (ctx : Ctx) (typ : string) : bool :=
  match managers !! typ with
  | None => false
  | Some manager => match mgUpdate manager with Some _ => true | None => false end
  end.
End provisioner.

(** ** Results and dispatch *)

(** [errors.Wrap] applied once for each text of [ts], the outermost first. *)
Definition wraps (ts : list string) (err : error) : error := foldr Wrapped err ts.

Lemma errors_As_wraps ts err : errors_As_response (wraps ts err) = errors_As_response err.
Proof. by induction ts. Qed.
Lemma errors_Is_wraps ts err id : errors_Is (wraps ts err) id = errors_Is err id.
Proof. by induction ts. Qed.
Lemma error_string_wraps ts err :
  error_string (wraps ts err) = foldr (fun t str => t +:+ ": " +:+ str) (error_string err) ts.
Proof. induction ts as [|t ts IH]; simpl; [done|]. by rewrite IH. Qed.

Section theorems.
Context `{!GridTypes, !GridTypesLaws} {S V : Type}.
Variable now : S -> Z * S.
Variable json_marshal : V -> res string.
Variable managers : gmap string (Manager S V).

(** The state a manager's error stands for. *)
Definition state_of (err : option error) : string :=
  match err with
  | None => StateOk
  | Some err => match errors_As_response err with
                | Some (st, _) => st
                | None => StateError
                end
  end.
Definition text_of (err : option error) : string :=
  match err with None => "" | Some err => error_string err end.

Lemma setState_result r err s :
  result (setState now r err) s =
  MkResult (now s).1 (state_of err) (text_of err) (Data r).
Proof.
  unfold setState. run. destruct err as [err|]; simpl; [|by run].
  by destruct (errors_As_response err) as [[st c]|]; run.
Qed.
Lemma setState_calls r err s : calls (setState now r err) s = [].
Proof.
  unfold setState. run. destruct err as [err|]; simpl; [|by run].
  by destruct (errors_As_response err) as [[st c]|]; run.
Qed.

(** The state recorded for an error is the one its cause asks for, however the error was
    wrapped, and error otherwise; without an error it is ok. *)
Theorem setState_wrapped r ts st cause text s :
  let res err := result (setState now r (Some (wraps ts err))) s in
  State (res (Response st cause)) = st /\
  State (res (Fresh text)) = StateError /\
  Error (res (Fresh text)) = foldr (fun t str => t +:+ ": " +:+ str) text ts /\
  Data (res (Response st cause)) = Data r /\
  State (result (setState now r None) s) = StateOk.
Proof.
  intros res. subst res. rewrite !setState_result. simpl.
  by rewrite !errors_As_wraps, error_string_wraps.
Qed.

(** What [Provision] and [Update] make of a manager's answer. *)
Definition recorded (answer : V * option error) (r : Result * option error) : Prop :=
  let '(data, err) := answer in
  if is_err err ErrNoActionNeeded_id then r = (zero_result, err)
  else State r.1 = state_of err /\ Error r.1 = text_of err /\
    match json_marshal data with
    | Val br => r.2 = None /\ Data r.1 = br
    | Err jerr => is_Some r.2 /\ Data r.1 = ""
    end.

Lemma buildResult_recorded data err s :
  is_err err ErrNoActionNeeded_id = false ->
  recorded (data, err) (result (buildResult now json_marshal data err) s) /\
  calls (buildResult now json_marshal data err) s = [].
Proof.
  intros Hn. unfold recorded, buildResult. rewrite Hn. run.
  rewrite setState_result, setState_calls.
  destruct (json_marshal data); run; by eauto 10.
Qed.

(** [Provision] calls exactly the manager registered for the type of the workload and
    records its answer as a result, and for a type without a manager it answers an error and
    calls nothing. *)
Theorem Provision_dispatch ctx wl s :
  let m := Provision now json_marshal managers ctx wl in
  match managers !! Type_ (wl_of wl) with
  | None => calls m s = [] /\ is_Some (result m s).2 /\ final m s = s
  | Some mgr => calls m s = [MProvision wl] /\
      recorded (mgProvision mgr ctx wl s).1 (result m s)
  end.
Proof.
  intros m. subst m. unfold Provision.
  destruct (managers !! _) as [mgr|]; [|run; by eauto].
  rewrite calls_bind, result_bind, calls_act, result_act.
  destruct (mgProvision mgr ctx wl s).1 as [data err].
  destruct (is_err err _) eqn:Hn.
  - run. unfold recorded. by rewrite Hn.
  - destruct (buildResult_recorded data err
      (final (act (mgProvision mgr ctx wl) (fun _ => MProvision wl)) s) Hn) as [Hr Hc].
    by rewrite Hc.
Qed.

(** [Update] calls the manager of the type when it can update, and otherwise answers an
    error and calls nothing. *)
Theorem Update_dispatch ctx wl s :
  let m := Update now json_marshal managers ctx wl in
  if CanUpdate managers ctx (Type_ (wl_of wl))
  then exists mgr update, managers !! Type_ (wl_of wl) = Some mgr /\
         mgUpdate mgr = Some update /\ calls m s = [MUpdate wl] /\
         recorded (update ctx wl s).1 (result m s)
  else calls m s = [] /\ (result m s).1 = zero_result /\ is_Some (result m s).2 /\ final m s = s.
Proof.
  intros m. subst m. unfold Update, CanUpdate.
  destruct (managers !! _) as [mgr|]; [|run; by eauto].
  destruct (mgUpdate mgr) as [update|] eqn:Hu; [|run; by eauto].
  exists mgr, update. split; [done|]. split; [done|].
  rewrite calls_bind, result_bind, calls_act, result_act.
  destruct (update ctx wl s).1 as [data err].
  destruct (is_err err _) eqn:Hn.
  - run. unfold recorded. by rewrite Hn.
  - destruct (buildResult_recorded data err
      (final (act (update ctx wl) (fun _ => MUpdate wl)) s) Hn) as [Hr Hc].
    by rewrite Hc.
Qed.

(** [Pause] acts on a workload that is ok and of a known type and refuses any other; the new
    state is the pauser's, or paused without one. *)
Theorem Pause_spec ctx wl s :
  let m := Pause now managers ctx wl in
  let old := WResult (wl_of wl) in
  match managers !! Type_ (wl_of wl) with
  | Some mgr =>
      if decide (State old = StateOk) then
        let err := match mgPauser mgr with
                   | Some (pause, _) => (pause ctx wl s).1
                   | None => Some Paused end in
        (result m s).2 = None /\ Data (result m s).1 = Data old /\
        State (result m s).1 = state_of err /\
        calls m s = (if mgPauser mgr then [MPause wl] else [])
      else (result m s).1 = old /\ is_Some (result m s).2 /\ calls m s = [] /\ final m s = s
  | None => (result m s).1 = old /\ is_Some (result m s).2 /\ calls m s = [] /\ final m s = s
  end.
Proof.
  intros m old. subst m. unfold Pause. fold old.
  destruct (decide (State old = StateOk)) as [Hs|Hs].
  - rewrite bool_decide_eq_true_2 by done. simpl.
    destruct (managers !! _) as [mgr|]; [|run; by eauto].
    destruct (mgPauser mgr) as [[pause resume]|]; run.
    all: rewrite setState_result, setState_calls; by run.
  - rewrite bool_decide_eq_false_2 by done. simpl.
    destruct (managers !! _) as [mgr|]; run; by eauto.
Qed.

(** For a manager without a pauser, pausing a workload that is ok marks it paused and
    resuming that one marks it ok again with the same data and no error, while resuming a
    workload that is ok and pausing one that is paused are refused. *)
Theorem Pause_Resume_roundtrip ctx wl mgr s :
  managers !! Type_ (wl_of wl) = Some mgr -> mgPauser mgr = None ->
  State (WResult (wl_of wl)) = StateOk ->
  let paused := result (Pause now managers ctx wl) s in
  let wl' := MkWorkloadWithID (WithResults (wl_of wl) paused.1) (ID wl) in
  let resumed := result (Resume now managers ctx wl') s in
  State paused.1 = StatePaused /\ paused.2 = None /\
  (result (Resume now managers ctx wl) s).2 <> None /\
  (result (Pause now managers ctx wl') s).2 <> None /\
  resumed.2 = None /\ State resumed.1 = StateOk /\ Error resumed.1 = "" /\
  Data resumed.1 = Data (WResult (wl_of wl)).
Proof.
  intros Hm Hp Hs paused.
  assert (Hpaused : paused = (MkResult (now s).1 StatePaused "paused" (Data (WResult (wl_of wl))), None)).
  { subst paused. unfold Pause. rewrite bool_decide_eq_true_2, Hm, Hp by done. simpl.
    run. by rewrite setState_result. }
  rewrite Hpaused. simpl. split; [done|]. split; [done|].
  unfold Resume, Pause. simpl. rewrite WithResults_result, WithResults_type, Hm, Hp, Hs. simpl.
  rewrite (bool_decide_eq_false_2 (StateOk = StatePaused)) by eauto with go.
  rewrite (bool_decide_eq_false_2 (StatePaused = StateOk)) by (intros Heq; by destruct Ok_ne_Paused).
  rewrite (bool_decide_eq_true_2 (StatePaused = StatePaused)) by done. simpl. run.
  rewrite setState_result. simpl. done.
Qed.

(** The managers a [range] visits that have an initializer. *)
Definition initializers (l : list (string * Manager S V)) : list mcall :=
  omap (fun '(typ, mgr) => match mgInitialize mgr with
                           | Some _ => Some (MInitialize typ) | None => None end) l.

(** [Initialize] calls the initializers in the order of the managers, and stops at the first
    error. *)
Theorem Initialize_spec range_order ctx s :
  let m := Initialize range_order managers ctx in
  let l := initializers (range_order managers) in
  if result m s then exists rest, l = calls m s ++ rest /\ calls m s <> []
  else calls m s = l.
Proof.
  simpl. unfold Initialize. generalize (range_order managers). intros l. revert s.
  induction l as [|[typ mgr] l IH]; intros s; simpl; [by run|].
  destruct (mgInitialize mgr) as [init|] eqn:Hi; run; [|apply IH].
  destruct (init ctx s).1 as [err|] eqn:Ei; run.
  - by eexists.
  - specialize (IH (init ctx s).2). destruct (result _ _) as [err|].
    + destruct IH as (rest & Hr & Hne). exists rest. simpl. by rewrite Hr.
    + by rewrite IH.
Qed.
End theorems.
