(* ===== verification/Sorting.v ===== *)
(** * Go's sort.Slice and sort.SliceStable

    [slice_stable] computes the result of [sort.SliceStable], which is fixed by
    its documentation when the comparison is the order of a key.  [sort.Slice]
    leaves the order of equal elements open, so it is an interface [SortSlice]
    with the documented law; [slice_stable] is one instance. *)

From S2P Require Import Prelude.
From Stdlib Require Import Sorted.

Lemma list_filter_ext' {A} (P Q : A -> Prop) `{!forall x, Decision (P x), !forall x, Decision (Q x)} (l : list A) :
  (forall x, x ∈ l -> P x <-> Q x) -> filter P l = filter Q l.
Proof.
  induction l as [|x l IH]; intros Hl; [done|].
  rewrite !filter_cons, IH by set_solver.
  specialize (Hl x ltac:(left)). repeat case_decide; tauto.
Qed.

Lemma StronglySorted_filter' {A} (R R' : A -> A -> Prop) (P : A -> Prop)
    `{!forall x, Decision (P x)} (l : list A) :
  (forall x y, x ∈ l -> y ∈ l -> P x -> P y -> R x y -> R' x y) ->
  StronglySorted R l -> StronglySorted R' (filter P l).
Proof.
  intros HR Hl. induction Hl as [|x l Hl IH Hx]; [constructor|].
  rewrite filter_cons. case_decide as HP; [|apply IH; intros; apply HR; set_solver].
  constructor; [apply IH; intros; apply HR; set_solver|].
  rewrite Forall_forall in Hx |- *. intros y Hy. apply list_elem_of_filter in Hy as [HPy Hy].
  apply HR; [left|by right|done|done|]. by apply Hx.
Qed.

Section stable.
Context {A : Type} (less : A -> A -> bool).

Fixpoint insert_stable (x : A) (l : list A) : list A :=
  match l with
  | [] => [x]
  | y :: l' => if less y x then y :: insert_stable x l' else x :: y :: l'
  end.

Definition slice_stable (l : list A) : list A := foldr insert_stable [] l.

Lemma insert_stable_perm x l : insert_stable x l ≡ₚ x :: l.
Proof.
  induction l as [|y l IH]; simpl; [done|]. destruct (less y x); [|done].
  rewrite IH. by apply perm_swap.
Qed.

Lemma slice_stable_perm l : slice_stable l ≡ₚ l.
Proof. induction l as [|x l IH]; simpl; [done|]. by rewrite insert_stable_perm, IH. Qed.

(** The documented outcome: no element is before a smaller one. *)
Definition ascending : list A -> Prop := StronglySorted (fun x y => less y x = false).

(** [less] is a strict weak ordering on [P], what package sort requires of the
    elements it compares. *)
Record strict_weak (P : A -> Prop) : Prop := {
  sw_asym x y : P x -> P y -> less x y = true -> less y x = false;
  sw_negtrans x y z : P x -> P y -> P z ->
    less x y = false -> less y z = false -> less x z = false }.

Lemma insert_stable_ascending P x l :
  strict_weak P -> Forall P (x :: l) -> ascending l -> ascending (insert_stable x l).
Proof.
  intros Hless HP Hl. apply Forall_cons in HP as [HPx HP].
  induction Hl as [|y l Hl IH Hy]; simpl; [by repeat constructor|].
  apply Forall_cons in HP as [HPy HP]. destruct (less y x) eqn:E.
  - constructor; [by apply IH|]. rewrite insert_stable_perm. constructor; [|done].
    by apply (sw_asym _ Hless).
  - constructor; [by constructor|]. constructor; [done|].
    rewrite Forall_forall in Hy, HP |- *. intros z Hz.
    apply (sw_negtrans _ Hless _ y); auto.
Qed.

Lemma slice_stable_ascending P l :
  strict_weak P -> Forall P l -> ascending (slice_stable l).
Proof.
  intros Hless. induction 1 as [|x l Hx Hl IH]; simpl; [constructor|].
  apply (insert_stable_ascending P); [done| |done].
  rewrite slice_stable_perm. by constructor.
Qed.
End stable.

(** Sorting by an integer key. *)
Section keyed.
Context {A : Type} (key : A -> Z).
Definition key_less (x y : A) : bool := (key x <? key y)%Z.

Lemma key_less_strict_weak P : strict_weak key_less P.
Proof. constructor; unfold key_less; intros; lia. Qed.

Lemma key_ascending l :
  ascending key_less l <-> StronglySorted (fun x y => (key x <= key y)%Z) l.
Proof.
  split; induction 1 as [|x l Hl IH Hx]; constructor; try done;
    (eapply Forall_impl; [exact Hx|]); unfold key_less; simpl; intros; lia.
Qed.

Lemma slice_stable_sorted l :
  StronglySorted (fun x y => (key x <= key y)%Z) (slice_stable key_less l).
Proof.
  apply key_ascending, (slice_stable_ascending _ (fun _ => True));
    [apply key_less_strict_weak|by apply Forall_true].
Qed.

(** A list in key order is its negative part followed by the rest. *)
Lemma sorted_split l :
  StronglySorted (fun x y => (key x <= key y)%Z) l ->
  l = filter (fun x => (key x < 0)%Z) l ++ filter (fun x => ~ (key x < 0)%Z) l.
Proof.
  induction 1 as [|x l Hl IH Hx]; [done|]. rewrite !filter_cons.
  destruct (decide (key x < 0)%Z) as [Hneg|Hpos].
  - rewrite decide_False by tauto. simpl. by f_equal.
  - rewrite decide_True by done.
    assert (filter (fun x => (key x < 0)%Z) l = []) as E.
    { clear IH Hl. induction Hx as [|y l Hy _ IH]; [done|].
      rewrite filter_cons_False by lia. apply IH. }
    rewrite E in IH |- *. simpl. by f_equal.
Qed.

(** Equal keys keep their order. *)
Lemma insert_stable_filter k x l :
  filter (fun y => key y = k) (insert_stable key_less x l) =
  filter (fun y => key y = k) (x :: l).
Proof.
  induction l as [|y l IH]; [done|]. simpl. unfold key_less at 1.
  destruct (key y <? key x)%Z eqn:E; [|done].
  rewrite !filter_cons, IH, filter_cons. repeat case_decide; auto; lia.
Qed.

Lemma slice_stable_filter k l :
  filter (fun y => key y = k) (slice_stable key_less l) = filter (fun y => key y = k) l.
Proof.
  induction l as [|x l IH]; [done|]. simpl.
  by rewrite insert_stable_filter, !filter_cons, IH.
Qed.

(** Elements that share a key keep their order. *)
Lemma slice_stable_stable (P : A -> Prop) `{!forall x, Decision (P x)} k l :
  (forall x, x ∈ l -> P x -> key x = k) ->
  filter P (slice_stable key_less l) = filter P l.
Proof.
  intros Hk.
  assert (E : forall l' : list A, (forall x : A, x ∈ l' -> x ∈ l) ->
    filter P l' = filter P (filter (fun y => key y = k) l')).
  { intros l' Hl'. rewrite list_filter_filter. apply list_filter_ext'. intros x Hx.
    specialize (Hk x (Hl' x Hx)). tauto. }
  rewrite E, slice_stable_filter, <- E; [done|done|].
  intros x. by rewrite slice_stable_perm.
Qed.
End keyed.

(** ** sort.Slice *)
Class SortSlice := sort_slice : forall A : Type, (A -> A -> bool) -> list A -> list A.
Arguments sort_slice {_ A} _ _.

Class SortSliceLaws `{!SortSlice} : Prop := {
  sort_slice_perm {A : Type} (less : A -> A -> bool) (l : list A) : sort_slice less l ≡ₚ l;
  sort_slice_ascending {A : Type} (less : A -> A -> bool) (l : list A) :
    strict_weak less (.∈ l) -> ascending less (sort_slice less l) }.

Definition stable_sort_slice : SortSlice := @slice_stable.
Lemma stable_sort_slice_laws : @SortSliceLaws stable_sort_slice.
Proof.
  split; intros A less l; [apply slice_stable_perm|].
  intros Hless. apply (slice_stable_ascending _ (.∈ l)); [done|by apply Forall_forall].
Qed.
