(* ===== verification/StartupOrder.v ===== *)
(** * The order of workload types (pkg/provision/engine.go)

    [withStartupOrder.apply] fixes the order in which types are installed, and
    [sortOperations] and [sortMountWorkloads] order the work of an update and of
    the mounts by it. *)

From S2P Require Import Prelude GridTypes Sorting.
From Stdlib Require Import Sorted.

(** The fields [order] and [typeIndex] of the engine. *)
Record Startup := MkStartup { order : list string; typeIndex : gmap string Z }.

(** [typeIndex[typ]]: a missing key reads as 0. *)
Definition index_of (st : Startup) (typ : string) : Z := default 0%Z (typeIndex st !! typ).

Section apply.
(** The order in which [range] visits a map used as a set. *)
Variable range_set : gset string -> list string.

Fixpoint apply_listed (o : list string) (all : gset string) (ordered : list string)
    (idx : gmap string Z) : option (gset string * list string * gmap string Z) :=
  match o with
  | [] => Some (all, ordered, idx)
  | typ :: o =>
      if decide (typ ∈ all) then
        let ordered := ordered ++ [typ] in
        apply_listed o (all ∖ {[typ]}) ordered (<[typ := Z.of_nat (length ordered)]> idx)
      else None
  end.

Fixpoint apply_rest (l : list string) (ordered : list string) (idx : gmap string Z)
    : list string * gmap string Z :=
  match l with
  | [] => (ordered, idx)
  | typ :: l =>
      let ordered := ordered ++ [typ] in
      apply_rest l ordered (<[typ := Z.of_nat (length ordered)]> idx)
  end.

(** [None] is the panic on a type that is not registered (or listed twice). *)
Definition withStartupOrder_apply (o : list string) (e : Startup) : option Startup :=
  let all := list_to_set (order e) in
  match apply_listed o all [] (typeIndex e) with
  | None => None
  | Some (all, ordered, idx) =>
      let '(ordered, idx) := apply_rest (range_set all) ordered idx in
      Some (MkStartup ordered idx)
  end.
End apply.

Section order.
Context `{!GridTypes}.
Variable e : Startup.

Definition opMap (op : UpgradeOp) : Z :=
  match Op op with
  | OpRemove => (- index_of e (Type_ (wl_of (WlID op))))%Z
  | _ => index_of e (Type_ (wl_of (WlID op)))
  end.

Definition sortOperations (ops : list UpgradeOp) : list UpgradeOp :=
  slice_stable (fun a b => (opMap a <? opMap b)%Z) ops.

Definition getMountSize (wl : Workload) : res Z :=
  match WorkloadData_ wl with
  | Err err => Err err
  | Val (DZMount size) => Val size
  | Val (DVolume size) => Val size
  | Val _ => Err (Fresh "failed to get workload as zmount or volume")
  end.

Definition mount_less (a b : WorkloadWithID) : bool :=
  match getMountSize (wl_of a) with
  | Err _ => false
  | Val sizeI =>
      match getMountSize (wl_of b) with
      | Err _ => false
      | Val sizeJ => (sizeJ <? sizeI)%Z
      end
  end.

Definition sortMountWorkloads `{!SortSlice} (workloads : list WorkloadWithID)
  : list WorkloadWithID := sort_slice mount_less workloads.
End order.

(** ** The startup order *)

(** [ordered] and [idx] agree: position [i] of the list has index [i + 1]. *)
Definition indexed (ordered : list string) (idx : gmap string Z) : Prop :=
  NoDup ordered /\ forall i typ, ordered !! i = Some typ -> idx !! typ = Some (Z.of_nat i + 1)%Z.

Lemma indexed_nil idx : indexed [] idx.
Proof. split; [constructor|]. intros i typ H. by rewrite lookup_nil in H. Qed.

Lemma indexed_snoc ordered idx typ :
  indexed ordered idx -> typ ∉ ordered ->
  indexed (ordered ++ [typ]) (<[typ := Z.of_nat (length (ordered ++ [typ]))]> idx).
Proof.
  intros [Hnd Hidx] Hnew. split; [apply NoDup_app; repeat split; [done|set_solver|apply NoDup_singleton]|].
  intros i t Hi. rewrite length_app; simpl.
  apply lookup_app_Some in Hi as [Hi|[Hle Hi]].
  - rewrite lookup_insert_ne; [by apply Hidx|].
    intros ->. apply Hnew. by eapply list_elem_of_lookup_2.
  - apply list_lookup_singleton_Some in Hi as [Hi ->]. rewrite lookup_insert_eq. f_equal. lia.
Qed.

Lemma apply_listed_spec o all ordered idx all' ordered' idx' :
  apply_listed o all ordered idx = Some (all', ordered', idx') ->
  indexed ordered idx -> (forall t, t ∈ ordered -> t ∉ all) ->
  indexed ordered' idx' /\ (forall t, t ∈ ordered' -> t ∉ all') /\
  ordered' = ordered ++ o /\ (forall t, t ∈ o \/ t ∈ all' <-> t ∈ all).
Proof.
  revert all ordered idx. induction o as [|typ o IH]; intros all ordered idx; simpl.
  - intros [= <- <- <-] Hi Hd. rewrite app_nil_r. set_solver.
  - destruct (decide (typ ∈ all)) as [Hin|]; [|done]. intros Heq Hi Hd.
    apply IH in Heq as (H1 & H2 & -> & H4);
      [|apply indexed_snoc; [done|by intros ?%Hd]|set_solver].
    split; [done|]. split; [done|]. split; [by rewrite <- app_assoc|].
    intros t. specialize (H4 t). destruct (decide (t = typ)); set_solver.
Qed.

Lemma apply_rest_spec l ordered idx ordered' idx' :
  apply_rest l ordered idx = (ordered', idx') ->
  indexed ordered idx -> NoDup l -> (forall t, t ∈ ordered -> t ∉ l) ->
  indexed ordered' idx' /\ ordered' = ordered ++ l.
Proof.
  revert ordered idx. induction l as [|typ l IH]; intros ordered idx; simpl.
  - intros [= <- <-] Hi _ _. by rewrite app_nil_r.
  - rewrite NoDup_cons. intros Heq Hi [Hn Hnd] Hd.
    apply IH in Heq as [H1 ->]; [|apply indexed_snoc; [done|set_solver]|done|set_solver].
    split; [done|]. by rewrite <- app_assoc.
Qed.

(** The panic: exactly the lists that name a type twice or an unknown one. *)
Lemma apply_listed_None o all ordered idx :
  apply_listed o all ordered idx = None <-> ~ (NoDup o /\ forall t, t ∈ o -> t ∈ all).
Proof.
  revert all ordered idx. induction o as [|typ o IH]; intros all ordered idx; simpl.
  - split; [done|]. intros []. split; [constructor|set_solver].
  - destruct (decide (typ ∈ all)) as [Hin|Hin].
    + rewrite IH, NoDup_cons. split; intros Hn [Hnd Hall]; apply Hn.
      * split; [tauto|]. intros t Ht. assert (t <> typ) by (intros ->; tauto). set_solver.
      * split; [split; [intros Ht; apply Hall in Ht; set_solver|done]|set_solver].
    + split; [|done]. intros _ [_ Hall]. apply Hin, Hall. left.
Qed.

Section startup.
Context (range_set : gset string -> list string).
Hypothesis range_set_perm : forall X, range_set X ≡ₚ elements X.

(** C13: [WithStartupOrder] puts the given types first, in the given order, keeps every type
    of the default order exactly once and numbers them from one; it gives up only on a
    repeated or unknown type. *)
Theorem withStartupOrder_spec o e :
  NoDup (order e) ->
  match withStartupOrder_apply range_set o e with
  | Some e' =>
      order e' ≡ₚ order e /\ (exists rest, order e' = o ++ rest) /\
      forall i typ, order e' !! i = Some typ <->
        (typ ∈ order e /\ typeIndex e' !! typ = Some (Z.of_nat i + 1)%Z)
  | None => ~ (NoDup o /\ forall typ, typ ∈ o -> typ ∈ order e)
  end.
Proof.
  intros Hnd. unfold withStartupOrder_apply.
  destruct (apply_listed o _ [] _) as [[[all ordered] idx]|] eqn:E1; last first.
  { apply apply_listed_None in E1. intros [H1 H2]. apply E1. split; [done|].
    intros t Ht. apply elem_of_list_to_set. by apply H2. }
  apply apply_listed_spec in E1 as (Hi & Hd & -> & Hall); [|apply indexed_nil|set_solver].
  destruct (apply_rest _ _ _) as [ordered' idx'] eqn:E2.
  apply apply_rest_spec in E2 as [[Hnd' Hix] ->]; [|done|rewrite range_set_perm; apply NoDup_elements
    |intros t Ht; rewrite range_set_perm, elem_of_elements; by apply Hd].
  simpl in *. 
  assert (Hin : forall t, t ∈ o ++ range_set all <-> t ∈ order e).
  { intros t. rewrite elem_of_app, range_set_perm, elem_of_elements, Hall.
    apply elem_of_list_to_set. }
  split; [apply NoDup_Permutation; done|]. split; [by eexists|].
  intros i typ. split.
  - intros Ht. split; [apply Hin; by eapply list_elem_of_lookup_2|by apply Hix].
  - intros [Ht Hidx]. apply Hin in Ht. apply list_elem_of_lookup in Ht as [j Hj].
    pose proof (Hix _ _ Hj) as Hj'. rewrite Hj' in Hidx. simplify_eq.
    by replace i with j by lia.
Qed.
End startup.

(** ** Ordering the work *)
Section sorting.
Context `{!GridTypes}.

Definition is_remove (op : UpgradeOp) : Prop := Op op = OpRemove.
#[export] Instance is_remove_dec op : Decision (is_remove op).
Proof. unfold is_remove. destruct (Op op); [left; reflexivity|right; discriminate|right; discriminate]. Defined.

Definition op_index (e : Startup) (op : UpgradeOp) : Z :=
  index_of e (Type_ (wl_of (WlID op))).

Lemma opMap_remove e op : is_remove op -> opMap e op = (- op_index e op)%Z.
Proof. unfold opMap, is_remove. by intros ->. Qed.
Lemma opMap_other e op : ~ is_remove op -> opMap e op = op_index e op.
Proof. unfold opMap, is_remove. by destruct (Op op). Qed.
Lemma opMap_neg e op : (1 <= op_index e op)%Z -> (opMap e op < 0)%Z <-> is_remove op.
Proof.
  intros Hpos. destruct (decide (is_remove op)).
  - rewrite opMap_remove by done. intuition lia.
  - rewrite opMap_other by done. intuition lia.
Qed.

(** C11: [sortOperations] puts every removal before every other operation, the removals by
    descending and the others by ascending startup index, and keeps the given order between
    operations of one index. *)
Theorem sortOperations_spec (e : Startup) (ops : list UpgradeOp) :
  (forall op, op ∈ ops -> (1 <= op_index e op)%Z) ->
  exists removes others,
    sortOperations e ops = removes ++ others /\
    removes ≡ₚ filter is_remove ops /\
    others ≡ₚ filter (fun op => ~ is_remove op) ops /\
    StronglySorted (fun a b => (op_index e b <= op_index e a)%Z) removes /\
    StronglySorted (fun a b => (op_index e a <= op_index e b)%Z) others /\
    forall i, filter (fun op => op_index e op = i) removes =
                filter (fun op => op_index e op = i) (filter is_remove ops) /\
              filter (fun op => op_index e op = i) others =
                filter (fun op => op_index e op = i) (filter (fun op => ~ is_remove op) ops).
Proof.
  intros Hidx. set (l := sortOperations e ops).
  assert (Hl : StronglySorted (fun a b => (opMap e a <= opMap e b)%Z) l)
    by apply (slice_stable_sorted (opMap e)).
  assert (Hp : l ≡ₚ ops) by apply slice_stable_perm.
  assert (Hneg : forall op, op ∈ l -> (opMap e op < 0)%Z <-> is_remove op).
  { intros op Hop. rewrite Hp in Hop. specialize (Hidx op Hop). by apply opMap_neg. }
  exists (filter is_remove l), (filter (fun op => ~ is_remove op) l).
  split; [|split; [by rewrite Hp|split; [by rewrite Hp|split; [|split]]]].
  - rewrite (sorted_split (opMap e) l Hl) at 1.
    f_equal; apply list_filter_ext'; intros op Hop; rewrite Hneg by done; tauto.
  - eapply StronglySorted_filter'; [|exact Hl]. intros a b _ _ Ha Hb; simpl.
    rewrite !opMap_remove by done. lia.
  - eapply StronglySorted_filter'; [|exact Hl]. intros a b _ _ Ha Hb; simpl.
    by rewrite !opMap_other by done.
  - intros i. rewrite !list_filter_filter. split.
    + apply (slice_stable_stable (opMap e) _ (- i)%Z).
      intros op _ [Hi Hr]. rewrite opMap_remove by done. lia.
    + apply (slice_stable_stable (opMap e) _ i).
      intros op _ [Hi Hr]. by rewrite opMap_other by done.
Qed.

Lemma sortMountWorkloads_sorted `{!SortSlice, !SortSliceLaws} (ws : list WorkloadWithID)
    (size : WorkloadWithID -> Z) :
  (forall w, w ∈ ws -> getMountSize (wl_of w) = Val (size w)) ->
  sortMountWorkloads ws ≡ₚ ws /\
  StronglySorted (fun a b => (size b <= size a)%Z) (sortMountWorkloads ws).
Proof.
  intros Hs. split; [apply sort_slice_perm|].
  assert (Hless : forall a b, a ∈ ws -> b ∈ ws -> mount_less a b = (size b <? size a)%Z).
  { intros a b Ha Hb. unfold mount_less. by rewrite (Hs a Ha), (Hs b Hb). }
  assert (Hasc : ascending mount_less (sortMountWorkloads ws)).
  { apply sort_slice_ascending. split.
    - intros x y Hx Hy. rewrite !Hless by done. lia.
    - intros x y z Hx Hy Hz. rewrite !Hless by done. lia. }
  assert (Hin : Forall (.∈ ws) (sortMountWorkloads ws)).
  { apply Forall_forall. intros x Hx. unfold sortMountWorkloads in Hx.
    by rewrite (sort_slice_perm mount_less ws) in Hx. }
  revert Hin. induction Hasc as [|x l Hl IH Hx]; [constructor|].
  rewrite Forall_cons. intros [Hxw Hlw]. constructor; [by apply IH|].
  rewrite Forall_forall in Hx, Hlw |- *. intros y Hy. specialize (Hx y Hy).
  rewrite Hless in Hx by auto. lia.
Qed.

(** [sortMountWorkloads] orders the mounts by descending size. *)
Theorem sortMountWorkloads_spec `{!SortSlice, !SortSliceLaws} (ws : list WorkloadWithID)
    (size : WorkloadWithID -> Z) :
  (forall w, w ∈ ws -> getMountSize (wl_of w) = Val (size w)) ->
  sortMountWorkloads ws ≡ₚ ws /\
  StronglySorted (fun a b => (size b <= size a)%Z) (sortMountWorkloads ws).
Proof. apply sortMountWorkloads_sorted. Qed.
End sorting.
