(* ===== verification/Engine.v ===== *)
(** * The provision engine (pkg/provision/engine.go)

    [NativeEngine] keeps deployments in a storage, queues jobs for them, and
    applies each job workload by workload through the provisioner.  Storage,
    provisioner, job queue, registrar gateway and callback are outside the
    engine: they are the interface [EngineEnv] over a state [S].  Logging is
    left out; the polling delay after a failed [PeekBlock] takes no step. *)

From S2P Require Import Prelude GridTypes Sorting StartupOrder.

Inductive jobOperation :=
| opProvision
| opDeprovision
| opUpdate
| opProvisionNoValidation
| opPause
| opResume.

#[export] Instance jobOperation_eq_dec : EqDecision jobOperation.
Proof. solve_decision. Defined.

Record engineJob := MkJob {
  jOp : jobOperation;
  jTarget : Deployment;
  jSource : option Deployment;
  jMessage : string }.

(** [substrate.Contract], as far as the engine and the event handler read it. *)
Record Contract := MkContract {
  IsNodeContract : bool;
  nodeContract : NodeContract;
  IsGracePeriod : bool }.

(** What the methods of [pkg.SubstrateError] answer. *)
Record SubstrateError := MkSubstrateError {
  se_IsError : bool;
  se_Err : error;
  se_IsNotFound : bool }.

(** External calls, with the arguments and answers the theorems speak of. *)
Inductive ecall :=
| StCreate (d : Deployment) (r : option error)
| StGet (twin dl : Z) (r : res Deployment)
| StUpdate (twin dl : Z) (fields : list Field) (r : option error)
| StError (twin dl : Z) (e : error) (r : option error)
| StAdd (twin dl : Z) (w : Workload) (r : option error)
| StRemove (twin dl : Z) (name : string) (r : option error)
| StTransaction (twin dl : Z) (w : Workload) (r : option error)
| StCurrent (twin dl : Z) (name : string) (r : res Workload)
| StDelete (twin dl : Z) (r : option error)
| StChanges (twin dl : Z)
| StTwins (r : res (list Z))
| StByTwin (twin : Z) (r : res (list Z))
| PvProvision (w : WorkloadWithID) (r : Result * option error)
| PvDeprovision (w : WorkloadWithID) (r : option error)
| PvUpdate (w : WorkloadWithID) (r : Result * option error)
| PvPause (w : WorkloadWithID) (r : Result * option error)
| PvResume (w : WorkloadWithID) (r : Result * option error)
| QOpen (r : option error)
| QRemoveAll
| QEnqueue (j : engineJob) (r : option error)
| QPeek (r : res engineJob)
| QDequeue (r : option error)
| GwGetContract (id : Z)
| GwGetRent (node : Z)
| KycGet (twin : Z) (requests : nat) (r : res (Z * res string))
| VerifySignature (d : Deployment) (r : option error)
| CbCall (twin dl : Z) (delete : bool).

Class EngineEnv (S : Type) := {
  stCreate : Deployment -> S -> option error * S;
  stGet : Z -> Z -> S -> res Deployment * S;
  stUpdate : Z -> Z -> list Field -> S -> option error * S;
  stError : Z -> Z -> error -> S -> option error * S;
  stAdd : Z -> Z -> Workload -> S -> option error * S;
  stRemove : Z -> Z -> string -> S -> option error * S;
  stTransaction : Z -> Z -> Workload -> S -> option error * S;
  stCurrent : Z -> Z -> string -> S -> res Workload * S;
  stDelete : Z -> Z -> S -> option error * S;
  stChanges : Z -> Z -> S -> res (list Workload) * S;
  stTwins : S -> res (list Z) * S;
  stByTwin : Z -> S -> res (list Z) * S;
  pvProvision : Ctx -> WorkloadWithID -> S -> (Result * option error) * S;
  pvDeprovision : Ctx -> WorkloadWithID -> S -> option error * S;
  pvUpdate : Ctx -> WorkloadWithID -> S -> (Result * option error) * S;
  pvPause : Ctx -> WorkloadWithID -> S -> (Result * option error) * S;
  pvResume : Ctx -> WorkloadWithID -> S -> (Result * option error) * S;
  pvCanUpdate : Ctx -> string -> bool;
  qOpen : S -> option error * S;
  qRemoveAll : S -> unit * S;
  qEnqueue : engineJob -> S -> option error * S;
  qPeekBlock : S -> res engineJob * S;
  qDequeue : S -> option error * S;
  gwGetContract : Z -> S -> (Contract * SubstrateError) * S;
  gwGetNodeRentContract : Z -> S -> (Z * SubstrateError) * S;
  (* url.JoinPath(env.KycURL, ...) and the GET of the verification status by a
     retryablehttp client with the given RetryMax: how many requests it sent, and the
     status code and the decoded body of the response *)
  kycURL : res string;
  kycGet : nat -> string -> Z -> S -> (nat * res (Z * res string)) * S;
  (* deployment.Verify with a twins database *)
  dlVerify : Deployment -> (Z -> S -> res string * S) -> S -> option error * S;
  now : S -> Z * S;
  backoffStop : S -> bool * S }.

(** [provision.Twins]: the key getter of an engine. *)
Definition Twins (S : Type) : Type := Z -> S -> res string * S.

Definition nullKeyGetter_GetKey {S} : Twins S := fun _ s =>
  (Err (Fresh "null user key getter"), s).

(** A callback may panic: its answer says whether it did. *)
Definition Callback (S : Type) : Type := Z -> Z -> bool -> S -> bool * S.

Record NativeEngine (S : Type) := MkEngine {
  twins : Twins S;
  admins : Twins S;
  startup : Startup;
  rerunAll : bool;
  nodeID : Z;
  registrarGateway : bool;  (* whether a gateway is set *)
  callback : option (Callback S) }.
Arguments MkEngine {S}.
Arguments twins {S} _.
Arguments admins {S} _.
Arguments startup {S} _.
Arguments rerunAll {S} _.
Arguments nodeID {S} _.
Arguments registrarGateway {S} _.
Arguments callback {S} _.

(** ** Options and construction *)
Section options.
Context {S : Type}.

(** An option is applied to an engine; [None] is a panic. *)
Definition EngineOption : Type := NativeEngine S -> option (NativeEngine S).

Definition WithTwins (g : Twins S) : EngineOption := fun e =>
  Some (MkEngine g (admins e) (startup e) (rerunAll e) (nodeID e) (registrarGateway e) (callback e)).
Definition WithAdmins (g : Twins S) : EngineOption := fun e =>
  Some (MkEngine (twins e) g (startup e) (rerunAll e) (nodeID e) (registrarGateway e) (callback e)).
Definition WithStartupOrder (range_set : gset string -> list string) (t : list string)
    : EngineOption := fun e =>
  st ← withStartupOrder_apply range_set t (startup e);
  Some (MkEngine (twins e) (admins e) st (rerunAll e) (nodeID e) (registrarGateway e) (callback e)).
Definition WithAPIGateway (node : Z) : EngineOption := fun e =>
  Some (MkEngine (twins e) (admins e) (startup e) (rerunAll e) node true (callback e)).
Definition WithRerunAll (t : bool) : EngineOption := fun e =>
  Some (MkEngine (twins e) (admins e) (startup e) t (nodeID e) (registrarGateway e) (callback e)).
Definition WithCallback (cb : Callback S) : EngineOption := fun e =>
  Some (MkEngine (twins e) (admins e) (startup e) (rerunAll e) (nodeID e) (registrarGateway e) (Some cb)).

Context `{!GridTypes}.

Definition default_engine : NativeEngine S :=
  MkEngine nullKeyGetter_GetKey nullKeyGetter_GetKey (MkStartup Types ∅) false 0 false None.

Definition apply_options (opts : list EngineOption) : option (NativeEngine S) :=
  foldl (fun e opt => e ← e; opt e) (Some default_engine) opts.

Context `{!EngineEnv S}.

(** [New]; the outer [None] is an option that panics. *)
Definition New (opts : list EngineOption) : option (M S ecall (res (NativeEngine S))) :=
  e ← apply_options opts;
  Some (
    (if rerunAll e then act qRemoveAll (fun _ => QRemoveAll) else ret tt) ;;;
    err <- act qOpen QOpen ;;
    match err with
    | Some err =>
        act qRemoveAll (fun _ => QRemoveAll) ;;;
        ret (Err (Wrapped "failed to create job queue" err))
    | None => ret (Val e)
    end).
End options.
Arguments EngineOption S : clear implicits.

Section engine.
Context `{!GridTypes, !SortSlice} {S : Type} `{!EngineEnv S}.
Variable e : NativeEngine S.

(** ** Access to the environment *)
Definition Current twin dl name : M S ecall (res Workload) :=
  act (stCurrent twin dl name) (StCurrent twin dl name).
Definition Transaction twin dl w : M S ecall (option error) :=
  act (stTransaction twin dl w) (StTransaction twin dl w).
Definition Enqueue j : M S ecall (option error) := act (qEnqueue j) (QEnqueue j).
Definition StorageGet twin dl : M S ecall (res Deployment) :=
  act (stGet twin dl) (StGet twin dl).

(** ** Workloads *)

Definition uninstallWorkload (ctx : Ctx) (wl : WorkloadWithID) (reason : string)
    : M S ecall (option error) :=
  let '((twin, deployment, name), _) := Parts (ID wl) in
  current <- Current twin deployment name ;;
  match current with
  | Err err => if errors_Is err ErrWorkloadNotExist_id then ret None else ret (Some err)
  | Val _ =>
      err <- act (pvDeprovision ctx wl) (PvDeprovision wl) ;;
      let '(state, str) :=
        match err with
        | None => (StateDeleted, reason)
        | Some err => (StateError, error_string err)
        end in
      created <- peek now ;;
      let result := MkResult created state str "" in
      err <- Transaction twin deployment (WithResults (wl_of wl) result) ;;
      match err with
      | Some err => ret (Some err)
      | None =>
          if bool_decide (State result = StateDeleted)
          then act (stRemove twin deployment name) (StRemove twin deployment name)
          else ret None
      end
  end.

Definition installWorkload (ctx : Ctx) (wl : WorkloadWithID) : M S ecall (option error) :=
  let '((twin, deployment, name), _) := Parts (ID wl) in
  let provision :=
    '(result, err) <- act (pvProvision ctx wl) (PvProvision wl) ;;
    if is_err err ErrNoActionNeeded_id then ret None
    else
      result <- match err with
                | Some err =>
                    created <- peek now ;;
                    ret (MkResult created StateError (error_string err) (Data result))
                | None => ret result
                end ;;
      Transaction twin deployment (WithResults (wl_of wl) result) in
  current <- Current twin deployment name ;;
  match current with
  | Err err =>
      if errors_Is err ErrWorkloadNotExist_id then
        err <- act (stAdd twin deployment (wl_of wl)) (StAdd twin deployment (wl_of wl)) ;;
        match err with
        | Some err => ret (Some (Wrapped "failed to add workload to storage" err))
        | None => provision
        end
      else ret (Some (Wrapped ("failed to get last transaction for '" +:+ ID wl +:+ "'") err))
  | Val current =>
      if IsAny (State (WResult current)) [StateDeleted; StateError] then ret None
      else provision
  end.

Definition updateWorkload (ctx : Ctx) (wl : WorkloadWithID) : M S ecall (option error) :=
  let '((twin, deployment, name), _) := Parts (ID wl) in
  '(result, err) <-
    (if pvCanUpdate ctx (Type_ (wl_of wl)) then act (pvUpdate ctx wl) (PvUpdate wl)
     else ret (zero_result, Some (Fresh "can not update this workload type"))) ;;
  if is_err err ErrNoActionNeeded_id then
    currentWl <- Current twin deployment name ;;
    match currentWl with
    | Err err => ret (Some err)
    | Val currentWl =>
        Transaction twin deployment (WithResults (wl_of wl) (WResult currentWl))
    end
  else
    match err with
    | Some err => ret (Some err)
    | None => Transaction twin deployment (WithResults (wl_of wl) result)
    end.

Definition lockWorkload (ctx : Ctx) (wl : WorkloadWithID) (lock : bool)
    : M S ecall (option error) :=
  let '((twin, deployment, name), _) := Parts (ID wl) in
  current <- Current twin deployment name ;;
  match current with
  | Err err =>
      ret (Some (Wrapped ("failed to get last transaction for '" +:+ ID wl +:+ "'") err))
  | Val current =>
      if negb (IsOkay (State (WResult current))) then ret None
      else
        '(result, err) <- (if lock then act (pvPause ctx wl) (PvPause wl)
                           else act (pvResume ctx wl) (PvResume wl)) ;;
        if is_err err ErrNoActionNeeded_id then ret None
        else
          match err with
          | Some err => ret (Some err)
          | None => Transaction twin deployment (WithResults (wl_of wl) result)
          end
  end.

(** ** Deployments *)

(** The loop over types and workloads of [uninstallDeployment]: whether any
    workload failed. *)
Fixpoint uninstallAll (ctx : Ctx) (ws : list WorkloadWithID) (reason : string)
    : M S ecall bool :=
  match ws with
  | [] => ret false
  | wl :: ws =>
      err <- uninstallWorkload ctx wl reason ;;
      errors <- uninstallAll ctx ws reason ;;
      ret (match err with Some _ => true | None => errors end)
  end.

Definition by_types (order : list string) (dl : Deployment) : list WorkloadWithID :=
  order ≫= (fun typ => ByType dl [typ]).

Definition uninstallDeployment (ctx : Ctx) (dl : Deployment) (reason : string)
    : M S ecall unit :=
  errors <- uninstallAll ctx (by_types (reverse (order (startup e))) dl) reason ;;
  if (errors : bool) then ret tt
  else
    act (stDelete (TwinID dl) (ContractID dl)) (StDelete (TwinID dl) (ContractID dl)) ;;;
    ret tt.

Definition install_list (dl : Deployment) (typ : string) : list WorkloadWithID :=
  let workloads := ByType dl [typ] in
  if bool_decide (typ = ZMountType) || bool_decide (typ = VolumeType)
  then sortMountWorkloads workloads else workloads.

Definition installDeployment (ctx : Ctx) (dl : Deployment) : M S ecall unit :=
  for_each (fun typ =>
    for_each (fun wl => installWorkload ctx wl) (install_list dl typ)) (order (startup e)).

Definition lockDeployment (ctx : Ctx) (dl : Deployment) : M S ecall unit :=
  for_each (fun typ =>
    for_each (fun wl => lockWorkload ctx wl true) (ByType dl [typ]))
    (reverse (order (startup e))).

Definition unlockDeployment (ctx : Ctx) (dl : Deployment) : M S ecall unit :=
  for_each (fun typ =>
    for_each (fun wl => lockWorkload ctx wl false) (ByType dl [typ]))
    (order (startup e)).

Definition updateDeployment (ctx : Ctx) (ops : list UpgradeOp) : M S ecall unit :=
  for_each (fun op =>
    match Op op with
    | OpRemove => uninstallWorkload ctx (WlID op) "deleted by an update"
    | OpAdd => installWorkload ctx (WlID op)
    | OpUpdate => updateWorkload ctx (WlID op)
    end) (sortOperations (startup e) ops).

(** ** Requests *)

Definition Provision (deployment : Deployment) : M S ecall (option error) :=
  if negb (bool_decide (Version deployment = 0%Z)) then
    ret (Some (Wrapped "expected version to be 0 on deployment creation"
                 (Sentinel ErrInvalidVersion_id (ErrText ErrInvalidVersion_id))))
  else
    err <- act (stCreate deployment) (StCreate deployment) ;;
    match err with
    | Some err => ret (Some err)
    | None => Enqueue (MkJob opProvision deployment None "")
    end.

(** [Pause], [Resume] and [Deprovision]: fetch the deployment, queue the job. *)
Definition schedule (twin id : Z) (op : jobOperation) (message : string)
    : M S ecall (option error) :=
  deployment <- StorageGet twin id ;;
  match deployment with
  | Err err => ret (Some err)
  | Val deployment => Enqueue (MkJob op deployment None message)
  end.
Definition Pause twin id := schedule twin id opPause "".
Definition Resume twin id := schedule twin id opResume "".
Definition Deprovision twin id reason := schedule twin id opDeprovision reason.

Definition ErrUpgradeValidation : error :=
  Sentinel ErrDeploymentUpgradeValidationError_id (ErrText ErrDeploymentUpgradeValidationError_id).

(** The first [OpUpdate] whose type the provisioner can not update. *)
Fixpoint unsupported_update (ctx : Ctx) (ops : list UpgradeOp) : option string :=
  match ops with
  | [] => None
  | op :: ops =>
      match Op op with
      | OpUpdate =>
          if negb (pvCanUpdate ctx (Type_ (wl_of (WlID op))))
          then Some (Type_ (wl_of (WlID op))) else unsupported_update ctx ops
      | _ => unsupported_update ctx ops
      end
  end.

Definition update_fields (deployment update : Deployment) : list Field :=
  [VersionField (Version update);
   SignatureRequirementField (SignatureRequirement update)] ++
  (if bool_decide (Description deployment = Description update) then []
   else [DescriptionField (Description update)]) ++
  (if bool_decide (Metadata deployment = Metadata update) then []
   else [MetadataField (Metadata update)]).

Definition Update (ctx : Ctx) (update : Deployment) : M S ecall (option error) :=
  deployment <- StorageGet (TwinID update) (ContractID update) ;;
  match deployment with
  | Err err => ret (Some err)
  | Val deployment =>
      match Upgrade deployment update with
      | Err err => ret (Some (Wrapped (error_string err)
                     ErrUpgradeValidation))
      | Val upgrades =>
          match unsupported_update ctx upgrades with
          | Some typ => ret (Some (Wrapped ("workload '" +:+ typ +:+ "' does not support upgrade")
                          ErrUpgradeValidation))
          | None =>
              let fields := update_fields deployment update in
              err <- act (stUpdate (TwinID update) (ContractID update) fields)
                         (StUpdate (TwinID update) (ContractID update) fields) ;;
              match err with
              | Some err => ret (Some (Wrapped "failed to update deployment data" err))
              | None => Enqueue (MkJob opUpdate update (Some deployment) "")
              end
          end
      end
  end.

(** ** The worker *)

Definition safeCallback (d : Deployment) (delete : bool) : M S ecall unit :=
  match callback e with
  | None => ret tt
  | Some cb =>
      act (cb (TwinID d) (ContractID d) delete)
          (fun _ => CbCall (TwinID d) (ContractID d) delete) ;;; ret tt
  end.

Definition validate (ctx : Ctx) (dl : Deployment) (noValidation : bool)
    : M S ecall (res Ctx) :=
  if negb (registrarGateway e) then
    ret (Err (Fresh "substrate is not configured in engine"))
  else
    '(contract, subErr) <- act (gwGetContract (ContractID dl))
                               (fun _ => GwGetContract (ContractID dl)) ;;
    if se_IsError subErr then
      ret (Err (Wrapped "failed to get deployment contract" (se_Err subErr)))
    else if negb (IsNodeContract contract) then
      ret (Err (Fresh "invalid contract type, expecting node contract"))
    else
      let ctx := withContract ctx (nodeContract contract) in
      '(rent, subErr) <- act (gwGetNodeRentContract (uint32 (nodeID e)))
                             (fun _ => GwGetRent (uint32 (nodeID e))) ;;
      if se_IsError subErr && negb (se_IsNotFound subErr) then
        ret (Err (Fresh "failed to check node rent state"))
      else
        let ctx := withRented ctx (negb (se_IsError subErr) && negb (rent =? 0)%Z) in
        if noValidation then ret (Val ctx)
        else if negb (uint32 (nc_Node (nodeContract contract)) =? uint32 (nodeID e))%Z then
          ret (Err (Fresh "invalid node address in contract"))
        else
          match ChallengeHash dl with
          | Err err => ret (Err (Wrapped "failed to compute deployment hash" err))
          | Val hash =>
              if negb (bool_decide (nc_DeploymentHash (nodeContract contract) = hex_EncodeToString hash)) then
                ret (Err (Fresh "contract hash does not match deployment hash"))
              else ret (Val ctx)
          end.

(** The [switch job.Op] of [Run]. *)
Definition dispatch (ctx : Ctx) (job : engineJob) : M S ecall unit :=
  match jOp job with
  | opProvisionNoValidation | opProvision => installDeployment ctx (jTarget job)
  | opDeprovision => uninstallDeployment ctx (jTarget job) (jMessage job)
  | opPause => lockDeployment ctx (jTarget job)
  | opResume => unlockDeployment ctx (jTarget job)
  | opUpdate =>
      match jSource job with
      | None => ret tt (* no update job is queued without its source *)
      | Some source =>
          match Upgrade source (jTarget job) with
          | Err _ => ret tt
          | Val update => updateDeployment ctx update
          end
      end
  end.

Definition needs_contract (op : jobOperation) : bool :=
  match op with
  | opProvision | opUpdate | opProvisionNoValidation => true
  | _ => false
  end.

(** The body of the loop of [Run] for the job at the head of the queue. *)
Definition handle_job (root : Ctx) (job : engineJob) : M S ecall unit :=
  let target := jTarget job in
  let ctx := withDeployment root (TwinID target) (ContractID target) in
  r <- (if needs_contract (jOp job)
        then validate ctx target (bool_decide (jOp job = opProvisionNoValidation))
        else ret (Val ctx)) ;;
  match r with
  | Err err =>
      act (stError (TwinID target) (ContractID target) err)
          (StError (TwinID target) (ContractID target) err) ;;;
      act qDequeue QDequeue ;;; ret tt
  | Val ctx =>
      dispatch ctx job ;;;
      act qDequeue QDequeue ;;;
      safeCallback target (bool_decide (jOp job = opDeprovision))
  end.

Definition Run_iteration (root : Ctx) : M S ecall unit :=
  obj <- act qPeekBlock QPeek ;;
  match obj with
  | Err _ => ret tt
  | Val job => handle_job root job
  end.

(** The bodies of the two loops of [boot]. *)
Definition boot_deployment (twin id : Z) : M S ecall unit :=
  dl <- StorageGet twin id ;;
  match dl with
  | Err _ => ret tt
  | Val dl =>
      if negb (IsActive dl) then ret tt
      else Enqueue (MkJob opProvisionNoValidation dl None "") ;;; ret tt
  end.

Definition boot_twin (twin : Z) : M S ecall unit :=
  ids <- act (stByTwin twin) (StByTwin twin) ;;
  match ids with
  | Err _ => ret tt
  | Val ids => for_each (boot_deployment twin) ids
  end.

Definition boot (root : Ctx) : M S ecall (option error) :=
  twins <- act stTwins StTwins ;;
  match twins with
  | Err err => ret (Some (Wrapped "failed to list twins" err))
  | Val twins => for_each boot_twin twins ;;; ret None
  end.

(** [n] rounds of [Run]; the loop has no exit of its own. *)
Fixpoint Run_loop (n : nat) (root : Ctx) : M S ecall unit :=
  match n with
  | 0 => ret tt
  | Datatypes.S n => Run_iteration root ;;; Run_loop n root
  end.

Definition Run (n : nat) (root : Ctx) : M S ecall unit :=
  let root := withEngine root in
  (if rerunAll e then boot root ;;; ret tt else ret tt) ;;; Run_loop n root.
End engine.
