(* ===== verification/EngineApi.v ===== *)
(** * The zbus methods of the engine (pkg/provision/engine.go)

    The queries and requests other daemons reach over zbus, on top of the
    operations of [Engine]. *)

From S2P Require Import Prelude GridTypes Sorting StartupOrder Engine.

Section api.
Context `{!GridTypes, !SortSlice} {S : Type} `{!EngineEnv S}.
Variable e : NativeEngine S.

(** ** Context getters *)

(** [None]: the panic on a context without a deployment. *)
Definition GetDeployment (ctx : Ctx) : option (M S ecall (res Deployment)) :=
  (fun '(twin, deployment) => StorageGet twin deployment) <$> GetDeploymentID ctx.

Definition GetWorkload (ctx : Ctx) (name : string)
    : option (M S ecall (res WorkloadWithID)) :=
  (fun '(twin, deployment) =>
    wl <- Current twin deployment name ;;
    match wl with
    | Err err => ret (Err err)
    | Val wl => ret (Val (MkWorkloadWithID wl (NewUncheckedWorkloadID twin deployment name)))
    end) <$> GetDeploymentID ctx.

(** ** Requests *)

Definition DecommissionCached (id reason : string) : M S ecall (option error) :=
  let '((twin, dlID, name), err) := Parts id in
  match err with
  | Some err => ret (Some err)
  | None =>
      wl <- Current twin dlID name ;;
      match wl with
      | Err err => ret (Some err)
      | Val wl =>
          if bool_decide (State (WResult wl) = StateDeleted) ||
             bool_decide (State (WResult wl) = StateError)
          then ret None
          else
            let ctx := withDeployment (withEngine Background) twin dlID in
            uninstallWorkload ctx (MkWorkloadWithID wl id)
              ("workload decommissioned by system, reason: " +:+ reason)
      end
  end.

Definition verifiedStatus : string := "VERIFIED".
Definition RetryMax : nat := 5.

Definition isTwinVerified (twinID : Z) : M S ecall (bool * option error) :=
  match kycURL with
  | Err err => ret (false, Some err)
  | Val url =>
      '(_, response) <- act (kycGet RetryMax url twinID) (fun r => KycGet twinID r.1 r.2) ;;
      match response with
      | Err err => ret (false, Some err)
      | Val (status, body) =>
          if negb (status =? 200)%Z then
            ret (false, Some (Fresh "failed to get twin verification status"))
          else
            match body with
            | Err err => ret (false, Some err)
            | Val status => ret (bool_decide (status = verifiedStatus), None)
            end
      end
  end.

Definition check_verified (twin : Z) : M S ecall (option error) :=
  '(ok, err) <- isTwinVerified twin ;;
  match err with
  | Some err => ret (Some err)
  | None => if (ok : bool) then ret None
            else ret (Some (Fresh "user with twin id is not verified"))
  end.

Definition CreateOrUpdate (twin : Z) (deployment : Deployment) (update : bool)
    : M S ecall (option error) :=
  match Valid deployment with
  | Some err => ret (Some err)
  | None =>
      if negb (TwinID deployment =? twin)%Z then
        ret (Some (Fresh "twin id mismatch"))
      else
        err <- retry backoffStop 5 (check_verified twin) ;;
        match err with
        | Some err => ret (Some err)
        | None =>
            err <- act (dlVerify deployment (twins e)) (VerifySignature deployment) ;;
            match err with
            | Some err => ret (Some err)
            | None => if update then Update Background deployment else Provision deployment
            end
        end
  end.

(** ** Queries *)

Definition Get (twin contractID : Z) : M S ecall (res Deployment) :=
  deployment <- StorageGet twin contractID ;;
  match deployment with
  | Err err =>
      if errors_Is err ErrDeploymentNotExists_id then ret (Err (Fresh "deployment not found"))
      else ret (Err err)
  | Val deployment => ret (Val deployment)
  end.

Definition List_ (twin : Z) : M S ecall (res (list Deployment)) :=
  deploymentIDs <- act (stByTwin twin) (StByTwin twin) ;;
  match deploymentIDs with
  | Err err => ret (Err err)
  | Val deploymentIDs =>
      append_err (fun id =>
        deployment <- StorageGet twin id ;;
        match deployment with
        | Err err => ret (Err err)
        | Val deployment =>
            if negb (IsActive deployment) then ret (Val []) else ret (Val [deployment])
        end) deploymentIDs
  end.

Definition Changes (twin contractID : Z) : M S ecall (res (list Workload)) :=
  changes <- act (stChanges twin contractID) (fun _ => StChanges twin contractID) ;;
  match changes with
  | Err err =>
      if errors_Is err ErrDeploymentNotExists_id then ret (Err (Fresh "deployment not found"))
      else ret (Err err)
  | Val changes => ret (Val changes)
  end.

(** The public IPs of one deployment. *)
Fixpoint public_ips_of (ws : list WorkloadWithID) : res (list string) :=
  match ws with
  | [] => Val []
  | w :: ws =>
      if negb (bool_decide (State (WResult (wl_of w)) = StateOk)) then public_ips_of ws
      else
        match UnmarshalPublicIP (WResult (wl_of w)) with
        | Err err => Err err
        | Val ip =>
            match public_ips_of ws with
            | Err err => Err err
            | Val ips => Val (match ip with Some ip => ip :: ips | None => ips end)
            end
        end
  end.

Definition ListPublicIPs : M S ecall (res (list string)) :=
  twins <- act stTwins StTwins ;;
  match twins with
  | Err err => ret (Err (Wrapped "failed to list twins" err))
  | Val twins =>
      append_err (fun twin =>
        deploymentsIDs <- act (stByTwin twin) (StByTwin twin) ;;
        match deploymentsIDs with
        | Err err => ret (Err (Wrapped "failed to list twin deployment" err))
        | Val deploymentsIDs =>
            append_err (fun id =>
              deployment <- StorageGet twin id ;;
              match deployment with
              | Err err => ret (Err (Wrapped "failed to load deployment" err))
              | Val deployment =>
                  ret (public_ips_of (ByType deployment [PublicIPv4Type; PublicIPType]))
              end) deploymentsIDs
        end) twins
  end.

(** The IPs of one machine on [network]; the outer [None] is the panic of the
    type assertion on other data. *)
Definition private_ips_of (network : string) (vm : WorkloadWithID)
    : option (res (list string)) :=
  if IsAny (State (WResult (wl_of vm))) [StateDeleted; StateError] then Some (Val [])
  else
    match WorkloadData_ (wl_of vm) with
    | Err err => Some (Err err)
    | Val (DZMachine interfaces) =>
        Some (Val (map snd (filter (fun inf => inf.1 = network) interfaces)))
    | Val _ => None
    end.

Fixpoint private_ips (network : string) (vms : list WorkloadWithID)
    : option (res (list string)) :=
  match vms with
  | [] => Some (Val [])
  | vm :: vms =>
      ips ← private_ips_of network vm;
      match ips with
      | Err err => Some (Err err)
      | Val ips =>
          rest ← private_ips network vms;
          Some (match rest with Err err => Err err | Val rest => Val (ips ++ rest) end)
      end
  end.

Definition ListPrivateIPs (twin : Z) (network : string)
    : M S ecall (option (res (list string))) :=
  deployments <- List_ twin ;;
  match deployments with
  | Err err => ret (Some (Err err))
  | Val deployments =>
      ret (private_ips network (deployments ≫= (fun d => ByType d [ZMachineType])))
  end.

Definition isNotFoundError (err : error) : bool :=
  errors_Is err ErrWorkloadNotExist_id || errors_Is err ErrDeploymentNotExists_id.

(** Status, existence, error. *)
Definition GetWorkloadStatus (id : string) : M S ecall (string * bool * option error) :=
  let '((twin, dlID, name), err) := Parts id in
  match err with
  | Some err => ret ("", false, Some err)
  | None =>
      wl <- Current twin dlID name ;;
      match wl with
      | Err err =>
          if isNotFoundError err then ret ("", false, None) else ret ("", false, Some err)
      | Val wl => ret (State (WResult wl), true, None)
      end
  end.
End api.
