(* ===== verification/EngineLaws.v ===== *)
(** * What the engine relies on of its environment

    [EngineView] names the two parts of the outside state the theorems speak of:
    the current record of each workload and the queued jobs.  [EngineLaws] states
    how the storage and the queue act on them, failures included: an operation
    that answers an error leaves its part as it was, and nothing else touches
    either part. *)

From S2P Require Import Prelude GridTypes Sorting Engine.

(** A workload is stored under its twin, its deployment and its name. *)
Notation wl_key := (Z * Z * string)%type.

Class EngineView (S : Type) := {
  db : S -> gmap wl_key Workload;
  jobs : S -> list engineJob }.

(** The part [f] of the state after an operation that answers an error or
    applies [upd]. *)
Notation applied f upd op :=
  (forall s, f (op s).2 = match (op s).1 with None => upd (f s) | Some _ => f s end).

(** An operation leaves [f] alone. *)
Notation keeps f op := (forall s, f (op s).2 = f s).

Class EngineLaws `{!GridTypes} {S : Type} `{!EngineEnv S, !EngineView S} : Prop := {
  Current_val twin dl name s w :
    (stCurrent twin dl name s).1 = Val w -> db s !! (twin, dl, name) = Some w;
  Current_absent twin dl name s err :
    (stCurrent twin dl name s).1 = Err err -> errors_Is err ErrWorkloadNotExist_id = true ->
    db s !! (twin, dl, name) = None;
  db_Current twin dl name : keeps db (stCurrent twin dl name);
  db_Transaction twin dl w :
    applied db (<[(twin, dl, Name w) := w]>) (stTransaction twin dl w);
  db_Add twin dl w : applied db (<[(twin, dl, Name w) := w]>) (stAdd twin dl w);
  db_Remove twin dl name : applied db (delete (twin, dl, name)) (stRemove twin dl name);
  db_now : keeps db now;
  db_pvProvision ctx w : keeps db (pvProvision ctx w);
  db_pvDeprovision ctx w : keeps db (pvDeprovision ctx w);
  db_pvUpdate ctx w : keeps db (pvUpdate ctx w);
  db_pvPause ctx w : keeps db (pvPause ctx w);
  db_pvResume ctx w : keeps db (pvResume ctx w);
  jobs_Enqueue j : applied jobs (fun l => l ++ [j]) (qEnqueue j);
  jobs_Dequeue : applied jobs tail qDequeue;
  jobs_Peek s j : (qPeekBlock s).1 = Val j -> head (jobs s) = Some j;
  jobs_PeekBlock : keeps jobs qPeekBlock;
  jobs_now : keeps jobs now;
  jobs_Create d : keeps jobs (stCreate d);
  jobs_Get twin dl : keeps jobs (stGet twin dl);
  jobs_Update twin dl fs : keeps jobs (stUpdate twin dl fs);
  jobs_Error twin dl err : keeps jobs (stError twin dl err);
  jobs_Add twin dl w : keeps jobs (stAdd twin dl w);
  jobs_Remove twin dl name : keeps jobs (stRemove twin dl name);
  jobs_Transaction twin dl w : keeps jobs (stTransaction twin dl w);
  jobs_Current twin dl name : keeps jobs (stCurrent twin dl name);
  jobs_Delete twin dl : keeps jobs (stDelete twin dl);
  jobs_Twins : keeps jobs stTwins;
  jobs_ByTwin twin : keeps jobs (stByTwin twin);
  jobs_pvProvision ctx w : keeps jobs (pvProvision ctx w);
  jobs_pvDeprovision ctx w : keeps jobs (pvDeprovision ctx w);
  jobs_pvUpdate ctx w : keeps jobs (pvUpdate ctx w);
  jobs_pvPause ctx w : keeps jobs (pvPause ctx w);
  jobs_pvResume ctx w : keeps jobs (pvResume ctx w);
  jobs_GetContract id : keeps jobs (gwGetContract id);
  jobs_GetRent node : keeps jobs (gwGetNodeRentContract node);
  jobs_Changes twin dl : keeps jobs (stChanges twin dl);
  jobs_Kyc retryMax url twin : keeps jobs (kycGet retryMax url twin);
  (* retryablehttp: "RetryMax: maximum number of retries" *)
  kyc_requests retryMax url twin s : (kycGet retryMax url twin s).1.1 <= Datatypes.S retryMax;
  jobs_Verify d tw : (forall id, keeps jobs (tw id)) -> keeps jobs (dlVerify d tw);
  jobs_backoff : keeps jobs backoffStop }.

(** Follow [db] through the operations, those that may fail included. *)
Ltac dbrun :=
  repeat (progress (rewrite ?db_Current, ?db_now, ?db_pvProvision, ?db_pvDeprovision,
    ?db_pvUpdate, ?db_pvPause, ?db_pvResume, ?db_Transaction, ?db_Add, ?db_Remove;
    cbn [fst snd])).

(** Programs that leave the queue alone. *)
Section keeps.
Context {S C B : Type} (f : S -> B).
Definition preserves {A} (m : M S C A) : Prop := forall s, f (final m s) = f s.

Lemma preserves_ret {A} (a : A) : preserves (ret a).
Proof. by intros s. Qed.
Lemma preserves_bind {A D} (m : M S C A) (k : A -> M S C D) :
  preserves m -> (forall a, preserves (k a)) -> preserves (bind m k).
Proof. intros Hm Hk s. rewrite final_bind. by rewrite Hk, Hm. Qed.
Lemma preserves_act {A} (g : S -> A * S) (c : A -> C) : keeps f g -> preserves (act g c).
Proof. intros Hg s. by rewrite final_act. Qed.
Lemma preserves_peek {A} (g : S -> A * S) : keeps f g -> preserves (peek (C:=C) g).
Proof. intros Hg s. by rewrite final_peek. Qed.
Lemma preserves_for_each {A D} (g : A -> M S C D) l :
  (forall x, preserves (g x)) -> preserves (for_each g l).
Proof.
  intros Hg. induction l as [|x l IH]; simpl; [apply preserves_ret|].
  by apply preserves_bind.
Qed.
End keeps.

Ltac preserve :=
  repeat first
    [ apply preserves_ret | apply preserves_for_each; intros
    | apply preserves_bind; [|intros]
    | apply preserves_act | apply preserves_peek | solve [eauto with go]
    | match goal with |- preserves _ (match ?x with _ => _ end) => destruct x end ].
#[export] Hint Resolve jobs_PeekBlock jobs_now jobs_Create jobs_Get jobs_Update
  jobs_Error jobs_Add jobs_Remove jobs_Transaction jobs_Current jobs_Delete
  jobs_Twins jobs_ByTwin jobs_pvProvision jobs_pvDeprovision jobs_pvUpdate
  jobs_pvPause jobs_pvResume jobs_GetContract jobs_GetRent jobs_Changes jobs_Kyc
  jobs_backoff : go.

Section engine.
Context `{!GridTypes, !SortSlice} {S : Type} `{!EngineEnv S, !EngineView S, !EngineLaws}.

Lemma jobs_uninstallWorkload ctx w reason : preserves jobs (uninstallWorkload ctx w reason).
Proof. unfold uninstallWorkload, Current, Transaction. preserve. Qed.
Lemma jobs_installWorkload ctx w : preserves jobs (installWorkload ctx w).
Proof. unfold installWorkload, Current, Transaction. preserve. Qed.
Lemma jobs_updateWorkload ctx w : preserves jobs (updateWorkload ctx w).
Proof. unfold updateWorkload, Current, Transaction. preserve. Qed.
Lemma jobs_lockWorkload ctx w lock : preserves jobs (lockWorkload ctx w lock).
Proof. unfold lockWorkload, Current, Transaction. preserve. Qed.
End engine.
