(* ===== verification/EngineWorkloads.v ===== *)
(** * Installing and removing workloads

    The operations on one workload refine step relations, which list the calls of
    an operation from the first to the last and what becomes of the stored record. *)

From S2P Require Import Prelude GridTypes Sorting StartupOrder Engine EngineLaws.
From Stdlib Require Import Sorted.

(** ** The stored record of a workload

    Each relation below relates the calls made, the error returned and the stored
    record of the workload before and after one operation. *)

(** A storage call that went wrong; that a workload is absent is not a failure. *)
Definition storage_failed (c : ecall) : Prop :=
  match c with
  | StCurrent _ _ _ (Err e) => errors_Is e ErrWorkloadNotExist_id = false
  | StTransaction _ _ _ (Some _) | StRemove _ _ _ (Some _) | StAdd _ _ _ (Some _) => True
  | _ => False
  end.

(** A record that no provision is attempted for: deleted or failed. *)
Definition final_record `{!GridTypes} (c : Workload) : Prop :=
  State (WResult c) = StateDeleted \/ State (WResult c) = StateError.

(** The result recorded for a provision that failed. *)
Definition failed_result `{!GridTypes} (time : Z) (err : error) (answered : Result) : Result :=
  MkResult time StateError (error_string err) (Data answered).

Section steps.
Context `{!GridTypes} (w : WorkloadWithID) (twin dl : Z).

Notation current r := (StCurrent twin dl (Name (wl_of w)) r).
Notation record r res := (StTransaction twin dl (WithResults (wl_of w) r) res).
Notation no_action err := (errors_Is err ErrNoActionNeeded_id = true).
Notation failure err := (errors_Is err ErrNoActionNeeded_id = false).

(** The record after a transaction with the result [r] that answered [res]. *)
Definition recorded (r : Result) (res : option error) (before : option Workload)
    : option Workload :=
  match res with None => Some (WithResults (wl_of w) r) | Some _ => before end.

(** Provisioning: the calls, what is returned, the record before and after. *)
Inductive provision_step
    : list ecall -> option error -> option Workload -> option Workload -> Prop :=
| provision_unneeded r err before : no_action err ->
    provision_step [PvProvision w (r, Some err)] None before before
| provision_error r err time res before : failure err ->
    provision_step [PvProvision w (r, Some err); record (failed_result time err r) res]
      res before (recorded (failed_result time err r) res before)
| provision_done r res before :
    provision_step [PvProvision w (r, None); record r res] res before (recorded r res before).

(** Installing: the record is read; a record that is not final is provisioned; a
    workload without a record is added, and then provisioned. *)
Inductive install_step
    : list ecall -> option error -> option Workload -> option Workload -> Prop :=
| install_unread err before : errors_Is err ErrWorkloadNotExist_id = false ->
    install_step [current (Err err)]
      (Some (Wrapped ("failed to get last transaction for '" +:+ ID w +:+ "'") err)) before before
| install_final c : final_record c ->
    install_step [current (Val c)] None (Some c) (Some c)
| install_again c l res after : ~ final_record c -> provision_step l res (Some c) after ->
    install_step (current (Val c) :: l) res (Some c) after
| install_unadded err add : errors_Is err ErrWorkloadNotExist_id = true ->
    install_step [current (Err err); StAdd twin dl (wl_of w) (Some add)]
      (Some (Wrapped "failed to add workload to storage" add)) None None
| install_new err l res after : errors_Is err ErrWorkloadNotExist_id = true ->
    provision_step l res (Some (wl_of w)) after ->
    install_step (current (Err err) :: StAdd twin dl (wl_of w) None :: l) res None after.

(** Uninstalling: a workload with a record is given to the provisioner; its failure
    is recorded as such; otherwise the record is marked deleted and then removed. *)
Inductive uninstall_step (reason : string)
    : list ecall -> option error -> option Workload -> option Workload -> Prop :=
| uninstall_unread err before : errors_Is err ErrWorkloadNotExist_id = false ->
    uninstall_step reason [current (Err err)] (Some err) before before
| uninstall_absent err : errors_Is err ErrWorkloadNotExist_id = true ->
    uninstall_step reason [current (Err err)] None None None
| uninstall_error c err time res :
    let r := MkResult time StateError (error_string err) "" in
    uninstall_step reason [current (Val c); PvDeprovision w (Some err); record r res]
      res (Some c) (recorded r res (Some c))
| uninstall_unmarked c err time :
    uninstall_step reason
      [current (Val c); PvDeprovision w None;
       record (MkResult time StateDeleted reason "") (Some err)]
      (Some err) (Some c) (Some c)
| uninstall_marked c time err :
    let r := MkResult time StateDeleted reason "" in
    uninstall_step reason
      [current (Val c); PvDeprovision w None; record r None;
       StRemove twin dl (Name (wl_of w)) (Some err)]
      (Some err) (Some c) (Some (WithResults (wl_of w) r))
| uninstall_removed c time :
    uninstall_step reason
      [current (Val c); PvDeprovision w None; record (MkResult time StateDeleted reason "") None;
       StRemove twin dl (Name (wl_of w)) None]
      None (Some c) None.

(** The call that pauses ([lock]) or resumes a workload. *)
Definition lock_call (lock : bool) (r : Result * option error) : ecall :=
  if lock then PvPause w r else PvResume w r.

(** Pausing and resuming: only a record in an okay state is passed to the
    provisioner, whose result is recorded. *)
Inductive lock_step (lock : bool)
    : list ecall -> option error -> option Workload -> option Workload -> Prop :=
| lock_unread err before : (errors_Is err ErrWorkloadNotExist_id = true -> before = None) ->
    lock_step lock [current (Err err)]
      (Some (Wrapped ("failed to get last transaction for '" +:+ ID w +:+ "'") err)) before before
| lock_refused c : IsOkay (State (WResult c)) = false ->
    lock_step lock [current (Val c)] None (Some c) (Some c)
| lock_unneeded c r err : IsOkay (State (WResult c)) = true -> no_action err ->
    lock_step lock [current (Val c); lock_call lock (r, Some err)] None (Some c) (Some c)
| lock_error c r err : IsOkay (State (WResult c)) = true -> failure err ->
    lock_step lock [current (Val c); lock_call lock (r, Some err)] (Some err) (Some c) (Some c)
| lock_done c r res : IsOkay (State (WResult c)) = true ->
    lock_step lock [current (Val c); lock_call lock (r, None); record r res]
      res (Some c) (recorded r res (Some c)).

(** Updating: a type that cannot be updated is an error before any call; otherwise
    the provisioner's result is recorded, or the record's own result when nothing had
    to be done. *)
Inductive update_step (can : bool)
    : list ecall -> option error -> option Workload -> option Workload -> Prop :=
| update_unsupported before : can = false ->
    update_step can [] (Some (Fresh "can not update this workload type")) before before
| update_error r err before : can = true -> failure err ->
    update_step can [PvUpdate w (r, Some err)] (Some err) before before
| update_unread r err err' before : can = true -> no_action err ->
    (errors_Is err' ErrWorkloadNotExist_id = true -> before = None) ->
    update_step can [PvUpdate w (r, Some err); current (Err err')] (Some err') before before
| update_unneeded r err c res : can = true -> no_action err ->
    update_step can [PvUpdate w (r, Some err); current (Val c); record (WResult c) res]
      res (Some c) (recorded (WResult c) res (Some c))
| update_done r res before : can = true ->
    update_step can [PvUpdate w (r, None); record r res] res before (recorded r res before).
End steps.

Ltac off_key := intros ? ?; by rewrite ?lookup_delete_ne, ?lookup_insert_ne by done.

Section workloads.
Context `{!GridTypes, !GridTypesLaws, !SortSlice} {S : Type}.
Context `{!EngineEnv S, !EngineView S, !EngineLaws}.

Lemma final_record_spec c :
  IsAny (State (WResult c)) [StateDeleted; StateError] = true <-> final_record c.
Proof. rewrite IsAny_spec. unfold final_record. set_solver. Qed.

Lemma installWorkload_step ctx w twin dl s :
  (Parts (ID w)).1 = (twin, dl, Name (wl_of w)) ->
  let m := installWorkload ctx w in
  install_step w twin dl (calls m s) (result m s)
    (db s !! (twin, dl, Name (wl_of w))) (db (final m s) !! (twin, dl, Name (wl_of w))) /\
  forall k, k <> (twin, dl, Name (wl_of w)) -> db (final m s) !! k = db s !! k.
Proof.
  intros Hid m. subst m. unfold installWorkload, Current, Transaction.
  destruct (Parts (ID w)) as [k0 perr]. simpl in Hid. subst k0.
  run. destruct (stCurrent _ _ _ s).1 as [c|err] eqn:Ec; run.
  - apply Current_val in Ec. rewrite Ec. destruct (IsAny _ _) eqn:Eany; run.
    + dbrun. rewrite Ec. split; [|done]. by apply install_final, final_record_spec.
    + assert (~ final_record c) as Hc by (rewrite <- final_record_spec; congruence).
      destruct (pvProvision _ _ _).1 as [r e] eqn:Ep; run.
      destruct e as [e|]; simpl; [destruct (errors_Is e _) eqn:Ee|]; run; dbrun.
      { rewrite Ec. split; [|done]. by apply install_again, provision_unneeded. }
      all: destruct (stTransaction _ _ _ _).1 as [terr|];
        rewrite ?WithResults_name, ?lookup_insert_eq, ?Ec.
      all: split; [apply install_again; [done|]|done || off_key].
      1: by eapply (provision_error w twin dl r e _ (Some terr)).
      1: by eapply (provision_error w twin dl r e _ None (Some c)).
      1: apply (provision_done w twin dl r (Some terr)).
      apply (provision_done w twin dl r None).
  - destruct (errors_Is err _) eqn:Eis; run; [|dbrun; split; [by apply install_unread|done]].
    pose proof (Current_absent _ _ _ _ _ Ec Eis) as Habs. rewrite Habs.
    destruct (stAdd _ _ _ _).1 as [e|] eqn:Ea; run; dbrun; rewrite ?Ea; dbrun.
    { rewrite Habs. split; [by apply install_unadded|done]. }
    destruct (pvProvision _ _ _).1 as [r e] eqn:Ep; run.
    destruct e as [e|]; simpl; [destruct (errors_Is e _) eqn:Ee|]; run; dbrun; rewrite ?Ea; dbrun.
    { rewrite lookup_insert_eq. split; [|off_key]. by apply install_new, provision_unneeded. }
    all: destruct (stTransaction _ _ _ _).1 as [terr|]; rewrite ?WithResults_name, ?lookup_insert_eq.
    all: split; [apply install_new; [done|]|off_key].
    1: by eapply (provision_error w twin dl r e _ (Some terr)).
    1: by eapply (provision_error w twin dl r e _ None (Some (wl_of w))).
    1: apply (provision_done w twin dl r (Some terr)).
    apply (provision_done w twin dl r None).
Qed.

(** C1: Installing a workload makes exactly one of the sequences of calls of [install_step],
    with the error it returns and the record before and after: the record is read first; a
    failed read is returned; a final record (deleted or in error) is left as it is and the
    provisioner is not asked; a workload without a record is added, and the provisioner is
    asked only when that succeeded; no action needed leaves the record as it is, and
    otherwise what the provisioner answered, its error as a result in state error, is
    written in one transaction, which changes the record unless it fails and whose error is
    returned. No other record changes. *)
Theorem installWorkload_refines ctx w twin dl s :
  (Parts (ID w)).1 = (twin, dl, Name (wl_of w)) ->
  let m := installWorkload ctx w in
  install_step w twin dl (calls m s) (result m s)
    (db s !! (twin, dl, Name (wl_of w))) (db (final m s) !! (twin, dl, Name (wl_of w))) /\
  forall k, k <> (twin, dl, Name (wl_of w)) -> db (final m s) !! k = db s !! k.
Proof. apply installWorkload_step. Qed.

(** C2: Uninstalling a workload makes exactly one of the sequences of calls of
    [uninstall_step]: a workload without a record is not touched and is no error, any other
    failed read is returned; when the provisioner fails its error is recorded in state
    error; otherwise a transaction first marks the record deleted with the given reason and
    only then it is removed, so that a failed transaction leaves the record as it was and a
    failed removal leaves it marked deleted, both returned as the error. No other record
    changes. *)
Theorem uninstallWorkload_refines ctx w reason twin dl s :
  (Parts (ID w)).1 = (twin, dl, Name (wl_of w)) ->
  let m := uninstallWorkload ctx w reason in
  uninstall_step w twin dl reason (calls m s) (result m s)
    (db s !! (twin, dl, Name (wl_of w))) (db (final m s) !! (twin, dl, Name (wl_of w))) /\
  forall k, k <> (twin, dl, Name (wl_of w)) -> db (final m s) !! k = db s !! k.
Proof.
  intros Hid m. subst m. unfold uninstallWorkload, Current, Transaction.
  destruct (Parts (ID w)) as [k0 perr]. simpl in Hid. subst k0.
  run. destruct (stCurrent _ _ _ s).1 as [c|err] eqn:Ec; run.
  2:{ destruct (errors_Is err _) eqn:Eis; run; dbrun; (split; [|done]).
      - rewrite (Current_absent _ _ _ _ _ Ec Eis). by apply uninstall_absent.
      - by apply uninstall_unread. }
  apply Current_val in Ec. rewrite Ec.
  destruct (pvDeprovision _ _ _).1 as [err|] eqn:Ed; run.
  - rewrite bool_decide_eq_false_2 by eauto with go.
    destruct (stTransaction _ _ _ _).1 as [terr|] eqn:Et; run; dbrun; rewrite ?Et; dbrun;
      rewrite ?WithResults_name, ?lookup_insert_eq, ?Ec; (split; [|done || off_key]).
    + apply (uninstall_error w twin dl reason c err _ (Some terr)).
    + apply (uninstall_error w twin dl reason c err _ None).
  - rewrite bool_decide_eq_true_2 by done.
    destruct (stTransaction _ _ _ _).1 as [terr|] eqn:Et; run; dbrun; rewrite ?Et; dbrun.
    { rewrite Ec. split; [apply uninstall_unmarked|done]. }
    rewrite WithResults_name.
    destruct (stRemove _ _ _ _).1 as [rerr|] eqn:Er; dbrun; (split; [|off_key]).
    + rewrite lookup_insert_eq. apply uninstall_marked.
    + rewrite lookup_delete_eq. apply uninstall_removed.
Qed.

(** A workload that was deleted or failed is not provisioned again. *)
Theorem installWorkload_terminal ctx w twin dl name s c :
  (Parts (ID w)).1 = (twin, dl, name) ->
  (stCurrent twin dl name s).1 = Val c ->
  State (WResult c) = StateDeleted \/ State (WResult c) = StateError ->
  let m := installWorkload ctx w in
  calls m s = [StCurrent twin dl name (Val c)] /\ result m s = None /\ db (final m s) = db s.
Proof.
  intros Hid Hc Hst m. subst m. unfold installWorkload, Current.
  destruct (Parts (ID w)) as [k0 perr]. simpl in Hid. subst k0.
  assert (Hany : IsAny (State (WResult c)) [StateDeleted; StateError] = true)
    by (apply IsAny_true; destruct Hst as [->| ->]; set_solver).
  run. rewrite Hc. run. rewrite Hany. run. by dbrun.
Qed.

(** When provisioning fails, the last thing [installWorkload] does is record a result in
    state error with the error's text and the provisioner's data, and it returns the
    storage's answer; when no action was needed nothing is recorded. *)
Theorem installWorkload_error_recorded ctx w twin dl name s r e :
  (Parts (ID w)).1 = (twin, dl, name) ->
  PvProvision w (r, Some e) ∈ calls (installWorkload ctx w) s ->
  if errors_Is e ErrNoActionNeeded_id
  then result (installWorkload ctx w) s = None /\
       forall t d w' r', StTransaction t d w' r' ∉ calls (installWorkload ctx w) s
  else exists created res,
    last (calls (installWorkload ctx w) s) =
      Some (StTransaction twin dl (WithResults (wl_of w) (failed_result created e r)) res) /\
    result (installWorkload ctx w) s = res.
Proof.
  intros Hid. unfold installWorkload, Current, Transaction.
  destruct (Parts (ID w)) as [k0 perr]. simpl in Hid. subst k0.
  run. destruct (stCurrent _ _ _ s).1 as [c|err] eqn:Ec; run.
  - destruct (IsAny _ _); run; [set_solver|].
    destruct (pvProvision _ _ _).1 as [r' e'] eqn:Ep; run.
    destruct e' as [e'|]; simpl; [destruct (errors_Is e' _) eqn:Ei|]; run;
      intros Hin; repeat (apply elem_of_cons in Hin as [Hin|Hin]; [simplify_eq/=|]); try set_solver.
    all: rewrite Ei; try (split; [done|set_solver]); eauto.
  - destruct (errors_Is err _) eqn:Eis; run; [|set_solver].
    destruct (stAdd _ _ _ _).1 as [ae|] eqn:Ea; run; [set_solver|].
    destruct (pvProvision _ _ _).1 as [r' e'] eqn:Ep; run.
    destruct e' as [e'|]; simpl; [destruct (errors_Is e' _) eqn:Ei|]; run;
      intros Hin; repeat (apply elem_of_cons in Hin as [Hin|Hin]; [simplify_eq/=|]); try set_solver.
    all: rewrite Ei; try (split; [done|set_solver]); eauto.
Qed.

Lemma lockWorkload_step ctx w lock twin dl s :
  (Parts (ID w)).1 = (twin, dl, Name (wl_of w)) ->
  let m := lockWorkload ctx w lock in
  lock_step w twin dl lock (calls m s) (result m s)
    (db s !! (twin, dl, Name (wl_of w))) (db (final m s) !! (twin, dl, Name (wl_of w))) /\
  forall k, k <> (twin, dl, Name (wl_of w)) -> db (final m s) !! k = db s !! k.
Proof.
  intros Hid m. subst m. unfold lockWorkload, Current, Transaction.
  destruct (Parts (ID w)) as [k0 perr]. simpl in Hid. subst k0.
  run. destruct (stCurrent _ _ _ s).1 as [c|err] eqn:Ec; run.
  2:{ dbrun. split; [|done]. apply lock_unread. eauto using Current_absent. }
  apply Current_val in Ec. rewrite Ec.
  destruct (IsOkay _) eqn:Eok; simpl; run;
    [|dbrun; rewrite Ec; split; [by apply lock_refused|done]].
  destruct lock; run.
  all: match goal with |- context [match ?x with (_, _) => _ end] => destruct x as [r e] eqn:Ep end.
  all: destruct e as [e|]; simpl; [destruct (errors_Is e _) eqn:Ee|]; run; dbrun; rewrite ?Ec.
  1: split; [by apply (lock_unneeded w twin dl true c r e)|done].
  1: split; [by apply (lock_error w twin dl true c r e)|done].
  2: split; [by apply (lock_unneeded w twin dl false c r e)|done].
  2: split; [by apply (lock_error w twin dl false c r e)|done].
  all: destruct (stTransaction _ _ _ _).1 as [terr|]; rewrite ?WithResults_name, ?lookup_insert_eq, ?Ec;
    (split; [|done || off_key]).
  - by apply (lock_done w twin dl true c r (Some terr)).
  - by apply (lock_done w twin dl true c r None).
  - by apply (lock_done w twin dl false c r (Some terr)).
  - by apply (lock_done w twin dl false c r None).
Qed.

(** C15: Pausing or resuming a workload makes exactly one of the sequences of calls of
    [lock_step]: the record is read, an absent or unreadable one is an error; a record that
    is not in an okay state is left alone without asking the provisioner and without an
    error; otherwise the provisioner is asked once, its error is returned and changes
    nothing, no action needed changes nothing, and its result is recorded in one transaction
    whose error is returned. No other record changes. *)
Theorem lockWorkload_refines ctx w lock twin dl s :
  (Parts (ID w)).1 = (twin, dl, Name (wl_of w)) ->
  let m := lockWorkload ctx w lock in
  lock_step w twin dl lock (calls m s) (result m s)
    (db s !! (twin, dl, Name (wl_of w))) (db (final m s) !! (twin, dl, Name (wl_of w))) /\
  forall k, k <> (twin, dl, Name (wl_of w)) -> db (final m s) !! k = db s !! k.
Proof. apply lockWorkload_step. Qed.

(** C19: Updating a workload makes exactly one of the sequences of calls of [update_step]: a
    workload of a type that cannot be updated is an error before any call; the provisioner's
    error is returned and changes nothing; its result is recorded, or the record's own
    result when no action was needed, in one transaction whose error is returned and leaves
    the record as it was. No other record changes. *)
Theorem updateWorkload_refines ctx w twin dl s :
  (Parts (ID w)).1 = (twin, dl, Name (wl_of w)) ->
  let m := updateWorkload ctx w in
  update_step w twin dl (pvCanUpdate ctx (Type_ (wl_of w))) (calls m s) (result m s)
    (db s !! (twin, dl, Name (wl_of w))) (db (final m s) !! (twin, dl, Name (wl_of w))) /\
  forall k, k <> (twin, dl, Name (wl_of w)) -> db (final m s) !! k = db s !! k.
Proof.
  intros Hid m. subst m. unfold updateWorkload, Current, Transaction.
  destruct (Parts (ID w)) as [k0 perr]. simpl in Hid. subst k0.
  destruct (pvCanUpdate ctx _); run; [|split; [by apply update_unsupported|done]].
  destruct (pvUpdate _ _ _).1 as [r e] eqn:Ep; simpl.
  destruct e as [e|]; simpl; [destruct (errors_Is e _) eqn:Ee|]; run.
  - destruct (stCurrent _ _ _ _).1 as [c|err] eqn:Ec; run; dbrun.
    + apply Current_val in Ec. revert Ec. dbrun. intros Ec. rewrite ?Ec.
      destruct (stTransaction _ _ _ _).1 as [terr|]; rewrite ?WithResults_name, ?lookup_insert_eq, ?Ec;
        (split; [|done || off_key]).
      * by eapply (update_unneeded w twin dl _ r e c (Some terr)).
      * by eapply (update_unneeded w twin dl _ r e c None).
    + split; [|done]. apply update_unread; [done..|]. intros Eis.
      pose proof (Current_absent _ _ _ _ _ Ec Eis) as Habs. revert Habs. by dbrun.
  - dbrun. split; [|done]. by apply update_error.
  - dbrun. destruct (stTransaction _ _ _ _).1 as [terr|]; rewrite ?WithResults_name, ?lookup_insert_eq;
      (split; [|done || off_key]).
    + by eapply (update_done w twin dl _ r (Some terr)).
    + by eapply (update_done w twin dl _ r None).
Qed.
End workloads.
