(* ===== verification/EngineDeployments.v ===== *)
(** * Deployments: the order of the work, and when a deployment is deleted *)

From S2P Require Import Prelude GridTypes Sorting StartupOrder Engine EngineLaws EngineWorkloads.
From Stdlib Require Import Sorted.

(** The workloads a run provisioned and deprovisioned, in order. *)
Definition provisioned (l : list ecall) : list WorkloadWithID :=
  omap (fun c => match c with PvProvision w _ => Some w | _ => None end) l.
Definition deprovisioned (l : list ecall) : list WorkloadWithID :=
  omap (fun c => match c with PvDeprovision w _ => Some w | _ => None end) l.

(** The stored records a run read, in order, and the record of a workload. *)
Definition visited (l : list ecall) : list (Z * Z * string) :=
  omap (fun c => match c with StCurrent t d n _ => Some (t, d, n) | _ => None end) l.
Definition stored_key `{!GridTypes} (w : WorkloadWithID) : Z * Z * string := (Parts (ID w)).1.

Lemma visited_app l k : visited (l ++ k) = visited l ++ visited k.
Proof. apply omap_app. Qed.

Lemma provisioned_app l k : provisioned (l ++ k) = provisioned l ++ provisioned k.
Proof. apply omap_app. Qed.
Lemma deprovisioned_app l k : deprovisioned (l ++ k) = deprovisioned l ++ deprovisioned k.
Proof. apply omap_app. Qed.

Lemma deprovisioned_none l :
  Forall (fun c => match c with PvDeprovision _ _ => False | _ => True end) l ->
  deprovisioned l = [].
Proof. induction 1 as [|c l Hc _ IH]; [done|]. destruct c; simpl; done. Qed.

Lemma StronglySorted_sublist {A} (R : A -> A -> Prop) l k :
  sublist l k -> StronglySorted R k -> StronglySorted R l.
Proof.
  induction 1 as [|x l k Hs IH|x l k Hs IH]; intros Hk; [done| |].
  - inversion_clear Hk. constructor; [by apply IH|].
    rewrite Forall_forall in *. intros y Hy. by eapply H0, elem_of_sublist.
  - inversion_clear Hk. by apply IH.
Qed.

Lemma StronglySorted_snoc {A} (R : A -> A -> Prop) l t :
  StronglySorted R l -> Forall (fun x => R x t) l -> StronglySorted R (l ++ [t]).
Proof.
  induction 1 as [|x l Hl IH Hx]; intros Ht; simpl; [by repeat constructor|].
  apply Forall_cons in Ht as [Hxt Ht]. constructor; [by apply IH|].
  apply Forall_app. by rewrite Forall_singleton.
Qed.

Lemma StronglySorted_reverse {A} (R : A -> A -> Prop) l :
  StronglySorted R l -> StronglySorted (fun a b => R b a) (reverse l).
Proof.
  induction 1 as [|x l Hl IH Hx]; [constructor|]. rewrite reverse_cons.
  apply StronglySorted_snoc; [done|]. by rewrite Forall_reverse.
Qed.

Section order.
Context `{!GridTypes, !GridTypesLaws, !SortSlice, !SortSliceLaws} {S : Type} `{!EngineEnv S}.
Variable e : NativeEngine S.

Definition type_index (w : WorkloadWithID) : Z := index_of (startup e) (Type_ (wl_of w)).

(** Lists of workloads taken type by type, [f typ] being of type [typ]. *)
Lemma groups_sorted (R : Z -> Z -> Prop) (f : string -> list WorkloadWithID) l :
  (forall z, R z z) -> (forall typ w, w ∈ f typ -> Type_ (wl_of w) = typ) ->
  StronglySorted (fun a b => R (index_of (startup e) a) (index_of (startup e) b)) l ->
  StronglySorted (fun a b => R (type_index a) (type_index b)) (l ≫= f).
Proof.
  intros Hrefl Hf. induction 1 as [|t l Hl IH Ht]; simpl; [constructor|].
  assert (Hw : forall w, w ∈ f t -> type_index w = index_of (startup e) t)
    by (intros w Hw; unfold type_index; by rewrite (Hf t w Hw)).
  assert (Hr : forall w, w ∈ l ≫= f -> R (index_of (startup e) t) (type_index w)).
  { intros w (t' & Hin & Ht')%list_elem_of_bind.
    rewrite Forall_forall in Ht. unfold type_index. rewrite (Hf t' w Hin). by apply Ht. }
  clear Hl Ht. induction (f t) as [|w ws IHws]; simpl; [done|].
  constructor; [apply IHws; set_solver|].
  apply Forall_forall. intros v [Hv|Hv]%elem_of_app.
  - rewrite (Hw w), (Hw v) by set_solver. apply Hrefl.
  - rewrite (Hw w) by set_solver. by apply Hr.
Qed.

Hypothesis Hindexed : indexed (order (startup e)) (typeIndex (startup e)).

Lemma order_ascending :
  StronglySorted (fun a b => (index_of (startup e) a <= index_of (startup e) b)%Z)
    (order (startup e)).
Proof.
  destruct Hindexed as [_ Hi]. revert Hi. generalize (order (startup e)) as l.
  assert (Hgen : forall l off, (forall i typ, l !! i = Some typ ->
      typeIndex (startup e) !! typ = Some (Z.of_nat (off + i) + 1)%Z) ->
    StronglySorted (fun a b => (index_of (startup e) a <= index_of (startup e) b)%Z) l).
  { induction l as [|t l IH]; intros off Hi; [constructor|].
    constructor; [apply (IH (off + 1)); intros i typ Ht; rewrite <- Nat.add_assoc; by apply Hi|].
    apply Forall_forall. intros u [j Hj]%list_elem_of_lookup.
    unfold index_of. rewrite (Hi 0 t), (Hi (1 + j) u) by done. simpl. lia. }
  intros l Hi. by apply (Hgen l 0).
Qed.

Lemma order_descending :
  StronglySorted (fun a b => (index_of (startup e) b <= index_of (startup e) a)%Z)
    (reverse (order (startup e))).
Proof.
  apply (StronglySorted_reverse (fun a b =>
    (index_of (startup e) a <= index_of (startup e) b)%Z)), order_ascending.
Qed.

Lemma ByType_1 d typ w : w ∈ ByType d [typ] -> Type_ (wl_of w) = typ.
Proof. intros Hw%ByType_type. set_solver. Qed.
Lemma install_list_type d typ w : w ∈ install_list d typ -> Type_ (wl_of w) = typ.
Proof.
  unfold install_list. destruct (_ || _); [|apply ByType_1].
  unfold sortMountWorkloads. rewrite (sort_slice_perm mount_less). apply ByType_1.
Qed.

Lemma provisioned_installWorkload ctx w s :
  sublist (provisioned (calls (installWorkload ctx w) s)) [w].
Proof.
  unfold installWorkload, Current, Transaction. destruct (Parts _) as [[[t d] n] perr].
  repeat (run; first [apply sublist_nil_l | reflexivity | case_goal]).
Qed.

Lemma deprovisioned_uninstallWorkload ctx w reason s :
  sublist (deprovisioned (calls (uninstallWorkload ctx w reason) s)) [w].
Proof.
  unfold uninstallWorkload, Current, Transaction. destruct (Parts _) as [[[t d] n] perr].
  repeat (run; first [apply sublist_nil_l | reflexivity | case_goal]).
Qed.

Lemma provisioned_for_each {A} (f : A -> M S ecall unit) (g : A -> list WorkloadWithID) l s :
  (forall x s, sublist (provisioned (calls (f x) s)) (g x)) ->
  sublist (provisioned (calls (for_each f l) s)) (l ≫= g).
Proof.
  intros Hf. revert s. induction l as [|x l IH]; intros s; simpl; [constructor|].
  rewrite calls_bind, provisioned_app. by apply sublist_app.
Qed.

Lemma deprovisioned_uninstallAll ctx ws reason s :
  sublist (deprovisioned (calls (uninstallAll ctx ws reason) s)) ws.
Proof.
  revert s. induction ws as [|w ws IH]; intros s; simpl; [constructor|].
  rewrite calls_bind, calls_bind, calls_ret, app_nil_r, deprovisioned_app.
  apply (sublist_app _ [w] _ ws); [apply deprovisioned_uninstallWorkload|apply IH].
Qed.

Lemma provisioned_workloads ctx ws s :
  sublist (provisioned (calls (for_each (fun w => installWorkload ctx w) ws) s)) ws.
Proof.
  revert s. induction ws as [|w ws IH]; intros s; simpl; [constructor|].
  rewrite calls_bind, provisioned_app.
  apply (sublist_app _ [w] _ ws); [apply provisioned_installWorkload|apply IH].
Qed.

Lemma visited_installWorkload ctx w s :
  visited (calls (installWorkload ctx w) s) = [(Parts (ID w)).1].
Proof.
  unfold installWorkload, Current, Transaction. destruct (Parts _) as [[[t d] n] perr].
  repeat (run; first [reflexivity | case_goal]).
Qed.

Lemma visited_uninstallWorkload ctx w reason s :
  visited (calls (uninstallWorkload ctx w reason) s) = [(Parts (ID w)).1].
Proof.
  unfold uninstallWorkload, Current, Transaction. destruct (Parts _) as [[[t d] n] perr].
  repeat (run; first [reflexivity | case_goal]).
Qed.

Lemma visited_for_each {A B} (f : A -> M S ecall B) (g : A -> list WorkloadWithID) l s :
  (forall x s, visited (calls (f x) s) = map stored_key (g x)) ->
  visited (calls (for_each f l) s) = map stored_key (l ≫= g).
Proof.
  intros Hf. revert s. induction l as [|x l IH]; intros s; simpl; [done|].
  by rewrite calls_bind, visited_app, Hf, IH, map_app.
Qed.

Lemma visited_uninstallAll ctx ws reason s :
  visited (calls (uninstallAll ctx ws reason) s) = map stored_key ws.
Proof.
  revert s. induction ws as [|w ws IH]; intros s; simpl; [done|].
  rewrite calls_bind, calls_bind, calls_ret, app_nil_r, visited_app.
  by rewrite visited_uninstallWorkload, IH.
Qed.

Lemma bind_singletons {A} (l : list A) : l ≫= (fun x => [x]) = l.
Proof. induction l as [|x l IH]; simpl; [done|]. unfold mbind in IH. by rewrite IH. Qed.

(** The workloads of one type, in the order in which they are to be installed: the
    mounts largest first, the workloads of any other type as the deployment lists them. *)
Definition install_group (d : Deployment) (typ : string) (ws : list WorkloadWithID) : Prop :=
  if decide (typ = ZMountType \/ typ = VolumeType)
  then ws ≡ₚ ByType d [typ] /\
       forall size, (forall w, w ∈ ws -> getMountSize (wl_of w) = Val (size w)) ->
         StronglySorted (fun a b => (size b <= size a)%Z) ws
  else ws = ByType d [typ].

Lemma install_list_group d typ : install_group d typ (install_list d typ).
Proof.
  unfold install_group, install_list. case_decide as Ht.
  - assert (bool_decide (typ = ZMountType) || bool_decide (typ = VolumeType) = true) as ->
      by (apply orb_true_iff; rewrite !bool_decide_eq_true; exact Ht).
    split; [apply sort_slice_perm|]. intros size Hs. apply sortMountWorkloads_sorted.
    intros w Hw. apply Hs. unfold sortMountWorkloads. by rewrite (sort_slice_perm mount_less).
  - by rewrite !bool_decide_eq_false_2 by tauto.
Qed.

(** C12: [installDeployment] visits every workload of the types of the startup order, type
    by type in that order: the mounts (zmount and volume) of a type by descending size,
    whenever all their sizes can be read, and the workloads of every other type as the
    deployment lists them; the provisioner is called on some of them, in that order, types
    ascending. *)
Theorem installDeployment_order ctx d s :
  exists groups, Forall2 (install_group d) (order (startup e)) groups /\
  visited (calls (installDeployment e ctx d) s) = map stored_key (mjoin groups) /\
  sublist (provisioned (calls (installDeployment e ctx d) s)) (mjoin groups) /\
  StronglySorted (fun a b => (type_index a <= type_index b)%Z)
    (provisioned (calls (installDeployment e ctx d) s)).
Proof.
  exists (map (install_list d) (order (startup e))).
  assert (mjoin (map (install_list d) (order (startup e))) = order (startup e) ≫= install_list d) as ->
    by (generalize (order (startup e)); intros l; induction l as [|typ l IH]; simpl; by rewrite ?IH).
  assert (Hs : sublist (provisioned (calls (installDeployment e ctx d) s))
                       (order (startup e) ≫= install_list d)).
  { unfold installDeployment. apply provisioned_for_each. intros typ s'.
    apply provisioned_workloads. }
  split_and!; [| |done|].
  - apply Forall2_fmap_r, Forall_Forall2_diag, Forall_forall. intros typ _. apply install_list_group.
  - unfold installDeployment. apply visited_for_each. intros typ s'.
    rewrite (visited_for_each _ (fun w => [w])) by apply visited_installWorkload.
    by rewrite bind_singletons.
  - eapply StronglySorted_sublist; [exact Hs|].
    apply (groups_sorted Z.le); [lia|apply install_list_type|apply order_ascending].
Qed.

(** [uninstallDeployment] visits every workload of the types of the startup order in
    reverse, and the provisioner is asked to deprovision in that order, types descending. *)
Theorem uninstallDeployment_order ctx d reason s :
  visited (calls (uninstallDeployment e ctx d reason) s) =
    map stored_key (by_types (reverse (order (startup e))) d) /\
  sublist (deprovisioned (calls (uninstallDeployment e ctx d reason) s))
          (by_types (reverse (order (startup e))) d) /\
  StronglySorted (fun a b => (type_index b <= type_index a)%Z)
    (deprovisioned (calls (uninstallDeployment e ctx d reason) s)).
Proof.
  assert (Hs : sublist (deprovisioned (calls (uninstallDeployment e ctx d reason) s))
                       (by_types (reverse (order (startup e))) d)).
  { unfold uninstallDeployment. rewrite calls_bind, deprovisioned_app.
    match goal with |- context [deprovisioned (calls (if ?b then ?m1 else ?m2) ?s2)] =>
      rewrite (deprovisioned_none (calls (if b then m1 else m2) s2))
        by (destruct b; run; by repeat constructor) end.
    rewrite app_nil_r. apply deprovisioned_uninstallAll. }
  split.
  { unfold uninstallDeployment. rewrite calls_bind, visited_app, visited_uninstallAll.
    destruct (result _ _); run; by rewrite app_nil_r. }
  split; [done|]. eapply StronglySorted_sublist; [exact Hs|].
  apply (groups_sorted (fun a b => b <= a)%Z); [lia|apply ByType_1|apply order_descending].
Qed.
End order.

(** ** When the deployment is deleted *)

Definition is_delete (c : ecall) : Prop := match c with StDelete _ _ _ => True | _ => False end.

Section delete.
Context `{!GridTypes, !SortSlice} {S : Type} `{!EngineEnv S}.
Variable e : NativeEngine S.

Ltac exists_case :=
  repeat (rewrite ?Exists_cons, ?Exists_nil; simpl);
  unfold is_Some; intuition (try congruence; eauto); destruct_and?;
  repeat match goal with Hex : exists _, _ |- _ => destruct Hex end; try congruence.

Lemma uninstallWorkload_failed ctx w reason s :
  is_Some (result (uninstallWorkload ctx w reason) s) <->
  Exists storage_failed (calls (uninstallWorkload ctx w reason) s).
Proof.
  unfold uninstallWorkload, Current, Transaction. destruct (Parts _) as [[[t d] n] perr].
  run. destruct (stCurrent _ _ _ s).1 as [c|err]; run.
  2:{ destruct (errors_Is err _) eqn:E; run; exists_case. }
  destruct (pvDeprovision _ _ _).1; run; destruct (stTransaction _ _ _ _).1; run.
  1,3: exists_case.
  all: destruct (bool_decide _); run; [destruct (stRemove _ _ _ _).1|]; exists_case.
Qed.

Lemma uninstallAll_failed ctx ws reason s :
  result (uninstallAll ctx ws reason) s = true <->
  Exists storage_failed (calls (uninstallAll ctx ws reason) s).
Proof.
  revert s. induction ws as [|w ws IH]; intros s; simpl.
  { run. rewrite Exists_nil. done. }
  rewrite !result_bind, !calls_bind, result_ret, calls_ret, app_nil_r, Exists_app.
  rewrite <- uninstallWorkload_failed, <- IH.
  destruct (result (uninstallWorkload ctx w reason) s); naive_solver.
Qed.

Lemma uninstallWorkload_no_delete ctx w reason s :
  Forall (fun c => ~ is_delete c) (calls (uninstallWorkload ctx w reason) s).
Proof.
  unfold uninstallWorkload, Current, Transaction. destruct (Parts _) as [[[t d] n] perr].
  repeat (run; first [solve [repeat (constructor; [by intros []|]); constructor] | case_goal]).
Qed.

Lemma uninstallAll_no_delete ctx ws reason s :
  Forall (fun c => ~ is_delete c) (calls (uninstallAll ctx ws reason) s).
Proof.
  revert s. induction ws as [|w ws IH]; intros s; simpl; [constructor|].
  rewrite !calls_bind, calls_ret, app_nil_r. apply Forall_app.
  split; [apply uninstallWorkload_no_delete|apply IH].
Qed.

(** C3: [uninstallDeployment] deletes the deployment from the storage exactly when none of
    its storage calls on the workloads failed; in particular a workload the provisioner
    could not remove does not stop the deletion. *)
Theorem uninstallDeployment_delete_iff ctx d reason s :
  let l := calls (uninstallDeployment e ctx d reason) s in
  Exists is_delete l <-> ~ Exists storage_failed l.
Proof.
  intros l. subst l. unfold uninstallDeployment.
  set (ws := by_types _ d). rewrite calls_bind.
  pose proof (uninstallAll_failed ctx ws reason s) as Hf.
  pose proof (Forall_not_Exists _ _ (uninstallAll_no_delete ctx ws reason s)) as Hn.
  rewrite !Exists_app.
  destruct (result (uninstallAll ctx ws reason) s); run; exists_case.
Qed.
End delete.
