(* ===== verification/EngineQueue.v ===== *)
(** * Requests and the job queue

    A request validates, writes the storage and queues one job; a request from outside
    is written only after its twin and its signature were verified. *)

From S2P Require Import Prelude GridTypes Sorting StartupOrder Engine EngineApi EngineLaws.
From S2P Require Import EngineWorkloads.

Section requests.
Context `{!GridTypes, !SortSlice} {S : Type} `{!EngineEnv S, !EngineView S, !EngineLaws}.
Variable e : NativeEngine S.

Lemma jobs_after_Enqueue j s :
  jobs (final (Enqueue j) s) =
  match result (Enqueue j) s with None => jobs s ++ [j] | Some _ => jobs s end.
Proof. unfold Enqueue. run. apply jobs_Enqueue. Qed.

(** [Provision] creates the deployment and queues one job for it, only at version 0; when it
    answers an error nothing is queued. *)
Theorem Provision_queue d s :
  let m := Provision d in
  match result m s with
  | None => Version d = 0%Z /\ StCreate d None ∈ calls m s /\
            jobs (final m s) = jobs s ++ [MkJob opProvision d None ""]
  | Some err => jobs (final m s) = jobs s /\
      (Version d <> 0%Z -> errors_Is err ErrInvalidVersion_id = true /\
                           calls m s = [] /\ final m s = s)
  end.
Proof.
  unfold Provision. case_bool_decide as Hv; simpl; run.
  2:{ done. }
  destruct (stCreate d s).1 as [err|] eqn:Ec; run.
  { rewrite jobs_Create. done. }
  rewrite jobs_after_Enqueue, jobs_Create.
  destruct (result (Enqueue _) _); [done|]. set_solver.
Qed.

(** [Pause], [Resume] and [Deprovision] queue one job for the stored deployment, or answer
    an error and queue nothing. *)
Theorem schedule_queue twin id op message s :
  let m := schedule twin id op message in
  match result m s with
  | None => exists d, (stGet twin id s).1 = Val d /\
                      jobs (final m s) = jobs s ++ [MkJob op d None message]
  | Some _ => jobs (final m s) = jobs s
  end.
Proof.
  unfold schedule, StorageGet. run. destruct (stGet twin id s).1 as [d|err] eqn:Eg; run.
  - rewrite jobs_after_Enqueue, jobs_Get. destruct (result (Enqueue _) _); eauto.
  - apply jobs_Get.
Qed.

(** *** Updates *)
Lemma unsupported_update_None ctx ops op :
  unsupported_update ctx ops = None -> op ∈ ops -> Op op = OpUpdate ->
  pvCanUpdate ctx (Type_ (wl_of (WlID op))) = true.
Proof.
  induction ops as [|op' ops IH]; simpl; [set_solver|].
  rewrite elem_of_cons. intros Hu [->|Hin] Hop.
  - rewrite Hop in Hu. by destruct (pvCanUpdate _ _).
  - apply IH; [|done|done]. by destruct (Op op'), (pvCanUpdate ctx (Type_ (wl_of (WlID op')))).
Qed.

(** Every changed workload is of a type that can be updated. *)
Definition updatable ctx (ops : list UpgradeOp) : Prop :=
  forall op, op ∈ ops -> Op op = OpUpdate -> pvCanUpdate ctx (Type_ (wl_of (WlID op))) = true.

(** C10: [Update] queues one update job, which carries the stored deployment as its source,
    only after the upgrade between the two was computed, every changed workload is of a type
    that can be updated and the stored fields were written; when it answers an error nothing
    was queued. *)
Theorem Update_queue ctx u s :
  let m := Update ctx u in
  match result m s with
  | None => exists d ops, (stGet (TwinID u) (ContractID u) s).1 = Val d /\
      Upgrade d u = Val ops /\
      updatable ctx ops /\
      StUpdate (TwinID u) (ContractID u) (update_fields d u) None ∈ calls m s /\
      jobs (final m s) = jobs s ++ [MkJob opUpdate u (Some d) ""]
  | Some _ => jobs (final m s) = jobs s
  end.
Proof.
  unfold Update, StorageGet. run.
  destruct (stGet _ _ s).1 as [d|err] eqn:Eg; run; [|apply jobs_Get].
  destruct (Upgrade d u) as [ops|err] eqn:Eu; run; [|apply jobs_Get].
  destruct (unsupported_update ctx ops) as [typ|] eqn:Es; run; [apply jobs_Get|].
  destruct (stUpdate _ _ _ _).1 as [err|] eqn:Ef; run; [by rewrite jobs_Update, jobs_Get|].
  rewrite jobs_after_Enqueue, jobs_Update, jobs_Get.
  destruct (result (Enqueue _) _); [done|].
  exists d, ops. repeat split; try done; [|set_solver].
  intros op. by apply unsupported_update_None.
Qed.

(** *** The gate of CreateOrUpdate *)

(** Calls that change what the engine keeps. *)
Definition engine_write (c : ecall) : Prop :=
  match c with
  | StCreate _ _ | StUpdate _ _ _ _ | QEnqueue _ _ => True
  | _ => False
  end.
Definition is_kyc (c : ecall) : bool := match c with KycGet _ _ _ => true | _ => false end.

(** The requests a trace sent to the KYC service, and its answer that a twin is verified. *)
Definition kyc_sent (l : list ecall) : nat :=
  sum_list_with (fun c => match c with KycGet _ requests _ => requests | _ => 0 end) l.
Definition kyc_verified (twin : Z) (c : ecall) : Prop :=
  exists requests, c = KycGet twin requests (Val (200%Z, Val verifiedStatus)).

(** A question to the KYC service on [twin]. *)
Definition kyc_question (twin : Z) (c : ecall) : Prop :=
  exists requests r, c = KycGet twin requests r /\ requests <= Datatypes.S RetryMax.

Lemma kyc_sent_app l k : kyc_sent (l ++ k) = kyc_sent l + kyc_sent k.
Proof. apply sum_list_with_app. Qed.

Lemma kyc_sent_questions twin l :
  Forall (kyc_question twin) l -> kyc_sent l <= 6 * length l.
Proof.
  induction 1 as [|c l (n & r & -> & Hn) _ IH]; [done|]. unfold kyc_sent, RetryMax in *. simpl. lia.
Qed.

(** One question: its calls, and what it takes for the answer yes. *)
Lemma check_verified_calls twin s :
  let l := calls (check_verified twin) s in
  Forall (kyc_question twin) l /\ length l <= 1 /\
  (result (check_verified twin) s = None -> exists c, l = [c] /\ kyc_verified twin c).
Proof.
  simpl. unfold check_verified, isTwinVerified. destruct kycURL as [url|]; run; [|by repeat constructor].
  pose proof (kyc_requests RetryMax url twin s) as Hn.
  destruct (kycGet RetryMax url twin s).1 as [n r]. simpl in Hn.
  assert (Forall (kyc_question twin) [KycGet twin n r]) as Hq by (repeat constructor; by exists n, r).
  destruct r as [[status body]|]; run; [|by rewrite ?app_nil_r].
  destruct (Z.eqb_spec status 200) as [->|]; simpl; run; [|by rewrite ?app_nil_r].
  destruct body as [st|]; run; [|by rewrite ?app_nil_r].
  case_bool_decide as Hst; run; (split_and!; [done|lia|]); [|done].
  intros _. subst st. eexists. split; [done|]. by exists n.
Qed.

(** The questions of a retry, the last of which was answered with yes when it succeeds. *)
Lemma retry_calls n twin s :
  let m := retry backoffStop n (check_verified twin) in
  Forall (kyc_question twin) (calls m s) /\ length (calls m s) <= n + 1 /\
  (result m s = None -> exists l c, calls m s = l ++ [c] /\ kyc_verified twin c).
Proof.
  simpl. revert s. induction n as [|n IH]; intros s; simpl;
    rewrite calls_bind, result_bind; destruct (check_verified_calls twin s) as (Hq & Hl & Hr);
    destruct (result (check_verified twin) s) as [err|]; rewrite ?calls_ret, ?result_ret, ?app_nil_r.
  1,2,4: split_and!; [done|lia|]; try done.
  1,2: destruct (Hr eq_refl) as (c & -> & Hc); intros _; by exists [], c.
  rewrite calls_bind, result_bind, calls_peek, result_peek. destruct (backoffStop _).1.
  { rewrite calls_ret, result_ret, app_nil_r. split_and!; [done|lia|done]. }
  destruct (IH (final (peek (C:=ecall) backoffStop) (final (check_verified twin) s))) as (Hq' & Hl' & Hr').
  split; [by apply Forall_app|]. split; [rewrite length_app; simpl; lia|].
  intros Hn. destruct (Hr' Hn) as (l & c & Hc & Hv). simpl. rewrite Hc.
  exists (calls (check_verified twin) s ++ l), c. by rewrite app_assoc.
Qed.

Lemma no_write_kyc twin l : Forall (kyc_question twin) l -> ~ Exists engine_write l.
Proof.
  intros Hl [c [Hc Hw]]%Exists_exists. rewrite Forall_forall in Hl. by destruct (Hl c Hc) as (n & r & -> & _).
Qed.

Lemma requests_no_kyc (update : bool) d s :
  Forall (fun c => is_kyc c = false)
    (calls (if update then Update Background d else Provision d) s).
Proof.
  destruct update; [unfold Update, StorageGet|unfold Provision]; unfold Enqueue;
    repeat (run; first [solve [repeat (constructor; [reflexivity|]); constructor]|case_goal]).
Qed.

(** The job a request that succeeds has queued. *)
Definition queued_for (update : bool) (d : Deployment) (l : list ecall) : Prop :=
  exists source message,
    QEnqueue (MkJob (if update then opUpdate else opProvision) d source message) None ∈ l.

Lemma request_queued (update : bool) d s :
  result (if update then Update Background d else Provision d) s = None ->
  queued_for update d (calls (if update then Update Background d else Provision d) s).
Proof.
  unfold queued_for. destruct update.
  - unfold Update, StorageGet. run. destruct (stGet _ _ s).1 as [d'|]; run; [|done].
    destruct (Upgrade d' d) as [ops|]; run; [|done].
    destruct (unsupported_update _ ops); run; [done|].
    destruct (stUpdate _ _ _ _).1; run; [done|]. unfold Enqueue. run. intros ->.
    exists (Some d'), "". set_solver.
  - unfold Provision. destruct (negb _); run; [done|].
    destruct (stCreate d s).1; run; [done|]. unfold Enqueue. run. intros ->.
    exists None, "". set_solver.
Qed.

Lemma queued_mono (update : bool) d l k : queued_for update d k -> queued_for update d (l ++ k).
Proof. intros (src & msg & Hin). exists src, msg. apply elem_of_app. by right. Qed.

Lemma CreateOrUpdate_queued twin d update s :
  result (CreateOrUpdate e twin d update) s = None ->
  queued_for update d (calls (CreateOrUpdate e twin d update) s).
Proof.
  unfold CreateOrUpdate. destruct (Valid d); [by run|]. destruct (negb _); [by run|].
  rewrite result_bind, calls_bind. intros Hr. apply queued_mono. revert Hr.
  destruct (result (retry _ _ _) s); [by run|]. rewrite result_bind, calls_bind.
  intros Hr. apply queued_mono. revert Hr. rewrite result_act.
  destruct (dlVerify _ _ _).1; [by run|]. apply request_queued.
Qed.

Lemma no_kyc_sent l : Forall (fun c => is_kyc c = false) l -> filter is_kyc l = [] /\ kyc_sent l = 0.
Proof.
  intros Hl. split; [by apply filter_none|]. unfold kyc_sent. induction Hl as [|c l Hc _ IH]; [done|].
  simpl. rewrite IH. by destruct c.
Qed.

(** A run of [CreateOrUpdate] asks the KYC service first, then has the signature verified,
    and serves the request after that. *)
Lemma CreateOrUpdate_guarded twin d update s :
  let l := calls (CreateOrUpdate e twin d update) s in
  exists asked rest, l = asked ++ rest /\ Forall (kyc_question twin) asked /\ length asked <= 6 /\
    Forall (fun c => is_kyc c = false) rest /\
    (Exists engine_write rest -> Valid d = None /\ TwinID d = twin /\
       exists before c rest', asked = before ++ [c] /\ kyc_verified twin c /\
         rest = VerifySignature d None :: rest').
Proof.
  simpl. unfold CreateOrUpdate.
  destruct (Valid d) as [err|] eqn:Ev; [exists [], []; run; rewrite Exists_nil; by repeat constructor|].
  destruct (Z.eqb_spec (TwinID d) twin) as [Ht|]; cbn [negb];
    [|exists [], []; run; rewrite Exists_nil; by repeat constructor].
  destruct (retry_calls 5 twin s) as (Hk & Hl & Hr). rewrite calls_bind. eexists _, _. split; [done|].
  split; [exact Hk|]. split; [lia|].
  set (r := retry backoffStop 5 (check_verified twin)) in *. clearbody r.
  destruct (result r s) as [err|]; [run; rewrite Exists_nil; by repeat constructor|].
  rewrite calls_bind, calls_act, result_act. destruct (dlVerify _ _ _).1 as [err|] eqn:Es.
  { run. split; [by repeat constructor|]. rewrite Exists_cons, Exists_nil. simpl. tauto. }
  split; [constructor; [done|apply requests_no_kyc]|]. intros _. split_and!; [done..|].
  destruct (Hr eq_refl) as (before & c & Hc & Hv). by eexists before, c, _.
Qed.

(** C4: [CreateOrUpdate] writes to the storage or the queue only for a valid deployment of
    the requesting twin, after the KYC service reported that twin verified and then the
    signature was verified, in this order; when it succeeds it has queued the job for the
    request; and it asks the service at most six times, each time with the up to six
    requests of a client that retries five times: at most 36 requests. *)
Theorem CreateOrUpdate_gate twin d update s :
  let m := CreateOrUpdate e twin d update in
  (Exists engine_write (calls m s) ->
     Valid d = None /\ TwinID d = twin /\
     exists before c rest, calls m s = before ++ [c; VerifySignature d None] ++ rest /\
       kyc_verified twin c /\ ~ Exists engine_write before) /\
  (result m s = None -> queued_for update d (calls m s)) /\
  length (filter is_kyc (calls m s)) <= 6 /\ kyc_sent (calls m s) <= 36.
Proof.
  intros m. split; [|split; [apply CreateOrUpdate_queued|]].
  all: destruct (CreateOrUpdate_guarded twin d update s) as (asked & rest & Hc & Ha & Hl & Hn & Hg).
  all: unfold m; rewrite Hc.
  - rewrite Exists_app. intros [Hw|Hw]; [by apply (no_write_kyc twin) in Hw|].
    destruct (Hg Hw) as (Hv & Ht & before & c & rest' & -> & Hk & ->). split_and!; [done..|].
    exists before, c, rest'. rewrite <- app_assoc. split_and!; [done..|].
    apply Forall_app in Ha as [Ha _]. by apply (no_write_kyc twin).
  - destruct (no_kyc_sent rest Hn) as [Hf Hs]. rewrite filter_app, Hf, app_nil_r, kyc_sent_app, Hs.
    pose proof (length_filter is_kyc asked). pose proof (kyc_sent_questions twin asked Ha). lia.
Qed.
End requests.
