(* ===== verification/EngineWorker.v ===== *)
(** * The worker: boot, job handling and the main loop *)

From S2P Require Import Prelude GridTypes Sorting StartupOrder Engine EngineLaws EngineWorkloads.

(** The jobs a run took from the queue, the deployments it read from the
    storage, and the provisioner calls, in order. *)
Definition handled (l : list ecall) : list engineJob :=
  omap (fun c => match c with QPeek (Val j) => Some j | _ => None end) l.
(** The jobs a run tried to queue, and those the queue took. *)
Definition attempted (l : list ecall) : list engineJob :=
  omap (fun c => match c with QEnqueue j _ => Some j | _ => None end) l.
Definition accepted (l : list ecall) : list engineJob :=
  omap (fun c => match c with QEnqueue j None => Some j | _ => None end) l.
Definition deployments_read (l : list ecall) : list Deployment :=
  omap (fun c => match c with StGet _ _ (Val d) => Some d | _ => None end) l.
Definition is_provisioner (c : ecall) : bool :=
  match c with
  | PvProvision _ _ | PvDeprovision _ _ | PvUpdate _ _ | PvPause _ _ | PvResume _ _ => true
  | _ => false
  end.
Definition is_gateway (c : ecall) : bool :=
  match c with GwGetContract _ | GwGetRent _ => true | _ => false end.

Lemma accepted_app l k : accepted (l ++ k) = accepted l ++ accepted k.
Proof. apply omap_app. Qed.
Lemma handled_app l k : handled (l ++ k) = handled l ++ handled k.
Proof. apply omap_app. Qed.

Section worker.
Context `{!GridTypes, !SortSlice} {S : Type} `{!EngineEnv S, !EngineView S, !EngineLaws}.
Variable e : NativeEngine S.

(** *** The queue is only touched by Enqueue and Dequeue *)
Lemma jobs_uninstallAll ctx ws reason : preserves jobs (uninstallAll ctx ws reason).
Proof. induction ws; simpl; preserve. apply jobs_uninstallWorkload. Qed.

Lemma jobs_dispatch ctx job : preserves jobs (dispatch e ctx job).
Proof.
  unfold dispatch, installDeployment, uninstallDeployment, lockDeployment,
    unlockDeployment, updateDeployment.
  preserve; auto using jobs_installWorkload, jobs_uninstallAll, jobs_lockWorkload,
    jobs_uninstallWorkload, jobs_updateWorkload.
Qed.

Lemma jobs_validate ctx d nv : preserves jobs (validate e ctx d nv).
Proof. unfold validate. preserve. Qed.

(** *** What validation lets through *)
Lemma validate_calls ctx d nv s :
  Forall (fun c => is_gateway c = true) (calls (validate e ctx d nv) s).
Proof.
  unfold validate.
  repeat (run; first [solve [repeat (constructor; [reflexivity|]); constructor]|case_goal]).
Qed.

(** The checks of [validate] on the contract and the rent it was answered. *)
Definition admissible (d : Deployment) (nv : bool) (contract : Contract)
    (cerr rerr : SubstrateError) : Prop :=
  registrarGateway e = true /\ se_IsError cerr = false /\ IsNodeContract contract = true /\
  (se_IsError rerr = true -> se_IsNotFound rerr = true) /\
  (nv = false ->
     uint32 (nc_Node (nodeContract contract)) = uint32 (nodeID e) /\
     exists hash, ChallengeHash d = Val hash /\
                  nc_DeploymentHash (nodeContract contract) = hex_EncodeToString hash).

(** C5: [validate] accepts a deployment exactly when its contract is a node contract, the
    rent contract could be read or does not exist, and, unless validation is skipped, the
    contract names this node and the hash of the deployment; the accepted context carries
    the contract and whether the node is rented. *)
Theorem validate_spec ctx d nv s :
  let '((contract, cerr), s1) := gwGetContract (ContractID d) s in
  let '((rent, rerr), _) := gwGetNodeRentContract (uint32 (nodeID e)) s1 in
  match result (validate e ctx d nv) s with
  | Val ctx' =>
      admissible d nv contract cerr rerr /\
      ctx' = withRented (withContract ctx (nodeContract contract))
               (negb (se_IsError rerr) && negb (rent =? 0)%Z)
  | Err _ => ~ admissible d nv contract cerr rerr
  end.
Proof.
  unfold validate, admissible.
  destruct (gwGetContract _ _) as [[contract cerr] s1] eqn:Ec.
  destruct (gwGetNodeRentContract _ _) as [[rent rerr] s2] eqn:Er.
  destruct (registrarGateway e); simpl; [|run; by intros [? _]].
  run. rewrite Ec. simpl.
  destruct (se_IsError cerr); simpl; run; [by intros (_ & ? & _)|].
  destruct (IsNodeContract contract); simpl; run; [|by intros (_ & _ & ? & _)].
  rewrite Er. simpl.
  destruct (se_IsError rerr) eqn:E1, (se_IsNotFound rerr) eqn:E2; simpl; run;
    try (intros (_ & _ & _ & Hnf & _); by specialize (Hnf eq_refl)).
  all: destruct nv; run; [by repeat split|].
  all: destruct (Z.eqb_spec (uint32 (nc_Node (nodeContract contract))) (uint32 (nodeID e)));
    simpl; run; [|intros (_ & _ & _ & _ & Hv); by destruct (Hv eq_refl)].
  all: destruct (ChallengeHash d) as [h|err]; run;
    [|intros (_ & _ & _ & _ & Hv); destruct (Hv eq_refl) as (_ & ? & ? & _); done].
  all: case_bool_decide; simpl; run; [by eauto 10|].
  all: intros (_ & _ & _ & _ & Hv); destruct (Hv eq_refl) as (_ & ? & ? & ?); congruence.
Qed.

(** *** One job *)

Lemma handle_job_rejected root job s err :
  let target := jTarget job in
  let v := validate e (withDeployment root (TwinID target) (ContractID target)) target
             (bool_decide (jOp job = opProvisionNoValidation)) in
  let m := handle_job e root job in
  needs_contract (jOp job) = true -> result v s = Err err ->
  calls m s = calls v s ++
    [StError (TwinID target) (ContractID target) err
       (stError (TwinID target) (ContractID target) err (final v s)).1;
     QDequeue (qDequeue (stError (TwinID target) (ContractID target) err (final v s)).2).1] /\
  filter is_provisioner (calls m s) = [] /\
  jobs (final m s) = match last (calls m s) with
                     | Some (QDequeue None) => tail (jobs s) | _ => jobs s end.
Proof.
  intros target v m Hn Hv. subst m.
  assert (Hc : calls (handle_job e root job) s = calls v s ++
    [StError (TwinID target) (ContractID target) err
       (stError (TwinID target) (ContractID target) err (final v s)).1;
     QDequeue (qDequeue (stError (TwinID target) (ContractID target) err (final v s)).2).1]).
  { unfold handle_job. rewrite Hn. fold target. fold v. rewrite calls_bind, Hv. by run. }
  rewrite Hc. split; [done|split].
  - rewrite filter_app, (filter_none _ (calls v s)); [done|].
    eapply Forall_impl; [apply validate_calls|]. intros [] ?; simpl; naive_solver.
  - rewrite last_app. unfold handle_job. rewrite Hn. fold target. fold v.
    rewrite final_bind, Hv. run. rewrite jobs_Dequeue, jobs_Error.
    unfold v at 2 3. rewrite jobs_validate. by destruct (qDequeue _).1.
Qed.

(** A job that needs a contract and does not validate is recorded as failed and dequeued,
    and the provisioner is not called. *)
Theorem handle_job_invalid root job s err :
  let target := jTarget job in
  let v := validate e (withDeployment root (TwinID target) (ContractID target)) target
             (bool_decide (jOp job = opProvisionNoValidation)) in
  let m := handle_job e root job in
  needs_contract (jOp job) = true -> result v s = Err err ->
  calls m s = calls v s ++
    [StError (TwinID target) (ContractID target) err
       (stError (TwinID target) (ContractID target) err (final v s)).1;
     QDequeue (qDequeue (stError (TwinID target) (ContractID target) err (final v s)).2).1] /\
  filter is_provisioner (calls m s) = [] /\
  jobs (final m s) = match last (calls m s) with
                     | Some (QDequeue None) => tail (jobs s) | _ => jobs s end.
Proof. apply handle_job_rejected. Qed.

(** *** All jobs *)

Definition callback_keeps_jobs : Prop :=
  forall cb, callback e = Some cb -> forall t d del, keeps jobs (cb t d del).

Lemma jobs_safeCallback d del : callback_keeps_jobs -> preserves jobs (safeCallback e d del).
Proof.
  intros Hcb. unfold safeCallback. destruct (callback e) as [cb|] eqn:Ec; [|preserve].
  preserve.
Qed.

(** Handling a job removes the head of the queue, unless dequeuing failed. *)
Lemma jobs_handle_job root job s :
  callback_keeps_jobs ->
  jobs (final (handle_job e root job) s) = tail (jobs s) \/
  exists s' err, (qDequeue s').1 = Some err /\ QDequeue (Some err) ∈ calls (handle_job e root job) s.
Proof.
  intros Hcb. unfold handle_job. set (target := jTarget job).
  set (v := if needs_contract _ then _ else _).
  assert (Hv : preserves jobs v)
    by (unfold v; destruct (needs_contract _); [apply jobs_validate|preserve]).
  clearbody v. rewrite final_bind, calls_bind. destruct (result v s) as [ctx|err]; run.
  - rewrite jobs_safeCallback by done. set (s1 := final (dispatch e ctx job) _).
    rewrite jobs_Dequeue. destruct (qDequeue s1).1 as [err|] eqn:Ed.
    + right. exists s1, err. split; [done|]. rewrite !elem_of_app. right. right. left.
    + left. unfold s1. by rewrite jobs_dispatch, Hv.
  - set (s1 := (stError _ _ _ _).2). rewrite jobs_Dequeue. destruct (qDequeue s1).1 as [derr|] eqn:Ed.
    + right. exists s1, derr. split; [done|]. rewrite elem_of_app. right. right. left.
    + left. unfold s1. by rewrite jobs_Error, Hv.
Qed.

Lemma handled_none l :
  Forall (fun c => match c with QPeek _ => False | _ => True end) l -> handled l = [].
Proof. induction 1 as [|c l Hc _ IH]; [done|]. by destruct c. Qed.

Lemma handle_job_no_peek root job s :
  Forall (fun c => match c with QPeek _ => False | _ => True end) (calls (handle_job e root job) s).
Proof.
  revert s. change (all_calls (fun c => match c with QPeek _ => False | _ => True end)
    (handle_job e root job)).
  unfold handle_job, dispatch, installDeployment, uninstallDeployment, lockDeployment,
    unlockDeployment, updateDeployment, installWorkload, updateWorkload, lockWorkload,
    validate, safeCallback, Current, Transaction.
  every_call.
  all: match goal with |- all_calls ?P (uninstallAll ?c ?ws ?r) =>
    induction ws; simpl; unfold uninstallWorkload, Current, Transaction; every_call; done
    | |- all_calls _ (uninstallWorkload _ _ _) =>
    unfold uninstallWorkload, Current, Transaction; every_call end.
Qed.

(** The queue while the worker runs: it answers the head of a nonempty queue, and
    removing the head succeeds. *)
Definition queue_serves : Prop :=
  (forall s job js, jobs s = job :: js -> (qPeekBlock s).1 = Val job) /\
  forall s, (qDequeue s).1 = None.

Lemma Run_iteration_handles root s job js :
  callback_keeps_jobs -> queue_serves -> jobs s = job :: js ->
  let s1 := final (act qPeekBlock QPeek) s in
  calls (Run_iteration e root) s = QPeek (Val job) :: calls (handle_job e root job) s1 /\
  jobs (final (Run_iteration e root) s) = js.
Proof.
  intros Hcb [Hpeek Hdq] Ej s1. pose proof (Hpeek s job js Ej) as Hp.
  unfold Run_iteration.
  rewrite calls_bind, final_bind, calls_act, result_act, Hp.
  split; [done|]. destruct (jobs_handle_job root job (final (act qPeekBlock QPeek) s) Hcb)
    as [->|(s' & err & Hs' & _)]; [|by rewrite Hdq in Hs'].
  by rewrite final_act, jobs_PeekBlock, Ej.
Qed.

Lemma Run_loop_drained n root s :
  callback_keeps_jobs -> queue_serves -> n <= length (jobs s) ->
  jobs (final (Run_loop e n root) s) = drop n (jobs s) /\
  handled (calls (Run_loop e n root) s) = take n (jobs s) /\
  forall job, job ∈ take n (jobs s) -> exists s',
    forall c, c ∈ calls (handle_job e root job) s' -> c ∈ calls (Run_loop e n root) s.
Proof.
  intros Hcb Hq. revert s. induction n as [|n IH]; intros s Hn; simpl.
  { run. split_and!; [done..|]. by intros job ?%elem_of_nil. }
  destruct (jobs s) as [|job js] eqn:Ej; simpl in *; [lia|].
  destruct (Run_iteration_handles root s job js Hcb Hq Ej) as [Hc Hj].
  set (s' := final (Run_iteration e root) s) in *.
  destruct (IH s') as (Hd & Hh & Hin); [rewrite Hj; lia|].
  rewrite final_bind, calls_bind, handled_app, Hc. fold s'. split_and!.
  - by rewrite Hd, Hj.
  - simpl. rewrite (handled_none (calls (handle_job _ _ _) _)) by apply handle_job_no_peek.
    by rewrite Hh, Hj.
  - intros j [->|Hj']%elem_of_cons.
    + eexists. intros c Hc'. apply elem_of_app. left. by right.
    + rewrite <- Hj in Hj'. destruct (Hin j Hj') as [s2 Hs2]. exists s2. intros c Hc'.
      apply elem_of_app. right. by apply Hs2.
Qed.


(** A read or a removal of the head of the queue that failed. *)
Definition queue_failed (c : ecall) : Prop :=
  match c with QPeek (Err _) | QDequeue (Some _) => True | _ => False end.

(** One round of the worker for each queued job empties the queue and handles them all,
    when no read or removal failed. *)
Lemma Run_loop_served root s :
  callback_keeps_jobs ->
  let m := Run_loop e (length (jobs s)) root in
  ~ Exists queue_failed (calls m s) ->
  jobs (final m s) = [] /\
  forall job, job ∈ jobs s -> exists s',
    forall c, c ∈ calls (handle_job e root job) s' -> c ∈ calls m s.
Proof.
  intros Hcb. simpl. remember (jobs s) as js eqn:Ej. revert s Ej.
  induction js as [|job js IH]; intros s Ej; simpl.
  { intros _. rewrite final_ret. split; [done|]. by intros job ?%elem_of_nil. }
  unfold Run_iteration. rewrite !calls_bind, !final_bind, calls_act, result_act, final_act, !Exists_app.
  destruct (qPeekBlock s).1 as [j|err] eqn:Ep; [|intros Hok; destruct Hok; left; left; by left].
  pose proof (jobs_Peek s j Ep) as Hj. rewrite <- Ej in Hj. injection Hj as <-.
  set (s1 := (qPeekBlock s).2). intros Hok.
  assert (jobs (final (handle_job e root job) s1) = js) as Hjs.
  { destruct (jobs_handle_job root job s1 Hcb) as [->|(s' & err & _ & Hin)].
    - unfold s1. by rewrite jobs_PeekBlock, <- Ej.
    - destruct Hok. left. right. apply Exists_exists. by exists (QDequeue (Some err)). }
  destruct (IH (final (handle_job e root job) s1)) as [Hd Hin]; [done|tauto|].
  split; [done|]. intros k [->|Hk]%elem_of_cons.
  - exists s1. intros c Hc. rewrite !elem_of_app. tauto.
  - destruct (Hin k Hk) as [s' Hs']. exists s'. intros c Hc. rewrite elem_of_app. right. by apply Hs'.
Qed.

(** *** Boot *)

(** The jobs a boot owes to what it read. *)
Definition boot_jobs (l : list ecall) : list engineJob :=
  map (fun d => MkJob opProvisionNoValidation d None "")
    (filter (fun d => IsActive d = true) (deployments_read l)).

Lemma boot_jobs_app l k : boot_jobs (l ++ k) = boot_jobs l ++ boot_jobs k.
Proof.
  unfold boot_jobs, deployments_read. by rewrite omap_app, filter_app, map_app.
Qed.

Lemma attempted_app l k : attempted (l ++ k) = attempted l ++ attempted k.
Proof. apply omap_app. Qed.

(** A part of [boot] tries to queue the jobs it owes, in order; the queue grows by those it
    takes. *)
Definition boots {A} (m : M S ecall A) : Prop :=
  forall s, attempted (calls m s) = boot_jobs (calls m s) /\
            jobs (final m s) = jobs s ++ accepted (calls m s).

Lemma boots_ret {A} (a : A) : boots (ret a).
Proof. intros s. run. by rewrite app_nil_r. Qed.
Lemma boots_bind {A B} (m : M S ecall A) (k : A -> M S ecall B) :
  boots m -> (forall a, boots (k a)) -> boots (bind m k).
Proof.
  intros Hm Hk s. rewrite calls_bind, final_bind, attempted_app, boot_jobs_app, accepted_app.
  destruct (Hm s) as [-> Hj], (Hk (result m s) (final m s)) as [-> ->]. by rewrite Hj, app_assoc.
Qed.
Lemma boots_for_each {A B} (f : A -> M S ecall B) l :
  (forall x, boots (f x)) -> boots (for_each f l).
Proof. intros Hf. induction l; simpl; [apply boots_ret|by apply boots_bind]. Qed.

Lemma boot_deployment_boots twin id : boots (boot_deployment twin id).
Proof.
  intros s. unfold boot_deployment, StorageGet, Enqueue, boot_jobs.
  run. destruct (stGet twin id s).1 as [d|err] eqn:Eg; run.
  - destruct (IsActive d) eqn:Ea; simpl; run.
    + rewrite jobs_Enqueue, jobs_Get, filter_cons_True by done. split; [done|].
      destruct (qEnqueue _ _).1; simpl; [by rewrite app_nil_r|done].
    + rewrite jobs_Get, filter_cons_False by (by rewrite Ea). by rewrite app_nil_r.
  - by rewrite jobs_Get, app_nil_r.
Qed.
Lemma boot_twin_boots twin : boots (boot_twin twin).
Proof.
  unfold boot_twin. apply boots_bind.
  - intros s. run. by rewrite jobs_ByTwin, app_nil_r.
  - intros []; [apply boots_for_each, boot_deployment_boots|apply boots_ret].
Qed.

Lemma boot_twin_reads twin ids id s :
  StByTwin twin (Val ids) ∈ calls (boot_twin twin) s -> id ∈ ids ->
  exists r, StGet twin id r ∈ calls (boot_twin twin) s.
Proof.
  unfold boot_twin. rewrite calls_bind, result_act, calls_act.
  destruct (stByTwin twin s).1 as [ids'|err]; simpl; [|run; set_solver].
  rewrite elem_of_cons. intros [[= <-]|Hc] Hid.
  - destruct (for_each_calls (boot_deployment twin) ids id
      (final (act (stByTwin twin) (StByTwin twin)) s)) as [s' Hs']; [done|].
    exists (stGet twin id s').1. right. apply Hs'.
    unfold boot_deployment, StorageGet. run. left.
  - apply for_each_calls_inv in Hc as (id' & s' & _ & Hc & _).
    unfold boot_deployment, StorageGet, Enqueue in Hc. run in Hc.
    destruct (stGet twin id' s').1; run in Hc; [|set_solver].
    destruct (IsActive _); simpl in Hc; run in Hc; set_solver.
Qed.

Lemma boot_twin_calls twin twin' ids s :
  StByTwin twin' (Val ids) ∈ calls (boot_twin twin) s -> twin' = twin.
Proof.
  unfold boot_twin. rewrite calls_bind, result_act, calls_act.
  destruct (stByTwin twin s).1 as [ids'|err]; simpl; [|run; set_solver].
  rewrite elem_of_cons. intros [[= -> ?]|Hc]; [done|].
  apply for_each_calls_inv in Hc as (id' & s' & _ & Hc & _).
  unfold boot_deployment, StorageGet, Enqueue in Hc. run in Hc.
  destruct (stGet twin id' s').1; run in Hc; [|set_solver].
  destruct (IsActive _); simpl in Hc; run in Hc; set_solver.
Qed.

(** C9: A [boot] that returns no error tries to queue, in order and without validation, one
    job for each active deployment it could load and nothing else, and appends to the queue
    exactly those whose enqueue succeeded (a failed one is only logged, and that job is
    lost); it lists the deployments of every twin and loads every deployment listed. *)
Theorem boot_queue root s :
  result (boot root) s = None ->
  let l := calls (boot root) s in
  attempted l = boot_jobs l /\ jobs (final (boot root) s) = jobs s ++ accepted l /\
  (exists twins, StTwins (Val twins) ∈ l /\
     forall twin, twin ∈ twins -> exists r, StByTwin twin r ∈ l) /\
  (forall twin ids id, StByTwin twin (Val ids) ∈ l -> id ∈ ids ->
     exists r, StGet twin id r ∈ l).
Proof.
  intros Hr l. subst l. assert (boots (boot root)) as Hb.
  { apply boots_bind; [intros s1; run; by rewrite jobs_Twins, app_nil_r|].
    intros []; [|apply boots_ret]. apply boots_bind; [|intros; apply boots_ret].
    apply boots_for_each, boot_twin_boots. }
  split; [apply Hb|]. split; [apply Hb|]. clear Hb. revert Hr. unfold boot. rewrite result_bind, calls_bind, result_act, calls_act, final_act.
  destruct (stTwins s).1 as [twins|err] eqn:Et; [|by run].
  intros _. run. rewrite app_nil_r. split.
  - exists twins. split; [left|]. intros twin Ht.
    destruct (for_each_calls boot_twin twins twin (stTwins s).2 Ht) as [s' Hs'].
    exists (stByTwin twin s').1. right. apply Hs'. unfold boot_twin. run. left.
  - intros twin ids id [|Hc]%elem_of_cons Hid; [done|].
    apply for_each_calls_inv in Hc as (twin' & s' & Ht & Hc & Hin).
    pose proof (boot_twin_calls _ _ _ _ Hc) as ->.
    destruct (boot_twin_reads _ _ _ _ Hc Hid) as [r Hr].
    exists r. right. by apply Hin.
Qed.
End worker.
