(* ===== verification/Sample.v ===== *)
(** * A concrete environment

    Instances of the interfaces that stand for code outside the repository: an
    in-memory storage and queue, a provisioner that fails on workloads of type
    ["bad"], a registrar that answers one contract.  They show that the laws can
    hold and let the theorems be applied to concrete runs. *)

From S2P Require Import Prelude GridTypes Provisioner Sorting StartupOrder Engine EngineLaws.

Definition sample_types : list string := ["zmount"; "network"; "zmachine"].

#[export] Instance sample_grid : GridTypes := {|
  StateOk := "ok";
  StateError := "error";
  StateDeleted := "deleted";
  StateUnChanged := "unchanged";
  StatePaused := "paused";
  IsOkay st := bool_decide (st ∈ ["ok"; "paused"]);
  IsAny st l := bool_decide (st ∈ l);
  ErrText id := id;
  Types := sample_types;
  ZMountType := "zmount";
  VolumeType := "volume";
  NetworkType := "network";
  PublicIPv4Type := "ipv4";
  PublicIPType := "ip";
  ZMachineType := "zmachine";
  WithResults w r := MkWorkload (Name w) (Type_ w) (WData w) r;
  Parts id := ((1, 1, id)%Z, None);
  NewWorkloadID _ _ name := Val name;
  NewUncheckedWorkloadID _ _ name := name;
  WorkloadData_ w :=
    if bool_decide (Type_ w = "zmount") then Val (DZMount (Z.of_nat (String.length (WData w))))
    else Val DOther;
  WCapacity w := Val (MkCapacity 1 (Z.of_nat (String.length (WData w))) 0 1024 0);
  CapacityAdd a b := MkCapacity
    (uint64 (CRU a + CRU b)) (uint64 (SRU a + SRU b)) (uint64 (HRU a + HRU b))
    (uint64 (MRU a + MRU b)) (uint64 (IPV4U a + IPV4U b));
  UnmarshalPublicIP r := Val (Some (Data r));
  ByType d typs := map (fun w => MkWorkloadWithID w (Name w))
    (filter (fun w => Type_ w ∈ typs) (Workloads d));
  IsActive d := existsb (fun w => bool_decide (State (WResult w) ∈ ["ok"; "paused"])) (Workloads d);
  Upgrade d u :=
    Val (map (fun w => MkUpgradeOp (MkWorkloadWithID w (Name w)) OpRemove)
           (filter (fun w => Name w ∉ map Name (Workloads u)) (Workloads d)) ++
         map (fun w => MkUpgradeOp (MkWorkloadWithID w (Name w)) OpAdd)
           (filter (fun w => Name w ∉ map Name (Workloads d)) (Workloads u)));
  Valid d := if bool_decide (Workloads d = []) then Some (Fresh "empty") else None;
  ChallengeHash d := Val (Metadata d) |}.

#[export] Instance sample_grid_laws : GridTypesLaws.
Proof.
  split; try done.
  - apply (bool_decide_unpack _). vm_compute. exact I.
  - intros st l. apply bool_decide_eq_true.
  - intros d typs w Hw. apply list_elem_of_fmap in Hw as (w' & -> & Hw').
    by apply list_elem_of_filter in Hw' as [Ht _].
Qed.

#[export] Existing Instance stable_sort_slice.
#[export] Existing Instance stable_sort_slice_laws.

(** ** The world of the engine *)
Record world := MkWorld {
  w_db : gmap wl_key Workload;
  w_jobs : list engineJob;
  w_deployments : gmap (Z * Z) Deployment;
  w_clock : Z }.

Definition set_db f w := MkWorld (f (w_db w)) (w_jobs w) (w_deployments w) (w_clock w).
Definition set_jobs f w := MkWorld (w_db w) (f (w_jobs w)) (w_deployments w) (w_clock w).
Definition set_deployments f w := MkWorld (w_db w) (w_jobs w) (f (w_deployments w)) (w_clock w).

Definition not_exists : error := Sentinel ErrDeploymentNotExists_id "deployment does not exist".
Definition no_workload : error := Sentinel ErrWorkloadNotExist_id "workload does not exist".
Definition no_error : SubstrateError := MkSubstrateError false (Fresh "") false.

(** Workloads of type ["bad"] fail, those of type ["same"] need no action. *)
Definition sample_run (w : WorkloadWithID) (s : world) : (Result * option error) * world :=
  if bool_decide (Type_ (wl_of w) = "bad") then ((zero_result, Some (Fresh "failed")), s)
  else if bool_decide (Type_ (wl_of w) = "same")
  then ((zero_result, Some (Sentinel ErrNoActionNeeded_id "no action needed")), s)
  else ((MkResult 1 "ok" "" ("made " +:+ Name (wl_of w)), None), s).

#[export] Instance sample_env : EngineEnv world := {|
  stCreate d s := (None, set_deployments <[(TwinID d, ContractID d) := d]> s);
  stGet t d s := (match w_deployments s !! (t, d) with
                  | Some d => Val d | None => Err not_exists end, s);
  stUpdate t d fs s := (if w_deployments s !! (t, d) then None else Some not_exists, s);
  stError t d err s := (None, s);
  stAdd t d w s := (None, set_db <[(t, d, Name w) := w]> s);
  stRemove t d name s := (None, set_db (delete (t, d, name)) s);
  stTransaction t d w s := (None, set_db <[(t, d, Name w) := w]> s);
  stCurrent t d name s := (match w_db s !! (t, d, name) with
                           | Some w => Val w | None => Err no_workload end, s);
  stDelete t d s := (None, set_deployments (delete (t, d)) s);
  stChanges t d s := (Val [], s);
  stTwins s := (Val [1%Z], s);
  stByTwin t s := (Val (map snd (filter (fun k => k.1 = t) (map fst (map_to_list (w_deployments s))))), s);
  pvProvision _ w s := sample_run w s;
  pvDeprovision _ w s := ((sample_run w s).1.2, s);
  pvUpdate _ w s := sample_run w s;
  pvPause _ w s := ((MkResult 1 "paused" "paused" "", None), s);
  pvResume _ w s := ((MkResult 1 "ok" "" "", None), s);
  pvCanUpdate _ typ := bool_decide (typ = "zmachine");
  qOpen s := (None, s);
  qRemoveAll s := (tt, s);
  qEnqueue j s := (None, set_jobs (fun l => l ++ [j]) s);
  qPeekBlock s := (match w_jobs s with [] => Err (Fresh "empty") | j :: _ => Val j end, s);
  qDequeue s := (None, set_jobs tail s);
  gwGetContract _ s := ((MkContract true (MkNodeContract 7 "6869") false, no_error), s);
  gwGetNodeRentContract _ s := ((0%Z, no_error), s);
  kycURL := Val "kyc";
  kycGet _ _ _ s := ((1, Val (200%Z, Val "VERIFIED")), s);
  dlVerify _ _ s := (None, s);
  now s := (w_clock s, s);
  backoffStop s := (false, s) |}.

#[export] Instance sample_view : EngineView world := {| db := w_db; jobs := w_jobs |}.

Lemma sample_run_world w s : (sample_run w s).2 = s.
Proof. unfold sample_run. by repeat case_bool_decide. Qed.

#[export] Instance sample_laws : EngineLaws (S:=world).
Proof.
  split; try (intros; reflexivity);
    try (intros; simpl; by rewrite sample_run_world); simpl; try (intros; lia).
  - intros twin dl name s w. by destruct (w_db s !! _) eqn:E; intros; simplify_eq.
  - intros twin dl name s err. by destruct (w_db s !! _) eqn:E.
  - intros s j. destruct (w_jobs s); intros; by simplify_eq/=.
Qed.

(** ** Deployments *)
Definition sample_workload (name typ data state : string) : Workload :=
  MkWorkload name typ data (MkResult 0 state "" "").
Definition with_id (w : Workload) : WorkloadWithID := MkWorkloadWithID w (Name w).

Definition sample_disk := sample_workload "disk" "zmount" "size" "ok".
Definition sample_net := sample_workload "net" "network" "" "ok".
Definition sample_vm := sample_workload "vm" "zmachine" "" "ok".
Definition sample_bad := sample_workload "broken" "bad" "" "".

Definition sample_deployment : Deployment :=
  MkDeployment 0 1 1 "hi" "" "" [sample_vm; sample_net; sample_disk].

Definition sample_engine : NativeEngine world :=
  MkEngine nullKeyGetter_GetKey nullKeyGetter_GetKey
    (MkStartup sample_types {["zmount" := 1%Z; "network" := 2%Z; "zmachine" := 3%Z]})
    false 7 true None.

Definition sample_world : world :=
  MkWorld ∅ [MkJob opProvision sample_deployment None ""] {[(1%Z, 1%Z) := sample_deployment]} 5.

(** A run of the sample job installs disk, network and machine in this order. *)
Example sample_install :
  map (fun k => State <$> (WResult <$> w_db (final (Run sample_engine 1 Background) sample_world) !! k))
    [(1, 1, "disk")%Z; (1, 1, "net")%Z; (1, 1, "vm")%Z] = [Some "ok"; Some "ok"; Some "ok"] /\
  w_jobs (final (Run sample_engine 1 Background) sample_world) = [].
Proof. by vm_compute. Qed.
