(* ===== verification/Gateway.v ===== *)
(** * The registrar gateway (pkg/registrar_gateway/registrar_gateway.go)

    The gateway is the node's only way to the registrar.  Its client is outside
    the repository: the interface [RegistrarClient].  The mutex [mu] shows as the
    calls [Lock] and [Unlock].  The methods that used to talk to the chain are
    stubs that return zero values; the last section shows what the engine makes
    of them. *)

From S2P Require Import Prelude GridTypes Sorting StartupOrder Engine EngineLaws EngineWorkloads.
From S2P Require Import EngineWorker.

(** [client.Node] and [client.NodeUpdate], as far as [UpdateNode] builds them. *)
Record Interface := MkInterface { inf_Name : string; inf_Mac : string; inf_IPs : list string }.
Record Location := MkLocation {
  loc_Longitude : string; loc_Latitude : string; loc_Country : string; loc_City : string }.
Record NodeResources := MkNodeResources { nr_HRU : Z; nr_SRU : Z; nr_CRU : Z; nr_MRU : Z }.

Record Node := MkNode {
  node_ID : Z;
  node_FarmID : Z;
  node_TwinID : Z;
  node_Location : Location;
  node_Resources : NodeResources;
  node_Interfaces : list Interface;
  node_SerialNumber : string;
  node_SecureBoot : bool;
  node_Virtualized : bool }.

Record NodeUpdate := MkNodeUpdate {
  upd_FarmID : option Z;
  upd_Location : option Location;
  upd_Resources : option NodeResources;
  upd_Interfaces : list Interface;
  upd_SerialNumber : option string;
  upd_SecureBoot : option bool;
  upd_Virtualized : option bool }.

(** [client.Account], [client.Farm], [client.UptimeReport]. *)
Record Account := MkAccount { acc_TwinID : Z; acc_PublicKey : string }.
Record Farm := MkFarm { farm_ID : Z; farm_Name : string; farm_TwinID : Z }.
Record UptimeReport := MkUptimeReport { up_Uptime : Z; up_Timestamp : Z }.

(** [substrate.NodePower]: the state the node set, the state it should have. *)
Record NodePower := MkNodePower { power_State_IsUp : bool; power_Target_IsUp : bool }.

Inductive gcall :=
| Lock
| Unlock
| RegisterNode (n : Node)
| CreateAccount (relays : list string) (key : string)
| EnsureAccount_ (relays : list string) (key : string)
| UpdateNode_ (u : NodeUpdate)
| ReportUptime (r : UptimeReport)
| ListNodes (farm : Z)
| ClientRead.

Class RegistrarClient (S : Type) := {
  rcGetZosVersion : S -> res string * S;
  rcRegisterNode : Node -> S -> res Z * S;
  rcCreateAccount : list string -> string -> S -> (Account * option error) * S;
  rcEnsureAccount : list string -> string -> S -> (Account * option error) * S;
  rcGetFarm : Z -> S -> res Farm * S;
  rcGetNode : Z -> S -> res Node * S;
  rcGetNodeByTwinID : Z -> S -> res Node * S;
  rcListNodes : Z -> S -> (list Node * option error) * S;
  rcGetAccount : Z -> S -> res Account * S;
  rcGetAccountByPK : string -> S -> (Account * option error) * S;
  rcUpdateNode : NodeUpdate -> S -> option error * S;
  rcReportUptime : UptimeReport -> S -> option error * S }.

Section gateway.
Context {S : Type} `{!RegistrarClient S}.

(** [r.mu.Lock(); defer r.mu.Unlock()] around one client call. *)
Definition locked {A} (m : M S gcall A) : M S gcall A :=
  act (fun s => (tt, s)) (fun _ => Lock) ;;;
  a <- m ;;
  act (fun s => (tt, s)) (fun _ => Unlock) ;;;
  ret a.

Definition GetZosVersion : M S gcall (res string) := act rcGetZosVersion (fun _ => ClientRead).

Definition CreateNode (node : Node) : M S gcall (res Z) :=
  locked (act (rcRegisterNode node) (fun _ => RegisterNode node)).

Definition CreateTwin (relays : list string) (key : string) : M S gcall (Account * option error) :=
  locked (act (rcCreateAccount relays key) (fun _ => CreateAccount relays key)).

Definition EnsureAccount (relays : list string) (key : string)
    : M S gcall (Account * option error) :=
  locked (act (rcEnsureAccount relays key) (fun _ => EnsureAccount_ relays key)).

Definition GetFarm (id : Z) : M S gcall (res Farm) := act (rcGetFarm id) (fun _ => ClientRead).
Definition GetNode (id : Z) : M S gcall (res Node) := act (rcGetNode id) (fun _ => ClientRead).
Definition GetNodeByTwinID (twin : Z) : M S gcall (res Node) :=
  act (rcGetNodeByTwinID twin) (fun _ => ClientRead).

(** The named results: what was listed, even with an error. *)
Definition GetNodes (farmID : Z) : M S gcall (list Z * option error) :=
  '(nodes, err) <- act (rcListNodes farmID) (fun _ => ListNodes farmID) ;;
  ret (map node_ID nodes, err).

Definition GetTwin (id : Z) : M S gcall (res Account) := act (rcGetAccount id) (fun _ => ClientRead).

Definition GetTwinByPubKey (pk : string) : M S gcall (Z * option error) :=
  '(account, err) <- act (rcGetAccountByPK pk) (fun _ => ClientRead) ;;
  ret (acc_TwinID account, err).

Definition node_update (node : Node) : NodeUpdate :=
  MkNodeUpdate (Some (node_FarmID node)) (Some (node_Location node)) (Some (node_Resources node))
    (node_Interfaces node) (Some (node_SerialNumber node)) (Some (node_SecureBoot node))
    (Some (node_Virtualized node)).

Definition UpdateNode (node : Node) : M S gcall (option error) :=
  locked (act (rcUpdateNode (node_update node)) (fun _ => UpdateNode_ (node_update node))).

Definition UpdateNodeUptimeV2 (uptime timestamp : Z) : M S gcall (option error) :=
  let report := MkUptimeReport uptime timestamp in
  locked (act (rcReportUptime report) (fun _ => ReportUptime report)).

(** ** The stubs: they answer the zero value of their results *)
Definition zero_contract : Contract := MkContract false (MkNodeContract 0 "") false.

Variable zero_SubstrateError : SubstrateError.

Definition GetContract (id : Z) : Contract * SubstrateError := (zero_contract, zero_SubstrateError).
Definition GetContractIDByNameRegistration (name : string) : Z * SubstrateError :=
  (0%Z, zero_SubstrateError).
Definition GetNodeContracts (node : Z) : list Z * option error := ([], None).
Definition GetNodeRentContract (node : Z) : Z * SubstrateError := (0%Z, zero_SubstrateError).
Definition GetPowerTarget : NodePower * option error := (MkNodePower true true, None).
(** [substrate.NruConsumption] is in Reporter; the stub ignores its argument. *)
Definition Report_ {A} (consumptions : list A) : option error := None.
Definition SetContractConsumption {A} (resources : list A) : option error := None.
Definition SetNodePowerState (up : bool) : option error := None.
End gateway.

(** ** The mutex *)

Definition is_change (c : gcall) : bool :=
  match c with
  | RegisterNode _ | CreateAccount _ _ | EnsureAccount_ _ _ | UpdateNode_ _ | ReportUptime _ => true
  | _ => false
  end.

(** Calls that change the registrar are made with the mutex held, and every lock
    is released: [held] runs over a trace. *)
Fixpoint guarded (held : bool) (l : list gcall) : bool :=
  match l with
  | [] => negb held
  | Lock :: l => negb held && guarded true l
  | Unlock :: l => held && guarded false l
  | c :: l => (held || negb (is_change c)) && guarded held l
  end.

Section theorems.
Context {S : Type} `{!RegistrarClient S}.

Lemma locked_act {A} (f : S -> A * S) (c : A -> gcall) s :
  calls (locked (act f c)) s = [Lock; c (f s).1; Unlock] /\
  result (locked (act f c)) s = (f s).1 /\ final (locked (act f c)) s = (f s).2.
Proof. unfold locked. by run. Qed.

(** The requests of the gateway, to be run one after the other. *)
Inductive request :=
| RqCreateNode (n : Node)
| RqCreateTwin (relays : list string) (key : string)
| RqEnsureAccount (relays : list string) (key : string)
| RqUpdateNode (n : Node)
| RqUptime (u t : Z)
| RqGetNodes (farm : Z)
| RqGetTwinByPubKey (pk : string).

Definition serve (r : request) : M S gcall unit :=
  match r with
  | RqCreateNode n => CreateNode n ;;; ret tt
  | RqCreateTwin relays key => CreateTwin relays key ;;; ret tt
  | RqEnsureAccount relays key => EnsureAccount relays key ;;; ret tt
  | RqUpdateNode n => UpdateNode n ;;; ret tt
  | RqUptime u t => UpdateNodeUptimeV2 u t ;;; ret tt
  | RqGetNodes farm => GetNodes farm ;;; ret tt
  | RqGetTwinByPubKey pk => GetTwinByPubKey pk ;;; ret tt
  end.

Lemma serve_guarded r s l : guarded false l = true -> guarded false (calls (serve r) s ++ l) = true.
Proof.
  intros Hl. destruct r; simpl; rewrite calls_bind, calls_ret, app_nil_r;
    try (unfold CreateNode, CreateTwin, EnsureAccount, UpdateNode, UpdateNodeUptimeV2;
         by rewrite (proj1 (locked_act _ _ _))).
  - unfold GetNodes. rewrite calls_bind, calls_act.
    destruct (result _ _). by run.
  - unfold GetTwinByPubKey. rewrite calls_bind, calls_act.
    destruct (result _ _). by run.
Qed.

(** Over any sequence of requests to the gateway the registrar client is called only while
    the lock is held, and every lock taken is released before the next request. *)
Theorem requests_guarded (rs : list request) s :
  guarded false (calls (for_each serve rs) s) = true.
Proof.
  revert s. induction rs as [|r rs IH]; intros s; simpl; [by run|].
  rewrite calls_bind. by apply serve_guarded.
Qed.

(** The update sent to the registrar carries every field of the node. *)
Theorem UpdateNode_payload (n : Node) s :
  exists u, calls (UpdateNode n) s = [Lock; UpdateNode_ u; Unlock] /\
    upd_FarmID u = Some (node_FarmID n) /\ upd_Resources u = Some (node_Resources n) /\
    upd_Interfaces u = node_Interfaces n /\ upd_SerialNumber u = Some (node_SerialNumber n) /\
    upd_Location u = Some (node_Location n) /\
    upd_SecureBoot u = Some (node_SecureBoot n) /\ upd_Virtualized u = Some (node_Virtualized n) /\
    result (UpdateNode n) s = (rcUpdateNode u s).1.
Proof.
  exists (node_update n). unfold UpdateNode.
  destruct (locked_act (rcUpdateNode (node_update n)) (fun _ => UpdateNode_ (node_update n)) s)
    as (-> & -> & _). done.
Qed.
End theorems.

(** ** The engine on this gateway *)
Section engine_on_gateway.
Context `{!GridTypes, !SortSlice} {S : Type} `{!EngineEnv S, !EngineView S, !EngineLaws}.
Variable e : NativeEngine S.
Variable zero_SubstrateError : SubstrateError.
(** [pkg.SubstrateError]'s zero value is "no error". *)
Hypothesis zero_no_error : se_IsError zero_SubstrateError = false.

(** The engine's contract queries are answered by this gateway. *)
Definition on_gateway : Prop :=
  forall id (s : S), (gwGetContract id s).1 = GetContract zero_SubstrateError id.

Lemma validate_on_gateway ctx d nv s :
  on_gateway -> is_Some (res_err (result (validate e ctx d nv) s)).
Proof.
  intros Hg. unfold validate. destruct (registrarGateway e); simpl; [|run; by eauto].
  rewrite result_bind, result_act, Hg. simpl. rewrite zero_no_error. simpl. run. by eauto.
Qed.

(** C30: With the contract queries of the gateway as they are written, which answer a zero
    contract without an error, a job that needs a contract never reaches the provisioner and
    is recorded as failed. *)
Theorem gateway_nothing_installed root job s :
  on_gateway -> needs_contract (jOp job) = true ->
  filter is_provisioner (calls (handle_job e root job) s) = [] /\
  exists err r, StError (TwinID (jTarget job)) (ContractID (jTarget job)) err r
                  ∈ calls (handle_job e root job) s.
Proof.
  intros Hg Hn. pose proof (handle_job_rejected e root job s) as Hj. simpl in Hj.
  destruct (validate_on_gateway (withDeployment root (TwinID (jTarget job)) (ContractID (jTarget job)))
    (jTarget job) (bool_decide (jOp job = opProvisionNoValidation)) s Hg) as [err He].
  destruct (result (validate _ _ _ _) s) as [ctx|err'] eqn:Hv; simplify_eq/=.
  destruct (Hj err) as (Hc & Hp & _); [done|done|]. split; [done|].
  exists err. rewrite Hc. eexists. apply elem_of_app. right. left.
Qed.
End engine_on_gateway.
