(* ===== verification/Capacity.v ===== *)
(** * Contract consumption (cmds/modules/provisiond/cap.go)

    The engine's callback pushes the contracts it worked on into a channel; the
    setter takes them out one by one, adds up the capacity of the deployment and
    reports it.  The channel is the list [cs_ch] of at most 215 elements: a send
    into a full channel blocks, which is [None]. *)

From S2P Require Import Prelude GridTypes.

Record DeploymentID := MkDeploymentID { Twin : Z; Contract : Z }.

(** [substrate.ContractResources]. *)
Record Resources := MkResources { r_HRU : Z; r_SRU : Z; r_CRU : Z; r_MRU : Z }.
Record ContractResources := MkContractResources { cr_ContractID : Z; cr_Used : Resources }.

Inductive ccall :=
| CSetConsumption (caps : list ContractResources) (r : option error)
| CGet (twin contract : Z) (r : res Deployment).

Class CapacityEnv (S : Type) := {
  cStorageGet : Z -> Z -> S -> res Deployment * S;
  cSetContractConsumption : list ContractResources -> S -> option error * S }.

(** The channel and the capacity it was made with. *)
Record CapacitySetter := MkCapacitySetter { cs_ch : list DeploymentID; cs_cap : nat }.

Definition NewCapacitySetter : CapacitySetter := MkCapacitySetter [] 215.

Definition Callback (c : CapacitySetter) (twin contract : Z) (delete : bool)
    : option CapacitySetter :=
  if delete then Some c
  else if decide (length (cs_ch c) < cs_cap c)
       then Some (MkCapacitySetter (cs_ch c ++ [MkDeploymentID twin contract]) (cs_cap c))
       else None.

Section setter.
Context `{!GridTypes} {S : Type} `{!CapacityEnv S}.

(** The loop over the workloads of one deployment. *)
Fixpoint total_capacity (ws : list Workload) (total : GridTypes.Capacity) : GridTypes.Capacity :=
  match ws with
  | [] => total
  | wl :: ws =>
      if IsOkay (State (WResult wl)) then
        match WCapacity wl with
        | Err _ => total_capacity ws total
        | Val cap => total_capacity ws (CapacityAdd total cap)
        end
      else total_capacity ws total
  end.

Definition contract_resources (deployment : Deployment) : ContractResources :=
  let total := total_capacity (Workloads deployment) zero_capacity in
  MkContractResources (ContractID deployment)
    (MkResources (HRU total) (SRU total) (CRU total) (MRU total)).

Definition setWithClient (deployments : list Deployment) : M S ccall (option error) :=
  let caps := map contract_resources deployments in
  retry (fun s => (false, s)) 4 (act (cSetContractConsumption caps) (CSetConsumption caps)).

Definition Set_ (deployments : list Deployment) : M S ccall (option error) :=
  match deployments with
  | [] => ret None
  | _ => setWithClient deployments
  end.

(** One round of [Run] for the contract [id] it received. *)
Definition Run_received (id : DeploymentID) : M S ccall unit :=
  deployment <- act (cStorageGet (Twin id) (Contract id)) (CGet (Twin id) (Contract id)) ;;
  match deployment with
  | Err _ => ret tt
  | Val deployment => Set_ [deployment] ;;; ret tt
  end.

(** [Run] until the context is done, having received [n] contracts. *)
Fixpoint Run (n : nat) (c : CapacitySetter) : M S ccall CapacitySetter :=
  match n, cs_ch c with
  | 0, _ | _, [] => ret c
  | Datatypes.S n, id :: ch =>
      Run_received id ;;; Run n (MkCapacitySetter ch (cs_cap c))
  end.
End setter.

(** ** What is reported *)
Section theorems.
Context `{!GridTypes, !GridTypesLaws} {S : Type} `{!CapacityEnv S}.

(** The capacities of the workloads that count. *)
Definition counted (ws : list Workload) : list GridTypes.Capacity :=
  omap (fun wl => if IsOkay (State (WResult wl))
                  then match WCapacity wl with Val c => Some c | Err _ => None end
                  else None) ws.
Definition sum_of (unit : GridTypes.Capacity -> Z) (l : list GridTypes.Capacity) : Z :=
  foldr (fun c z => unit c + z)%Z 0%Z l.

Lemma total_capacity_sum ws total unit :
  (forall a b, unit (CapacityAdd a b) = uint64 (unit a + unit b)) ->
  unit total = uint64 (unit total) ->
  unit (total_capacity ws total) = uint64 (unit total + sum_of unit (counted ws)).
Proof.
  intros Hadd. revert total. induction ws as [|w ws IH]; intros total Ht; simpl.
  { by rewrite Z.add_0_r. }
  destruct (IsOkay _); [|by apply IH].
  destruct (WCapacity w) as [c|err]; [|by apply IH]. simpl.
  rewrite IH by (rewrite Hadd; unfold uint64; by rewrite Zmod_mod).
  by rewrite Hadd, uint64_add_l, Z.add_assoc.
Qed.

(** The consumption reported for a contract is, modulo the 64-bit width, the sum of the
    capacities of its workloads in an okay state whose capacity is known. *)
Theorem contract_resources_sum (d : Deployment) :
  let caps := counted (Workloads d) in
  contract_resources d = MkContractResources (ContractID d)
    (MkResources (uint64 (sum_of HRU caps)) (uint64 (sum_of SRU caps))
                 (uint64 (sum_of CRU caps)) (uint64 (sum_of MRU caps))).
Proof.
  intros caps. unfold contract_resources.
  rewrite !total_capacity_sum; try done; intros a b; by rewrite CapacityAdd_spec.
Qed.

(** [Set] sends the consumption of every deployment in one call, up to five times until one
    is accepted, and answers the last error; with no deployment it sends nothing. *)
Theorem Set_attempts (ds : list Deployment) (s : S) :
  let caps := map contract_resources ds in
  (ds = [] /\ calls (Set_ ds) s = [] /\ result (Set_ ds) s = None) \/
  exists errs last,
    calls (Set_ ds) s = map (fun e => CSetConsumption caps (Some e)) errs ++ [CSetConsumption caps last] /\
    result (Set_ ds) s = last /\
    match last with None => length errs <= 4 | Some _ => length errs = 4 end.
Proof.
  intros caps. destruct ds as [|d ds]; [by left|right].
  apply (retry_calls_act 4 (cSetContractConsumption caps) (CSetConsumption caps)).
Qed.

Definition looked_up (l : list ccall) : list DeploymentID :=
  omap (fun c => match c with CGet t d _ => Some (MkDeploymentID t d) | _ => None end) l.

Lemma looked_up_set l caps : looked_up (map (fun e => CSetConsumption caps (Some e)) l) = [].
Proof. induction l; simpl; done. Qed.

Lemma Run_received_looked_up id s : looked_up (calls (Run_received id) s) = [id].
Proof.
  unfold Run_received. rewrite calls_bind, calls_act, result_act.
  destruct (cStorageGet _ _ s).1 as [d|err]; [|by destruct id].
  rewrite calls_bind, calls_ret, app_nil_r.
  destruct (retry_calls_act 4 (cSetContractConsumption (map contract_resources [d]))
    (CSetConsumption (map contract_resources [d]))
    (final (act (cStorageGet (Twin id) (Contract id)) (CGet (Twin id) (Contract id))) s))
    as (errs & last & Hc & _).
  unfold Set_, setWithClient. rewrite Hc. unfold looked_up.
  rewrite !omap_app. fold (looked_up (map (fun e => CSetConsumption (map contract_resources [d]) (Some e)) errs)).
  rewrite looked_up_set. by destruct id.
Qed.

(** The callbacks of the engine, as long as none blocks. *)
Definition callbacks (c : CapacitySetter) (l : list (DeploymentID * bool)) : option CapacitySetter :=
  foldl (fun c '(id, delete) => c ← c; Callback c (Twin id) (Contract id) delete) (Some c) l.

(** The contracts whose callback was not a deletion. *)
Definition pushed (l : list (DeploymentID * bool)) : list DeploymentID :=
  omap (fun p : DeploymentID * bool => if p.2 then None else Some p.1) l.

Lemma callbacks_None l :
  foldl (fun c '(id, delete) => c ← c; Callback c (Twin id) (Contract id) delete) None l = None.
Proof. by induction l as [|[id del] l IH]. Qed.

Lemma callbacks_ch c l c' :
  callbacks c l = Some c' -> length (cs_ch c) <= cs_cap c ->
  cs_ch c' = cs_ch c ++ pushed l /\
  cs_cap c' = cs_cap c /\ length (cs_ch c') <= cs_cap c'.
Proof.
  unfold callbacks. revert c. induction l as [|[id del] l IH]; intros c; simpl.
  { intros [= <-] Hl. by rewrite app_nil_r. }
  destruct del; simpl.
  - intros Hf Hl. apply IH in Hf; [|done]. done.
  - unfold Callback. destruct (decide _) as [Hlt|]; [|by rewrite callbacks_None].
    intros Hf Hl. apply IH in Hf as (H1 & H2 & H3); [|simpl; rewrite length_app; simpl; lia].
    simpl in *. split; [|done].
    rewrite H1, <- app_assoc. by destruct id.
Qed.

(** After any sequence of callbacks that did not block, the setter looks up the deployments
    pushed by the callbacks that were not deletions, in their order, each once per push, and
    the channel holds the rest; the channel never exceeds its bound. *)
Theorem Run_reports_callbacks l c n (s : S) :
  callbacks NewCapacitySetter l = Some c ->
  length (cs_ch c) <= 215 /\
  looked_up (calls (Run n c) s) = take n (pushed l) /\
  cs_ch (result (Run n c) s) = drop n (pushed l).
Proof.
  intros Hc. apply callbacks_ch in Hc as (Hch & Hcap & Hlen); [|simpl; lia].
  simpl in *. split; [lia|]. rewrite <- Hch. clear Hch Hlen Hcap.
  revert c s. induction n as [|n IH]; intros c s; simpl; [by run|].
  destruct (cs_ch c) as [|id ch] eqn:Ech.
  { rewrite result_ret, calls_ret, Ech. done. }
  rewrite calls_bind, result_bind. unfold looked_up. rewrite omap_app.
  fold (looked_up (calls (Run_received id) s)). rewrite Run_received_looked_up.
  destruct (IH (MkCapacitySetter ch (cs_cap c)) (final (Run_received id) s)) as [Hi1 Hi2].
  unfold looked_up in Hi1. simpl in *. by rewrite Hi1, Hi2.
Qed.
End theorems.
