(* ===== verification/Events.v ===== *)
(** * Contract events (cmds/modules/provisiond/events.go)

    The handler keeps the deployments of the engine in step with the contracts
    of the node: by [sync] at start and every hour, and by the cancellation and
    locking events.  An hourly [sync] runs in its own goroutine; here it runs at
    the tick that starts it. *)

From S2P Require Import Prelude GridTypes Sorting Engine.

Inductive evcall :=
| EvCapacity (r : res (list Deployment))
| EvNodeContracts (node : Z) (r : res (list Z))
| EvGetContract (id : Z) (r : Contract * SubstrateError)
| EvDeprovision (twin contract : Z) (reason : string) (r : option error)
| EvPause (twin contract : Z)
| EvResume (twin contract : Z)
| EvSubscribe.

Class EventsEnv (S : Type) := {
  (* storage.Capacity().Deployments *)
  evCapacity : S -> res (list Deployment) * S;
  evNodeContracts : Z -> S -> res (list Z) * S;
  evGetContract : Z -> S -> (Contract * SubstrateError) * S;
  evDeprovision : Z -> Z -> string -> S -> option error * S;
  evPause : Z -> Z -> S -> option error * S;
  evResume : Z -> Z -> S -> option error * S;
  evContractCancelled : S -> option error * S;
  evContractLocked : S -> option error * S }.

(** What the [select] of [Run] can take. *)
Inductive selected :=
| SelDone
| SelTick
| SelCancelled (twin contract : Z)
| SelLocking (twin contract : Z) (lock : bool).

Section handler.
Context `{!GridTypes, !RangeMap} {S : Type} `{!EventsEnv S}.
Variable node : Z.

(** The map [current] builds: a later deployment of a contract wins. *)
Definition by_contract (dls : list Deployment) : gmap Z Deployment :=
  foldl (fun running active => <[ContractID active := active]> running) ∅ dls.

Definition current : M S evcall (res (gmap Z Deployment)) :=
  storageCap <- act evCapacity EvCapacity ;;
  match storageCap with
  | Err err => ret (Err err)
  | Val dls => ret (Val (by_contract dls))
  end.

(** The loop over the contracts on the chain, from [active] to [running]. *)
Fixpoint move_running (onchain : list Z) (active running : gmap Z Deployment)
    : gmap Z Deployment * gmap Z Deployment :=
  match onchain with
  | [] => (active, running)
  | contract :: onchain =>
      let running := match active !! contract with
                     | Some dl => <[ContractID dl := dl]> running
                     | None => running
                     end in
      move_running onchain (delete contract active) running
  end.

Definition isLocked (dl : Deployment) : bool :=
  existsb (fun wl => IsAny (State (WResult wl)) [StatePaused]) (Workloads dl).

(** [action(ctx, twin, contract)] for the state a contract has to have. *)
Definition set_locked (twin contract : Z) (locked : bool) : M S evcall unit :=
  (if locked then act (evPause twin contract) (fun _ => EvPause twin contract)
   else act (evResume twin contract) (fun _ => EvResume twin contract)) ;;;
  ret tt.

Definition deprovision_one (p : Z * Deployment) : M S evcall unit :=
  let '(contract, dl) := p in
  act (evDeprovision (TwinID dl) contract "contract not active on chain")
      (EvDeprovision (TwinID dl) contract "contract not active on chain") ;;;
  ret tt.

Definition sync_one (p : Z * Deployment) : M S evcall unit :=
  let '(id, dl) := p in
  '(contract, err) <- act (evGetContract id) (EvGetContract id) ;;
  if se_IsError err then ret tt
  else
    let locked := IsGracePeriod contract in
    if bool_decide (locked = isLocked dl) then ret tt
    else set_locked (TwinID dl) (ContractID dl) locked.

Definition sync : M S evcall (option error) :=
  active <- current ;;
  match active with
  | Err err => ret (Some (Wrapped "failed to get current active contracts" err))
  | Val active =>
      onchain <- act (evNodeContracts (uint32 node)) (EvNodeContracts (uint32 node)) ;;
      match onchain with
      | Err err => ret (Some (Wrapped "failed to get active node contracts" err))
      | Val onchain =>
          let '(active, running) := move_running onchain active ∅ in
          for_each deprovision_one (range_map active) ;;;
          for_each sync_one (range_map running) ;;;
          ret None
      end
  end.

(** The body of the loop of [Run] for one choice of the [select]. *)
Definition Run_selected (ev : selected) : M S evcall unit :=
  match ev with
  | SelDone => ret tt
  | SelTick => sync ;;; ret tt
  | SelCancelled twin contract =>
      act (evDeprovision twin contract "contract canceled event received")
          (EvDeprovision twin contract "contract canceled event received") ;;;
      ret tt
  | SelLocking twin contract lock => set_locked twin contract lock
  end.

(** The loop, over the choices of the [select]; the answer is [ctx.Err()]. *)
Fixpoint Run_loop (evs : list selected) : M S evcall unit :=
  match evs with
  | [] | SelDone :: _ => ret tt
  | ev :: evs => Run_selected ev ;;; Run_loop evs
  end.

Definition Run (evs : list selected) : M S evcall (option error) :=
  err <- act evContractCancelled (fun _ => EvSubscribe) ;;
  match err with
  | Some err => ret (Some (Wrapped "failed to register to node events" err))
  | None =>
      err <- act evContractLocked (fun _ => EvSubscribe) ;;
      match err with
      | Some err => ret (Some err)
      | None =>
          err <- sync ;;
          match err with
          | Some err => ret (Some (Wrapped "failed to synchronize active contracts" err))
          | None => Run_loop evs ;;; ret None
          end
      end
  end.
End handler.

(** ** Which deployments are touched *)
Section theorems.
Context `{!GridTypes, !RangeMap, !RangeMapLaws} {S : Type} `{!EventsEnv S}.
Variable node : Z.

Definition deprovisions (l : list evcall) : list (Z * Z) :=
  omap (fun c => match c with EvDeprovision t d _ _ => Some (t, d) | _ => None end) l.

Lemma by_contract_keyed dls k d : by_contract dls !! k = Some d -> ContractID d = k.
Proof.
  unfold by_contract.
  assert (Hg : forall m : gmap Z Deployment, (forall k d, m !! k = Some d -> ContractID d = k) ->
    foldl (fun running active => <[ContractID active := active]> running) m dls !! k = Some d ->
    ContractID d = k).
  { induction dls as [|d' dls IH]; intros m Hm; simpl; [apply Hm|].
    apply IH. intros k' d0. destruct (decide (ContractID d' = k')) as [<-|Hne].
    - rewrite lookup_insert_eq. by intros [= <-].
    - rewrite lookup_insert_ne by done. apply Hm. }
  apply Hg. intros k' d'. by rewrite lookup_empty.
Qed.

Lemma move_running_spec onchain active running active' running' :
  move_running onchain active running = (active', running') ->
  (forall k d, active !! k = Some d -> ContractID d = k) ->
  (forall k, active' !! k = if decide (k ∈ onchain) then None else active !! k) /\
  (forall k d, running' !! k = Some d <->
     if decide (k ∈ onchain /\ is_Some (active !! k))
     then active !! k = Some d else running !! k = Some d).
Proof.
  revert active running. induction onchain as [|c onchain IH]; intros active running; simpl.
  { intros [= <- <-] _. split; [done|]. intros k d.
    done. }
  intros Hm Hk. apply IH in Hm as [Ha Hr].
  2:{ intros k d Hd. apply lookup_delete_Some in Hd as [_ Hd]. by apply Hk. }
  split.
  - intros k. rewrite Ha. destruct (decide (k = c)) as [->|Hne].
    + rewrite lookup_delete_eq. repeat case_decide; set_solver.
    + rewrite lookup_delete_ne by done. repeat case_decide; set_solver.
  - intros k d. rewrite Hr. clear Hr Ha IH.
    destruct (decide (k = c)) as [->|Hne].
    + rewrite lookup_delete_eq.
      case_decide as Hd; [destruct Hd as [_ [? ?]]; done|clear Hd].
      destruct (active !! c) as [dc|] eqn:Ec.
      * rewrite (Hk c dc Ec), lookup_insert_eq.
        case_decide as Hn; [done|]. destruct Hn. split; [left|by eexists].
      * case_decide as Hd; [destruct Hd as [_ [? ?]]|]; done.
    + rewrite lookup_delete_ne by done.
      assert (Hins : (match active !! c with
          | Some dl => <[ContractID dl := dl]> running | None => running end) !! k = running !! k).
      { destruct (active !! c) as [dc|] eqn:Ec; [|done].
        by rewrite (Hk c dc Ec), lookup_insert_ne. }
      rewrite Hins. repeat case_decide; set_solver.
Qed.

(** The final active and running maps of a [sync]. *)
Lemma move_running_sync onchain dls k :
  let '(active', running') := move_running onchain (by_contract dls) ∅ in
  (active' !! k = if decide (k ∈ onchain) then None else by_contract dls !! k) /\
  forall d, running' !! k = Some d <-> k ∈ onchain /\ by_contract dls !! k = Some d.
Proof.
  destruct (move_running _ _ _) as [active' running'] eqn:Hm.
  apply move_running_spec in Hm as [Ha Hr]; [|intros k' d'; apply by_contract_keyed].
  split; [apply Ha|]. intros d. rewrite Hr, lookup_empty. case_decide as Hd; [tauto|].
  split; [done|]. intros [Hin Hd']. destruct Hd. by split.
Qed.

Lemma deprovision_all l s :
  deprovisions (calls (for_each deprovision_one l) s) = map (fun '(c, d) => (TwinID d, c)) l.
Proof.
  revert s. induction l as [|[c d] l IH]; intros s; simpl; [by run|].
  rewrite calls_bind, calls_bind, calls_act, calls_ret, app_nil_r. simpl. by rewrite IH.
Qed.

Lemma set_locked_calls twin contract locked s :
  calls (set_locked twin contract locked) s =
  [if locked then EvPause twin contract else EvResume twin contract].
Proof. unfold set_locked. destruct locked; by run. Qed.

Lemma sync_one_calls id d s :
  let ans := (evGetContract id s).1 in
  calls (sync_one (id, d)) s =
  EvGetContract id ans ::
    (if se_IsError ans.2 || bool_decide (IsGracePeriod ans.1 = isLocked d) then []
     else [if IsGracePeriod ans.1 then EvPause (TwinID d) (ContractID d)
           else EvResume (TwinID d) (ContractID d)]).
Proof.
  unfold sync_one. rewrite calls_bind, calls_act, result_act, final_act.
  destruct (evGetContract id s) as [[contract err] s']. simpl.
  destruct (se_IsError err); simpl; [by run|].
  destruct (bool_decide _); simpl; [by run|]. by rewrite set_locked_calls.
Qed.

Lemma sync_calls dls onchain (s : S) :
  (evCapacity s).1 = Val dls ->
  (evNodeContracts (uint32 node) (evCapacity s).2).1 = Val onchain ->
  let '(active', running') := move_running onchain (by_contract dls) ∅ in
  result (sync node) s = None /\
  exists s1 s2, calls (sync node) s =
    EvCapacity (Val dls) :: EvNodeContracts (uint32 node) (Val onchain) ::
    calls (for_each deprovision_one (range_map active')) s1 ++
    calls (for_each sync_one (range_map running')) s2.
Proof.
  intros Hc Hn. destruct (move_running _ _ _) as [active' running'] eqn:Hm.
  unfold sync, current. run. rewrite Hc. simpl. run. rewrite Hn. simpl. rewrite Hm.
  split; [by run|]. run. rewrite app_nil_r. by do 2 eexists.
Qed.

Lemma sync_one_no_deprovision l s : deprovisions (calls (for_each sync_one l) s) = [].
Proof.
  revert s. induction l as [|[id d] l IH]; intros s; cbn [for_each]; [by run|].
  rewrite calls_bind. unfold deprovisions. rewrite omap_app.
  fold (deprovisions (calls (sync_one (id, d)) s)). rewrite sync_one_calls. simpl.
  unfold deprovisions in IH. rewrite IH, app_nil_r.
  destruct (_ || _); [done|]. by destruct (IsGracePeriod _).
Qed.

(** C20: A synchronisation with the chain asks to deprovision exactly the active contracts
    the chain no longer lists for the node, each once and for the twin that owns it. *)
Theorem sync_deprovisions dls onchain (s : S) :
  (evCapacity s).1 = Val dls ->
  (evNodeContracts (uint32 node) (evCapacity s).2).1 = Val onchain ->
  result (sync node) s = None /\
  NoDup (map snd (deprovisions (calls (sync node) s))) /\
  forall twin contract, (twin, contract) ∈ deprovisions (calls (sync node) s) <->
    contract ∉ onchain /\ exists d, by_contract dls !! contract = Some d /\ TwinID d = twin.
Proof.
  intros Hc Hn. pose proof (sync_calls dls onchain s Hc Hn) as Hs.
  pose proof (move_running_sync onchain dls) as Hm.
  destruct (move_running _ _ _) as [active' running'].
  destruct Hs as (Hr & s1 & s2 & Hcalls). split; [done|].
  assert (Hd : deprovisions (calls (sync node) s) =
               map (fun '(c, d) => (TwinID d, c)) (range_map active')).
  { rewrite Hcalls. simpl. unfold deprovisions. rewrite omap_app.
    fold (deprovisions (calls (for_each deprovision_one (range_map active')) s1)).
    fold (deprovisions (calls (for_each sync_one (range_map running')) s2)).
    by rewrite deprovision_all, sync_one_no_deprovision, app_nil_r. }
  rewrite Hd. split.
  - rewrite map_map. rewrite (map_ext _ fst) by (by intros [c d]).
    change (NoDup ((range_map active').*1)). rewrite range_map_perm. apply NoDup_fst_map_to_list.
  - intros twin contract. rewrite list_elem_of_fmap. destruct (Hm contract) as [Ha _].
    split.
    + intros ([c d] & [= -> ->] & Hin). rewrite range_map_perm in Hin.
      apply elem_of_map_to_list in Hin. rewrite Ha in Hin.
      case_decide; [done|]. split; [done|]. by exists d.
    + intros (Hno & d & Hd' & <-). exists (contract, d). split; [done|].
      rewrite range_map_perm. apply elem_of_map_to_list. rewrite Ha.
      by case_decide.
Qed.

(** For every active contract the chain lists, a synchronisation reads the contract, pauses
    the deployment when it is in its grace period and not locked, and resumes it when it is
    locked and out of its grace period. *)
Theorem sync_locks dls onchain (s : S) contract d :
  (evCapacity s).1 = Val dls ->
  (evNodeContracts (uint32 node) (evCapacity s).2).1 = Val onchain ->
  contract ∈ onchain -> by_contract dls !! contract = Some d ->
  exists ans, EvGetContract contract ans ∈ calls (sync node) s /\
    (se_IsError ans.2 = false -> IsGracePeriod ans.1 = true -> isLocked d = false ->
       EvPause (TwinID d) contract ∈ calls (sync node) s) /\
    (se_IsError ans.2 = false -> IsGracePeriod ans.1 = false -> isLocked d = true ->
       EvResume (TwinID d) contract ∈ calls (sync node) s).
Proof.
  intros Hc Hn Hin Hd. pose proof (sync_calls dls onchain s Hc Hn) as Hs.
  pose proof (move_running_sync onchain dls contract) as Hm.
  destruct (move_running _ _ _) as [active' running'].
  destruct Hm as [_ Hrun]. destruct Hs as (_ & s1 & s2 & ->).
  assert (Hr : (contract, d) ∈ range_map running').
  { rewrite range_map_perm. apply elem_of_map_to_list. apply Hrun. by split. }
  destruct (for_each_calls sync_one _ _ s2 Hr) as [s' Hs'].
  rewrite sync_one_calls in Hs'. simpl in Hs'.
  pose proof (by_contract_keyed _ _ _ Hd) as Hk. rewrite Hk in Hs'.
  exists (evGetContract contract s').1.
  assert (Hl : forall c, c ∈ calls (for_each sync_one (range_map running')) s2 ->
    c ∈ EvCapacity (Val dls) :: EvNodeContracts (uint32 node) (Val onchain) ::
    calls (for_each deprovision_one (range_map active')) s1 ++
    calls (for_each sync_one (range_map running')) s2) by set_solver.
  split; [apply Hl, Hs'; left|].
  split; intros He Hg Hlk; apply Hl, Hs'; rewrite He, Hg, Hlk; simpl; right; left.
Qed.

(** A pause or a resume asked for by a synchronisation is for an active contract that the
    chain still lists, whose contract was read without error and whose grace period differs
    from the lock of the deployment. *)
Theorem sync_changes_justified dls onchain (s : S) twin contract (lock : bool) :
  (evCapacity s).1 = Val dls ->
  (evNodeContracts (uint32 node) (evCapacity s).2).1 = Val onchain ->
  (if lock then EvPause twin contract else EvResume twin contract) ∈ calls (sync node) s ->
  contract ∈ onchain /\ exists d ct err, by_contract dls !! contract = Some d /\
    TwinID d = twin /\ isLocked d = negb lock /\
    EvGetContract contract (ct, err) ∈ calls (sync node) s /\
    IsGracePeriod ct = lock /\ se_IsError err = false.
Proof.
  intros Hc Hn Hin. pose proof (sync_calls dls onchain s Hc Hn) as Hs.
  pose proof (move_running_sync onchain dls) as Hm.
  destruct (move_running _ _ _) as [active' running'].
  destruct Hs as (_ & s1 & s2 & Hcalls). rewrite Hcalls in Hin |- *.
  apply elem_of_cons in Hin as [Hin|Hin]; [by destruct lock|].
  apply elem_of_cons in Hin as [Hin|Hin]; [by destruct lock|].
  apply elem_of_app in Hin as [Hin|Hin].
  { apply for_each_calls_inv in Hin as ([c d] & s' & _ & Hin & _).
    unfold deprovision_one in Hin. run in Hin. destruct lock; set_solver. }
  apply for_each_calls_inv in Hin as ([id d] & s' & Hr & Hin & Hsub).
  rewrite range_map_perm in Hr. apply elem_of_map_to_list in Hr.
  destruct (Hm id) as [_ Hrun]. apply Hrun in Hr as [Hon Hd].
  pose proof (by_contract_keyed _ _ _ Hd) as Hk.
  rewrite sync_one_calls in Hin. setoid_rewrite sync_one_calls in Hsub. simpl in Hin, Hsub.
  destruct (evGetContract id s').1 as [ct err] eqn:Ea. simpl in *.
  apply elem_of_cons in Hin as [Hin|Hin]; [by destruct lock|].
  destruct (se_IsError err) eqn:Ee; [by apply elem_of_nil in Hin|].
  case_bool_decide as Hb; [by apply elem_of_nil in Hin|]. apply list_elem_of_singleton in Hin.
  assert (Hc' : EvGetContract id (ct, err) ∈ calls (for_each sync_one (range_map running')) s2)
    by (apply Hsub; left).
  destruct lock, (IsGracePeriod ct) eqn:Eg; simplify_eq; (split; [done|]);
    exists d, ct, err; (split; [done|]); (split; [done|]).
  all: split; [by destruct (isLocked d)|]; split; [set_solver|done].
Qed.

End theorems.
