(* ===== verification/Reporter.v ===== *)
(** * Consumption reports (cmds/modules/provisiond/reporter.go)

    The reporter samples the traffic of the machines into a round-robin
    database, once an hour adds the counters up by contract, and pushes the
    report into a persisted queue that a second loop sends to the registrar.
    A float64 is a [spec_float] of the Standard Library at precision 53; its
    conversion to an integer truncates, and is left to the platform outside the
    range of the integer, as in the language. *)

From S2P Require Import Prelude GridTypes.
From Stdlib Require Import SpecFloat.

(** ** float64 *)
Definition float64_of_int (z : Z) : spec_float := binary_normalize 53 1024 z 0 false.
Definition float64_mul : spec_float -> spec_float -> spec_float := SFmul 53 1024.
Definition float64_add : spec_float -> spec_float -> spec_float := SFadd 53 1024.

Definition truncated (f : spec_float) : option Z :=
  match f with
  | S754_zero _ => Some 0%Z
  | S754_finite s m e =>
      let a := (if 0 <=? e then Zpos m * 2 ^ e else Zpos m / 2 ^ (- e))%Z in
      Some (if s then - a else a)%Z
  | _ => None
  end.

(** The conversions of a value the integer type can not hold. *)
Class FloatOverflow := {
  uint64_overflow : spec_float -> Z;
  int64_overflow : spec_float -> Z }.

Definition uint64_of_float `{!FloatOverflow} (f : spec_float) : Z :=
  match truncated f with
  | Some z => if ((0 <=? z) && (z <? 2 ^ 64))%Z then z else uint64_overflow f
  | None => uint64_overflow f
  end.
Definition int64_of_float `{!FloatOverflow} (f : spec_float) : Z :=
  match truncated f with
  | Some z => if ((- 2 ^ 63 <=? z) && (z <? 2 ^ 63))%Z then z else int64_overflow f
  | None => int64_overflow f
  end.

(** ** Data *)

Definition every : Z := 60 * 60.
Definition lastReportedKey : string := ".last-reported-ts".

(** [substrate.NruConsumption]. *)
Record NruConsumption := MkNru {
  nru_ContractID : Z; nru_Timestamp : Z; nru_Window : Z; nru_NRU : Z }.

Record Report := MkReport { Consumption : list NruConsumption }.

(** [pkg.MachineMetric], by the NU of its two sides. *)
Record MachineMetric := MkMetric { Public_Nu : spec_float; Private_Nu : spec_float }.

Inductive rcall :=
| RrdOpen (r : option error)
| RrdSlot (r : option error)
| RrdCounter (key : string) (v : spec_float) (r : option error)
| RrdLast
| RrdCounters (since : Z)
| RrdClose
| QueueOpen (r : option error)
| QueueRemove
| QueueEnqueue (r : Report)
| QueuePeek (r : res Report)
| QueueDequeue (r : option error)
| QueueClose
| GwReport (c : list NruConsumption) (r : option error)
| VmMetrics
| Wait (seconds : Z).

Class ReporterEnv (S : Type) := {
  rrdOpen : S -> option error * S;
  rrdSlot : S -> option error * S;
  rrdCounter : string -> spec_float -> S -> option error * S;
  rrdLast : string -> S -> res (spec_float * bool) * S;
  rrdCounters : Z -> S -> res (gmap string spec_float) * S;
  rrdClose : S -> option error * S;
  identityFromKey : S -> option error * S;
  queueOpen : S -> option error * S;
  queueRemove : S -> unit * S;
  queueEnqueue : Report -> S -> option error * S;
  queuePeekBlock : S -> res Report * S;
  queueDequeue : S -> option error * S;
  queueClose : S -> unit * S;
  gwReport : list NruConsumption -> S -> option error * S;
  vmMetrics : S -> res (gmap string MachineMetric) * S;
  (* time.Now, in nanoseconds *)
  time_now : S -> Z * S }.

(** [time.Time.Unix] and [time.Unix(sec, 0)] on nanoseconds. *)
Definition Unix (ns : Z) : Z := (ns / 10 ^ 9)%Z.
Definition of_Unix (sec : Z) : Z := (sec * 10 ^ 9)%Z.

Section reporter.
Context `{!GridTypes, !RangeMap, !FloatOverflow} {S : Type} `{!ReporterEnv S}.

Definition ReportChecks : M S rcall (option error) :=
  err <- act rrdOpen RrdOpen ;;
  match err with
  | Some err => ret (Some (Wrapped "failed to create metrics database" err))
  | None =>
      err <- act rrdSlot RrdSlot ;;
      match err with
      | Some err => ret (Some err)
      | None => act rrdClose (fun _ => RrdClose)
      end
  end.

(** The loop of [NewReporter] that opens the queue, [n] times at most; the
    last error. *)
Fixpoint open_queue (n : nat) (err : option error) : M S rcall (option error) :=
  match n with
  | 0 => ret err
  | Datatypes.S n =>
      err <- act queueOpen QueueOpen ;;
      match err with
      | Some err => act queueRemove (fun _ => QueueRemove) ;;; open_queue n (Some err)
      | None => ret None
      end
  end.

Definition NewReporter : M S rcall (option error) :=
  err <- peek identityFromKey ;;
  match err with
  | Some err => ret (Some err)
  | None =>
      err <- open_queue 3 None ;;
      match err with
      | Some err => ret (Some (Wrapped "failed to setup report persisted queue" err))
      | None =>
          err <- act rrdOpen RrdOpen ;;
          ret (wrap err "failed to create metrics database")
      end
  end.

Definition pushOne : M S rcall (option error) :=
  item <- act queuePeekBlock QueuePeek ;;
  match item with
  | Err err => ret (Some (Wrapped "failed to peek into capacity queue. #properlyfatal" err))
  | Val report =>
      err <- act (gwReport (Consumption report)) (GwReport (Consumption report)) ;;
      match err with
      | Some err => ret (Some (Wrapped "failed to publish consumption report" err))
      | None => act queueDequeue QueueDequeue
      end
  end.

(** [n] rounds of [pusher]. *)
Fixpoint pusher (n : nat) : M S rcall unit :=
  match n with
  | 0 => ret tt
  | Datatypes.S n =>
      err <- pushOne ;;
      match err with
      | Some _ => act (fun s => (tt, s)) (fun _ => Wait 20) ;;; pusher n
      | None => pusher n
      end
  end.

Definition computeNU (m : MachineMetric) : Z :=
  let public := float64_of_int 1 in
  let private := float64_of_int 0 in
  let nu := float64_add (float64_mul (Public_Nu m) public) (float64_mul (Private_Nu m) private) in
  uint64_of_float nu.

Definition slot_Counter (key : string) (v : spec_float) : M S rcall (option error) :=
  act (rrdCounter key v) (RrdCounter key v).

Definition getVmMetrics : M S rcall (option error) :=
  metrics <- act vmMetrics (fun _ => VmMetrics) ;;
  match metrics with
  | Err err => ret (Some err)
  | Val metrics =>
      for_err (fun '(vm, consumption) =>
        err <- slot_Counter vm (float64_of_int (computeNU consumption)) ;;
        ret (wrap err ("failed to store metrics for '" +:+ vm +:+ "'"))) (range_map metrics)
  end.

Definition getMetrics : M S rcall (option error) :=
  err <- act rrdSlot RrdSlot ;;
  match err with
  | Some err => ret (Some err)
  | None => getVmMetrics ;;; ret None
  end.

(** [n] ticks of [metrics]. *)
Fixpoint metrics (n : nat) : M S rcall unit :=
  match n with
  | 0 => ret tt
  | Datatypes.S n => act (fun s => (tt, s)) (fun _ => Wait 300) ;;; getMetrics ;;; metrics n
  end.

Definition setLastReportTime (ts : Z) : M S rcall (option error) :=
  err <- act rrdSlot RrdSlot ;;
  match err with
  | Some err => ret (Some (Wrapped "failed to create rrd slot" err))
  | None =>
      err <- slot_Counter lastReportedKey (float64_of_int ts) ;;
      ret (wrap err "failed to set last report time")
  end.

Definition getLastReportTime : M S rcall (res (Z * bool)) :=
  stored <- act (rrdLast lastReportedKey) (fun _ => RrdLast) ;;
  match stored with
  | Err err => ret (Err (Wrapped "failed to get timestamp of last report" err))
  | Val (stored, ok) => ret (Val (int64_of_float stored, ok))
  end.

Definition push (report : Report) : M S rcall (option error) :=
  match Consumption report with
  | [] => ret None
  | _ => act (queueEnqueue report) (fun _ => QueueEnqueue report)
  end.

(** One entry of the counters, added to the report of its contract. *)
Definition add_value (timestamp window : Z) (reports : gmap Z NruConsumption)
    (p : string * spec_float) : gmap Z NruConsumption :=
  let '(key, value) := p in
  if bool_decide (key = lastReportedKey) then reports
  else
    match Parts key with
    | (_, Some _) => reports
    | ((_, deployment, _), None) =>
        let rep := match reports !! deployment with
                   | Some rep => rep
                   | None => MkNru deployment timestamp window 0
                   end in
        let rep := MkNru (nru_ContractID rep) (nru_Timestamp rep) (nru_Window rep)
                     (uint64 (nru_NRU rep + uint64_of_float value)) in
        <[deployment := rep]> reports
    end.

Definition collect_reports (reports : gmap Z NruConsumption) : list NruConsumption :=
  omap (fun p => if (nru_NRU p.2 =? 0)%Z then None else Some p.2) (range_map reports).

Definition make_report (now since : Z) (values : gmap string spec_float) : Report :=
  let window := uint64 (Z.quot (now - since) (10 ^ 9)) in
  MkReport (collect_reports
    (foldl (add_value (uint64 (Unix now)) window) ∅ (range_map values))).

Definition report (since : Z) : M S rcall (Z * option error) :=
  now <- peek time_now ;;
  values <- act (rrdCounters since) (fun _ => RrdCounters since) ;;
  match values with
  | Err err => ret (now, Some (Wrapped "failed to get stored metrics from rrd" err))
  | Val values => err <- push (make_report now since values) ;; ret (now, err)
  end.

Definition Close : M S rcall unit :=
  act rrdClose (fun _ => RrdClose) ;;; act queueClose (fun _ => QueueClose).

(** The seconds to wait before the next report. *)
Definition report_delay (lastReport u : Z) : Z :=
  let delay := int64 (int64 (lastReport + every) - u) in
  if (delay <? 0)%Z then 0%Z else delay.

(** The window start of a round: the last report, or now when there is none. *)
Definition last_or_now (u : Z) : M S rcall (res Z) :=
  last <- getLastReportTime ;;
  match last with
  | Err err => ret (Err err)
  | Val (lastReport, ok) =>
      if (ok : bool) then ret (Val lastReport)
      else
        err <- setLastReportTime u ;;
        match err with
        | Some err => ret (Err err)
        | None => ret (Val u)
        end
  end.

(** The loop of [Run], over the choices of its [select]: whether the context is
    done while it waits. *)
Fixpoint Run (dones : list bool) : M S rcall (option error) :=
  match dones with
  | [] => ret None
  | done :: dones =>
      now <- peek time_now ;;
      let u := Unix now in
      lastReport <- last_or_now u ;;
      match lastReport with
      | Err err => ret (Some err)
      | Val lastReport =>
          act (fun s => (tt, s)) (fun _ => Wait (report_delay lastReport u)) ;;;
          if (done : bool) then ret None
          else
            '(ts, err) <- report (of_Unix lastReport) ;;
            match err with
            | Some err => ret (Some (Wrapped "failed to create consumption report" err))
            | None =>
                err <- setLastReportTime (Unix ts) ;;
                match err with
                | Some err => ret (Some err)
                | None => Run dones
                end
            end
      end
  end.
End reporter.

(** ** Integers kept in a float64 *)
Section floats.
Context `{!FloatOverflow}.

Lemma iter_xO_mul d m : Zpos (Pos.iter xO m d) = (Zpos m * 2 ^ Zpos d)%Z.
Proof.
  induction d as [|d IH] using Pos.peano_ind; [simpl; lia|].
  rewrite Pos.iter_succ, Pos2Z.inj_succ, Z.pow_succ_r by lia. lia.
Qed.
Lemma digits2_iter d m : digits2_pos (Pos.iter xO m d) = (digits2_pos m + d)%positive.
Proof.
  induction d as [|d IH] using Pos.peano_ind; [simpl; lia|].
  rewrite Pos.iter_succ. simpl. rewrite IH. lia.
Qed.
Lemma digits2_lower m : (2 ^ (Zpos (digits2_pos m) - 1) <= Zpos m)%Z.
Proof.
  induction m as [m IH|m IH|]; simpl; [| |done].
  all: rewrite Pos2Z.inj_succ; replace (Z.succ (Zpos (digits2_pos m)) - 1)%Z
    with (Z.succ (Zpos (digits2_pos m) - 1))%Z by lia; rewrite Z.pow_succ_r by lia; lia.
Qed.
Lemma digits2_le m k : (0 <= k)%Z -> (Zpos m < 2 ^ k)%Z -> (Zpos (digits2_pos m) <= k)%Z.
Proof.
  intros Hk Hm. pose proof (digits2_lower m) as Hl.
  destruct (Z.le_gt_cases (Zpos (digits2_pos m)) k) as [|Hgt]; [done|].
  assert (2 ^ k <= 2 ^ (Zpos (digits2_pos m) - 1))%Z by (apply Z.pow_le_mono_r; lia). lia.
Qed.

(** An aligned mantissa is not rounded. *)
Lemma binary_round_aux_exact sx m e :
  (Zpos (digits2_pos m) + e - 53 = e)%Z -> (-1074 <= e <= 971)%Z ->
  binary_round_aux 53 1024 sx (Zpos m) e loc_Exact = S754_finite sx m e.
Proof.
  intros Hd He. unfold binary_round_aux, shr_fexp. cbn [Zdigits2 shr_record_of_loc].
  assert (Hf : (fexp 53 1024 (Zpos (digits2_pos m) + e) - e = 0)%Z)
    by (unfold fexp, emin; lia).
  rewrite Hf. cbn [shr shr_m]. unfold loc_of_shr_record. cbn [round_nearest_even Zdigits2].
  rewrite Hf. cbn [shr shr_m shr_record_of_loc].
  by rewrite (proj2 (Z.leb_le e (1024 - 53))) by lia.
Qed.

Lemma binary_round_int sx m :
  (Zpos m < 2 ^ 53)%Z ->
  truncated (binary_round 53 1024 sx m 0) = Some (if sx then Zneg m else Zpos m).
Proof.
  intros Hm. apply digits2_le in Hm; [|lia]. unfold binary_round, shl_align.
  set (d := digits2_pos m) in *.
  assert (Hf : (fexp 53 1024 (Zpos d + 0) = Zpos d - 53)%Z) by (unfold fexp, emin; lia).
  rewrite Hf, Z.sub_0_r.
  destruct (Zpos d - 53)%Z as [|p|p] eqn:Hp; [|lia|].
  - rewrite binary_round_aux_exact by (fold d; lia). simpl.
    destruct sx; f_equal; lia.
  - rewrite binary_round_aux_exact by (rewrite ?digits2_iter; fold d; lia).
    cbn [truncated]. replace (0 <=? Zneg p)%Z with false by done.
    rewrite iter_xO_mul. cbn [Z.opp]. rewrite Z.div_mul by lia.
    by destruct sx.
Qed.

(** An integer below [2^53] survives the conversion to a float and back. *)
Theorem int64_of_float_roundtrip z :
  (- 2 ^ 53 < z < 2 ^ 53)%Z -> int64_of_float (float64_of_int z) = z.
Proof.
  intros Hz. unfold int64_of_float, float64_of_int.
  assert (Ht : truncated (binary_normalize 53 1024 z 0 false) = Some z).
  { destruct z as [|m|m]; [done|apply (binary_round_int false m)|apply (binary_round_int true m)]; lia. }
  rewrite Ht. destruct (Z.leb_spec (- 2 ^ 63) z), (Z.ltb_spec z (2 ^ 63)); simpl; lia.
Qed.
End floats.

(** ** What is reported, and when *)
Section theorems.
Context `{!GridTypes, !RangeMap, !RangeMapLaws, !FloatOverflow} {S : Type} `{!ReporterEnv S}.

(** What an entry of the counters adds to the report of contract [dep]. *)
Definition contribution (dep : Z) (p : string * spec_float) : Z :=
  if bool_decide (p.1 = lastReportedKey) then 0
  else match Parts p.1 with
       | ((_, d, _), None) => if bool_decide (d = dep) then uint64_of_float p.2 else 0
       | _ => 0
       end.
Definition total (dep : Z) (l : list (string * spec_float)) : Z :=
  sum_Z (map (contribution dep) l).

Lemma add_value_total ts w l dep :
  match foldl (add_value ts w) ∅ l !! dep with
  | Some rep => rep = MkNru dep ts w (uint64 (total dep l))
  | None => total dep l = 0%Z
  end.
Proof.
  induction l as [|[key value] l IH] using rev_ind; simpl; [by rewrite lookup_empty|].
  rewrite foldl_snoc. unfold total in *. rewrite map_app, sum_Z_app. simpl.
  set (m := foldl (add_value ts w) ∅ l) in *. clearbody m.
  unfold contribution at 2 4, add_value. simpl.
  case_bool_decide; [by rewrite Z.add_0_r|].
  destruct (Parts key) as [[[t d] nm] [err|]]; [by rewrite Z.add_0_r|].
  case_bool_decide as Hd.
  - subst d. rewrite lookup_insert_eq. destruct (m !! dep) as [rep|].
    + subst rep. simpl. by rewrite uint64_add_l, Z.add_0_r.
    + simpl. by rewrite IH, Z.add_0_r.
  - rewrite lookup_insert_ne by done. by rewrite !Z.add_0_r.
Qed.

(** A report holds, for each contract whose counters add up to a nonzero amount and for no
    other, exactly one entry, with the sum of the contract's counters, the time of the
    report and the window since the last one. *)
Theorem make_report_spec now since (values : gmap string spec_float) :
  let reps := Consumption (make_report now since values) in
  let nru dep := uint64 (total dep (map_to_list values)) in
  NoDup (map nru_ContractID reps) /\
  forall rep, rep ∈ reps <-> exists dep, nru dep <> 0%Z /\
    rep = MkNru dep (uint64 (Unix now)) (uint64 (Z.quot (now - since) (10 ^ 9))) (nru dep).
Proof.
  intros reps nru. subst reps. simpl. unfold collect_reports.
  set (ts := uint64 (Unix now)). set (w := uint64 (Z.quot _ _)).
  set (m := foldl (add_value ts w) ∅ (range_map values)).
  assert (Hm : forall dep, match m !! dep with
    | Some rep => rep = MkNru dep ts w (nru dep) | None => nru dep = 0%Z end).
  { intros dep. pose proof (add_value_total ts w (range_map values) dep) as Ht. fold m in Ht.
    assert (Hn : nru dep = uint64 (total dep (range_map values)))
      by (unfold nru, total; by rewrite range_map_perm).
    rewrite Hn. destruct (m !! dep); [done|]. by rewrite Ht. }
  clearbody m. split.
  - assert (Hs : sublist (map nru_ContractID (omap (fun p : Z * NruConsumption =>
        if (nru_NRU p.2 =? 0)%Z then None else Some p.2) (range_map m)))
      (map (fun p : Z * NruConsumption => nru_ContractID p.2) (range_map m))).
    { induction (range_map m) as [|p l IH]; simpl; [constructor|].
      destruct (nru_NRU p.2 =? 0)%Z; simpl; by constructor. }
    eapply sublist_NoDup; [|exact Hs].
    rewrite (Forall_fmap_ext_1 (fun p : Z * NruConsumption => nru_ContractID p.2) fst).
    + change (NoDup ((range_map m).*1)). rewrite range_map_perm. apply NoDup_fst_map_to_list.
    + apply Forall_forall. intros [dep rep] Hin. rewrite range_map_perm in Hin.
      apply elem_of_map_to_list in Hin. specialize (Hm dep). rewrite Hin in Hm. by subst rep.
  - intros rep. rewrite list_elem_of_omap. split.
    + intros ([dep rep'] & Hin & Hrep). rewrite range_map_perm in Hin.
      apply elem_of_map_to_list in Hin. specialize (Hm dep). rewrite Hin in Hm. subst rep'.
      simpl in Hrep. exists dep. destruct (Z.eqb_spec (nru dep) 0); naive_solver.
    + intros (dep & Hne & ->). exists (dep, MkNru dep ts w (nru dep)). split.
      * rewrite range_map_perm. apply elem_of_map_to_list. specialize (Hm dep).
        destruct (m !! dep); [by subst|done].
      * simpl. by destruct (Z.eqb_spec (nru dep) 0).
Qed.

(** The wait before the next report is what is left of an hour since the last one. *)
Theorem report_delay_spec last u :
  (0 <= last < 2 ^ 62)%Z -> (0 <= u < 2 ^ 62)%Z ->
  report_delay last u = Z.max 0 (last + 3600 - u) /\
  (last <= u -> report_delay last u <= 3600)%Z.
Proof.
  intros Hl Hu. unfold report_delay, every. cbv zeta. rewrite !int64_small by (rewrite ?int64_small; lia).
  destruct (Z.ltb_spec (last + 60 * 60 - u) 0); lia.
Qed.


(** The reports the gateway accepted, in order. *)
Definition sent (l : list rcall) : list (list NruConsumption) :=
  omap (fun c => match c with GwReport r None => Some r | _ => None end) l.

Section queue.
Context (rqueue : S -> list Report).
Hypothesis peek_head : forall s r, (queuePeekBlock s).1 = Val r -> head (rqueue s) = Some r.
Hypothesis peek_keeps : forall s, rqueue (queuePeekBlock s).2 = rqueue s.
Hypothesis report_keeps : forall r s, rqueue (gwReport r s).2 = rqueue s.
Hypothesis dequeue_tail : forall s,
  rqueue (queueDequeue s).2 = match (queueDequeue s).1 with
                              | None => tail (rqueue s) | Some _ => rqueue s end.

Lemma pushOne_spec s :
  rqueue (final pushOne s) = rqueue s \/
  exists r, head (rqueue s) = Some r /\ rqueue (final pushOne s) = tail (rqueue s) /\
            sent (calls pushOne s) = [Consumption r].
Proof.
  unfold pushOne. run. destruct (queuePeekBlock s).1 as [r|err] eqn:Ep; run.
  2:{ left. apply peek_keeps. }
  apply peek_head in Ep. destruct (gwReport _ _).1 as [err|] eqn:Er; run.
  { left. by rewrite report_keeps, peek_keeps. }
  rewrite dequeue_tail, report_keeps, peek_keeps.
  destruct (queueDequeue _).1; [by left|right]. by exists r.
Qed.

Lemma pushOne_accepted s r q :
  (forall s r q, rqueue s = r :: q -> (queuePeekBlock s).1 = Val r) ->
  (forall r s, (gwReport r s).1 = None) -> (forall s, (queueDequeue s).1 = None) ->
  rqueue s = r :: q ->
  rqueue (final pushOne s) = q /\ sent (calls pushOne s) = [Consumption r].
Proof.
  intros Hp Hr Hd Hq. unfold pushOne. run. rewrite (Hp _ _ _ Hq). run. rewrite Hr. run.
  by rewrite dequeue_tail, Hd, report_keeps, peek_keeps, Hq.
Qed.

(** A round of the loop, and the rounds after it; the pause after an error
    touches neither the queue nor the reports. *)
Lemma pusher_step n s :
  rqueue (final (pusher (Datatypes.S n)) s) = rqueue (final (pusher n) (final pushOne s)) /\
  sent (calls (pusher (Datatypes.S n)) s) =
    sent (calls pushOne s) ++ sent (calls (pusher n) (final pushOne s)).
Proof.
  cbn [pusher]. rewrite final_bind, calls_bind. unfold sent. rewrite omap_app.
  destruct (result pushOne s); [by run|done].
Qed.

(** C28: The pusher removes reports only from the head of its queue and only after the
    gateway accepted them, in order; while the queue and the gateway answer without error,
    [n] rounds deliver and remove exactly the first [n] reports. *)
Theorem pusher_delivers n s :
  (exists k, rqueue (final (pusher n) s) = drop k (rqueue s) /\
     sublist (map Consumption (take k (rqueue s))) (sent (calls (pusher n) s))) /\
  ((forall s r q, rqueue s = r :: q -> (queuePeekBlock s).1 = Val r) ->
   (forall r s, (gwReport r s).1 = None) -> (forall s, (queueDequeue s).1 = None) ->
   n <= length (rqueue s) ->
   rqueue (final (pusher n) s) = drop n (rqueue s) /\
   sent (calls (pusher n) s) = map Consumption (take n (rqueue s))).
Proof.
  split.
  - revert s. induction n as [|n IH]; intros s; [exists 0; split; [by run|constructor]|].
    destruct (pusher_step n s) as [-> ->]. destruct (IH (final pushOne s)) as (i & -> & Hi).
    destruct (pushOne_spec s) as [Hq|(r & Hh & Hq & Hsent)]; rewrite Hq in *.
    + exists i. split; [done|]. by apply sublist_inserts_l.
    + destruct (rqueue s) as [|r' q]; [done|]. simplify_eq/=.
      exists (Datatypes.S i). rewrite Hsent. split; [done|]. by constructor.
  - intros Hp Hr Hd. revert s. induction n as [|n IH]; intros s Hn; [by run|].
    destruct (pusher_step n s) as [-> ->].
    destruct (rqueue s) as [|r q] eqn:Hq; simpl in Hn; [lia|].
    destruct (pushOne_accepted s r q Hp Hr Hd Hq) as [Hq' ->].
    destruct (IH (final pushOne s)) as [-> ->]; rewrite Hq'; [lia|done].
Qed.
End queue.
End theorems.
