(* ===== verification/Paths.v ===== *)
(** * Slash-separated paths

    [filepath.Clean], [Join], [Base] and [Dir] of the Go library on Unix, as the
    services use them to place files, and [strings] helpers on names. *)

From S2P Require Import Prelude.

Definition slash : Ascii.ascii := Ascii.ascii_of_nat 47.

(** ** Splitting and joining *)
Fixpoint split_slash (s : string) : list string :=
  match s with
  | EmptyString => [""]
  | String c s =>
      if Ascii.eqb c slash then "" :: split_slash s
      else match split_slash s with
           | [] => [String c ""]
           | x :: l => String c x :: l
           end
  end.

Fixpoint join_slash (l : list string) : string :=
  match l with
  | [] => ""
  | [x] => x
  | x :: l => x +:+ "/" +:+ join_slash l
  end.

Definition IsAbs (s : string) : bool :=
  match s with String c _ => Ascii.eqb c slash | EmptyString => false end.

(** One element of a path, on the stack of the elements kept so far. *)
Definition clean_step (rooted : bool) (st : list string) (x : string) : list string :=
  if bool_decide (x = "") || bool_decide (x = ".") then st
  else if bool_decide (x = "..") then
    match st with
    | y :: st' => if bool_decide (y = "..") then x :: st else st'
    | [] => if rooted then [] else [x]
    end
  else x :: st.

Definition clean_elements (rooted : bool) (l : list string) : list string :=
  reverse (foldl (clean_step rooted) [] l).

Definition unsplit (rooted : bool) (l : list string) : string :=
  if rooted then "/" +:+ join_slash l
  else match l with [] => "." | _ => join_slash l end.

Definition Clean (path : string) : string :=
  unsplit (IsAbs path) (clean_elements (IsAbs path) (split_slash path)).

Fixpoint Join (elem : list string) : string :=
  match elem with
  | [] => ""
  | e :: rest => if bool_decide (e = "") then Join rest else Clean (join_slash (e :: rest))
  end.

(** [filepath.Base]: the last element, trailing slashes removed. *)
Definition Base (path : string) : string :=
  if bool_decide (path = "") then "."
  else match last (filter (fun x => x <> "") (split_slash path)) with
       | Some x => x
       | None => "/"
       end.

(** [filepath.Dir]: everything up to the last slash, cleaned. *)
Definition Dir (path : string) : string :=
  let l := split_slash path in
  Clean (if IsAbs path then "/" +:+ join_slash (removelast (tail l)) else join_slash (removelast l)).

(** [strings.HasSuffix] and [strings.TrimSuffix]. *)
Definition HasSuffix (s suffix : string) : bool :=
  (String.length suffix <=? String.length s) &&
  bool_decide (String.substring (String.length s - String.length suffix)
                 (String.length suffix) s = suffix).
Definition TrimSuffix (s suffix : string) : string :=
  if HasSuffix s suffix
  then String.substring 0 (String.length s - String.length suffix) s else s.

Example join1 : Join ["/tmp"; "upgrader"] = "/tmp/upgrader". Proof. reflexivity. Qed.
Example join2 : Join ["/a/b"; "../c/./d//e"] = "/a/c/d/e". Proof. reflexivity. Qed.
Example join3 : Join [".."; "net"] = "../net". Proof. reflexivity. Qed.
Example join4 : Join ["/"; ""] = "/". Proof. reflexivity. Qed.
Example dir1 : Dir "/etc/zinit/a.yaml" = "/etc/zinit". Proof. reflexivity. Qed.
Example dir2 : Dir "a" = ".". Proof. reflexivity. Qed.
Example base1 : Base "zos/v0.1/" = "v0.1". Proof. reflexivity. Qed.
Example trim1 : TrimSuffix "noded.yaml" ".yaml" = "noded". Proof. reflexivity. Qed.

(** ** A rooted path does not leave its root *)
Lemma clean_step_rooted st x : ".." ∉ st -> ".." ∉ clean_step true st x.
Proof.
  intros Hst. unfold clean_step. destruct (_ || _); [done|].
  case_bool_decide as Hx; [|set_solver].
  destruct st as [|y st]; [done|]. case_bool_decide; set_solver.
Qed.

Lemma clean_elements_rooted l : ".." ∉ clean_elements true l.
Proof.
  unfold clean_elements. rewrite elem_of_reverse.
  assert (Hg : forall st, ".." ∉ st -> ".." ∉ foldl (clean_step true) st l).
  { induction l as [|x l IH]; intros st Hst; simpl; [done|]. by apply IH, clean_step_rooted. }
  apply Hg. set_solver.
Qed.

Lemma Join_rooted root l :
  IsAbs root = true -> exists k, Join (root :: l) = "/" +:+ join_slash k /\ ".." ∉ k.
Proof.
  intros Ha. destruct root as [|c root]; [done|]. simpl in Ha. cbn [Join].
  rewrite bool_decide_eq_false_2 by done. unfold Clean.
  assert (Habs : IsAbs (join_slash (String c root :: l)) = true) by (by destruct l).
  rewrite Habs. eexists. split; [reflexivity|apply clean_elements_rooted].
Qed.

(** ** Suffixes *)
Lemma substring_all s : String.substring 0 (String.length s) s = s.
Proof. induction s as [|c s IH]; simpl; [done|]. by rewrite IH. Qed.
Lemma substring_split n m s :
  n + m = String.length s -> String.substring 0 n s +:+ String.substring n m s = s.
Proof.
  revert n. induction s as [|c s IH]; intros n Hn; simpl in *.
  - by destruct n, m.
  - destruct n as [|n]; simpl in *.
    + subst m. by rewrite substring_all.
    + change (String c (String.substring 0 n s +:+ String.substring n m s) = String c s).
      by rewrite IH by lia.
Qed.

Lemma TrimSuffix_spec s suffix :
  HasSuffix s suffix = true -> TrimSuffix s suffix +:+ suffix = s.
Proof.
  intros Hs. unfold TrimSuffix. rewrite Hs. unfold HasSuffix in Hs.
  apply andb_true_iff in Hs as [Hl He%bool_decide_eq_true]. apply Nat.leb_le in Hl.
  rewrite <- He at 2. apply substring_split. lia.
Qed.

Lemma string_length_app a b : String.length (a +:+ b) = String.length a + String.length b.
Proof. induction a as [|c a IH]; simpl; [done|]. by rewrite IH. Qed.

Lemma HasSuffix_app s suffix : HasSuffix (s +:+ suffix) suffix = true.
Proof.
  unfold HasSuffix. rewrite string_length_app, (proj2 (Nat.leb_le _ _)) by lia. simpl.
  apply bool_decide_eq_true. replace (_ + _ - _) with (String.length s) by lia.
  induction s as [|c s IH]; simpl; [|done].
  apply substring_all.
Qed.

Lemma TrimSuffix_app s suffix : TrimSuffix (s +:+ suffix) suffix = s.
Proof.
  unfold TrimSuffix. rewrite HasSuffix_app, string_length_app, Nat.add_sub.
  induction s as [|c s IH]; simpl; [by destruct suffix|]. by rewrite IH.
Qed.

(** ** Relative paths *)

(** The elements of a clean rooted path. *)
Definition elements_of (path : string) : list string :=
  clean_elements true (split_slash path).

Fixpoint strip_common (b t : list string) : list string * list string :=
  match b, t with
  | x :: b', y :: t' => if bool_decide (x = y) then strip_common b' t' else (b, t)
  | _, _ => (b, t)
  end.

(** [filepath.Rel] of two rooted paths. *)
Definition Rel_elements (base targ : list string) : list string :=
  let '(b, t) := strip_common base targ in replicate (length b) ".." ++ t.
Definition Rel (basepath targpath : string) : string :=
  match Rel_elements (elements_of basepath) (elements_of targpath) with
  | [] => "."
  | l => join_slash l
  end.

Example rel1 : Rel "/srv/tf-zos" "/srv/tf-autobuilder" = "../tf-autobuilder". Proof. reflexivity. Qed.
Example rel2 : Rel "/a" "/a" = ".". Proof. reflexivity. Qed.

(** An element that [Clean] keeps. *)
Definition plain (x : string) : Prop := x <> "" /\ x <> "." /\ x <> "..".

Lemma clean_step_plain st x : plain x -> clean_step true st x = x :: st.
Proof.
  intros (Hx1 & Hx2 & Hx3). unfold clean_step.
  by rewrite !bool_decide_eq_false_2.
Qed.
Lemma clean_plain st l : Forall plain l -> foldl (clean_step true) st l = reverse l ++ st.
Proof.
  intros Hl. revert st. induction Hl as [|x l Hx _ IH]; intros st; simpl; [done|].
  by rewrite clean_step_plain, IH, reverse_cons, <- app_assoc.
Qed.
Lemma clean_dotdots st l :
  Forall plain l -> foldl (clean_step true) (l ++ st) (replicate (length l) "..") = st.
Proof.
  induction 1 as [|x l (_ & _ & Hx) _ IH]; simpl; [done|].
  assert (Hstep : clean_step true (x :: l ++ st) ".." = l ++ st)
    by (unfold clean_step; simpl; by rewrite bool_decide_eq_false_2).
  by rewrite Hstep.
Qed.

Lemma strip_common_spec b t b' t' :
  strip_common b t = (b', t') -> exists c, b = c ++ b' /\ t = c ++ t'.
Proof.
  revert t b' t'. induction b as [|x b IH]; intros t b' t'; simpl.
  - intros [= <- <-]. by exists [].
  - destruct t as [|y t]; [intros [= <- <-]; by exists []|].
    case_bool_decide as Hxy; [|intros [= <- <-]; by exists []].
    intros (c & -> & ->)%IH. subst y. by exists (x :: c).
Qed.

(** Following the relative path from the base leads to the target. *)
Lemma Rel_elements_resolves base targ :
  Forall plain base -> Forall plain targ ->
  clean_elements true (base ++ Rel_elements base targ) = targ.
Proof.
  intros Hb Ht. unfold Rel_elements.
  destruct (strip_common base targ) as [b t] eqn:Hs.
  apply strip_common_spec in Hs as (c & -> & ->).
  apply Forall_app in Hb as [Hc Hb], Ht as [_ Ht].
  unfold clean_elements. rewrite !foldl_app, (clean_plain _ t), (clean_plain _ c) by done.
  rewrite (clean_plain _ b), app_nil_r by done.
  rewrite <- (length_reverse b), clean_dotdots by (by apply Forall_reverse).
  by rewrite reverse_app, !reverse_involutive.
Qed.

(** The same on strings. *)
Definition no_slash (x : string) : Prop := split_slash x = [x].

Lemma no_slash_cons c x : Ascii.eqb c slash = false -> no_slash x -> no_slash (String c x).
Proof. unfold no_slash. intros Hc Hx. cbn [split_slash]. by rewrite Hc, Hx. Qed.

Lemma split_slash_app a b : split_slash (a +:+ "/" +:+ b) = split_slash a ++ split_slash b.
Proof.
  induction a as [|c a IH]; [done|]. change (String c a +:+ "/" +:+ b) with (String c (a +:+ "/" +:+ b)).
  cbn [split_slash]. rewrite IH. destruct (Ascii.eqb c slash); [done|].
  destruct (split_slash a) eqn:Ha; [|done]. destruct a as [|c1 a1]; simpl in Ha; [done|].
  destruct (Ascii.eqb _ _); [done|]. by destruct (split_slash a1).
Qed.
Lemma split_slash_no_slash s : Forall no_slash (split_slash s).
Proof.
  unfold no_slash. induction s as [|c s IH]; cbn [split_slash]; [by constructor|].
  destruct (Ascii.eqb c slash) eqn:Hc; [by constructor|].
  destruct (split_slash s) as [|x l]; [repeat constructor; simpl; by rewrite Hc|].
  inversion_clear IH. constructor; [|done]. cbn [split_slash]. by rewrite Hc, H.
Qed.
Lemma split_join l : l <> [] -> Forall no_slash l -> split_slash (join_slash l) = l.
Proof.
  intros Hne Hl. induction Hl as [|x l Hx Hl IH]; [done|].
  destruct l as [|y l]; [done|]. cbn [join_slash] in *. rewrite split_slash_app, Hx.
  by rewrite IH.
Qed.

Lemma clean_step_cases st x y : y ∈ clean_step true st x -> y ∈ st \/ (y = x /\ plain x).
Proof.
  unfold clean_step, plain. repeat case_bool_decide; simpl; try tauto.
  - destruct st as [|z st]; [set_solver|]. case_bool_decide; set_solver.
  - set_solver.
Qed.
Lemma elements_of_spec path : Forall plain (elements_of path) /\ Forall no_slash (elements_of path).
Proof.
  rewrite <- Forall_and. unfold elements_of, clean_elements. apply Forall_reverse.
  assert (Hg : forall l st, Forall no_slash l -> Forall (fun x => plain x /\ no_slash x) st ->
    Forall (fun x => plain x /\ no_slash x) (foldl (clean_step true) st l)).
  { induction l as [|x l IH]; intros st Hl Hst; simpl; [done|]. inversion_clear Hl.
    apply IH; [done|]. apply Forall_forall. intros y [Hy|[-> Hp]]%clean_step_cases; [|done].
    rewrite Forall_forall in Hst. by apply Hst. }
  apply Hg; [apply split_slash_no_slash|constructor].
Qed.

Lemma elements_of_app p q :
  elements_of (p +:+ "/" +:+ q) = reverse (foldl (clean_step true) (reverse (elements_of p)) (split_slash q)).
Proof.
  unfold elements_of, clean_elements. by rewrite split_slash_app, foldl_app, reverse_involutive.
Qed.

(** A link that lies in [base] and holds the relative path to [targ] followed by a
    file name leads to that file. *)
Lemma Rel_link_resolves base targ file :
  plain file -> no_slash file ->
  elements_of (base +:+ "/" +:+ Rel base targ +:+ "/" +:+ file) = elements_of (targ +:+ "/" +:+ file).
Proof.
  intros Hp Hf. rewrite !elements_of_app, split_slash_app, Hf, !foldl_app. f_equal.
  destruct (elements_of_spec base) as [Hb Hbs], (elements_of_spec targ) as [Ht Hts].
  f_equal. pose proof (Rel_elements_resolves _ _ Hb Ht) as Hr.
  unfold clean_elements in Hr. rewrite foldl_app, (clean_plain []), app_nil_r in Hr by done.
  rewrite <- Hr, reverse_involutive at 1. unfold Rel.
  assert (Hn : Forall no_slash (Rel_elements (elements_of base) (elements_of targ))).
  { unfold Rel_elements. destruct (strip_common _ _) as [b t] eqn:Hs.
    apply strip_common_spec in Hs as (c & _ & Hc). rewrite Hc, Forall_app in Hts.
    apply Forall_app. split; [|tauto]. apply Forall_replicate. reflexivity. }
  destruct (Rel_elements _ _) as [|x l] eqn:He; [done|]. by rewrite split_join.
Qed.
