(* ===== verification/Migration.v ===== *)
(** * Migrations at start (cmds/modules/provisiond/migration.go)

    [storageMigration] moves deployments from the old file storage to the new
    one; [netResourceMigration] links the network resources of active
    deployments by their full workload id.  The two storages and the file system
    are outside: their operations are the interface [MigrationEnv]. *)

From S2P Require Import Prelude GridTypes Sorting Paths.
From Stdlib Require Import Sorted.

Inductive migcall :=
| FsTwins (r : res (list Z))
| FsByTwin (twin : Z) (r : res (list Z))
| FsGet (twin dl : Z) (r : res Deployment)
| Migrate (d : Deployment) (r : option error)
| FsDelete (d : Deployment) (r : option error)
| OsStat (path : string)
| OsMkdirAll (path : string)
| OsSymlink (target path : string) (r : option error).

Class MigrationEnv (S : Type) := {
  fsTwins : S -> res (list Z) * S;
  fsByTwin : Z -> S -> res (list Z) * S;
  fsGet : Z -> Z -> S -> res Deployment * S;
  migrate : Deployment -> S -> option error * S;
  fsDelete : Deployment -> S -> option error * S;
  osStat : string -> S -> option error * S;
  osMkdirAll : string -> S -> option error * S;
  osSymlink : string -> string -> S -> option error * S;
  (* os.IsNotExist on an error *)
  IsNotExist : error -> bool;
  (* zos.NetworkID *)
  NetworkID : Z -> string -> string }.

Section migration.
Context `{!GridTypes, !SortSlice} {S : Type} `{!MigrationEnv S}.

(** The body of the inner loop: whether the deployment could not be migrated. *)
Definition migrate_one (twin dl : Z) : M S migcall bool :=
  deployment <- act (fsGet twin dl) (FsGet twin dl) ;;
  match deployment with
  | Err _ => ret true
  | Val deployment =>
      err <- act (migrate deployment) (Migrate deployment) ;;
      match err with
      | Some _ => ret true
      | None => act (fsDelete deployment) (FsDelete deployment) ;;; ret false
      end
  end.

Definition migrate_twin (twin : Z) : M S migcall bool :=
  dls <- act (fsByTwin twin) (FsByTwin twin) ;;
  match dls with
  | Err _ => ret false
  | Val dls => l <- for_collect (migrate_one twin) (sort_slice Z.ltb dls) ;; ret (existsb id l)
  end.

Definition storageMigration : M S migcall (option error) :=
  twins <- act fsTwins FsTwins ;;
  match twins with
  | Err err => ret (Some err)
  | Val twins =>
      l <- for_collect migrate_twin twins ;;
      if existsb id l then ret (Some (Fresh "not all deployments where migrated"))
      else ret None
  end.

Definition volatile : string := "/var/run/cache/networkd/networks".

Definition link_network (dl : Deployment) (wl : Workload) : M S migcall unit :=
  if negb (bool_decide (Type_ wl = NetworkType)) || negb (IsOkay (State (WResult wl)))
  then ret tt
  else
    match NewWorkloadID (TwinID dl) (ContractID dl) (Name wl) with
    | Err _ => ret tt
    | Val id =>
        let netId := NetworkID (TwinID dl) (Name wl) in
        let file := Join [volatile; netId] in
        err <- act (osStat file) (fun _ => OsStat file) ;;
        if (match err with Some err => IsNotExist err | None => false end) then ret tt
        else
          let target := Join [".."; netId] in
          let link := Join [Join [volatile; "link"]; id] in
          act (osSymlink target link) (OsSymlink target link) ;;; ret tt
    end.

Definition netResourceMigration (active : list Deployment) : M S migcall (option error) :=
  err <- act (osStat volatile) (fun _ => OsStat volatile) ;;
  match err with
  | Some err =>
      if IsNotExist err then ret None
      else ret (Some (Wrapped "failed to check networkd volatile cache" err))
  | None =>
      let sym := Join [volatile; "link"] in
      err <- act (osMkdirAll sym) (fun _ => OsMkdirAll sym) ;;
      match err with
      | Some err => ret (Some (Wrapped "failed to create network link directory" err))
      | None =>
          for_each (fun dl => for_each (link_network dl) (Workloads dl)) active ;;;
          ret None
      end
  end.
End migration.

(** ** No deployment is lost *)

(** Every deletion follows a successful migration of the same deployment. *)
Fixpoint deleted_after (migrated : list Deployment) (l : list migcall) : Prop :=
  match l with
  | [] => True
  | Migrate d None :: l => deleted_after (d :: migrated) l
  | FsDelete d _ :: l => d ∈ migrated /\ deleted_after migrated l
  | _ :: l => deleted_after migrated l
  end.

Definition migration_failed (c : migcall) : bool :=
  match c with FsGet _ _ (Err _) | Migrate _ (Some _) => true | _ => false end.

Section theorems.
Context `{!GridTypes, !SortSlice, !SortSliceLaws} {S : Type} `{!MigrationEnv S}.

Lemma deleted_after_mono m m' l :
  (forall d, d ∈ m -> d ∈ m') -> deleted_after m l -> deleted_after m' l.
Proof.
  revert m m'. induction l as [|c l IH]; intros m m' Hm; [done|].
  destruct c as [| | |d [err|]|d r| | |]; simpl; try by apply IH.
  - apply IH. set_solver.
  - intros [Hd Hl]. split; [by apply Hm|by apply (IH m)].
Qed.
Lemma deleted_after_app l k : deleted_after [] l -> deleted_after [] k -> deleted_after [] (l ++ k).
Proof.
  intros Hl Hk. revert Hl. generalize (@nil Deployment) at 1 2 as m.
  induction l as [|c l IH]; intros m; simpl.
  - intros _. by apply (deleted_after_mono []); [set_solver|].
  - destruct c as [| | |d [err|]|d r| | |]; try apply IH.
    intros [Hd Hl]. split; [done|by apply IH].
Qed.

Lemma for_collect_calls {A B} (f : A -> M S migcall B) (P : list migcall -> Prop) l s :
  P [] -> (forall a b, P a -> P b -> P (a ++ b)) -> (forall x s, P (calls (f x) s)) ->
  P (calls (for_collect f l) s).
Proof.
  intros Hnil Happ Hf. revert s. induction l as [|x l IH]; intros s; simpl; [by run|].
  rewrite !calls_bind, calls_ret, app_nil_r. by apply Happ.
Qed.

(** Loops that report whether a body failed. *)
Lemma for_collect_failed {A} (f : A -> M S migcall bool) l s :
  (forall x s, result (f x) s = existsb migration_failed (calls (f x) s)) ->
  existsb id (result (for_collect f l) s) = existsb migration_failed (calls (for_collect f l) s).
Proof.
  intros Hf. revert s. induction l as [|x l IH]; intros s; simpl; [by run|].
  rewrite !result_bind, !calls_bind, result_ret, calls_ret, app_nil_r, existsb_app. simpl.
  by rewrite IH, Hf.
Qed.

Lemma migrate_one_failed twin dl s :
  result (migrate_one twin dl) s = existsb migration_failed (calls (migrate_one twin dl) s).
Proof.
  unfold migrate_one. run. destruct (fsGet twin dl s).1; run; [|done].
  destruct (migrate _ _).1; run; done.
Qed.
Lemma migrate_twin_failed twin s :
  result (migrate_twin twin) s = existsb migration_failed (calls (migrate_twin twin) s).
Proof.
  unfold migrate_twin. rewrite result_bind, calls_bind, result_act, calls_act.
  destruct (fsByTwin twin s).1; [|by run].
  rewrite result_bind, calls_bind, result_ret, calls_ret, app_nil_r.
  rewrite for_collect_failed by apply migrate_one_failed. done.
Qed.

(** *** Nothing listed is left out *)

(** What has to follow an answer: the twins' deployments are listed, each is
    loaded, each loaded one migrated, each migrated one deleted. *)
Definition followed (l : list migcall) (c : migcall) : Prop :=
  match c with
  | FsTwins (Val twins) => forall twin, twin ∈ twins -> exists r, FsByTwin twin r ∈ l
  | FsByTwin twin (Val ids) => forall id, id ∈ ids -> exists r, FsGet twin id r ∈ l
  | FsGet _ _ (Val d) => exists r, Migrate d r ∈ l
  | Migrate d None => exists r, FsDelete d r ∈ l
  | _ => True
  end.
Definition complete (l : list migcall) : Prop := Forall (followed l) l.

Lemma followed_mono l k c : (forall x, x ∈ l -> x ∈ k) -> followed l c -> followed k c.
Proof.
  intros Hlk. destruct c as [[]|? []|? ? []|? []| | | |]; simpl; try done.
  - intros Hf t Ht. destruct (Hf t Ht) as [r Hr]. eauto.
  - intros Hf i Hi. destruct (Hf i Hi) as [r Hr]. eauto.
  - intros [r Hr]. eauto.
  - intros [r Hr]. eauto.
Qed.

Lemma complete_app l k : complete l -> complete k -> complete (l ++ k).
Proof.
  intros Hl Hk. apply Forall_app. split; (eapply Forall_impl; [eassumption|]);
    intros c; apply followed_mono; set_solver.
Qed.

Lemma complete_cons c l : followed (c :: l) c -> complete l -> complete (c :: l).
Proof.
  intros Hc Hl. constructor; [done|]. eapply Forall_impl; [exact Hl|].
  intros c'. apply followed_mono. set_solver.
Qed.

Lemma for_collect_visits {A B} (f : A -> M S migcall B) x l s :
  x ∈ l -> exists s', forall c, c ∈ calls (f x) s' -> c ∈ calls (for_collect f l) s.
Proof.
  intros Hx. revert s. induction l as [|y l IH]; intros s; [by apply elem_of_nil in Hx|].
  simpl. rewrite !calls_bind, calls_ret, app_nil_r. apply elem_of_cons in Hx as [->|Hx].
  - exists s. set_solver.
  - destruct (IH Hx (final (f y) s)) as [s' Hs']. exists s'. set_solver.
Qed.

Lemma migrate_one_complete twin dl s : complete (calls (migrate_one twin dl) s).
Proof.
  unfold migrate_one, complete. run. destruct (fsGet twin dl s).1 as [d|]; run; [|by repeat constructor].
  destruct (migrate _ _).1; run; rewrite !Forall_cons; simpl; split_and?; try done;
    eexists; repeat first [solve [left] | right].
Qed.

Lemma migrate_twin_complete twin s : complete (calls (migrate_twin twin) s).
Proof.
  unfold migrate_twin. rewrite calls_bind, calls_act, result_act.
  destruct (fsByTwin twin s).1 as [ids|]; [|by run; repeat constructor].
  rewrite calls_bind, calls_ret, app_nil_r. apply complete_cons.
  - intros id Hid. rewrite <- (sort_slice_perm Z.ltb ids) in Hid.
    destruct (for_collect_visits (migrate_one twin) id _ (final (act (fsByTwin twin) (FsByTwin twin)) s) Hid)
      as [s' Hs']. exists (fsGet twin id s').1. right. apply Hs'. unfold migrate_one.
    rewrite calls_bind, calls_act. left.
  - apply (for_collect_calls _ complete); [constructor|apply complete_app|].
    intros; apply migrate_one_complete.
Qed.

Lemma storageMigration_complete s : complete (calls storageMigration s).
Proof.
  unfold storageMigration. rewrite calls_bind, calls_act, result_act.
  destruct (fsTwins s).1 as [twins|]; [|by run; repeat constructor].
  rewrite calls_bind. set (k := calls (if existsb _ _ then _ else _) _).
  assert (k = []) as -> by (subst k; destruct (existsb _ _); by run). rewrite app_nil_r.
  apply complete_cons.
  - intros twin Ht. destruct (for_collect_visits migrate_twin twin _ (final (act fsTwins FsTwins) s) Ht)
      as [s' Hs']. exists (fsByTwin twin s').1. right. apply Hs'. unfold migrate_twin.
    rewrite calls_bind, calls_act. left.
  - apply (for_collect_calls _ complete); [constructor|apply complete_app|].
    intros; apply migrate_twin_complete.
Qed.

Lemma storageMigration_deleted_after s : deleted_after [] (calls storageMigration s).
Proof.
  unfold storageMigration. rewrite calls_bind, calls_act, result_act.
  destruct (fsTwins s).1 as [twins|err]; [|by run]. rewrite calls_bind.
  apply (deleted_after_app [_]); [done|]. apply deleted_after_app.
    2:{ destruct (existsb _ _); by run. }
    apply (for_collect_calls _ (deleted_after [])); [done|apply deleted_after_app|].
    intros twin s'. unfold migrate_twin.
    rewrite calls_bind, calls_act. apply (deleted_after_app [_]); [done|].
    destruct (result _ _); [|by run]. rewrite calls_bind, calls_ret, app_nil_r.
    apply (for_collect_calls _ (deleted_after [])); [done|apply deleted_after_app|].
    intros dl s''. unfold migrate_one. run. destruct (fsGet twin dl s'').1; run; [|done].
    destruct (migrate _ _).1; run; [done|]. split; [set_solver|done].
Qed.

Lemma storageMigration_answers s :
  match (fsTwins s).1 with
  | Err err => result storageMigration s = Some err /\ calls storageMigration s = [FsTwins (Err err)]
  | Val _ => is_Some (result storageMigration s) <->
             existsb migration_failed (calls storageMigration s) = true
  end.
Proof.
  unfold storageMigration. rewrite calls_bind, result_bind, calls_act, result_act.
  destruct (fsTwins s).1 as [twins|err]; [|by run].
  rewrite result_bind, calls_bind.
  rewrite for_collect_failed by apply migrate_twin_failed.
  simpl. rewrite existsb_app.
  destruct (existsb migration_failed (calls (for_collect _ _) _)); run.
  - split; [done|by eexists].
  - split; [by intros []|done].
Qed.

(** Every deployment of a twin was migrated, or the twin's deployments could not be
    listed. *)
Definition twin_migrated (l : list migcall) (twin : Z) : Prop :=
  (exists err, FsByTwin twin (Err err) ∈ l) \/
  exists ids, FsByTwin twin (Val ids) ∈ l /\
    forall id, id ∈ ids -> exists d, FsGet twin id (Val d) ∈ l /\ Migrate d None ∈ l.

Lemma storageMigration_None s :
  result storageMigration s = None ->
  exists twins, FsTwins (Val twins) ∈ calls storageMigration s /\
    Forall (twin_migrated (calls storageMigration s)) twins.
Proof.
  intros Hr. pose proof (storageMigration_answers s) as Ha.
  pose proof (storageMigration_complete s) as Hc. unfold complete in Hc. rewrite Forall_forall in Hc.
  assert (Hin : FsTwins (fsTwins s).1 ∈ calls storageMigration s).
  { unfold storageMigration. rewrite calls_bind, calls_act. left. }
  destruct (fsTwins s).1 as [twins|err]; [|by destruct Ha; congruence].
  exists twins. split; [done|]. apply Forall_forall. intros twin Ht.
  assert (Hok : forall c, c ∈ calls storageMigration s -> migration_failed c = false).
  { intros c Hcin. destruct (migration_failed c) eqn:Hf; [|done].
    assert (existsb migration_failed (calls storageMigration s) = true) as He.
    { apply existsb_exists. exists c. by rewrite <- list_elem_of_In. }
    apply Ha in He as [e He]. congruence. }
  destruct (Hc _ Hin twin Ht) as [[ids|err] Hl]; [right|left; by eexists].
  exists ids. split; [done|]. intros id Hid.
  destruct (Hc _ Hl id Hid) as [[d|err] Hd]; [|by apply Hok in Hd].
  destruct (Hc _ Hd) as [[err|] Hm]; [by apply Hok in Hm|]. by exists d.
Qed.

(** The storage migration deletes a deployment of the old storage only after that deployment
    was migrated, loads and migrates everything the old storage lists and deletes everything
    it migrated, and answers an error exactly when a deployment could not be loaded or
    migrated. *)
Theorem storageMigration_safe (s : S) :
  let m := storageMigration in
  deleted_after [] (calls m s) /\ complete (calls m s) /\
  match (fsTwins s).1 with
  | Err err => result m s = Some err /\ calls m s = [FsTwins (Err err)]
  | Val _ => is_Some (result m s) <-> existsb migration_failed (calls m s) = true
  end.
Proof.
  split; [apply storageMigration_deleted_after|].
  split; [apply storageMigration_complete|apply storageMigration_answers].
Qed.

Definition links (l : list migcall) : list (string * string) :=
  omap (fun c => match c with OsSymlink t p _ => Some (t, p) | _ => None end) l.

(** Every link created is for a network workload in an okay state of an active deployment,
    from its id to its network. *)
Theorem netResourceMigration_links active (s : S) t p :
  (t, p) ∈ links (calls (netResourceMigration active) s) ->
  exists d w id, d ∈ active /\ w ∈ Workloads d /\
    Type_ w = NetworkType /\ IsOkay (State (WResult w)) = true /\
    NewWorkloadID (TwinID d) (ContractID d) (Name w) = Val id /\
    t = Join [".."; NetworkID (TwinID d) (Name w)] /\
    p = Join ["/var/run/cache/networkd/networks/link"; id].
Proof.
  unfold links. rewrite list_elem_of_omap. intros (c & Hin & Hc).
  destruct c; simplify_eq/=. revert Hin. unfold netResourceMigration.
  rewrite calls_bind, calls_act. simpl. rewrite elem_of_cons. intros [|Hin]; [done|].
  revert Hin. destruct (result _ _) as [err|]; [destruct (IsNotExist err); run; set_solver|].
  rewrite calls_bind, calls_act. simpl. rewrite elem_of_cons. intros [|Hin]; [done|].
  revert Hin. destruct (result _ _) as [err|]; [run; set_solver|].
  rewrite calls_bind, calls_ret, app_nil_r.
  intros (d & s1 & Hd & Hin & _)%for_each_calls_inv.
  apply for_each_calls_inv in Hin as (w & s2 & Hw & Hin & _).
  unfold link_network in Hin.
  case_bool_decide as Ht; simpl in Hin; [|by run in Hin; apply elem_of_nil in Hin].
  destruct (IsOkay _) eqn:Ho; simpl in Hin; [|by run in Hin; apply elem_of_nil in Hin].
  destruct (NewWorkloadID _ _ _) as [wid|] eqn:Hid; [|by run in Hin; apply elem_of_nil in Hin].
  rewrite calls_bind, calls_act in Hin. simpl in Hin.
  apply elem_of_cons in Hin as [|Hin]; [done|].
  destruct (match result _ _ with Some _ => _ | None => _ end);
    [by run in Hin; apply elem_of_nil in Hin|].
  run in Hin. apply elem_of_cons in Hin as [Hin|Hin]; [|by apply elem_of_nil in Hin].
  simplify_eq. by exists d, w, wid.
Qed.
End theorems.
