(* ===== verification/Power.v ===== *)
(** * Power management and uptime (pkg/power)

    The power server keeps the power state on the chain in step with its target
    and turns nodes on and off on events of its farm; [Uptime] reports the uptime
    every forty minutes.  The registrar gateway, zinit, the network tools and the
    clock are the interface [PowerEnv].  A loop that ends when its context is done
    takes the number of rounds before that as an argument. *)

From S2P Require Import Prelude GridTypes Gateway.

Definition ErrNotSupported_id : string := "zinit.ErrNotSupported".
Definition ErrFlagNotFound_id : string := "power.ErrFlagNotFound".
Definition Canceled_id : string := "context.Canceled".

(** [pkg.PowerTargetChangeEvent]. *)
Record PowerEvent := MkPowerEvent {
  ev_FarmID : Z; ev_NodeID : Z; ev_IsUp : bool; ev_IsDown : bool }.

Inductive pcall :=
| PGetTarget (r : res NodePower)
| PSetState (up : bool) (r : option error)
| PGetNode (id : Z)
| PWake (mac : string)
| PShutdown (r : option error)
| PReboot
| PCheckFlag (flag : string) (r : bool)
| PUptime (uptime timestamp : Z) (r : option error)
| PSignal
| PMarkDone
| PStream
| PListNics (bridge : string) (r : res (list (string * string)))
| PSetWol (nic : string) (r : option error)
| PSleep (ms : Z).

Class PowerEnv (S : Type) := {
  pwGetPowerTarget : S -> res NodePower * S;
  pwSetNodePowerState : bool -> S -> option error * S;
  pwGetNode : Z -> S -> res Node * S;
  pwUpdateUptime : Z -> Z -> S -> option error * S;
  etherWake : string -> S -> option error * S;
  zinitShutdown : S -> option error * S;
  zinitReboot : S -> option error * S;
  CheckFlag : string -> S -> bool * S;
  hostUptime : S -> res Z * S;
  clock : S -> Z * S;
  markDone : S -> unit * S;
  pwStream : S -> res (list PowerEvent) * S;
  bridgeGet : S -> res string * S;
  (* bridge.ListNics: type and name of each *)
  bridgeListNics : string -> S -> res (list (string * string)) * S;
  ValueOfFlag : string -> S -> res string * S;
  SetWol : string -> S -> option error * S;
  MagicPacket : string;
  ReadonlyCache : string;
  LimitedCache : string;
  NotReachable : string }.

(** [strings.Contains]. *)
Definition Contains (s sub : string) : bool :=
  match String.index 0 sub s with Some _ => true | None => false end.

Section wol.
Context {S : Type} `{!PowerEnv S}.

Definition EnsureWakeOnLan : M S pcall (bool * option error) :=
  inf <- peek bridgeGet ;;
  match inf with
  | Err err => ret (false, Some (Wrapped "failed to get zos bridge" err))
  | Val inf =>
      nics <- act (bridgeListNics inf) (PListNics inf) ;;
      match nics with
      | Err err => ret (false, Some (Wrapped "failed to list attached nics to zos bridge" err))
      | Val nics =>
          match filter (fun nic => nic.1 = "device") nics with
          | [(_, nic)] =>
              support <- peek (ValueOfFlag nic) ;;
              match support with
              | Err err =>
                  if errors_Is err ErrFlagNotFound_id then ret (false, None)
                  else ret (false, Some (Wrapped "failed to detect support for wake on lan" err))
              | Val support =>
                  if negb (Contains support MagicPacket) then ret (false, None)
                  else err <- act (SetWol nic) (PSetWol nic) ;; ret (true, err)
              end
          | _ => ret (false, Some (Fresh "zos bridge has multiple interfaces"))
          end
      end
  end.
End wol.

(** ** Uptime (uptime.go) *)
Section uptime.
Context {S : Type} `{!PowerEnv S}.

Definition check_flag (flag : string) : M S pcall bool :=
  act (CheckFlag flag) (PCheckFlag flag).

Definition isNodeHealthy : M S pcall bool :=
  readonly <- check_flag ReadonlyCache ;;
  let healthy := negb readonly in
  limited <- check_flag LimitedCache ;;
  let healthy := if (limited : bool) then false else healthy in
  check_flag NotReachable ;;;
  ret healthy.

Definition SendNow : M S pcall (option error) :=
  healthy <- isNodeHealthy ;;
  if negb healthy then ret None
  else
    uptime <- peek hostUptime ;;
    match uptime with
    | Err err => ret (Some (Wrapped "failed to get uptime" err))
    | Val uptime =>
        now <- peek clock ;;
        act (pwUpdateUptime uptime now) (PUptime uptime now)
    end.

(** [uptime], when the context is done after [n] more reports. *)
Fixpoint uptime (n : nat) : M S pcall (option error) :=
  err <- SendNow ;;
  match err with
  | Some err => ret (Some (Wrapped "failed to report uptime" err))
  | None =>
      act (fun s => (tt, s)) (fun _ => PSignal) ;;;
      match n with
      | 0 => ret None
      | Datatypes.S n => act (fun s => (tt, s)) (fun _ => PSleep (40 * 60 * 1000)) ;;; uptime n
      end
  end.

(** [Start]: each element of [rounds] is the length of one run of [uptime]; the
    answer is whether the loop returned.  A panic that [safeUptime] recovers is
    one of the errors [uptime] may return. *)
Fixpoint Start_uptime (rounds : list nat) : M S pcall bool :=
  match rounds with
  | [] => ret false
  | n :: rounds =>
      err <- uptime n ;;
      match err with
      | None => ret true
      | Some err =>
          if errors_Is err Canceled_id then ret true
          else act (fun s => (tt, s)) (fun _ => PSleep (10 * 1000)) ;;; Start_uptime rounds
      end
  end.
End uptime.

(** ** The power server (power.go) *)
Record PowerServer := MkPowerServer { enabled : bool; farm : Z; node : Z; twin : Z }.

Section server.
Context {S : Type} `{!PowerEnv S}.
Variable p : PowerServer.

Definition setNodePowerState (up : bool) : M S pcall (option error) :=
  let up := negb (enabled p) || up in
  power <- act pwGetPowerTarget PGetTarget ;;
  match power with
  | Err err => ret (Some (Wrapped "failed to check power state" err))
  | Val power =>
      if Bool.eqb (power_State_IsUp power) up then ret None
      else act (pwSetNodePowerState up) (PSetState up)
  end.

Definition shutdown : M S pcall (option error) :=
  if negb (enabled p) then ret None
  else
    SendNow ;;;
    err <- act zinitShutdown PShutdown ;;
    if is_err err ErrNotSupported_id then act zinitReboot (fun _ => PReboot)
    else ret err.

Definition syncSelf : M S pcall (option error) :=
  power <- act pwGetPowerTarget PGetTarget ;;
  match power with
  | Err err => ret (Some err)
  | Val power =>
      if power_Target_IsUp power then
        err <- setNodePowerState true ;;
        ret (wrap err "failed to set state to up")
      else
        err <- setNodePowerState false ;;
        match err with
        | Some err => ret (Some (Wrapped "failed to set state to down" err))
        | None =>
            err <- shutdown ;;
            ret (wrap err "failed to issue shutdown")
        end
  end.

(** The [for] loop of [powerUp] over the interfaces. *)
Fixpoint find_mac (infs : list Interface) : string :=
  match infs with
  | [] => ""
  | inf :: infs => if bool_decide (inf_Name inf = "zos") then inf_Mac inf else find_mac infs
  end.

Fixpoint wake (n : nat) (mac : string) : M S pcall unit :=
  match n with
  | 0 => ret tt
  | Datatypes.S n =>
      act (etherWake mac) (fun _ => PWake mac) ;;;
      act (fun s => (tt, s)) (fun _ => PSleep 500) ;;;
      wake n mac
  end.

Definition powerUp (n : Node) : M S pcall (option error) :=
  let mac := find_mac (node_Interfaces n) in
  if bool_decide (mac = "") then ret (Some (Fresh "can't find mac address of node"))
  else wake 10 mac ;;; ret None.

Definition event (ev : PowerEvent) : M S pcall (option error) :=
  if negb (ev_FarmID ev =? farm p)%Z then ret None
  else
    n <- act (pwGetNode (ev_NodeID ev)) (fun _ => PGetNode (ev_NodeID ev)) ;;
    match n with
    | Err err => ret (Some err)
    | Val n =>
        if (ev_NodeID ev =? node p)%Z && ev_IsDown ev then
          err <- setNodePowerState false ;;
          match err with
          | Some err => ret (Some (Wrapped "failed to set node power state to down" err))
          | None => shutdown
          end
        else if ev_IsDown ev then ret None
        else if ev_IsUp ev then powerUp n
        else ret None
    end.

Definition recv : M S pcall (option error) :=
  err <- syncSelf ;;
  match err with
  | Some err => ret (Some (Wrapped "failed to synchronize power status" err))
  | None =>
      stream <- act pwStream (fun _ => PStream) ;;
      match stream with
      | Err err => ret (Some (Wrapped "failed to connect to zbus events" err))
      | Val stream =>
          for_err (fun ev => err <- event ev ;; ret (wrap err "failed to process power event"))
            stream
      end
  end.

(** The loop of [events] until the context is done after [n] more rounds. *)
Fixpoint events_loop (n : nat) : M S pcall unit :=
  recv ;;;
  match n with
  | 0 => ret tt
  | Datatypes.S n => act (fun s => (tt, s)) (fun _ => PSleep 5000) ;;; events_loop n
  end.

Definition events (n : nat) : M S pcall unit :=
  act markDone (fun _ => PMarkDone) ;;; events_loop n.

Definition Start (n : nat) : M S pcall unit := events n.
End server.

(** ** When the node goes down *)
Section theorems.
Context {S : Type} `{!PowerEnv S}.
Variable p : PowerServer.

(** The state is set only when it differs from what is wanted, which is up when power
    management is disabled. *)
Theorem setNodePowerState_spec (up : bool) (s : S) :
  let m := setNodePowerState p up in
  let wanted := if enabled p then up else true in
  match (pwGetPowerTarget s).1 with
  | Err err => calls m s = [PGetTarget (Err err)] /\ is_Some (result m s)
  | Val power =>
      if Bool.eqb (power_State_IsUp power) wanted
      then calls m s = [PGetTarget (Val power)] /\ result m s = None
      else exists r, calls m s = [PGetTarget (Val power); PSetState wanted r] /\ result m s = r
  end.
Proof.
  intros m wanted. subst m. unfold setNodePowerState.
  assert (Hw : negb (enabled p) || up = wanted) by (subst wanted; by destruct (enabled p)).
  rewrite Hw. run. destruct (pwGetPowerTarget s).1 as [power|err]; run; [|by eauto].
  destruct (Bool.eqb _ _); run; by eauto.
Qed.

Definition turns_off (c : pcall) : bool :=
  match c with PShutdown _ | PReboot | PSetState false _ => true | _ => false end.

Lemma setNodePowerState_safe up :
  enabled p = false -> all_calls (fun c => turns_off c = false) (setNodePowerState p up).
Proof. intros He. unfold setNodePowerState. rewrite He. simpl. every_call. Qed.
Lemma shutdown_safe :
  enabled p = false -> all_calls (fun c => turns_off c = false) (shutdown p).
Proof. intros He. unfold shutdown. rewrite He. simpl. every_call. Qed.
Lemma wake_safe n mac : all_calls (fun c => turns_off c = false) (wake (S:=S) n mac).
Proof. induction n; simpl; every_call. Qed.

Hint Resolve setNodePowerState_safe shutdown_safe wake_safe : calls.

Lemma Start_disabled n (s : S) :
  enabled p = false -> Forall (fun c => turns_off c = false) (calls (Start p n) s).
Proof.
  intros He. revert s. change (all_calls (fun c => turns_off c = false) (Start (S:=S) p n)).
  assert (Hr : all_calls (fun c => turns_off c = false) (recv (S:=S) p)).
  { unfold recv, syncSelf, event, powerUp. every_call. }
  unfold Start, events. every_call. induction n; simpl; every_call.
Qed.

(** With power management disabled, no number of rounds of the power server shuts the node
    down, reboots it or sets its state to down. *)
Theorem disabled_never_off n (s : S) :
  enabled p = false -> Forall (fun c => turns_off c = false) (calls (Start p n) s).
Proof. apply Start_disabled. Qed.

(** The state the chain was left in by the calls so far: [Some up] once it was
    read or set. *)
Fixpoint chain_state (last : option bool) (l : list pcall) : option bool :=
  match l with
  | [] => last
  | PGetTarget (Val power) :: l => chain_state (Some (power_State_IsUp power)) l
  | PSetState up None :: l => chain_state (Some up) l
  | _ :: l => chain_state last l
  end.

(** Every shutdown or reboot finds the chain state down. *)
Fixpoint off_when_down (last : option bool) (l : list pcall) : Prop :=
  match l with
  | [] => True
  | (PShutdown _ | PReboot) :: l => last = Some false /\ off_when_down last l
  | PGetTarget (Val power) :: l => off_when_down (Some (power_State_IsUp power)) l
  | PSetState up None :: l => off_when_down (Some up) l
  | _ :: l => off_when_down last l
  end.

Lemma off_when_down_app last l k :
  off_when_down last (l ++ k) <-> off_when_down last l /\ off_when_down (chain_state last l) k.
Proof.
  revert last. induction l as [|c l IH]; intros last; simpl; [tauto|].
  destruct c as [[]|? []| | | | | | | | | | | |]; simpl; rewrite ?IH; tauto.
Qed.

Lemma setNodePowerState_down last (s : S) :
  let l := calls (setNodePowerState p false) s in
  off_when_down last l /\
  (enabled p = true -> result (setNodePowerState p false) s = None ->
     chain_state last l = Some false).
Proof.
  unfold setNodePowerState. run.
  destruct (pwGetPowerTarget s).1 as [[up target]|err]; run; [|by split].
  destruct (enabled p), up; simpl; run; try done.
  all: destruct (pwSetNodePowerState _ _).1; by split.
Qed.

Lemma SendNow_no_power last (s : S) :
  off_when_down last (calls SendNow s) /\ chain_state last (calls SendNow s) = last.
Proof.
  unfold SendNow, isNodeHealthy, check_flag.
  repeat (run; first [done | case_goal]).
Qed.

Lemma shutdown_down last (s : S) :
  (enabled p = true -> last = Some false) -> off_when_down last (calls (shutdown p) s).
Proof.
  intros Hl. unfold shutdown. destruct (enabled p); simpl; [|by run].
  specialize (Hl eq_refl). subst last.
  rewrite calls_bind, off_when_down_app.
  destruct (SendNow_no_power (Some false) s) as [Hs ->]. split; [done|].
  run. destruct (is_err _ _); by run.
Qed.

Lemma off_when_down_nothing last l :
  Forall (fun c => match c with PShutdown _ | PReboot => False | _ => True end) l ->
  off_when_down last l.
Proof.
  intros Hl. revert last. induction Hl as [|c l Hc _ IH]; intros last; [done|].
  by destruct c as [[]|? []| | | | | | | | | | | |]; simpl.
Qed.

Lemma setNodePowerState_nothing up :
  all_calls (fun c => match c with PShutdown _ | PReboot => False | _ => True end)
    (setNodePowerState (S:=S) p up).
Proof. unfold setNodePowerState. every_call. Qed.

Lemma powerUp_nothing n (s : S) :
  Forall (fun c => match c with PShutdown _ | PReboot => False | _ => True end)
    (calls (powerUp n) s).
Proof.
  revert s. change (all_calls (fun c => match c with PShutdown _ | PReboot => False | _ => True end)
    (powerUp (S:=S) n)).
  unfold powerUp. every_call.
Qed.

Lemma chain_state_app last l k : chain_state last (l ++ k) = chain_state (chain_state last l) k.
Proof.
  revert last. induction l as [|c l IH]; intros last; simpl; [done|].
  by destruct c as [[]|? []| | | | | | | | | | | |]; simpl; rewrite ?IH.
Qed.

(** A state that could be set is what the chain says. *)
Lemma setNodePowerState_chain up last (s : S) :
  result (setNodePowerState p up) s = None ->
  chain_state last (calls (setNodePowerState p up) s) = Some (negb (enabled p) || up).
Proof.
  unfold setNodePowerState. run.
  destruct (pwGetPowerTarget s).1 as [[st target]|err]; run; [|done].
  destruct (enabled p), st, up; simpl; run; try done.
  all: by intros ->.
Qed.

Lemma shutdown_chain last (s : S) : chain_state last (calls (shutdown p) s) = last.
Proof.
  unfold shutdown. destruct (enabled p); simpl; [|by run].
  rewrite calls_bind, chain_state_app.
  destruct (SendNow_no_power last s) as [_ ->]. run. destruct (is_err _ _); by run.
Qed.

Lemma shutdown_called (s : S) :
  enabled p = true -> exists r, PShutdown r ∈ calls (shutdown p) s.
Proof.
  intros He. unfold shutdown. rewrite He. simpl. rewrite calls_bind.
  eexists. apply elem_of_app. right. rewrite calls_bind, calls_act. left.
Qed.

Lemma event_shuts_down (ev : PowerEvent) last (s : S) :
  result (event p ev) s = None -> ev_FarmID ev = farm p -> ev_NodeID ev = node p ->
  ev_IsDown ev = true -> enabled p = true ->
  chain_state last (calls (event p ev) s) = Some false /\
  exists r, PShutdown r ∈ calls (event p ev) s.
Proof.
  intros Hr Hf Hn Hd He. revert Hr. unfold event. rewrite Hf, Hn, Hd, !Z.eqb_refl. cbn [negb andb].
  rewrite result_bind, calls_bind, result_act, calls_act. set (s1 := final _ s).
  destruct (pwGetNode (node p) s).1 as [n|err]; [|by run].
  rewrite result_bind, calls_bind.
  pose proof (setNodePowerState_chain false last s1) as Hc. rewrite He in Hc.
  destruct (result (setNodePowerState p false) s1); [by run|]. intros _.
  set (s2 := final _ s1). split.
  - simpl. by rewrite chain_state_app, Hc, shutdown_chain.
  - destruct (shutdown_called s2 He) as [r Hr]. exists r. set_solver.
Qed.

Lemma syncSelf_reaches_target power last (s : S) :
  (pwGetPowerTarget s).1 = Val power -> result (syncSelf p) s = None ->
  chain_state last (calls (syncSelf p) s) = Some (negb (enabled p) || power_Target_IsUp power) /\
  (power_Target_IsUp power = false -> enabled p = true ->
     exists r, PShutdown r ∈ calls (syncSelf p) s).
Proof.
  intros Hp. unfold syncSelf. rewrite result_bind, calls_bind, result_act, calls_act, Hp.
  set (s1 := final _ s).
  destruct (power_Target_IsUp power); rewrite result_bind, calls_bind.
  - pose proof (setNodePowerState_chain true (Some (power_State_IsUp power)) s1) as Hc.
    destruct (result (setNodePowerState p true) s1); [by run|]. intros _. run.
    simpl. by rewrite app_nil_r, Hc.
  - pose proof (setNodePowerState_chain false (Some (power_State_IsUp power)) s1) as Hc.
    destruct (result (setNodePowerState p false) s1); [by run|].
    rewrite calls_bind, calls_ret, app_nil_r. set (s2 := final _ s1). intros _. split.
    + simpl. by rewrite chain_state_app, Hc, shutdown_chain.
    + intros _ He. destruct (shutdown_called s2 He) as [r Hr]. exists r. set_solver.
Qed.

Lemma event_safe (ev : PowerEvent) last (s : S) :
  off_when_down last (calls (event p ev) s) /\
  (Exists (fun c => turns_off c = true) (calls (event p ev) s) ->
     ev_FarmID ev = farm p /\ ev_NodeID ev = node p /\ ev_IsDown ev = true /\ enabled p = true).
Proof.
  split.
  - unfold event. destruct (ev_FarmID ev =? farm p)%Z; simpl; [|by run].
    rewrite calls_bind, calls_act, result_act. simpl.
    destruct (pwGetNode _ _).1 as [n|err]; [|by run].
    destruct (_ && _); simpl.
    + rewrite calls_bind, off_when_down_app.
      destruct (setNodePowerState_down last
        (final (act (pwGetNode (ev_NodeID ev)) (fun _ => PGetNode (ev_NodeID ev))) s)) as [Hd1 Hd2].
      split; [done|]. destruct (result _ _) eqn:Hr; [by run|].
      apply shutdown_down. intros He. by apply Hd2.
    + destruct (ev_IsDown ev); [by run|]. destruct (ev_IsUp ev); [|by run].
      apply off_when_down_nothing, powerUp_nothing.
  - intros Hex.
    destruct (decide (ev_FarmID ev = farm p /\ ev_NodeID ev = node p /\
                      ev_IsDown ev = true /\ enabled p = true)) as [|Hn]; [done|exfalso].
    revert Hex. apply Forall_not_Exists. revert s.
    change (all_calls (fun c => ~ turns_off c = true) (event (S:=S) p ev)).
    assert (Hs : all_calls (fun c => turns_off c = false) (event (S:=S) p ev)).
    { unfold event. destruct (Z.eqb_spec (ev_FarmID ev) (farm p)); simpl; [|every_call].
      destruct (enabled p) eqn:He; [|].
      - destruct (Z.eqb_spec (ev_NodeID ev) (node p)); simpl.
        + destruct (ev_IsDown ev) eqn:Hd; [by destruct Hn|]. unfold powerUp.
          every_call.
        + unfold powerUp. every_call.
      - unfold powerUp. every_call. }
    intros s. eapply Forall_impl; [apply Hs|]. intros c Hc. by rewrite Hc.
Qed.

(** Handling a power event shuts the node down or reboots it only while the last state read
    from or written to the chain is down, and only for a down event of this very node of
    this farm with power management enabled; and when such an event is handled without an
    error the chain says down and a shutdown was issued. *)
Theorem event_off_when_down (ev : PowerEvent) last (s : S) :
  off_when_down last (calls (event p ev) s) /\
  (Exists (fun c => turns_off c = true) (calls (event p ev) s) ->
     ev_FarmID ev = farm p /\ ev_NodeID ev = node p /\ ev_IsDown ev = true /\ enabled p = true) /\
  (result (event p ev) s = None -> ev_FarmID ev = farm p -> ev_NodeID ev = node p ->
     ev_IsDown ev = true -> enabled p = true ->
     chain_state last (calls (event p ev) s) = Some false /\
     exists r, PShutdown r ∈ calls (event p ev) s).
Proof.
  destruct (event_safe ev last s) as [H1 H2]. split; [done|]. split; [done|].
  apply event_shuts_down.
Qed.

Lemma syncSelf_safe (s : S) last :
  off_when_down last (calls (syncSelf p) s) /\
  match (pwGetPowerTarget s).1 with
  | Err err => result (syncSelf p) s = Some err /\ calls (syncSelf p) s = [PGetTarget (Err err)]
  | Val power =>
      Exists (fun c => match c with PShutdown _ | PReboot => True | _ => False end)
        (calls (syncSelf p) s) -> power_Target_IsUp power = false /\ enabled p = true
  end.
Proof.
  unfold syncSelf. rewrite calls_bind, result_bind, calls_act, result_act, final_act.
  destruct (pwGetPowerTarget s) as [[power|err] s1]; simpl; [|by run].
  destruct (power_Target_IsUp power) eqn:Ht.
  - rewrite calls_bind, calls_ret, app_nil_r.
    assert (Hf : Forall (fun c => match c with PShutdown _ | PReboot => False | _ => True end)
      (calls (setNodePowerState p true) s1)).
    { apply setNodePowerState_nothing. }
    split; [by apply off_when_down_nothing|].
    rewrite Exists_cons. intros [|Hex]; [done|]. exfalso. revert Hex.
    apply Forall_not_Exists. eapply Forall_impl; [exact Hf|]. simpl. intros []; tauto.
  - destruct (setNodePowerState_down (Some (power_State_IsUp power)) s1) as [Hd1 Hd2].
    split.
    + rewrite calls_bind, off_when_down_app. split; [done|].
      destruct (result _ _) eqn:Hr; [by run|].
      rewrite calls_bind, calls_ret, app_nil_r. apply shutdown_down. intros He. by apply Hd2.
    + intros Hex. split; [done|]. destruct (enabled p) eqn:He; [done|exfalso].
      revert Hex. apply Forall_not_Exists. constructor; [simpl; tauto|].
      assert (Hs : all_calls (fun c => turns_off c = false)
        (err <- setNodePowerState (S:=S) p false ;;
         match err with
         | Some err => ret (Some (Wrapped "failed to set state to down" err))
         | None => err <- shutdown p ;; ret (wrap err "failed to issue shutdown")
         end)) by (every_call; auto using setNodePowerState_safe, shutdown_safe).
      eapply Forall_impl; [apply Hs|]. simpl. intros [] ?; simpl in *; tauto || congruence.
Qed.

(** [syncSelf] turns the node off only while the last state read from or written to the
    chain is down, only when the chain's target is down and power management is enabled, and
    returns the error when the target cannot be read; when it succeeds the state on the
    chain is the target (up with power management disabled), and a shutdown was issued if
    that is down. *)
Theorem syncSelf_spec (s : S) last :
  off_when_down last (calls (syncSelf p) s) /\
  match (pwGetPowerTarget s).1 with
  | Err err => result (syncSelf p) s = Some err /\ calls (syncSelf p) s = [PGetTarget (Err err)]
  | Val power =>
      Exists (fun c => match c with PShutdown _ | PReboot => True | _ => False end)
        (calls (syncSelf p) s) -> power_Target_IsUp power = false /\ enabled p = true
  end /\
  forall power, (pwGetPowerTarget s).1 = Val power -> result (syncSelf p) s = None ->
    chain_state last (calls (syncSelf p) s) = Some (negb (enabled p) || power_Target_IsUp power) /\
    (power_Target_IsUp power = false -> enabled p = true ->
       exists r, PShutdown r ∈ calls (syncSelf p) s).
Proof.
  destruct (syncSelf_safe s last) as [H1 H2]. split; [done|]. split; [done|].
  intros power. apply syncSelf_reaches_target.
Qed.

(** *** The whole server *)
Definition down_only {A} (m : M S pcall A) : Prop := forall last s, off_when_down last (calls m s).

Lemma down_only_bind {A B} (m : M S pcall A) (k : A -> M S pcall B) :
  down_only m -> (forall a, down_only (k a)) -> down_only (bind m k).
Proof. intros Hm Hk last s. rewrite calls_bind, off_when_down_app. split; [apply Hm|apply Hk]. Qed.
Lemma down_only_ret {A} (a : A) : down_only (ret a).
Proof. by intros last s. Qed.
Lemma down_only_act {A} (f : S -> A * S) (c : A -> pcall) :
  (forall last a, off_when_down last [c a]) -> down_only (act f c).
Proof. intros Hc last s. by rewrite calls_act. Qed.
Lemma down_only_for_err {A} (f : A -> M S pcall (option error)) l :
  (forall x, down_only (f x)) -> down_only (for_err f l).
Proof.
  intros Hf. induction l as [|x l IH]; simpl; [apply down_only_ret|].
  apply down_only_bind; [done|]. intros []; [apply down_only_ret|done].
Qed.

(** From its start the power server shuts down or reboots only while the chain says down. *)
Lemma Start_down_only n : down_only (Start p n).
Proof.
  assert (down_only (recv p)) as Hr.
  { unfold recv. apply down_only_bind; [intros last s; apply (proj1 (syncSelf_safe s last))|].
    intros [err|]; [apply down_only_ret|]. apply down_only_bind; [by apply down_only_act|].
    intros [stream|err]; [|apply down_only_ret]. apply down_only_for_err. intros ev.
    apply down_only_bind; [intros last s; apply (proj1 (event_safe ev last s))|]. intros ?; apply down_only_ret. }
  unfold Start, events. apply down_only_bind; [by apply down_only_act|]. intros _.
  induction n as [|n IH]; simpl; (apply down_only_bind; [done|intros _]); [apply down_only_ret|].
  apply down_only_bind; [by apply down_only_act|done].
Qed.

Lemma off_when_down_here last pre c post :
  off_when_down last (pre ++ c :: post) ->
  match c with PShutdown _ | PReboot => True | _ => False end -> chain_state last pre = Some false.
Proof. rewrite off_when_down_app. intros [_ Hd] Hc. destruct c; try done; by destruct Hd. Qed.

(** Waking a node sends ten packets to the address of its [zos] interface, or answers an
    error when it has none. *)
Theorem powerUp_wakes (n : Node) (s : S) :
  let mac := find_mac (node_Interfaces n) in
  (mac = "" -> calls (powerUp n) s = [] /\ is_Some (result (powerUp n) s)) /\
  (mac <> "" -> result (powerUp n) s = None /\
     omap (fun c => match c with PWake m => Some m | _ => None end) (calls (powerUp n) s) =
     replicate 10 mac /\
     exists i, i ∈ node_Interfaces n /\ inf_Name i = "zos" /\ inf_Mac i = mac).
Proof.
  intros mac. unfold powerUp. fold mac. case_bool_decide as Hm.
  - split; [|done]. intros _. run. by eauto.
  - split; [done|]. intros _. split; [by rewrite result_bind|]. split.
    + rewrite calls_bind, calls_ret, app_nil_r. generalize 10 as k.
      intros k. revert s. induction k as [|k IH]; intros s; cbn [wake]; [by run|].
      run. by rewrite IH.
    + subst mac. induction (node_Interfaces n) as [|i l IH]; simpl in *; [done|].
      case_bool_decide as Hi; [exists i; set_solver|].
      destruct IH as (j & Hj & ?); [done..|]. exists j. set_solver.
Qed.

(** On a node with a read-only cache the uptime loop reports success and signals that the
    uptime was sent, although it never sent one. *)
Theorem uptime_unhealthy_marks n (s : S) :
  (forall s, (CheckFlag ReadonlyCache s).1 = true) ->
  result (uptime n) s = None /\ PSignal ∈ calls (uptime n) s /\
  omap (fun c => match c with PUptime u t r => Some (u, t, r) | _ => None end)
    (calls (uptime n) s) = [].
Proof.
  intros Hf.
  assert (Hs : forall s, result SendNow s = None /\
    omap (fun c => match c with PUptime u t r => Some (u, t, r) | _ => None end)
      (calls SendNow s) = []).
  { intros s'. unfold SendNow, isNodeHealthy, check_flag. run. rewrite Hf. simpl.
    destruct (CheckFlag LimitedCache _).1; by run. }
  assert (Hg : result (uptime n) s = None /\
    omap (fun c => match c with PUptime u t r => Some (u, t, r) | _ => None end)
      (calls (uptime n) s) = []).
  { revert s. induction n as [|n IH]; intros s; cbn [uptime];
      rewrite result_bind, calls_bind, omap_app; destruct (Hs s) as [-> ->]; [by run|].
    run. apply IH. }
  split; [apply Hg|split; [|apply Hg]].
  destruct n; cbn [uptime]; rewrite calls_bind; destruct (Hs s) as [-> _];
    run; set_solver.
Qed.

(** Whenever an uptime is sent the node's cache is neither read-only nor limited, and the
    answer of the gateway is returned. *)
Theorem SendNow_spec (s : S) :
  (exists u t r, PUptime u t r ∈ calls SendNow s) ->
  PCheckFlag ReadonlyCache false ∈ calls SendNow s /\
  PCheckFlag LimitedCache false ∈ calls SendNow s /\
  exists u t, last (calls SendNow s) = Some (PUptime u t (result SendNow s)).
Proof.
  intros (u & t & r & Hin). revert Hin.
  unfold SendNow, isNodeHealthy, check_flag. run.
  destruct (CheckFlag ReadonlyCache s).1, (CheckFlag LimitedCache _).1; simpl; run; try set_solver.
  destruct (hostUptime _).1; run; [|set_solver].
  intros _. split; [set_solver|]. split; [set_solver|]. by do 2 eexists.
Qed.
End theorems.
