(* ===== verification/UpgradeFiles.v ===== *)
(** * Installing the files of a package (pkg/upgrade/upgrade.go)

    [copyFile] replaces one file of the root file system, keeping the old one
    aside until the new one is in place; [copyRecursive] walks a flist and copies
    it.  The file system, the flist store and the blob storage are outside: their
    operations are [FileEnv], their effect on the files [FileLaws]. *)

From S2P Require Import Prelude Paths.

(** ** Flists *)
Inductive FileType := RegularType | LinkType | OtherType.

(** [meta.Meta] with its [Info()]. *)
Record Meta := MkMeta {
  m_Name : string;
  m_IsDir : bool;
  m_Mode : Z;
  m_Type : FileType;
  m_LinkTarget : string;
  m_Blob : string }.

(** A [meta.Walker]: [Walk] visits the entries under a root in order, a directory
    before what it holds. *)
Record Store := MkStore { walk_entries : string -> res (list (string * Meta)) }.

Definition ErrSkipDir_id : string := "meta.ErrSkipDir".
Definition ErrSkipDir : error := Sentinel ErrSkipDir_id "skip dir".
Definition ErrNotFound_id : string := "meta.ErrNotFound".

Inductive ucall :=
| FStat (path : string)
| FRename (a b : string) (r : option error)
| FRemove (path : string) (r : option error)
| FOpen (path : string) (r : option error)
| FGet (m : Meta) (r : res string)
| FCopy (path : string) (r : option error)
| FMkdir (path : string) (r : option error)
| FSymlink (target path : string) (r : option error)
| FRemoveAll (path : string)
| UDownload (dir repo name : string) (r : res string)
| UNewStore (db : string) (r : res (option Store))
| UCloseStore
| UListTag (repo tag : string)
| UFind (name : string)
| UGetVersion
| UStopMultiple (names : list string)
| UForget (name : string)
| UMonitor (name : string)
| UStart (name : string)
| UBootSet (target : string) (r : option error)
| UMarkBooted
| USleep (ms : Z).

Class FileEnv (S : Type) := {
  osStat : string -> S -> option error * S;
  osIsNotExist : error -> bool;
  osRename : string -> string -> S -> option error * S;
  osRemove : string -> S -> option error * S;
  osRemoveAll : string -> S -> unit * S;
  osOpenFile : string -> Z -> S -> option error * S;
  osMkdirAll : string -> Z -> S -> option error * S;
  osSymlink : string -> string -> S -> option error * S;
  (* rofs.NewCache(dir, storage).CheckAndGet: the content of a blob *)
  CheckAndGet : string -> Meta -> S -> res string * S;
  (* io.Copy into an open file *)
  ioCopy : string -> string -> S -> option error * S }.

Section files.
Context {S : Type} `{!FileEnv S}.

(** The end of [copyFile] from [os.OpenFile] on: the value of [err] the deferred
    function sees, and the error returned.  A failing [io.Copy] declares its own
    [err]. *)
Definition write_file (dst : string) (src : Meta) (fileCache : string)
    : M S ucall (option error * option error) :=
  err <- act (osOpenFile dst (m_Mode src)) (FOpen dst) ;;
  match err with
  | Some err => ret (Some err, Some err)
  | None =>
      fSrc <- act (CheckAndGet fileCache src) (FGet src) ;;
      match fSrc with
      | Err err => ret (Some err, Some err)
      | Val content =>
          err <- act (ioCopy dst content) (FCopy dst) ;;
          ret (None, err)
      end
  end.

Definition copyFile (dst : string) (src : Meta) (fileCache : string)
    : M S ucall (option error) :=
  err <- act (osStat dst) (fun _ => FStat dst) ;;
  let isNew := match err with Some err => osIsNotExist err | None => false end in
  if (isNew : bool) then
    '(_, err) <- write_file dst src fileCache ;; ret err
  else
    let dstOld := dst +:+ ".old" in
    err <- act (osRename dst dstOld) (FRename dst dstOld) ;;
    match err with
    | Some err => ret (Some err)
    | None =>
        '(err, returned) <- write_file dst src fileCache ;;
        (match err with
         | None => act (osRemove dstOld) (FRemove dstOld)
         | Some _ => act (osRename dstOld dst) (FRename dstOld dst)
         end) ;;;
        ret returned
    end.

Fixpoint isIn (target : string) (list : list string) : bool :=
  match list with
  | [] => false
  | x :: list => if bool_decide (target = x) then true else isIn target list
  end.

(** The callback of [copyRecursive] on one entry. *)
Definition copy_entry (destination fileCache : string) (skip : list string)
    (entry : string * Meta) : M S ucall (option error) :=
  let '(path, info) := entry in
  let dest := Join [destination; path] in
  if isIn dest skip then
    if m_IsDir info then ret (Some ErrSkipDir) else ret None
  else if m_IsDir info then act (osMkdirAll dest (m_Mode info)) (FMkdir dest)
  else
    match m_Type info with
    | RegularType => copyFile dest info fileCache
    | LinkType =>
        let target := if IsAbs (m_LinkTarget info)
                      then Join [destination; m_LinkTarget info] else m_LinkTarget info in
        err <- act (osRemove dest) (FRemove dest) ;;
        match err with
        | Some err' =>
            if negb (osIsNotExist err') then ret (Some err')
            else act (osSymlink target dest) (FSymlink target dest)
        | None => act (osSymlink target dest) (FSymlink target dest)
        end
    | OtherType => ret None
    end.

(** Whether [path] is below the directory [dir]. *)
Definition under (dir path : string) : bool := String.prefix (dir +:+ "/") path.

(** [Walk]: the callback on every entry, up to its first error; an [ErrSkipDir]
    leaves out what the directory holds. *)
Fixpoint walk (cb : string * Meta -> M S ucall (option error)) (skipped : option string)
    (l : list (string * Meta)) : M S ucall (option error) :=
  match l with
  | [] => ret None
  | entry :: l =>
      if match skipped with Some dir => under dir entry.1 | None => false end
      then walk cb skipped l
      else
        err <- cb entry ;;
        match err with
        | None => walk cb None l
        | Some err => if bool_decide (err = ErrSkipDir) then walk cb (Some entry.1) l
                      else ret (Some err)
        end
  end.

Definition copyRecursive (store : Store) (destination fileCache : string) (skip : list string)
    : M S ucall (option error) :=
  match walk_entries store "" with
  | Err err => ret (Some err)
  | Val entries => walk (copy_entry destination fileCache skip) None entries
  end.
End files.

(** ** What happens to the files *)

(** Regular files by path; an operation that fails leaves them alone, except a
    copy, which may have written a part. *)
Class FileView (S : Type) := files : S -> gmap string string.

Class FileLaws {S : Type} `{!FileEnv S, !FileView S} : Prop := {
  Stat_keeps p s : files (osStat p s).2 = files s;
  Stat_absent p s err :
    (osStat p s).1 = Some err -> osIsNotExist err = true -> files s !! p = None;
  Rename_ok a b s : (osRename a b s).1 = None ->
    exists x, files s !! a = Some x /\ files (osRename a b s).2 = <[b := x]> (delete a (files s));
  Rename_err a b s e : (osRename a b s).1 = Some e -> files (osRename a b s).2 = files s;
  Remove_spec p s : files (osRemove p s).2 =
    match (osRemove p s).1 with None => delete p (files s) | Some _ => files s end;
  OpenFile_spec p m s : files (osOpenFile p m s).2 =
    match (osOpenFile p m s).1 with None => <[p := ""]> (files s) | Some _ => files s end;
  CheckAndGet_keeps c m s : files (CheckAndGet c m s).2 = files s;
  Copy_ok p x s : (ioCopy p x s).1 = None -> files (ioCopy p x s).2 = <[p := x]> (files s);
  Copy_err p x s e : (ioCopy p x s).1 = Some e ->
    exists part, files (ioCopy p x s).2 = <[p := part]> (files s) }.

Lemma old_name_ne (dst : string) : dst +:+ ".old" <> dst.
Proof.
induction dst as [|c dst IH]; simpl; [done|]. intros [= Heq]. by apply IH.
Qed.

(** [meta.ErrSkipDir] belongs to the walk of the flist's entries: no call of the
    operating system or of the flist cache returns it. *)
Class NoSkip (S : Type) `{!FileEnv S} : Prop := {
  stat_no_skip p (s : S) : (osStat p s).1 <> Some ErrSkipDir;
  rename_no_skip a b (s : S) : (osRename a b s).1 <> Some ErrSkipDir;
  remove_no_skip p (s : S) : (osRemove p s).1 <> Some ErrSkipDir;
  open_no_skip p m (s : S) : (osOpenFile p m s).1 <> Some ErrSkipDir;
  mkdir_no_skip p m (s : S) : (osMkdirAll p m s).1 <> Some ErrSkipDir;
  symlink_no_skip a b (s : S) : (osSymlink a b s).1 <> Some ErrSkipDir;
  get_no_skip cache m (s : S) : (CheckAndGet cache m s).1 <> Err ErrSkipDir;
  copy_no_skip p x (s : S) : (ioCopy p x s).1 <> Some ErrSkipDir }.

Section no_skip.
Context {S : Type} `{!FileEnv S, !NoSkip S}.

Lemma write_file_no_skip dst src cache (s : S) :
  (result (write_file dst src cache) s).2 <> Some ErrSkipDir.
Proof.
  unfold write_file. run. pose proof (open_no_skip dst (m_Mode src) s) as Ho.
  destruct (osOpenFile _ _ s).1; [by run|]. run.
  pose proof (get_no_skip cache src (osOpenFile dst (m_Mode src) s).2) as Hg.
  destruct (CheckAndGet _ _ _).1; run; [apply copy_no_skip|congruence].
Qed.

Lemma copyFile_no_skip dst src cache (s : S) :
  result (copyFile dst src cache) s <> Some ErrSkipDir.
Proof.
  unfold copyFile. rewrite result_bind.
  destruct (match result _ s with Some _ => _ | None => _ end); rewrite result_bind.
  - pose proof (write_file_no_skip dst src cache (final (act (osStat dst) (fun _ => FStat dst)) s)) as Hw.
    by destruct (result (write_file dst src cache) _).
  - set (s' := final _ s). pose proof (rename_no_skip dst (dst +:+ ".old") s') as Hr.
    rewrite result_act. destruct (osRename _ _ s').1; [by run|]. rewrite result_bind.
    set (s'' := final _ s'). pose proof (write_file_no_skip dst src cache s'') as Hw.
    destruct (result (write_file dst src cache) s'') as [e r]. by run.
Qed.

Lemma copy_entry_no_skip dst cache entry (s : S) :
  result (copy_entry dst cache [] entry) s <> Some ErrSkipDir.
Proof.
  destruct entry as [path info]. unfold copy_entry. simpl isIn. cbv iota.
  destruct (m_IsDir info); [rewrite result_act; apply mkdir_no_skip|].
  destruct (m_Type info); [apply copyFile_no_skip| |by run].
  set (target := if IsAbs _ then _ else _). set (dest := Join _).
  rewrite result_bind, result_act. pose proof (remove_no_skip dest s) as Hr.
  destruct (osRemove dest s).1; [destruct (negb _); [by run|]|];
    rewrite result_act; apply symlink_no_skip.
Qed.
End no_skip.

Section complete.
Context {S : Type} `{!FileEnv S}.

Lemma walk_all (cb : string * Meta -> M S ucall (option error)) l (s : S) :
  (forall entry s, result (cb entry) s <> Some ErrSkipDir) ->
  result (walk cb None l) s = None -> forall entry, entry ∈ l ->
  exists s', result (cb entry) s' = None /\
    forall c, c ∈ calls (cb entry) s' -> c ∈ calls (walk cb None l) s.
Proof.
  intros Hns. revert s. induction l as [|x l IH]; intros s; cbn [walk]; [set_solver|].
  rewrite result_bind, calls_bind. specialize (Hns x s) as Hx.
  destruct (result (cb x) s) as [err|] eqn:Er.
  { case_bool_decide; [congruence|]. by run. }
  intros Hr entry [->|Hin]%elem_of_cons.
  - exists s. split; [done|]. intros c Hc. apply elem_of_app. by left.
  - destruct (IH _ Hr entry Hin) as (s' & Hs' & Hc). exists s'. split; [done|].
    intros c Hc'. apply elem_of_app. right. by apply Hc.
Qed.

Lemma write_file_copies dst src cache (s : S) :
  result (write_file dst src cache) s = (None, None) ->
  FCopy dst None ∈ calls (write_file dst src cache) s.
Proof.
  unfold write_file. run. destruct (osOpenFile _ _ s).1; [by run|]. run.
  destruct (CheckAndGet _ _ _).1; [|by run]. run. intros [= ->]. set_solver.
Qed.

Lemma write_file_err dst src cache (s : S) :
  (result (write_file dst src cache) s).2 = None ->
  result (write_file dst src cache) s = (None, None).
Proof.
  unfold write_file. run. destruct (osOpenFile _ _ s).1; [by run|]. run.
  destruct (CheckAndGet _ _ _).1; [|by run]. run. by intros ->.
Qed.

Lemma copyFile_copies dst src cache (s : S) :
  result (copyFile dst src cache) s = None -> FCopy dst None ∈ calls (copyFile dst src cache) s.
Proof.
  assert (Hw : forall s' e r, result (write_file dst src cache) s' = (e, r) -> r = None ->
    FCopy dst None ∈ calls (write_file dst src cache) s').
  { intros s' e r Hr ->. apply write_file_copies, write_file_err. by rewrite Hr. }
  unfold copyFile. rewrite result_bind, calls_bind, result_act, calls_act, final_act.
  destruct (match (osStat dst s).1 with Some _ => _ | None => _ end).
  - rewrite result_bind, calls_bind.
    destruct (result (write_file dst src cache) _) as [e r] eqn:Hr. run. intros ->.
    specialize (Hw _ _ _ Hr eq_refl). set_solver.
  - rewrite result_bind, calls_bind, result_act, calls_act, final_act.
    destruct (osRename _ _ _).1; [by run|]. rewrite result_bind, calls_bind.
    destruct (result (write_file dst src cache) _) as [e r] eqn:Hr. run. intros ->.
    specialize (Hw _ _ _ Hr eq_refl). set_solver.
Qed.

Lemma copyRecursive_entries store dst cache entries (s : S) :
  walk_entries store "" = Val entries ->
  (forall entry (s : S), result (copy_entry dst cache [] entry) s <> Some ErrSkipDir) ->
  result (copyRecursive store dst cache []) s = None ->
  forall path info, (path, info) ∈ entries -> m_IsDir info = false ->
    match m_Type info with
    | RegularType => FCopy (Join [dst; path]) None ∈ calls (copyRecursive store dst cache []) s
    | LinkType => exists target,
        FSymlink target (Join [dst; path]) None ∈ calls (copyRecursive store dst cache []) s /\
        (IsAbs (m_LinkTarget info) = false -> target = m_LinkTarget info) /\
        (IsAbs (m_LinkTarget info) = true -> target = Join [dst; m_LinkTarget info])
    | OtherType => True
    end.
Proof.
  intros He Hns. unfold copyRecursive. rewrite He. intros Hr path info Hin Hd.
  destruct (walk_all _ _ _ Hns Hr _ Hin) as (s' & Hr' & Hc).
  unfold copy_entry in Hr', Hc. simpl isIn in Hr', Hc. cbv iota in Hr', Hc. rewrite Hd in Hr', Hc.
  destruct (m_Type info); [|clear Hns|done].
  - by apply Hc, copyFile_copies.
  - set (target := if IsAbs (m_LinkTarget info) then _ else _) in *.
    exists target. split; [|split; intros Ha; subst target; by rewrite Ha].
    apply Hc. rewrite calls_bind. rewrite result_bind in Hr'.
    apply elem_of_app. right.
    destruct (result _ s') as [err|].
    + destruct (negb _); [by run in Hr'|]. run in Hr'. run. rewrite Hr'. left.
    + run in Hr'. run. rewrite Hr'. left.
Qed.

(** A copy that succeeds copied every regular file of the flist and made every link,
    absolute targets moved under the destination. *)
Theorem copyRecursive_complete store dst cache entries (s : S) :
  walk_entries store "" = Val entries ->
  (forall entry (s : S), result (copy_entry dst cache [] entry) s <> Some ErrSkipDir) ->
  result (copyRecursive store dst cache []) s = None ->
  forall path info, (path, info) ∈ entries -> m_IsDir info = false ->
    match m_Type info with
    | RegularType => FCopy (Join [dst; path]) None ∈ calls (copyRecursive store dst cache []) s
    | LinkType => exists target,
        FSymlink target (Join [dst; path]) None ∈ calls (copyRecursive store dst cache []) s /\
        (IsAbs (m_LinkTarget info) = false -> target = m_LinkTarget info) /\
        (IsAbs (m_LinkTarget info) = true -> target = Join [dst; m_LinkTarget info])
    | OtherType => True
    end.
Proof. apply copyRecursive_entries. Qed.
End complete.

Section theorems.
Context {S : Type} `{!FileEnv S, !FileView S, !FileLaws}.

(** The content a run fetched. *)
Definition fetched (l : list ucall) : option string :=
  head (omap (fun c => match c with FGet _ (Val x) => Some x | _ => None end) l).

(** The cases of [write_file], with the error the deferred function sees, the
    one returned, and the files after. *)
Lemma write_file_cases dst src cache s :
  let m := write_file dst src cache in
  let s' := final m s in
  (exists x, result m s = (None, None) /\ fetched (calls m s) = Some x /\
     files s' = <[dst := x]> (files s) /\ FCopy dst None ∈ calls m s) \/
  (exists e x, result m s = (None, Some e) /\ FCopy dst (Some e) ∈ calls m s /\
     files s' = <[dst := x]> (files s)) \/
  (exists e, result m s = (Some e, Some e) /\ (forall e', FCopy dst (Some e') ∉ calls m s) /\
     (files s' = files s \/ files s' = <[dst := ""]> (files s))).
Proof.
  intros m s'. subst m s'. unfold write_file. run.
  pose proof (OpenFile_spec dst (m_Mode src) s) as Ho.
  destruct (osOpenFile _ _ s) as [[err|] s1]; simpl in *; run.
  { right; right. exists err. split; [done|]. split; [set_solver|by left]. }
  pose proof (CheckAndGet_keeps cache src s1) as Hg.
  destruct (CheckAndGet _ _ s1) as [[x|err] s2]; simpl in *; run.
  2:{ right; right. exists err. split; [done|]. split; [set_solver|]. right. congruence. }
  destruct (ioCopy dst x s2) as [[err|] s3] eqn:Ec; simpl in *.
  - right; left. destruct (Copy_err dst x s2 err) as [part Hp]; [by rewrite Ec|].
    rewrite Ec in Hp. simpl in Hp. exists err, part. split; [done|]. split; [set_solver|].
    by rewrite Hp, Hg, Ho, insert_insert_eq.
  - left. exists x. split; [done|]. split; [done|]. split; [|set_solver].
    pose proof (Copy_ok dst x s2) as Hc. rewrite Ec in Hc. simpl in Hc.
    by rewrite Hc, Hg, Ho, insert_insert_eq.
Qed.

(** When [copyFile] succeeds the destination holds exactly the fetched content, and no file
    but the destination and its backup changed. *)
Theorem copyFile_installs dst src cache s :
  let m := copyFile dst src cache in
  result m s = None ->
  exists x, fetched (calls m s) = Some x /\ files (final m s) !! dst = Some x /\
    forall k, k <> dst -> k <> dst +:+ ".old" -> files (final m s) !! k = files s !! k.
Proof.
  intros m. subst m. unfold copyFile.
  pose proof (old_name_ne dst) as Hne. set (old := dst +:+ ".old") in *. clearbody old.
  rewrite result_bind, calls_bind, final_bind, result_act, calls_act, final_act.
  pose proof (Stat_keeps dst s) as Hst.
  destruct (osStat dst s) as [serr s1]. simpl in Hst |- *.
  destruct (match serr with Some _ => _ | None => _ end).
  - rewrite result_bind, calls_bind, final_bind.
    destruct (write_file_cases dst src cache s1)
      as [(x & -> & Hf & Hfs & _)|[(e & x & -> & _)|(e & -> & _)]]; run; try done.
    intros _. exists x. rewrite app_nil_r. split; [done|]. rewrite Hfs, Hst.
    split; [by rewrite lookup_insert_eq|]. intros k Hk _. by rewrite lookup_insert_ne.
  - rewrite result_bind, calls_bind, final_bind, result_act, calls_act, final_act.
    destruct (osRename dst old s1) as [[err|] s2] eqn:Er; [by run|].
    destruct (Rename_ok dst old s1) as (y & Hy & Hr); [by rewrite Er|].
    rewrite Er in Hr. simpl in Hr |- *.
    rewrite result_bind, calls_bind, final_bind.
    destruct (write_file_cases dst src cache s2)
      as [(x & -> & Hf & Hfs & _)|[(e & x & -> & _)|(e & -> & _)]]; run; try done.
    intros _. exists x. rewrite Remove_spec. unfold fetched in *. simpl.
    rewrite omap_app. simpl. rewrite app_nil_r. split; [done|].
    assert (Hall : files (final (write_file dst src cache) s2) =
                   <[dst := x]> (<[old := y]> (delete dst (files s1)))) by congruence.
    rewrite Hall, Hst. destruct (osRemove _ _).1.
    + split; [by rewrite lookup_insert_eq|]. intros k Hk Hk'.
      by rewrite !lookup_insert_ne, lookup_delete_ne.
    + split; [by rewrite lookup_delete_ne, lookup_insert_eq|]. intros k Hk Hk'.
      by rewrite lookup_delete_ne, !lookup_insert_ne, lookup_delete_ne.
Qed.

(** C27: When [copyFile] fails over an existing file, the file is unchanged if it could not
    be moved aside, and the backup is moved back if opening or fetching failed; but when the
    copy itself fails the backup is removed and the file keeps what was written of it. *)
Theorem copyFile_failure dst src cache s x e :
  let m := copyFile dst src cache in
  let old := dst +:+ ".old" in
  files s !! dst = Some x -> result m s = Some e ->
  (* moving the backup aside failed, and nothing changed *)
  (FRename dst old (Some e) ∈ calls m s /\ files (final m s) = files s) \/
  (* an open or a fetch failed, and the backup was put back *)
  ((forall e', FCopy dst (Some e') ∉ calls m s) /\
   exists r, last (calls m s) = Some (FRename old dst r) /\
     (r = None -> files (final m s) !! dst = Some x)) \/
  (* the copy failed: the backup is removed, the file is what was written *)
  (exists r, FCopy dst (Some e) ∈ calls m s /\ last (calls m s) = Some (FRemove old r) /\
     exists part, files (final m s) !! dst = Some part /\
       (r = None -> files (final m s) !! old = None)).
Proof.
  intros m old Hx. subst m. unfold copyFile. fold old.
  assert (Hne : old <> dst) by apply old_name_ne. clearbody old.
  rewrite result_bind, calls_bind, final_bind, result_act, calls_act, final_act.
  pose proof (Stat_keeps dst s) as Hst. pose proof (Stat_absent dst s) as Hsa.
  destruct (osStat dst s) as [serr s1]. simpl in Hst, Hsa |- *.
  assert (Hnew : (match serr with Some err => osIsNotExist err | None => false end) = false).
  { destruct serr as [err|]; [|done]. destruct (osIsNotExist err) eqn:Hi; [|done].
    by rewrite (Hsa err eq_refl Hi) in Hx. }
  rewrite Hnew, result_bind, calls_bind, final_bind, result_act, calls_act, final_act.
  destruct (osRename dst old s1) as [[err|] s2] eqn:Er.
  { simpl. run. intros [= ->]. left. split; [set_solver|].
    pose proof (Rename_err dst old s1 e) as Hr. rewrite Er in Hr. simpl in Hr. rewrite Hr by done. congruence. }
  destruct (Rename_ok dst old s1) as (y & Hy & Hr); [by rewrite Er|].
  rewrite Er in Hr. simpl in Hr |- *. rewrite Hst, Hx in Hy. simplify_eq.
  rewrite result_bind, calls_bind, final_bind.
  destruct (write_file_cases dst src cache s2)
    as [(x' & -> & _)|[(e' & x' & -> & Hc & Hfs)|(e' & -> & Hc & Hfs)]]; run.
  - by destruct (osRemove _ _).
  - intros [= ->]. right; right.
    set (s3 := final (write_file dst src cache) s2) in *.
    exists (osRemove old s3).1. split; [set_solver|].
    split; [by rewrite !last_cons, last_app|]. exists x'. rewrite Remove_spec.
    destruct (osRemove old s3).1; rewrite Hfs.
    + by rewrite lookup_insert_eq.
    + by rewrite lookup_delete_ne, lookup_insert_eq, lookup_delete_eq.
  - intros [= ->]. right; left.
    set (s3 := final (write_file dst src cache) s2) in *.
    split; [set_solver|]. exists (osRename old dst s3).1.
    split; [by rewrite !last_cons, last_app|]. intros Hrn.
    destruct (Rename_ok old dst s3 Hrn) as (z & Hz & ->). rewrite lookup_insert_eq.
    destruct Hfs as [Hfs|Hfs]; rewrite Hfs, Hr in Hz.
    + rewrite lookup_insert_eq in Hz. congruence.
    + rewrite lookup_insert_ne, lookup_insert_eq in Hz by done. congruence.
Qed.

End theorems.
