(* ===== verification/Upgrade.v ===== *)
(** * The upgrader (pkg/upgrade/upgrade.go)

    The upgrader compares the release the node runs with the one the hub offers,
    installs the packages that changed and asks for a restart.  Boot information,
    hub, registrar, zinit and the file system are outside the repository:
    [UpgradeEnv] and [FileEnv].  Installing a flist of an unsupported kind makes
    the code close a nil store, which panics: [Panicked]. *)

From S2P Require Import Prelude Paths UpgradeFiles.

(** [hub.TagLink] by its target; [hub.Symlink] by name and target; a package of a
    tag by name and target. *)
Record TagLink := MkTagLink { Target : string }.
Record Package := MkPackage { pkg_Name : string; pkg_Target : string }.

(** [client.ZosVersion]. *)
Record ZosVersion := MkZosVersion { zv_Version : string; SafeToUpgrade : bool }.

Inductive outcome (A : Type) := Returned (a : A) | Panicked.
Arguments Returned {A} _.
Arguments Panicked {A}.

Class UpgradeEnv (S : Type) := {
  bootOther : S -> bool * S;  (* DetectBootMethod is BootMethodOther *)
  bootCurrent : S -> (TagLink * option error) * S;
  bootSet : TagLink -> S -> option error * S;
  bootRunMode : string;
  kernelIsLight : bool;
  kernelIsV4 : bool;
  kernelVersion : string;
  IsFirstBoot : S -> bool * S;
  MarkBooted : S -> option error * S;
  (* hub.Find of taglinks by name in the repo, and hub.NewTagLink *)
  hubFind : string -> string -> S -> res (list string) * S;
  NewTagLink : string -> TagLink;
  hubListTag : string -> string -> S -> res (list Package) * S;
  hubDownload : string -> string -> string -> S -> res string * S;
  (* meta.NewStore: [None] is a store that is not a Walker *)
  NewStore : string -> S -> res (option Store) * S;
  Destination : TagLink -> res (string * string);
  PackageDestination : Package -> string -> (string * string) * option error;
  RunningDev : bool;
  EnvFarmID : Z;
  envConfig : S -> res (list Z) * S;  (* the test farms *)
  gwGetZosVersion : S -> res ZosVersion * S;
  zinitStopMultiple : list string -> S -> option error * S;
  zinitForget : string -> S -> option error * S;
  zinitMonitor : string -> S -> option error * S;
  zinitStart : string -> S -> option error * S;
  IsReadOnly : error -> bool;  (* errors.Is EROFS, EPERM or EIO *)
  randIntn : Z -> S -> Z * S;
  newStorage : string -> S -> res string * S;
  ctxDone : S -> bool * S }.

Definition ErrRestartNeeded_id : string := "upgrade.ErrRestartNeeded".
Definition ErrRestartNeeded : error := Sentinel ErrRestartNeeded_id "restart needed".
Definition protected : list string := ["identityd"; "redis"].
Definition ZosRepo : string := "tf-zos".
Definition ZosPackage : string := "zos.flist".
Definition minute : Z := 60 * 10 ^ 9.
Definition checkForUpdateEvery : Z := 60 * minute.
Definition checkJitter : Z := 10.

Record Upgrader := MkUpgrader {
  root : string;
  noZosUpgrade : bool;
  zbusClient : option string;
  zinitSocket : option string;
  hubStorage : option string }.

(** The [cache] interface: where flists and files are downloaded to. *)
Record Cache := MkCache { flistCache : string; fileCache : string }.

Definition upgrader_cache (u : Upgrader) : Cache :=
  MkCache (Join [root u; "cache"; "flist"]) (Join [root u; "cache"; "files"]).

Section upgrader.
Context {S : Type} `{!FileEnv S, !UpgradeEnv S}.

Definition sleep (ms : Z) : M S ucall unit := act (fun s => (tt, s)) (fun _ => USleep ms).

(** ** Construction *)
Definition UpgraderOption : Type := Upgrader -> M S ucall (res Upgrader).

Definition NoZosUpgrade (o : bool) : UpgraderOption := fun u =>
  ret (Val (MkUpgrader (root u) o (zbusClient u) (zinitSocket u) (hubStorage u))).
Definition ZbusClient (cl : string) : UpgraderOption := fun u =>
  ret (Val (MkUpgrader (root u) (noZosUpgrade u) (Some cl) (zinitSocket u) (hubStorage u))).
Definition Storage (url : string) : UpgraderOption := fun u =>
  storage <- peek (newStorage url) ;;
  match storage with
  | Err err => ret (Err (Wrapped "failed to initialize hub storage" err))
  | Val storage =>
      ret (Val (MkUpgrader (root u) (noZosUpgrade u) (zbusClient u) (zinitSocket u) (Some storage)))
  end.
Definition Zinit (socket : string) : UpgraderOption := fun u =>
  ret (Val (MkUpgrader (root u) (noZosUpgrade u) (zbusClient u) (Some socket) (hubStorage u))).

Fixpoint apply_all (opts : list UpgraderOption) (u : Upgrader) : M S ucall (res Upgrader) :=
  match opts with
  | [] => ret (Val u)
  | opt :: opts =>
      r <- opt u ;;
      match r with
      | Err err => ret (Err err)
      | Val u => apply_all opts u
      end
  end.

Definition NewUpgrader (root : string) (opts : list UpgraderOption) : M S ucall (res Upgrader) :=
  let u := MkUpgrader root false None None None in
  err <- for_err (fun dir => act (osMkdirAll dir 493) (FMkdir dir))
           [fileCache (upgrader_cache u); flistCache (upgrader_cache u)] ;;
  match err with
  | Some err => ret (Err (Wrapped "failed to prepare cache directories" err))
  | None =>
      r <- apply_all opts u ;;
      match r with
      | Err err => ret (Err err)
      | Val u =>
          let hub_storage := if kernelIsV4 then "zdb://hub.grid.tf:9940" else "zdb://hub.grid.tf:9900" in
          r <- (match hubStorage u with None => Storage hub_storage u | Some _ => ret (Val u) end) ;;
          match r with
          | Err err => ret (Err err)
          | Val u =>
              match zinitSocket u with
              | None => Zinit "/var/run/zinit.sock" u
              | Some _ => ret (Val u)
              end
          end
      end
  end.

(** ** Installing a package *)
Definition getFlist (repo name : string) (cache : Cache) : M S ucall (res (option Store)) :=
  db <- act (hubDownload (flistCache cache) repo name) (UDownload (flistCache cache) repo name) ;;
  match db with
  | Err err => ret (Err (Wrapped "failed to download flist" err))
  | Val db =>
      store <- act (NewStore db) (UNewStore db) ;;
      match store with
      | Err err => ret (Err (Wrapped "failed to load flist db" err))
      | Val (Some walker) => ret (Val (Some walker))
      | Val None =>
          (* errors.Wrap of a nil error is nil *)
          act (fun s => (tt, s)) (fun _ => UCloseStore) ;;; ret (Val None)
      end
  end.

Definition newInMemoryCache : M S ucall (res (string * Cache)) :=
  let root := Join ["/tmp"; "upgrader"] in
  let file := Join [root; "cache"; "file"] in
  let flist := Join [root; "cache"; "flist"] in
  err <- act (osMkdirAll file 493) (FMkdir file) ;;
  match err with
  | Some err => ret (Err err)
  | None =>
      err <- act (osMkdirAll flist 493) (FMkdir flist) ;;
      match err with
      | Some err => ret (Err err)
      | None => ret (Val (root, MkCache flist file))
      end
  end.

Definition zinitPath : string := "/etc/zinit".

Definition service_of (entry : string * Meta) : option string :=
  let '(path, info) := entry in
  if m_IsDir info then None
  else if negb (bool_decide (Dir path = zinitPath)) then None
  else if negb (HasSuffix (m_Name info) ".yaml") then None
  else Some (TrimSuffix (m_Name info) ".yaml").

Definition servicesFromStore (store : Store) : res (list string) :=
  match walk_entries store zinitPath with
  | Err (Sentinel id _ as err) => if bool_decide (id = ErrNotFound_id) then Val [] else Err err
  | Err err => Err err
  | Val entries => Val (omap service_of entries)
  end.

Definition ensureRestarted (service : list string) : M S ucall (option error) :=
  match filter (fun e => e ∉ protected) service with
  | [] => ret None
  | service =>
      act (zinitStopMultiple service) (fun _ => UStopMultiple service) ;;;
      for_each (fun name =>
        act (zinitForget name) (fun _ => UForget name) ;;;
        act (zinitMonitor name) (fun _ => UMonitor name) ;;;
        act (zinitStart name) (fun _ => UStart name)) service ;;;
      ret None
  end.

(** [install] once the store is there; [clean] is the deferred cleaning of the
    in-memory cache. *)
Definition install_store (repo name : string) (store : option Store) (cache : Cache)
    (clean : M S ucall unit) : M S ucall (outcome (option error)) :=
  match store with
  | None => clean ;;; ret Panicked
  | Some store =>
      r <- (err <- copyRecursive store "/" (fileCache cache) [] ;;
            match err with
            | Some err => ret (Some (Wrapped ("failed to install flist: " +:+ repo +:+ "/" +:+ name) err))
            | None =>
                match servicesFromStore store with
                | Err err => ret (Some (Wrapped "failed to list services from flist" err))
                | Val services => ensureRestarted services
                end
            end) ;;
      act (fun s => (tt, s)) (fun _ => UCloseStore) ;;;
      clean ;;;
      ret (Returned r)
  end.

Definition install (u : Upgrader) (repo name : string) : M S ucall (outcome (option error)) :=
  let failed err := Some (Wrapped ("failed to process flist: " +:+ repo +:+ "/" +:+ name) err) in
  store <- getFlist repo name (upgrader_cache u) ;;
  match store with
  | Val store => install_store repo name store (upgrader_cache u) (ret tt)
  | Err err =>
      if IsReadOnly err then
        mem <- newInMemoryCache ;;
        match mem with
        | Err err => ret (Returned (Some (Wrapped "failed to create in memory cache" err)))
        | Val (memroot, cache) =>
            let clean := act (osRemoveAll memroot) (fun _ => FRemoveAll memroot) in
            store <- getFlist repo name cache ;;
            match store with
            | Err err => clean ;;; ret (Returned (failed err))
            | Val store => install_store repo name store cache clean
            end
        end
      else ret (Returned (failed err))
  end.

(** ** Updating to a release *)

(** The names of the packages of the current release. *)
Fixpoint current_names (curRepo : string) (pkgs : list Package) : list string :=
  match pkgs with
  | [] => []
  | pkg :: pkgs =>
      match PackageDestination pkg curRepo with
      | ((_, name), None) => name :: current_names curRepo pkgs
      | _ => current_names curRepo pkgs
      end
  end.

Definition install_named (u : Upgrader) (p : string * string) : M S ucall (outcome (option error)) :=
  r <- install u p.1 p.2 ;;
  match r with
  | Panicked => ret Panicked
  | Returned err =>
      ret (Returned (wrap err ("failed to install package " +:+ p.1 +:+ "/" +:+ p.2)))
  end.

(** The loop over the packages: what is left for later. *)
Fixpoint install_packages (u : Upgrader) (repo : string) (current : list string)
    (packages : list Package) (later : list (string * string))
    : M S ucall (outcome (res (list (string * string)))) :=
  match packages with
  | [] => ret (Returned (Val later))
  | pkg :: packages =>
      let '((pkgRepo, name), err) := PackageDestination pkg repo in
      if bool_decide (name ∈ current) then install_packages u repo current packages later
      else if bool_decide (pkg_Name pkg = ZosPackage) then
        install_packages u repo current packages (later ++ [(pkgRepo, name)])
      else
        match err with
        | Some err => ret (Returned (Err (Wrapped
            ("failed to find target for package '" +:+ pkg_Target pkg +:+ "'") err)))
        | None =>
            r <- install_named u (pkgRepo, name) ;;
            match r with
            | Panicked => ret Panicked
            | Returned (Some err) => ret (Returned (Err err))
            | Returned None => install_packages u repo current packages later
            end
        end
  end.

Fixpoint install_later (u : Upgrader) (later : list (string * string))
    : M S ucall (outcome (option error)) :=
  match later with
  | [] => ret (Returned None)
  | p :: later =>
      r <- install_named u p ;;
      match r with
      | Panicked => ret Panicked
      | Returned (Some err) => ret (Returned (Some err))
      | Returned None => install_later u later
      end
  end.

(** The packages of the current release, for [updateTo]. *)
Definition current_packages (current : option TagLink) : M S ucall (res (list string)) :=
  match current with
  | None => ret (Val [])
  | Some current =>
      match Destination current with
      | Err err => ret (Err (Wrapped "failed to resolve current link" err))
      | Val (curRepo, curTag) =>
          curPkgs <- act (hubListTag curRepo curTag) (fun _ => UListTag curRepo curTag) ;;
          match curPkgs with
          | Err err => ret (Err (Wrapped ("failed to list tag " +:+ curTag) err))
          | Val curPkgs => ret (Val (current_names curRepo curPkgs))
          end
      end
  end.

Definition updateTo (u : Upgrader) (link : TagLink) (current : option TagLink)
    : M S ucall (outcome (option error)) :=
  match Destination link with
  | Err err => ret (Returned (Some (Wrapped "failed to get destination tag" err)))
  | Val (repo, tag) =>
      packages <- act (hubListTag repo tag) (fun _ => UListTag repo tag) ;;
      match packages with
      | Err err => ret (Returned (Some (Wrapped ("failed to list tag '" +:+ tag +:+ "' packages") err)))
      | Val packages =>
          curPkgsNames <- current_packages current ;;
          match curPkgsNames with
          | Err err => ret (Returned (Some err))
          | Val curPkgsNames =>
              r <- install_packages u repo curPkgsNames packages [] ;;
              match r with
              | Panicked => ret Panicked
              | Returned (Err err) => ret (Returned (Some err))
              | Returned (Val later) =>
                  if noZosUpgrade u then ret (Returned None) else install_later u later
              end
          end
      end
  end.

(** ** Deciding on an update *)
Definition remote : M S ucall (res TagLink) :=
  let matchName := if kernelIsLight then bootRunMode +:+ "-" +:+ kernelVersion else bootRunMode in
  matches <- act (hubFind ZosRepo matchName) (fun _ => UFind matchName) ;;
  match matches with
  | Err err => ret (Err err)
  | Val [m] => ret (Val (NewTagLink m))
  | Val _ => ret (Err (Fresh ("can't find taglink that matches '" +:+ matchName +:+ "'")))
  end.

Definition getRolloutConfig : M S ucall (res (ZosVersion * list Z)) :=
  config <- peek envConfig ;;
  match config with
  | Err err => ret (Err (Wrapped "failed to get network config" err))
  | Val testFarms =>
      if RunningDev then ret (Val (MkZosVersion "v0.0.0" true, testFarms))
      else
        v <- act gwGetZosVersion (fun _ => UGetVersion) ;;
        match v with
        | Err err => ret (Err (Wrapped "failed to get zos version from registrar" err))
        | Val v => ret (Val (v, testFarms))
        end
  end.

(** [target[strings.LastIndex(target, "/")+1:]]. *)
Definition after_slash (target : string) : string := List.last (split_slash target) "".

Definition update (u : Upgrader) : M S ucall (outcome (option error)) :=
  '(current, _) <- peek bootCurrent ;;
  rem <- remote ;;
  match rem with
  | Err err => ret (Returned (Some (Wrapped "failed to get remote tag" err)))
  | Val rem =>
      if bool_decide (Target rem = Target current) then ret (Returned None)
      else
        config <- getRolloutConfig ;;
        match config with
        | Err err => ret (Returned (Some (Wrapped "failed to get rollout config and version" err)))
        | Val (registrarVersion, testFarms) =>
            let remoteVer := after_slash (Target rem) in
            if negb RunningDev && negb (bool_decide (remoteVer = zv_Version registrarVersion))
            then ret (Returned None)
            else if negb (SafeToUpgrade registrarVersion) &&
                    negb (bool_decide (uint32 EnvFarmID ∈ testFarms))
            then ret (Returned None)
            else
              r <- updateTo u rem (Some current) ;;
              match r with
              | Panicked => ret Panicked
              | Returned (Some err) => ret (Returned (Some (Wrapped
                  ("failed to update to new tag '" +:+ Target rem +:+ "'") err)))
              | Returned None =>
                  err <- act (bootSet rem) (UBootSet (Target rem)) ;;
                  match err with
                  | Some err => ret (Returned (Some err))
                  | None => ret (Returned (Some ErrRestartNeeded))
                  end
              end
        end
  end.

Definition nextUpdate : M S ucall Z :=
  jitter <- peek (randIntn checkJitter) ;;
  ret (checkForUpdateEvery + jitter * minute)%Z.

(** [n] rounds of the loop of [Run] at most: [None] while it goes on. *)
Fixpoint Run_loop (u : Upgrader) (n : nat) : M S ucall (option (outcome (option error))) :=
  match n with
  | 0 => ret None
  | Datatypes.S n =>
      r <- update u ;;
      match r with
      | Panicked => ret (Some Panicked)
      | Returned (Some err) =>
          if errors_Is err ErrRestartNeeded_id then ret (Some (Returned (Some err)))
          else sleep 10000 ;;; Run_loop u n
      | Returned None =>
          next <- nextUpdate ;;
          done <- peek ctxDone ;;
          if (done : bool) then ret (Some (Returned (Some (Sentinel "context.Canceled" "context canceled"))))
          else sleep (next / 10 ^ 6)%Z ;;; Run_loop u n
      end
  end.

Definition Run (u : Upgrader) (n : nat) : M S ucall (option (outcome (option error))) :=
  other <- peek bootOther ;;
  if (other : bool) then
    first <- peek IsFirstBoot ;;
    r <- (if (first : bool) then
            rem <- remote ;;
            match rem with
            | Err err => ret (Returned (Some (Wrapped "failed to get remote tag" err)))
            | Val rem =>
                r <- updateTo u rem None ;;
                match r with
                | Panicked => ret Panicked
                | Returned err => ret (Returned (wrap err "failed to run update"))
                end
            end
          else ret (Returned None)) ;;
    match r with
    | Panicked => ret (Some Panicked)
    | Returned (Some err) => ret (Some (Returned (Some err)))
    | Returned None =>
        err <- act MarkBooted (fun _ => UMarkBooted) ;;
        ret (Some (Returned (wrap err "failed to mark system as booted")))
    end
  else Run_loop u n.
End upgrader.

(** ** Which packages are installed, and when *)
Definition is_download (c : ucall) : bool := match c with UDownload _ _ _ _ => true | _ => false end.
Definition attempts (l : list ucall) : list (string * string) :=
  omap (fun c => match c with UDownload _ repo name _ => Some (repo, name) | _ => None end) l.

Lemma attempts_app l k : attempts (l ++ k) = attempts l ++ attempts k.
Proof. apply omap_app. Qed.
Lemma attempts_none l : Forall (fun c => is_download c = false) l -> attempts l = [].
Proof. induction 1 as [|c l Hc _ IH]; [done|]. by destruct c. Qed.

(** [l] downloads the packages of [ps] in order, each once or twice (the second
    time into memory). *)
Definition downloads (ps : list (string * string)) (l : list ucall) : Prop :=
  exists ks : list (nat * (string * string)),
    Forall (fun kp => 1 <= kp.1 <= 2) ks /\ map snd ks = ps /\
    attempts l = ks ≫= (fun kp => replicate kp.1 kp.2).

Lemma downloads_nil l : attempts l = [] -> downloads [] l.
Proof. intros Hl. by exists []. Qed.
Lemma downloads_app ps qs l k : downloads ps l -> downloads qs k -> downloads (ps ++ qs) (l ++ k).
Proof.
  intros (ks & Hk & <- & Hl) (js & Hj & <- & Hk'). exists (ks ++ js).
  rewrite Forall_app, map_app, attempts_app, bind_app. by rewrite Hl, Hk'.
Qed.

Section theorems.
Context {S : Type} `{!FileEnv S, !UpgradeEnv S}.
Variable u : Upgrader.

Lemma walk_calls P (cb : string * Meta -> M S ucall (option error)) sk l :
  (forall e, all_calls P (cb e)) -> all_calls P (walk cb sk l).
Proof.
  intros Hcb. revert sk. induction l as [|e l IH]; intros sk; cbn [walk]; [apply all_calls_ret|].
  destruct (match sk with Some _ => _ | None => _ end); [apply IH|].
  apply all_calls_bind; [done|]. intros [err|]; [|apply IH].
  case_bool_decide; [apply IH|apply all_calls_ret].
Qed.

Lemma copyRecursive_no_download store dst cache :
  all_calls (fun c => is_download c = false) (copyRecursive (S:=S) store dst cache []).
Proof.
  unfold copyRecursive. destruct (walk_entries _ _); [|apply all_calls_ret].
  apply walk_calls. intros [path info]. unfold copy_entry, copyFile, write_file. simpl.
  every_call.
Qed.

Lemma ensureRestarted_no_download l :
  all_calls (fun c => is_download c = false) (ensureRestarted (S:=S) l).
Proof. unfold ensureRestarted. every_call. Qed.
Hint Resolve copyRecursive_no_download ensureRestarted_no_download : calls.

Lemma install_store_no_download repo name store cache clean :
  all_calls (fun c => is_download c = false) clean ->
  all_calls (fun c => is_download c = false) (install_store (S:=S) repo name store cache clean).
Proof. intros Hc. unfold install_store. every_call. Qed.

Lemma getFlist_attempts repo name cache (s : S) :
  attempts (calls (getFlist repo name cache) s) = [(repo, name)].
Proof.
  unfold getFlist. rewrite calls_bind, attempts_app, calls_act. simpl.
  rewrite attempts_none; [done|].
  match goal with |- Forall ?P (calls ?m _) => assert (Hm : all_calls P m) by every_call end.
  apply Hm.
Qed.

Lemma install_downloads repo name (s : S) :
  downloads [(repo, name)] (calls (install u repo name) s).
Proof.
  unfold install. rewrite calls_bind.
  set (rest := calls _ (final _ s)).
  assert (Hr : attempts rest = [] \/ attempts rest = [(repo, name)]).
  { subst rest. destruct (result _ s) as [store|err].
    - left. apply attempts_none. apply install_store_no_download. every_call.
    - destruct (IsReadOnly err); [|by left; run]. rewrite calls_bind, attempts_app.
      rewrite (attempts_none (calls newInMemoryCache _))
        by (revert s; generalize (final (getFlist (S:=S) repo name (upgrader_cache u)));
            intros f s; assert (Hm : all_calls (fun c => is_download c = false)
              (newInMemoryCache (S:=S))) by (unfold newInMemoryCache; every_call); apply Hm).
      destruct (result _ _) as [[memroot cache]|err']; [|by left; run].
      right. rewrite calls_bind, attempts_app, getFlist_attempts. simpl.
      rewrite attempts_none; [done|].
      destruct (result _ _); [|by run; repeat constructor].
      apply install_store_no_download. every_call. }
  destruct Hr as [Hr|Hr].
  - exists [(1, (repo, name))]. split; [repeat constructor|]. split; [done|].
    by rewrite attempts_app, getFlist_attempts, Hr.
  - exists [(2, (repo, name))]. split; [repeat constructor|]. split; [done|].
    by rewrite attempts_app, getFlist_attempts, Hr.
Qed.

Lemma install_named_downloads p (s : S) :
  downloads [p] (calls (install_named u p) s).
Proof.
  unfold install_named. rewrite calls_bind. apply (downloads_app [p] []).
  - destruct p. apply install_downloads.
  - apply downloads_nil. by destruct (result _ _); run.
Qed.

(** The packages of a release in the order they are installed: first the
    others, the zos packages last, none of the current release. *)
Definition named (repo : string) (pkg : Package) : string * string :=
  (PackageDestination pkg repo).1.
Definition changed (repo : string) (current : list string) (pkgs : list Package) : list Package :=
  filter (fun pkg => (named repo pkg).2 ∉ current) pkgs.
Definition is_zos (pkg : Package) : Prop := pkg_Name pkg = ZosPackage.
#[export] Instance is_zos_dec pkg : Decision (is_zos pkg).
Proof. unfold is_zos. apply _. Defined.
Definition order_of (repo : string) (current : list string) (pkgs : list Package) : list (string * string) :=
  map (named repo) (filter (fun p => ~ is_zos p) (changed repo current pkgs)) ++
  (if noZosUpgrade u then [] else map (named repo) (filter is_zos (changed repo current pkgs))).

Lemma install_packages_downloads repo current pkgs later (s : S) :
  let others := map (named repo) (filter (fun p => ~ is_zos p) (changed repo current pkgs)) in
  let m := install_packages u repo current pkgs later in
  exists done, downloads done (calls m s) /\
    match result m s with
    | Returned (Val l) =>
        done = others /\ l = later ++ map (named repo) (filter is_zos (changed repo current pkgs))
    | _ => done `prefix_of` others
    end.
Proof.
  unfold changed. revert later s. induction pkgs as [|pkg pkgs IH]; intros later s; cbn [install_packages].
  { exists []. run. rewrite app_nil_r. split; [by apply downloads_nil|done]. }
  destruct (PackageDestination pkg repo) as [[pkgRepo name] err] eqn:Ed.
  assert (Hn : named repo pkg = (pkgRepo, name)) by (unfold named; by rewrite Ed).
  case_bool_decide as Hcur.
  { rewrite (filter_cons_False (fun p => (named repo p).2 ∉ current)) by (rewrite Hn; simpl; tauto).
    apply IH. }
  rewrite (filter_cons_True (fun p => (named repo p).2 ∉ current)) by (by rewrite Hn).
  case_bool_decide as Hz.
  { rewrite (filter_cons_False (fun p => ~ is_zos p)) by (intros Hz'; by apply Hz').
    rewrite (filter_cons_True is_zos) by done.
    destruct (IH (later ++ [(pkgRepo, name)]) s) as (dn & Hd & Hr). exists dn. split; [done|].
    destruct (result _ _) as [[l|]|]; [|done..]. destruct Hr as [-> ->]. split; [done|].
    cbn [map]. rewrite Hn. by rewrite <- app_assoc. }
  rewrite (filter_cons_True (fun p => ~ is_zos p)) by done.
  rewrite (filter_cons_False is_zos) by done. cbn [map]. rewrite Hn.
  destruct err as [err|].
  { exists []. run. split; [by apply downloads_nil|apply prefix_nil]. }
  rewrite result_bind, calls_bind.
  pose proof (install_named_downloads (pkgRepo, name) s) as Hi.
  destruct (result (install_named u (pkgRepo, name)) s) as [[err|]|]; run.
  - exists [(pkgRepo, name)]. rewrite app_nil_r. split; [done|]. by apply prefix_cons, prefix_nil.
  - destruct (IH later (final (install_named u (pkgRepo, name)) s)) as (dn & Hd & Hr).
    exists ((pkgRepo, name) :: dn). split; [by apply (downloads_app [_])|].
    destruct (result _ _) as [[l|]|]; [|by apply prefix_cons..]. by destruct Hr as [-> ->].
  - exists [(pkgRepo, name)]. rewrite app_nil_r. split; [done|]. by apply prefix_cons, prefix_nil.
Qed.

Lemma install_later_downloads later (s : S) :
  let m := install_later u later in
  exists done, downloads done (calls m s) /\ done `prefix_of` later /\
    (result m s = Returned None -> done = later).
Proof.
  revert s. induction later as [|p later IH]; intros s; cbn [install_later].
  { exists []. run. by split; [apply downloads_nil|]. }
  rewrite result_bind, calls_bind.
  pose proof (install_named_downloads p s) as Hi.
  destruct (result (install_named u p) s) as [[err|]|]; run.
  - exists [p]. rewrite app_nil_r. split; [done|]. split; [by apply prefix_cons, prefix_nil|done].
  - destruct (IH (final (install_named u p) s)) as (dn & Hd & Hp & Hr).
    exists (p :: dn). split; [by apply (downloads_app [p])|]. split; [by apply prefix_cons|].
    intros Hx. by rewrite Hr.
  - exists [p]. rewrite app_nil_r. split; [done|]. split; [by apply prefix_cons, prefix_nil|done].
Qed.

Lemma current_packages_no_download current :
  all_calls (fun c => is_download c = false) (current_packages (S:=S) current).
Proof. unfold current_packages. every_call. Qed.

(** [updateTo] downloads the packages of the new tag that the current one does not have, in
    the listed order and the zos package last, stops at the first failure, and reports
    success only when all of them were downloaded. *)
Theorem updateTo_order link current repo tag pkgs (s : S) :
  Destination link = Val (repo, tag) -> (hubListTag repo tag s).1 = Val pkgs ->
  let m := updateTo u link current in
  let names := result (current_packages current) (hubListTag repo tag s).2 in
  exists done, downloads done (calls m s) /\
    match names with
    | Err err => done = [] /\ result m s = Returned (Some err)
    | Val names => done `prefix_of` order_of repo names pkgs /\
        (result m s = Returned None -> done = order_of repo names pkgs)
    end.
Proof.
  intros Hd Hp m names. subst m names. unfold updateTo. rewrite Hd.
  rewrite result_bind, calls_bind, result_act, calls_act, final_act, Hp.
  set (s1 := (hubListTag repo tag s).2).
  rewrite result_bind, calls_bind.
  assert (Hc : attempts (calls (current_packages current) s1) = [])
    by apply attempts_none, current_packages_no_download.
  assert (Hpre : forall ps l, downloads ps l ->
    downloads ps ([UListTag repo tag] ++ calls (current_packages current) s1 ++ l)).
  { intros ps l Hl. apply (downloads_app [] ps); [by apply downloads_nil|].
    apply (downloads_app [] ps); [by apply downloads_nil|done]. }
  destruct (result (current_packages current) s1) as [names|err].
  2:{ exists []. run. split; [|done]. apply (Hpre [] []). by apply downloads_nil. }
  rewrite result_bind, calls_bind.
  set (s2 := final (current_packages current) s1).
  destruct (install_packages_downloads repo names pkgs [] s2) as (dn & Hdn & Hr).
  set (tl := calls (match result _ s2 with Returned _ => _ | Panicked => _ end) _).
  assert (Htl : exists ps, downloads ps tl /\ dn ++ ps `prefix_of` order_of repo names pkgs /\
    (result (match result (install_packages u repo names pkgs []) s2 with
             | Panicked => ret Panicked
             | Returned (Err err) => ret (Returned (Some err))
             | Returned (Val later) =>
                 if noZosUpgrade u then ret (Returned None) else install_later u later
             end) (final (install_packages u repo names pkgs []) s2) = Returned None ->
     dn ++ ps = order_of repo names pkgs)).
  { subst tl. unfold order_of. destruct (result _ s2) as [[later|err]|].
    - destruct Hr as [-> ->]. destruct (noZosUpgrade u).
      + exists []. run. split; [by apply downloads_nil|]. by rewrite !app_nil_r.
      + destruct (install_later_downloads
          (map (named repo) (filter is_zos (changed repo names pkgs)))
          (final (install_packages u repo names pkgs []) s2)) as (ps & Hps & Hpp & Heq).
        exists ps. split; [done|]. split; [by apply prefix_app|]. intros Hx. by rewrite Heq.
    - exists []. run. rewrite app_nil_r. split; [by apply downloads_nil|]. split; [|done].
      by apply prefix_app_r.
    - exists []. run. rewrite app_nil_r. split; [by apply downloads_nil|]. split; [|done].
      by apply prefix_app_r. }
  destruct Htl as (ps & Hps & Hpp & Heq).
  exists (dn ++ ps). split; [|done]. apply Hpre. by apply downloads_app.
Qed.

(** Installing does not touch the boot record. *)
Definition no_boot_set (c : ucall) : Prop := match c with UBootSet _ _ => False | _ => True end.

Lemma install_named_no_boot_set p : all_calls no_boot_set (install_named (S:=S) u p).
Proof.
  assert (Hcr : forall st d c, all_calls no_boot_set (copyRecursive (S:=S) st d c [])).
  { intros st d c. unfold copyRecursive. destruct (walk_entries _ _); [|apply all_calls_ret].
    apply walk_calls. intros [path info]. unfold copy_entry, copyFile, write_file. simpl.
    every_call. }
  assert (Her : forall l, all_calls no_boot_set (ensureRestarted (S:=S) l))
    by (intros l; unfold ensureRestarted; every_call).
  assert (His : forall r n st c cl, all_calls no_boot_set cl ->
    all_calls no_boot_set (install_store (S:=S) r n st c cl)).
  { intros r n st c cl Hcl. unfold install_store. every_call; auto. }
  assert (Hgf : forall r n c, all_calls no_boot_set (getFlist (S:=S) r n c))
    by (intros r n c; unfold getFlist; every_call).
  unfold install_named, install, newInMemoryCache. every_call; auto;
    apply His; every_call.
Qed.

Lemma updateTo_no_boot_set link current : all_calls no_boot_set (updateTo (S:=S) u link current).
Proof.
  assert (Hip : forall r c ps l, all_calls no_boot_set (install_packages (S:=S) u r c ps l)).
  { intros r c ps. induction ps as [|pkg ps IH]; intros l; cbn [install_packages]; [every_call|].
    destruct (PackageDestination _ _) as [[pr n] err].
    repeat case_bool_decide; [apply IH..|]. destruct err; [every_call|].
    apply all_calls_bind; [apply install_named_no_boot_set|]. intros [[?|]|]; every_call; apply IH. }
  assert (Hil : forall l, all_calls no_boot_set (install_later (S:=S) u l)).
  { induction l as [|p l IH]; cbn [install_later]; [every_call|].
    apply all_calls_bind; [apply install_named_no_boot_set|]. intros [[?|]|]; every_call; apply IH. }
  unfold updateTo, current_packages. every_call; auto.
Qed.

(** What a run of [update] may have done: nothing that counts, or the gate was
    passed. *)
Definition passes_gate (s : S) (rem : TagLink) (v : ZosVersion) (farms : list Z) : Prop :=
  let s1 := (bootCurrent s).2 in
  result remote s1 = Val rem /\ Target rem <> Target (bootCurrent s).1.1 /\
  result getRolloutConfig (final remote s1) = Val (v, farms) /\
  (RunningDev = true \/ after_slash (Target rem) = zv_Version v) /\
  (SafeToUpgrade v = true \/ uint32 EnvFarmID ∈ farms).

(** Neither a download nor a move of the boot tag. *)
Definition quiet (c : ucall) : Prop := is_download c = false /\ no_boot_set c.

(** What [update] does once the gate is passed. *)
Definition after_gate (rem current : TagLink) : M S ucall (outcome (option error)) :=
  r <- updateTo u rem (Some current) ;;
  match r with
  | Panicked => ret Panicked
  | Returned (Some err) => ret (Returned (Some (Wrapped
      ("failed to update to new tag '" +:+ Target rem +:+ "'") err)))
  | Returned None =>
      err <- act (bootSet rem) (UBootSet (Target rem)) ;;
      match err with
      | Some err => ret (Returned (Some err))
      | None => ret (Returned (Some ErrRestartNeeded))
      end
  end.

Lemma remote_quiet : all_calls quiet (remote (S:=S)).
Proof. unfold remote, quiet. every_call. Qed.
Lemma getRolloutConfig_quiet : all_calls quiet (getRolloutConfig (S:=S)).
Proof. unfold getRolloutConfig, quiet. every_call. Qed.

Lemma update_passed s rem v farms :
  passes_gate s rem v farms -> exists pre s', Forall quiet pre /\
    calls (update u) s = pre ++ calls (after_gate rem (bootCurrent s).1.1) s' /\
    result (update u) s = result (after_gate rem (bootCurrent s).1.1) s'.
Proof.
  unfold passes_gate. intros (Hr & Ht & Hc & Hv & Hf). unfold update.
  rewrite calls_bind, result_bind, calls_peek, result_peek, final_peek. simpl app.
  destruct (bootCurrent s) as [[cur cerr] s1]. cbn [fst snd] in *.
  exists (calls remote s1 ++ calls getRolloutConfig (final remote s1)),
    (final getRolloutConfig (final remote s1)).
  split; [apply Forall_app; split; [apply remote_quiet|apply getRolloutConfig_quiet]|].
  rewrite calls_bind, result_bind, Hr, bool_decide_eq_false_2 by done.
  rewrite calls_bind, result_bind, Hc, <- app_assoc.
  assert (negb RunningDev && negb (bool_decide (after_slash (Target rem) = zv_Version v)) = false) as ->.
  { destruct Hv as [->|Hv]; [done|]. rewrite bool_decide_eq_true_2 by done. by rewrite andb_false_r. }
  assert (negb (SafeToUpgrade v) && negb (bool_decide (uint32 EnvFarmID ∈ farms)) = false) as ->.
  { destruct Hf as [->|Hf]; [done|]. rewrite bool_decide_eq_true_2 by done. by rewrite andb_false_r. }
  done.
Qed.

Lemma update_stopped s :
  (forall rem v farms, ~ passes_gate s rem v farms) -> Forall quiet (calls (update u) s).
Proof.
  unfold passes_gate. intros Hg. unfold update.
  rewrite calls_bind, calls_peek, result_peek, final_peek. simpl app.
  destruct (bootCurrent s) as [[cur cerr] s1]. cbn [fst snd] in *.
  rewrite calls_bind. apply Forall_app. split; [apply remote_quiet|].
  destruct (result remote s1) as [rem|err] eqn:Hr; [|by run].
  case_bool_decide as Ht; [by run|].
  rewrite calls_bind. apply Forall_app. split; [apply getRolloutConfig_quiet|].
  destruct (result getRolloutConfig _) as [[v farms]|err] eqn:Hc; [|by run].
  destruct (negb RunningDev && _) eqn:Hv; [by run|].
  destruct (negb (SafeToUpgrade v) && _) eqn:Hf; [by run|].
  exfalso. apply (Hg rem v farms). split_and!; try done.
  - apply andb_false_iff in Hv as [Hv|Hv]; apply negb_false_iff in Hv; [by left|].
    right. by apply bool_decide_eq_true in Hv.
  - apply andb_false_iff in Hf as [Hf|Hf]; apply negb_false_iff in Hf; [by left|].
    right. by apply bool_decide_eq_true in Hf.
Qed.

Lemma after_gate_spec rem current s :
  let up := updateTo u rem (Some current) in
  let m := after_gate rem current in
  (forall c, c ∈ calls up s -> c ∈ calls m s) /\
  (forall t e, UBootSet t e ∈ calls m s -> t = Target rem /\ result up s = Returned None) /\
  (result up s = Returned None -> exists e, last (calls m s) = Some (UBootSet (Target rem) e) /\
     result m s = Returned (Some (default ErrRestartNeeded e))).
Proof.
  pose proof (updateTo_no_boot_set rem (Some current) s) as Hup.
  assert (Hno : forall t e, UBootSet t e ∉ calls (updateTo u rem (Some current)) s)
    by (intros t e Hin; rewrite Forall_forall in Hup; by apply Hup in Hin).
  intros up m. subst up m. unfold after_gate. rewrite calls_bind, result_bind.
  split; [set_solver|].
  destruct (result (updateTo u rem (Some current)) s) as [[err|]|]; run.
  - rewrite app_nil_r. split; [|done]. intros t e Hin. by apply Hno in Hin.
  - set (s' := final _ s). destruct (bootSet rem s').1 as [err|]; run; rewrite last_app; simpl.
    all: split; [|intros _; by eexists].
    all: intros t e [Hin|Hin]%elem_of_app; [by apply Hno in Hin|set_solver].
  - rewrite app_nil_r. split; [|done]. intros t e Hin. by apply Hno in Hin.
Qed.

(** C24: [update] downloads nothing and does not move the boot tag unless the remote version
    differs, is the one the registrar names (or the node runs in development mode) and is
    safe to upgrade to or being tested on this farm; then it runs [updateTo] for that
    version, as its last step sets the tag to it exactly when that succeeded, and asks for a
    restart unless setting it failed. *)
Theorem update_gate (s : S) :
  let m := update u in
  ((forall rem v farms, ~ passes_gate s rem v farms) -> Forall quiet (calls m s)) /\
  (forall rem v farms, passes_gate s rem v farms -> exists s',
    let up := updateTo u rem (Some (bootCurrent s).1.1) in
    (forall c, c ∈ calls up s' -> c ∈ calls m s) /\
    (forall t e, UBootSet t e ∈ calls m s -> t = Target rem /\ result up s' = Returned None) /\
    (result up s' = Returned None -> exists e, last (calls m s) = Some (UBootSet (Target rem) e) /\
       result m s = Returned (Some (default ErrRestartNeeded e)))).
Proof.
  split; [apply update_stopped|]. intros rem v farms Hg.
  destruct (update_passed s rem v farms Hg) as (pre & s' & Hq & Hc & Hr). exists s'.
  destruct (after_gate_spec rem (bootCurrent s).1.1 s') as (Hin & Hset & Hdone).
  rewrite Hc, Hr. split; [set_solver|]. split.
  - intros t e [Hp|Hp]%elem_of_app; [|by apply Hset in Hp].
    rewrite Forall_forall in Hq. by apply Hq in Hp as [_ []].
  - intros Hn. destruct (Hdone Hn) as (e & Hl & He). exists e. by rewrite last_app, Hl.
Qed.

(** *** Services *)

Lemma ensureRestarted_calls (services : list string) (s : S) :
  let allowed := filter (fun e => e ∉ protected) services in
  result (ensureRestarted services) s = None /\
  calls (ensureRestarted services) s =
    match allowed with
    | [] => []
    | _ => UStopMultiple allowed :: (allowed ≫= (fun n => [UForget n; UMonitor n; UStart n]))
    end.
Proof.
  intros allowed. unfold ensureRestarted. fold allowed. clearbody allowed.
  destruct allowed as [|n l]; [by run|]. set (l' := n :: l). clearbody l'.
  rewrite result_bind, calls_bind, calls_act, result_bind, calls_bind, result_ret, calls_ret, app_nil_r.
  split; [done|]. simpl. f_equal. generalize (final (act (zinitStopMultiple l') (fun _ => UStopMultiple l')) s).
  induction l' as [|x l' IH]; intros s'; simpl; [by run|]. rewrite calls_bind, IH. by run.
Qed.

(** [ensureRestarted] stops the services that are not protected, then forgets, monitors and
    starts each. *)
Theorem ensureRestarted_spec (services : list string) (s : S) :
  let allowed := filter (fun e => e ∉ protected) services in
  result (ensureRestarted services) s = None /\
  calls (ensureRestarted services) s =
    match allowed with
    | [] => []
    | _ => UStopMultiple allowed :: (allowed ≫= (fun n => [UForget n; UMonitor n; UStart n]))
    end.
Proof. apply ensureRestarted_calls. Qed.

(** The services of a flist are the yaml files directly under /etc/zinit. *)
Theorem servicesFromStore_spec (store : Store) entries services name :
  walk_entries store "/etc/zinit" = Val entries ->
  servicesFromStore store = Val services ->
  name ∈ services <-> exists path info, (path, info) ∈ entries /\ m_IsDir info = false /\
    Dir path = "/etc/zinit" /\ m_Name info = name +:+ ".yaml".
Proof.
  intros He. unfold servicesFromStore, zinitPath. rewrite He. intros [= <-].
  rewrite list_elem_of_omap. unfold service_of, zinitPath. split.
  - intros ([path info] & Hin & Hs). exists path, info. split; [done|].
    destruct (m_IsDir info); [done|]. case_bool_decide as Hd; [|done]. simpl in Hs.
    destruct (HasSuffix _ _) eqn:Hsuf; [|done]. simplify_eq/=.
    split; [done|]. split; [done|]. by rewrite TrimSuffix_spec.
  - intros (path & info & Hin & Hdir & Hd & Hn). exists (path, info). split; [done|].
    rewrite Hdir, bool_decide_eq_true_2 by done. simpl. rewrite Hn.
    pose proof (HasSuffix_app name ".yaml") as Hs. rewrite Hs. simpl. f_equal.
    apply TrimSuffix_app.
Qed.

(** The next check is between 60 and 70 minutes away. *)
Theorem nextUpdate_bounds (s : S) :
  (forall s, 0 <= (randIntn checkJitter s).1 < checkJitter)%Z ->
  (60 * minute <= result nextUpdate s < 70 * minute)%Z.
Proof.
  intros Hr. unfold nextUpdate. run. specialize (Hr s).
  unfold checkForUpdateEvery, checkJitter, minute in *. lia.
Qed.

(** *** The whole installation of a package *)

(** A store that was installed: every regular file was copied below the root,
    every service that may be restarted was started. *)
Definition store_installed (store : Store) (l : list ucall) : Prop :=
  exists entries, walk_entries store "" = Val entries /\
    (forall path info, (path, info) ∈ entries -> m_IsDir info = false ->
       m_Type info = RegularType -> FCopy (Join ["/"; path]) None ∈ l) /\
    forall services name, servicesFromStore store = Val services ->
      name ∈ services -> name ∉ protected -> UStart name ∈ l.

Lemma store_installed_mono store l k :
  (forall c, c ∈ l -> c ∈ k) -> store_installed store l -> store_installed store k.
Proof. intros Hlk (es & He & H1 & H2). exists es. split; [done|]. split; eauto. Qed.

Lemma install_store_installed repo name store cache clean (s : S) :
  (forall entry (s : S), result (copy_entry "/" (fileCache cache) [] entry) s <> Some ErrSkipDir) ->
  result (install_store repo name (Some store) cache clean) s = Returned None ->
  store_installed store (calls (install_store repo name (Some store) cache clean) s).
Proof.
  intros Hns. unfold install_store. rewrite result_bind, calls_bind.
  set (body := bind (copyRecursive store "/" (fileCache cache) []) _).
  run. intros [= Hr]. apply (store_installed_mono _ (calls body s)); [set_solver|].
  subst body. rewrite result_bind in Hr. rewrite calls_bind.
  destruct (result (copyRecursive _ _ _ _) s) eqn:Hc; [by run in Hr|].
  assert (He : exists entries, walk_entries store "" = Val entries).
  { unfold copyRecursive in Hc. destruct (walk_entries store "") as [es|err]; [by eexists|]. by run in Hc. }
  destruct He as [entries He]. exists entries. split; [done|]. split.
  - intros path info Hin Hd Ht.
    pose proof (copyRecursive_entries store "/" (fileCache cache) entries s He Hns Hc
      path info Hin Hd) as Hf. rewrite Ht in Hf. set_solver.
  - intros services n Hs Hin Hp. rewrite Hs.
    destruct (ensureRestarted_calls services (final (copyRecursive store "/" (fileCache cache) []) s))
      as [_ ->].
    assert (Hal : n ∈ filter (fun e => e ∉ protected) services)
      by (apply list_elem_of_filter; by split).
    destruct (filter _ services) as [|m l]; [set_solver|].
    apply elem_of_app. right. right. apply list_elem_of_bind. exists n. set_solver.
Qed.

(** The flist database that was downloaded was opened as [store]. *)
Lemma getFlist_loaded repo name cache store (s : S) :
  result (getFlist repo name cache) s = Val (Some store) ->
  exists db, calls (getFlist repo name cache) s =
    [UDownload (flistCache cache) repo name (Val db); UNewStore db (Val (Some store))].
Proof.
  unfold getFlist. run. destruct (hubDownload _ _ _ s).1 as [db|err]; run; [|done].
  destruct (NewStore db _).1 as [[walker|]|err]; run; [|done..]. intros [= ->]. by exists db.
Qed.

Lemma install_store_complete `{!NoSkip S} repo name store cache clean (s : S) :
  result (install_store repo name store cache clean) s = Returned None ->
  exists st, store = Some st /\ store_installed st (calls (install_store repo name store cache clean) s).
Proof.
  destruct store as [st|]; [|unfold install_store; by run]. intros Hr. exists st. split; [done|].
  by apply install_store_installed; [intros; apply copy_entry_no_skip|].
Qed.

(** C25: An install that succeeds downloaded the flist, opened the download as a store, and
    then copied every regular file of that store to its place under the root and started
    every service of it that is not protected, also when it had to fall back to the cache in
    memory. *)
Theorem install_complete `{!NoSkip S} repo name (s : S) :
  result (install u repo name) s = Returned None ->
  exists before cache db store after,
    calls (install u repo name) s =
      before ++ [UDownload cache repo name (Val db); UNewStore db (Val (Some store))] ++ after /\
    store_installed store after.
Proof.
  unfold install. rewrite result_bind, calls_bind.
  destruct (result (getFlist _ _ _) s) as [store|err] eqn:Hg.
  - intros (st & -> & Hst)%install_store_complete. apply getFlist_loaded in Hg as [db ->].
    exists [], (flistCache (upgrader_cache u)), db, st. eexists. split; [reflexivity|exact Hst].
  - destruct (IsReadOnly err); [|by run]. rewrite result_bind, calls_bind.
    destruct (result newInMemoryCache _) as [[memroot cache]|err']; [|by run].
    rewrite result_bind, calls_bind.
    destruct (result (getFlist repo name cache) _) as [store|err'] eqn:Hg'; [|by run].
    intros (st & -> & Hst)%install_store_complete. apply getFlist_loaded in Hg' as [db ->].
    do 4 eexists. eexists. split; [|exact Hst]. by rewrite app_assoc.
Qed.

(** *** The main loop *)

(** The upgrade loop returns only to ask for a restart or because its context was cancelled. *)
Theorem Run_loop_exits n (s : S) :
  match result (Run_loop u n) s with
  | Some (Returned err) => is_err err ErrRestartNeeded_id = true \/ is_err err "context.Canceled" = true
  | _ => True
  end.
Proof.
  revert s. induction n as [|n IH]; intros s; cbn [Run_loop]; [by run|].
  rewrite result_bind. destruct (result (update u) s) as [[err|]|]; [| |by run].
  - destruct (errors_Is err _) eqn:He; [by run; left|]. unfold sleep. run. apply IH.
  - unfold nextUpdate, sleep. run. destruct (ctxDone _).1; run; [by right|apply IH].
Qed.
End theorems.
