(* ===== verification/Registrar.v ===== *)
(** * Registration of the node (pkg/registrar_light)

    [registerNode] brings the node's record on the registrar up to date;
    [register] retries it until it succeeds and repeats it when an interval
    passes or an address changes, keeping the outcome in a state other daemons
    query.  The state lives beside the outside state: programs run on pairs. *)

From S2P Require Import Prelude GridTypes Gateway Power.

Inductive RegistrationState := Failed | InProgress | Done.
#[export] Instance registration_state_eq_dec : EqDecision RegistrationState.
Proof. solve_decision. Defined.

(** The struct [State]. *)
Record RegState := MkRegState {
  rs_NodeID : Z; rs_TwinID : Z; rs_State : RegistrationState; rs_Msg : string }.

Definition FailedState (err : error) : RegState := MkRegState 0 0 Failed (error_string err).
Definition InProgressState : RegState := MkRegState 0 0 InProgress "".
Definition DoneState (nodeID twinID : Z) : RegState := MkRegState nodeID twinID Done "".

Definition ErrInProgress : error :=
  Sentinel "registrar.ErrInProgress" "registration is still in progress".
Definition ErrFailed : error := Sentinel "registrar.ErrFailed" "registration failed".

(** [geoip.Location]; the coordinates as [fmt.Sprint] prints them. *)
Record RegistrationInfo := MkInfo {
  ri_Capacity : Capacity;
  ri_Location : Location;
  ri_SecureBoot : bool;
  ri_Virtualized : bool;
  ri_SerialNumber : string;
  ri_GPUs : gset string }.

Definition WithGPU (short : string) (r : RegistrationInfo) : RegistrationInfo :=
  MkInfo (ri_Capacity r) (ri_Location r) (ri_SecureBoot r) (ri_Virtualized r)
    (ri_SerialNumber r) ({[short]} ∪ ri_GPUs r).
Definition WithCapacity (v : Capacity) (r : RegistrationInfo) : RegistrationInfo :=
  MkInfo v (ri_Location r) (ri_SecureBoot r) (ri_Virtualized r) (ri_SerialNumber r) (ri_GPUs r).
Definition WithLocation (v : Location) (r : RegistrationInfo) : RegistrationInfo :=
  MkInfo (ri_Capacity r) v (ri_SecureBoot r) (ri_Virtualized r) (ri_SerialNumber r) (ri_GPUs r).
Definition WithSecureBoot (v : bool) (r : RegistrationInfo) : RegistrationInfo :=
  MkInfo (ri_Capacity r) (ri_Location r) v (ri_Virtualized r) (ri_SerialNumber r) (ri_GPUs r).
Definition WithVirtualized (v : bool) (r : RegistrationInfo) : RegistrationInfo :=
  MkInfo (ri_Capacity r) (ri_Location r) (ri_SecureBoot r) v (ri_SerialNumber r) (ri_GPUs r).
Definition WithSerialNumber (v : string) (r : RegistrationInfo) : RegistrationInfo :=
  MkInfo (ri_Capacity r) (ri_Location r) (ri_SecureBoot r) (ri_Virtualized r) v (ri_GPUs r).

Inductive regcall :=
| RSetState (st : RegState)
| RCheckFlag
| RStatKvm
| RFetchLocation
| RInterfaces
| REnsureAccount
| RGetNodeByTwinID (twin : Z) (r : Node * option error)
| RCreateNode (n : Node) (r : res Z)
| RGetNode (id : Z) (r : res Node)
| RUpdateNode (n : Node) (r : option error)
| RAddresses.

Class RegistrarEnv (S : Type) := {
  limitedCache : S -> bool * S;
  statKvm : S -> option error * S;
  geoipFetch : S -> res Location * S;
  netInterfaces : S -> res (gmap string Interface) * S;
  regEnsureAccount : S -> res Account * S;
  regGetNodeByTwinID : Z -> S -> (Node * option error) * S;
  regCreateNode : Node -> S -> res Z * S;
  regGetNode : Z -> S -> res Node * S;
  regUpdateNode : Node -> S -> option error * S;
  ZOSAddresses : S -> option error * S;
  (* whether the context is done when a retry would wait *)
  regCtxDone : S -> bool * S;
  envFarmID : Z;
  ErrorNodeNotFound : string;
  zero_Node : Node;
  (* reflect.DeepEqual on client.Node, which has fields the code never reads *)
  DeepEqual : Node -> Node -> bool }.

(** What the [select] of [register] can take. *)
Inductive reg_event := RegDone | RegMonitor | RegInterval | RegAddress.

Section registration.
Context {S : Type} `{!RegistrarEnv S}.

Definition zero_interface : Interface := MkInterface "" "" [].

(** The node as it is. *)
Definition real_node (info : RegistrationInfo) (twinID : Z) (zos : Interface) : Node :=
  MkNode (node_ID zero_Node) (uint64 envFarmID) twinID (ri_Location info)
    (MkNodeResources (uint64 (HRU (ri_Capacity info))) (uint64 (SRU (ri_Capacity info)))
                     (CRU (ri_Capacity info)) (uint64 (MRU (ri_Capacity info))))
    [zos] (ri_SerialNumber info) (ri_SecureBoot info) (ri_Virtualized info).

Definition set_Virtualized (v : bool) (n : Node) : Node :=
  MkNode (node_ID n) (node_FarmID n) (node_TwinID n) (node_Location n) (node_Resources n)
    (node_Interfaces n) (node_SerialNumber n) (node_SecureBoot n) v.
Definition set_NodeID (id : Z) (n : Node) : Node :=
  MkNode id (node_FarmID n) (node_TwinID n) (node_Location n) (node_Resources n)
    (node_Interfaces n) (node_SerialNumber n) (node_SecureBoot n) (node_Virtualized n).

(** The end of [registerNode], once the node has an id. *)
Definition sync_node (real : Node) (nodeID twinID : Z) : M S regcall (res (Z * Z)) :=
  onRegistrar <- act (regGetNode nodeID) (RGetNode nodeID) ;;
  match onRegistrar with
  | Err err => ret (Err (Wrapped "failed to get node with id" err))
  | Val onRegistrar =>
      let real := if negb (node_Virtualized onRegistrar) then set_Virtualized false real else real in
      let real := set_NodeID nodeID real in
      if negb (DeepEqual real onRegistrar) then
        err <- act (regUpdateNode real) (RUpdateNode real) ;;
        match err with
        | Some err => ret (Err (Wrapped "failed to update node data with id" err))
        | None => ret (Val (nodeID, twinID))
        end
      else ret (Val (nodeID, twinID))
  end.

Definition registerNode (info : RegistrationInfo) : M S regcall (res (Z * Z)) :=
  infs <- act netInterfaces (fun _ => RInterfaces) ;;
  match infs with
  | Err err => ret (Err (Wrapped "failed to get zos bridge information" err))
  | Val infs =>
      let zos := default zero_interface (infs !! "zos") in
      account <- act regEnsureAccount (fun _ => REnsureAccount) ;;
      match account with
      | Err err => ret (Err (Wrapped "failed to ensure account" err))
      | Val account =>
          let twinID := acc_TwinID account in
          let real := real_node info twinID zos in
          '(node, regErr) <- act (regGetNodeByTwinID twinID) (RGetNodeByTwinID twinID) ;;
          match regErr with
          | None => sync_node real (node_ID node) twinID
          | Some regErr =>
              if Contains (error_string regErr) ErrorNodeNotFound then
                nodeID <- act (regCreateNode real) (RCreateNode real) ;;
                match nodeID with
                | Err err => ret (Err (Wrapped "failed to create node on registrar" err))
                | Val nodeID => sync_node real nodeID twinID
                end
              else ret (Err (Wrapped "failed to get node information for twin id" regErr))
          end
      end
  end.

Definition registration (info : RegistrationInfo) : M S regcall (res (Z * Z)) :=
  loc <- act geoipFetch (fun _ => RFetchLocation) ;;
  match loc with
  | Err err => ret (Err (Wrapped "fetch location" err))
  | Val loc =>
      r <- registerNode (WithLocation loc info) ;;
      match r with
      | Err err => ret (Err (Wrapped "failed to register node" err))
      | Val ids => ret (Val ids)
      end
  end.
End registration.

(** ** The state of the registration *)
Section registrar.
Context {S : Type} `{!RegistrarEnv S}.

(** A program of the outside run beside the state. *)
Definition outside {A} (m : M S regcall A) : M (RegState * S) regcall A := fun '(st, s) =>
  let '((a, s'), l) := m s in ((a, (st, s')), l).

Definition NewRegistrar : RegState := InProgressState.

Definition setState (st : RegState) : M (RegState * S) regcall unit :=
  act (fun p => (tt, (st, p.2))) (fun _ => RSetState st).
Definition getState : M (RegState * S) regcall RegState := peek (fun p => (p.1, p)).

(** The operation [RetryNotify] repeats: whether it failed. *)
Definition attempt (info : RegistrationInfo) : M (RegState * S) regcall (option error) :=
  r <- outside (registration info) ;;
  match r with
  | Err err => setState (FailedState err) ;;; ret (Some err)
  | Val (nodeID, twinID) => setState (DoneState (uint32 nodeID) (uint32 twinID)) ;;; ret None
  end.

(** [register := func() ...]: retries until success or until the context is
    done, for [n] attempts at most; whether it returned. *)
Fixpoint register_retry (n : nat) (info : RegistrationInfo) : M (RegState * S) regcall bool :=
  match n with
  | 0 => ret false
  | Datatypes.S n =>
      err <- attempt info ;;
      match err with
      | None => ret true
      | Some _ =>
          done <- outside (peek regCtxDone) ;;
          if (done : bool) then ret true else register_retry n info
      end
  end.

Definition reActivate : M (RegState * S) regcall (option error) :=
  r <- outside (act regEnsureAccount (fun _ => REnsureAccount)) ;; ret (res_err r).

(** One turn of the loop; a context that is done takes its case and the loop
    goes on. *)
Definition on_event (fuel : nat) (info : RegistrationInfo) (ev : reg_event)
    : M (RegState * S) regcall unit :=
  match ev with
  | RegDone => ret tt
  | RegMonitor => reActivate ;;; ret tt
  | RegInterval | RegAddress => register_retry fuel info ;;; ret tt
  end.

Definition register (fuel : nat) (info : RegistrationInfo) (evs : list reg_event)
    : M (RegState * S) regcall unit :=
  limited <- outside (act limitedCache (fun _ => RCheckFlag)) ;;
  if (limited : bool) then setState (FailedState (Fresh "no disks"))
  else
    err <- outside (act statKvm (fun _ => RStatKvm)) ;;
    match err with
    | Some _ => setState (FailedState (Fresh
        "virtualization is not enabled. please enable in BIOS"))
    | None =>
        register_retry fuel info ;;;
        err <- outside (act ZOSAddresses (fun _ => RAddresses)) ;;
        match err with
        | Some _ => ret tt
        | None => for_each (on_event fuel info) evs
        end
    end.

(** [returnIfDone], which reads the state without the lock: once for the test
    of [Failed] and the message, once for the test of [Done]. *)
Definition returnIfDone (v : Z) (read1 read2 : RegState) : Z * option error :=
  if bool_decide (rs_State read1 = Failed) then (0%Z, Some (Wrapped (rs_Msg read1) ErrFailed))
  else if bool_decide (rs_State read2 = Done) then (v, None)
  else (0%Z, Some ErrInProgress).

(** [NodeID] and [TwinID], by what the three reads of the state see. *)
Definition NodeID (locked read1 read2 : RegState) : Z * option error :=
  returnIfDone (rs_NodeID locked) read1 read2.
Definition TwinID (locked read1 read2 : RegState) : Z * option error :=
  returnIfDone (rs_TwinID locked) read1 read2.
End registrar.

(** ** What a registration leaves on the registrar *)
Section theorems.
Context {S : Type} `{!RegistrarEnv S}.

Definition created (l : list regcall) : list Node :=
  omap (fun c => match c with RCreateNode n _ => Some n | _ => None end) l.
Definition updated (l : list regcall) : list Node :=
  omap (fun c => match c with RUpdateNode n _ => Some n | _ => None end) l.

(** What the end of a registration does for the node [id]. *)
Lemma sync_node_spec real id twin (s : S) ids :
  result (sync_node real id twin) s = Val ids ->
  ids = (id, twin) /\ created (calls (sync_node real id twin) s) = [] /\
  exists on, RGetNode id (Val on) ∈ calls (sync_node real id twin) s /\
    let wanted := set_NodeID id (if node_Virtualized on then real else set_Virtualized false real) in
    updated (calls (sync_node real id twin) s) = if DeepEqual wanted on then [] else [wanted].
Proof.
  unfold sync_node. run. destruct (regGetNode id s).1 as [on|err] eqn:Eg; run; [|done].
  destruct (node_Virtualized on) eqn:Ev; simpl.
  all: destruct (DeepEqual _ on) eqn:Ed; simpl; run.
  1,3: intros [= <-]; split; [done|]; split; [done|]; exists on; rewrite Ev, Ed;
    split; [left|done].
  all: destruct (regUpdateNode _ _).1; run; [done|].
  all: intros [= <-]; split; [done|]; split; [done|]; exists on; rewrite Ev, Ed;
    split; [left|done].
Qed.

(** [n] is the node that runs the daemon: its farm, twin, place, capacity, the interface
    [zos] and what the daemon was told of the machine, under no id yet. *)
Record own_node (info : RegistrationInfo) (twinID : Z) (zos : Interface) (n : Node) : Prop := {
  own_id : node_ID n = node_ID zero_Node;
  own_farm : node_FarmID n = uint64 envFarmID;
  own_twin : node_TwinID n = twinID;
  own_location : node_Location n = ri_Location info;
  own_HRU : nr_HRU (node_Resources n) = uint64 (HRU (ri_Capacity info));
  own_SRU : nr_SRU (node_Resources n) = uint64 (SRU (ri_Capacity info));
  own_CRU : nr_CRU (node_Resources n) = CRU (ri_Capacity info);
  own_MRU : nr_MRU (node_Resources n) = uint64 (MRU (ri_Capacity info));
  own_interfaces : node_Interfaces n = [zos];
  own_serial : node_SerialNumber n = ri_SerialNumber info;
  own_secure : node_SecureBoot n = ri_SecureBoot info;
  own_virtualized : node_Virtualized n = ri_Virtualized info }.

Lemma real_node_own info twinID zos : own_node info twinID zos (real_node info twinID zos).
Proof. by split. Qed.

(** C29: A successful registration takes the twin of the account it ensured, and as data the
    farm of the environment, the location, resources, serial number and marks it was given,
    and the interface zos of the node as its only one; it creates a node with that data
    exactly when the registrar knows none for the twin, and then updates the registered node
    exactly when it differs from the data, a node registered as virtualized keeping that
    mark from the data and any other being sent as not virtualized. *)
Theorem registerNode_spec info (s : S) nodeID twinID :
  let m := registerNode info in
  result m s = Val (nodeID, twinID) ->
  exists infs account real answer on,
    (netInterfaces s).1 = Val infs /\
    (regEnsureAccount (netInterfaces s).2).1 = Val account /\ twinID = acc_TwinID account /\
    own_node info twinID (default zero_interface (infs !! "zos")) real /\
    RGetNodeByTwinID twinID answer ∈ calls m s /\
    match answer.2 with
    | None => nodeID = node_ID answer.1 /\ created (calls m s) = []
    | Some err => Contains (error_string err) ErrorNodeNotFound = true /\
        created (calls m s) = [real] /\ RCreateNode real (Val nodeID) ∈ calls m s
    end /\
    RGetNode nodeID (Val on) ∈ calls m s /\
    let wanted := set_NodeID nodeID (if node_Virtualized on then real else set_Virtualized false real) in
    updated (calls m s) = if DeepEqual wanted on then [] else [wanted].
Proof.
  intros m. subst m. unfold registerNode. run.
  destruct (netInterfaces s).1 as [infs|err] eqn:Ei; run; [|done].
  destruct (regEnsureAccount _).1 as [account|err] eqn:Ea; run; [|done].
  set (zos := default zero_interface _). set (twin := acc_TwinID account).
  destruct (regGetNodeByTwinID twin _).1 as [n [err|]] eqn:Eg; simpl.
  - destruct (Contains _ _) eqn:Ec; run; [|done].
    destruct (regCreateNode _ _).1 as [id|err'] eqn:Er; run; [|done].
    intros Hr. apply sync_node_spec in Hr as ([= -> ->] & Hcr & on & Hon & Hup).
    exists infs, account, (real_node info twin zos), (n, Some err), on.
    do 3 (split; [done|]). split; [apply real_node_own|]. split; [set_solver|]. simpl. rewrite Hcr, Hup.
    split; [|split; [set_solver|done]]. split; [done|]. split; [done|]. set_solver.
  - run. intros Hr. apply sync_node_spec in Hr as ([= -> ->] & Hcr & on & Hon & Hup).
    exists infs, account, (real_node info twin zos), (n, None), on.
    do 3 (split; [done|]). split; [apply real_node_own|]. split; [set_solver|]. simpl. rewrite Hcr, Hup.
    set_solver.
Qed.

(** *** The state *)
Definition states_set (l : list regcall) : list RegState :=
  omap (fun c => match c with RSetState st => Some st | _ => None end) l.

Lemma outside_result {A} (m : M S regcall A) st s :
  result (outside m) (st, s) = result m s /\ final (outside m) (st, s) = (st, final m s) /\
  calls (outside m) (st, s) = calls m s.
Proof.
  unfold result, final, calls, outside. destruct (m s) as [[a s'] l]. done.
Qed.

(** The state is the last one set. *)
Definition tracks {A} (m : M (RegState * S) regcall A) : Prop :=
  forall p, (final m p).1 = List.last (states_set (calls m p)) p.1.

Lemma tracks_ret {A} (a : A) : tracks (ret a).
Proof. by intros p. Qed.
Lemma tracks_bind {A B} (m : M _ regcall A) (k : A -> M _ regcall B) :
  tracks m -> (forall a, tracks (k a)) -> tracks (bind m k).
Proof.
  intros Hm Hk p. rewrite final_bind, calls_bind, Hk, Hm. unfold states_set.
  rewrite omap_app. fold (states_set (calls m p)).
  generalize (states_set (calls m p)). intros l.
  generalize (omap (fun c => match c with RSetState st => Some st | _ => None end)
    (calls (k (result m p)) (final m p))). intros k'.
  revert k'. induction k' as [|x k' IH] using rev_ind; [by rewrite app_nil_r|].
  by rewrite app_assoc, !last_last.
Qed.
Lemma tracks_outside {A} (m : M S regcall A) :
  (forall s, states_set (calls m s) = []) -> tracks (outside m).
Proof. intros Hm [st s]. destruct (outside_result m st s) as (_ & -> & ->). by rewrite Hm. Qed.
Lemma tracks_setState st : tracks (setState st).
Proof. intros p. unfold setState. by run. Qed.

Lemma registration_sets_nothing info (s : S) : states_set (calls (registration info) s) = [].
Proof.
  assert (H : all_calls (fun c => match c with RSetState _ => False | _ => True end)
    (registration (S:=S) info)).
  { unfold registration, registerNode, sync_node. every_call. }
  specialize (H s). induction H as [|c l Hc _ IH]; [done|]. by destruct c.
Qed.

Lemma tracks_attempt info : tracks (attempt info).
Proof.
  unfold attempt. apply tracks_bind; [apply tracks_outside, registration_sets_nothing|].
  intros [[n t]|err]; (apply tracks_bind; [apply tracks_setState|intros; apply tracks_ret]).
Qed.
Lemma tracks_register_retry n info : tracks (register_retry n info).
Proof.
  induction n as [|n IH]; simpl; [apply tracks_ret|].
  apply tracks_bind; [apply tracks_attempt|]. intros [err|]; [|apply tracks_ret].
  apply tracks_bind; [by apply tracks_outside; intros s; run|].
  intros []; [apply tracks_ret|apply IH].
Qed.

(** A state a registration may set. *)
Definition good_state (st : RegState) : Prop :=
  rs_State st = Done \/ (rs_State st = Failed /\ rs_NodeID st = 0%Z /\ rs_TwinID st = 0%Z).
Definition sets_good (c : regcall) : Prop :=
  match c with RSetState st => good_state st | _ => True end.

Lemma sets_good_outside {A} (m : M S regcall A) :
  all_calls sets_good m -> all_calls sets_good (outside m).
Proof. intros Hm [st s]. destruct (outside_result m st s) as (_ & _ & ->). apply Hm. Qed.
Lemma sets_good_registration info : all_calls sets_good (outside (registration (S:=S) info)).
Proof. apply sets_good_outside. unfold registration, registerNode, sync_node. every_call. Qed.
Lemma sets_good_act {A} (f : S -> A * S) c :
  (forall a, sets_good (c a)) -> all_calls sets_good (outside (act f c)).
Proof. intros Hc. by apply sets_good_outside, all_calls_act. Qed.
Lemma sets_good_peek {A} (f : S -> A * S) : all_calls sets_good (outside (peek f)).
Proof. apply sets_good_outside, all_calls_peek. Qed.
Lemma sets_good_failed err : all_calls sets_good (setState (S:=S) (FailedState err)).
Proof. unfold setState. apply all_calls_act. intros _. by right. Qed.
Lemma sets_good_done n t : all_calls sets_good (setState (S:=S) (DoneState n t)).
Proof. unfold setState. apply all_calls_act. intros _. by left. Qed.
Hint Resolve sets_good_registration sets_good_peek sets_good_failed sets_good_done : calls.
Hint Extern 3 (all_calls sets_good (outside (act _ _))) =>
  apply sets_good_act; intros; exact I : calls.
Lemma sets_good_register_retry n info : all_calls sets_good (register_retry (S:=S) n info).
Proof. induction n as [|n IH]; simpl; unfold attempt; every_call. Qed.
Hint Resolve sets_good_register_retry : calls.

Lemma register_tracks fuel info evs : tracks (register (S:=S) fuel info evs).
Proof.
  unfold register. apply tracks_bind; [by apply tracks_outside; intros; run|].
  intros []; [apply tracks_setState|].
  apply tracks_bind; [by apply tracks_outside; intros; run|].
  intros [err|]; [apply tracks_setState|].
  apply tracks_bind; [apply tracks_register_retry|intros _].
  apply tracks_bind; [by apply tracks_outside; intros; run|].
  intros [err|]; [apply tracks_ret|].
  induction evs as [|ev evs IH]; simpl; [apply tracks_ret|].
  apply tracks_bind; [|intros _; apply IH].
  destruct ev; simpl; [apply tracks_ret| | |].
  - apply tracks_bind; [|intros; apply tracks_ret]. unfold reActivate.
    apply tracks_bind; [by apply tracks_outside; intros; run|intros; apply tracks_ret].
  - apply tracks_bind; [apply tracks_register_retry|intros; apply tracks_ret].
  - apply tracks_bind; [apply tracks_register_retry|intros; apply tracks_ret].
Qed.

Lemma register_sets_good fuel info evs p :
  Forall good_state (states_set (calls (register (S:=S) fuel info evs) p)).
Proof.
  assert (Hm : all_calls sets_good (register (S:=S) fuel info evs)).
  { unfold register. every_call.
    all: try (match goal with |- all_calls _ (on_event _ _ ?ev) => destruct ev end; simpl;
      unfold reActivate; every_call). }
  specialize (Hm p). unfold states_set.
  induction Hm as [|c l Hc _ IH]; simpl; [constructor|].
  destruct c; simpl; try done. by constructor.
Qed.

(** The state is the outcome of a registration that was run. *)
Definition outcome (r : res (Z * Z)) : RegState :=
  match r with Val (n, t) => DoneState (uint32 n) (uint32 t) | Err err => FailedState err end.
Definition settled (info : RegistrationInfo) (st : RegState) : Prop :=
  exists s : S, st = outcome (result (registration info) s).

Lemma attempt_settles info p : settled info (final (attempt info) p).1.
Proof.
  destruct p as [st s]. exists s. unfold attempt. rewrite final_bind.
  destruct (outside_result (registration info) st s) as (-> & -> & _).
  destruct (result (registration info) s) as [[n t]|err]; by unfold setState; run.
Qed.

Lemma register_retry_settles n info p :
  settled info p.1 \/ 0 < n -> settled info (final (register_retry n info) p).1.
Proof.
  revert p. induction n as [|n IH]; intros p Hp; simpl; [destruct Hp; [done|lia]|].
  rewrite final_bind. pose proof (attempt_settles info p) as Ha.
  destruct (result (attempt info) p); [|done]. rewrite final_bind.
  set (q := final (attempt info) p) in *.
  assert (Hq : (final (outside (peek regCtxDone)) q).1 = q.1).
  { destruct q as [st s]. by destruct (outside_result (peek regCtxDone) st s) as (_ & -> & _). }
  rewrite <- Hq in Ha. destruct (result _ q); [done|]. apply IH. by left.
Qed.

Lemma on_event_settles fuel info ev p :
  settled info p.1 -> settled info (final (on_event fuel info ev) p).1.
Proof.
  intros Hp. destruct ev; simpl; [done| | |].
  - unfold reActivate. rewrite !final_bind. destruct p as [st s].
    by destruct (outside_result (act regEnsureAccount (fun _ => REnsureAccount)) st s) as (_ & -> & _).
  - rewrite final_bind. apply register_retry_settles. by left.
  - rewrite final_bind. apply register_retry_settles. by left.
Qed.

(** The state of the registrar is the last one set, failed states carry no ids, and after
    the background registration started it is always the outcome of a registration that ran:
    done with its ids or failed with its error; a node without disks or virtualization ends
    up failed. *)
Theorem register_state fuel info evs (s : S) :
  let m := register (Datatypes.S fuel) info evs in
  let p := final m (NewRegistrar, s) in
  p.1 = List.last (states_set (calls m (NewRegistrar, s))) InProgressState /\
  Forall good_state (states_set (calls m (NewRegistrar, s))) /\
  if (limitedCache s).1 then p.1 = FailedState (Fresh "no disks")
  else match (statKvm (limitedCache s).2).1 with
       | Some _ => exists err, p.1 = FailedState err
       | None => settled info p.1
       end.
Proof.
  intros m p. split; [apply register_tracks|]. split; [apply register_sets_good|].
  subst p m. unfold register. rewrite final_bind.
  destruct (outside_result (act limitedCache (fun _ => RCheckFlag)) NewRegistrar s) as (-> & -> & _).
  rewrite result_act, final_act. destruct (limitedCache s) as [[] s1]; cbn [fst snd]; [by unfold setState; run|].
  rewrite final_bind.
  destruct (outside_result (act statKvm (fun _ => RStatKvm)) NewRegistrar s1) as (-> & -> & _).
  rewrite result_act, final_act. destruct (statKvm s1) as [[err|] s2]; cbn [fst snd].
  { eexists. by unfold setState; run. }
  rewrite final_bind. set (q := final (register_retry (Datatypes.S fuel) info) (NewRegistrar, s2)).
  assert (Hq : settled info q.1) by (apply register_retry_settles; right; lia).
  destruct q as [st s3]. rewrite final_bind.
  destruct (outside_result (act ZOSAddresses (fun _ => RAddresses)) st s3) as (-> & -> & _).
  destruct (result _ s3); [done|].
  generalize (final (act ZOSAddresses (fun _ => RAddresses)) s3) as s4. intros s4. 
  change (settled info (st, s4).1) in Hq. revert Hq. generalize (st, s4) as q.
  induction evs as [|ev evs IH]; intros q Hq; simpl; [done|].
  rewrite final_bind. apply IH. by apply on_event_settles.
Qed.

(** [NodeID] answers the id exactly when the registration is done; but its reads of the
    state are not atomic, and a registration that completes between them makes it answer id
    0 without an error. *)
Theorem NodeID_answers (st : RegState) :
  (* without interference the id is answered exactly when the state is Done *)
  (NodeID st st st = match rs_State st with
                     | Done => (rs_NodeID st, None)
                     | Failed => (0%Z, Some (Wrapped (rs_Msg st) ErrFailed))
                     | InProgress => (0%Z, Some ErrInProgress)
                     end) /\
  (* a registration that completes between the reads answers id 0 and no error *)
  (forall n t, NodeID InProgressState (DoneState n t) (DoneState n t) = (0%Z, None)) /\
  (forall n t, TwinID InProgressState InProgressState (DoneState n t) = (0%Z, None)).
Proof.
  split; [|done]. unfold NodeID, returnIfDone. by destruct (rs_State st).
Qed.
End theorems.
