(* ===== verification/Auth.v ===== *)
(** * Keys of twins and admins (pkg/provision/auth.go)

    [registrarTwins] answers the public key of a twin from an LRU cache or from
    the registrar; [registrarAdmins] answers only the farmer's key.  The cache is
    an outside component: [CacheLaws] states its documented behaviour.  The first
    part is [base64.StdEncoding.DecodeString] of the Go library. *)

From S2P Require Import Prelude GridTypes Gateway.

(** ** Base64 *)
Definition b64_value (c : Ascii.ascii) : option N :=
  let n := Ascii.N_of_ascii c in
  if ((65 <=? n) && (n <=? 90))%N then Some (n - 65)%N
  else if ((97 <=? n) && (n <=? 122))%N then Some (n - 71)%N
  else if ((48 <=? n) && (n <=? 57))%N then Some (n + 4)%N
  else if (n =? 43)%N then Some 62%N
  else if (n =? 47)%N then Some 63%N
  else None.

Definition b64_pad : Ascii.ascii := Ascii.ascii_of_nat 61.
Definition b64_byte (n : N) : Ascii.ascii := Ascii.ascii_of_N (n mod 256).

(** Quantum by quantum; line breaks are left out first, and nothing may follow
    the padding. *)
Fixpoint b64_quanta (l : list Ascii.ascii) : option (list Ascii.ascii) :=
  match l with
  | [] => Some []
  | a :: b :: c :: d :: l =>
      x ← b64_value a;
      y ← b64_value b;
      let first := b64_byte (x * 4 + y / 16)%N in
      if Ascii.eqb c b64_pad then
        if Ascii.eqb d b64_pad then match l with [] => Some [first] | _ => None end else None
      else
        z ← b64_value c;
        let second := b64_byte ((y mod 16) * 16 + z / 4)%N in
        if Ascii.eqb d b64_pad then match l with [] => Some [first; second] | _ => None end
        else
          w ← b64_value d;
          rest ← b64_quanta l;
          Some (first :: second :: b64_byte ((z mod 4) * 64 + w)%N :: rest)
  | _ => None
  end.

Definition is_line_break (c : Ascii.ascii) : Prop := Ascii.N_of_ascii c = 10%N \/ Ascii.N_of_ascii c = 13%N.
#[export] Instance is_line_break_dec c : Decision (is_line_break c).
Proof. unfold is_line_break. apply _. Defined.

Definition DecodeString (s : string) : res string :=
  match b64_quanta (filter (fun c => ~ is_line_break c) (String.list_ascii_of_string s)) with
  | Some l => Val (String.string_of_list_ascii l)
  | None => Err (Fresh "illegal base64 data")
  end.

Example decode_hello : DecodeString "aGVsbG8=" = Val "hello". Proof. reflexivity. Qed.
Example decode_bad : DecodeString "aGVs=G8=" = Err (Fresh "illegal base64 data"). Proof. reflexivity. Qed.

(** ** Twins *)
Inductive authcall :=
| AuGetTwin (id : Z) (r : res Account)
| AuGetFarm (id : Z).

Class AuthEnv (S : Type) := {
  lruGet : Z -> S -> option string * S;
  lruAdd : Z -> string -> S -> unit * S;
  auGetTwin : Z -> S -> res Account * S;
  auGetFarm : Z -> S -> res Farm * S }.

Section twins.
Context {S : Type} `{!AuthEnv S}.

(** [registrarTwins.GetKey]; the id is a uint32. *)
Definition GetKey (id : Z) : M S authcall (res string) :=
  cached <- peek (lruGet id) ;;
  match cached with
  | Some value => ret (Val value)
  | None =>
      user <- act (auGetTwin (uint64 id)) (AuGetTwin (uint64 id)) ;;
      match user with
      | Err err => ret (Err (Wrapped "could not get user with id" err))
      | Val user =>
          match DecodeString (acc_PublicKey user) with
          | Err err => ret (Err (Wrapped "could decode public key for user with id" err))
          | Val key => peek (lruAdd id key) ;;; ret (Val key)
          end
      end
  end.
End twins.

(** ** Admins *)
Record registrarAdmins := MkAdmins { ad_twin : Z; ad_pk : string }.

Section admins.
Context {S : Type} `{!AuthEnv S}.

Definition NewRegistrarAdmins (farmID : Z) : M S authcall (res registrarAdmins) :=
  farm <- act (auGetFarm farmID) (fun _ => AuGetFarm farmID) ;;
  match farm with
  | Err err => ret (Err (Wrapped "failed to get farm" err))
  | Val farm =>
      twin <- act (auGetTwin (farm_TwinID farm)) (AuGetTwin (farm_TwinID farm)) ;;
      match twin with
      | Err err => ret (Err err)
      | Val twin =>
          match DecodeString (acc_PublicKey twin) with
          | Err err => ret (Err (Wrapped "could decode public key for twin with farm id" err))
          | Val key => ret (Val (MkAdmins (uint32 (farm_TwinID farm)) key))
          end
      end
  end.

Definition admins_GetKey (s : registrarAdmins) (id : Z) : res string :=
  if negb (id =? ad_twin s)%Z then Err (Fresh "twin is not an admin") else Val (ad_pk s).
End admins.

(** ** Whose keys are answered *)
Class CacheView (S : Type) := cached : S -> gmap Z string.

Class CacheLaws {S : Type} `{!AuthEnv S, !CacheView S} : Prop := {
  Get_lookup id s : (lruGet id s).1 = cached s !! id;
  Get_keeps id s : cached (lruGet id s).2 = cached s;
  (* an added key is there; others may be evicted, none is changed *)
  Add_there id k s : cached (lruAdd id k s).2 !! id = Some k;
  Add_others id k s id' k' :
    cached (lruAdd id k s).2 !! id' = Some k' -> id' <> id -> cached s !! id' = Some k';
  GetTwin_keeps id s : cached (auGetTwin id s).2 = cached s }.

Section theorems.
Context {S : Type} `{!AuthEnv S, !CacheView S, !CacheLaws}.
(** The key registered for a twin: accounts do not change their key. *)
Variable registered : Z -> string.
Hypothesis registrar_answers : forall id s user key,
  (auGetTwin (uint64 id) s).1 = Val user -> DecodeString (acc_PublicKey user) = Val key ->
  key = registered id.

Definition cache_sound (s : S) : Prop :=
  forall id k, cached s !! id = Some k -> k = registered id.

(** As long as the cache holds only registered keys, [GetKey] answers only the key
    registered for the twin, keeps the cache that way, and answers the next request for it
    from the cache without asking the registrar. *)
Theorem GetKey_sound id (s : S) :
  cache_sound s ->
  cache_sound (final (GetKey id) s) /\
  match result (GetKey id) s with
  | Val key => key = registered id /\
      (* the next request is served from the cache *)
      result (GetKey id) (final (GetKey id) s) = Val key /\
      calls (GetKey id) (final (GetKey id) s) = []
  | Err _ => exists r, calls (GetKey id) s = [AuGetTwin (uint64 id) r]
  end.
Proof.
  intros Hs. unfold GetKey. run. rewrite Get_lookup.
  destruct (cached s !! id) as [k|] eqn:Hc; run.
  { rewrite !Get_lookup, !Get_keeps, Hc. run.
    split; [|split; [by apply Hs|done]]. intros id' k'. rewrite Get_keeps. apply Hs. }
  destruct (auGetTwin _ _) as [[user|err] s2] eqn:Eu; simpl.
  all: assert (Hs2 : cached s2 = cached s)
    by (replace s2 with (auGetTwin (uint64 id) (lruGet id s).2).2 by (by rewrite Eu);
        by rewrite GetTwin_keeps, Get_keeps).
  2:{ run. split; [|by eexists]. intros id' k'. rewrite Hs2. apply Hs. }
  destruct (DecodeString (acc_PublicKey user)) as [key|err] eqn:Ed; run.
  2:{ split; [|by eexists]. intros id' k'. rewrite Hs2. apply Hs. }
  assert (Hkey : key = registered id).
  { apply (registrar_answers id (lruGet id s).2 user); [by rewrite Eu|done]. }
  split.
  - intros id' k' Hk'. destruct (decide (id' = id)) as [->|Hne].
    + rewrite Add_there in Hk'. congruence.
    + apply Add_others in Hk'; [|done]. rewrite Hs2 in Hk'. by apply Hs.
  - split; [done|]. rewrite !Get_lookup, Add_there. by run.
Qed.

(** The administrators' store answers the key of the farmer's twin and an error for every
    other twin. *)
Theorem admins_only_farmer farmID (s : S) a id :
  result (NewRegistrarAdmins farmID) s = Val a ->
  exists farm user key, (auGetFarm farmID s).1 = Val farm /\
    AuGetTwin (farm_TwinID farm) (Val user) ∈ calls (NewRegistrarAdmins farmID) s /\
    DecodeString (acc_PublicKey user) = Val key /\
    admins_GetKey a id = if decide (id = uint32 (farm_TwinID farm)) then Val key
                         else Err (Fresh "twin is not an admin").
Proof.
  unfold NewRegistrarAdmins. run.
  destruct (auGetFarm farmID s).1 as [farm|err] eqn:Ef; run; [|done].
  destruct (auGetTwin _ _).1 as [user|err] eqn:Eu; run; [|done].
  destruct (DecodeString _) as [key|err] eqn:Ed; run; [|done]. intros [= <-].
  exists farm, user, key. split; [done|]. split; [set_solver|]. split; [done|].
  unfold admins_GetKey. simpl. case_decide as Hd.
  - by rewrite (proj2 (Z.eqb_eq _ _) Hd).
  - by rewrite (proj2 (Z.eqb_neq _ _) Hd).
Qed.
End theorems.
