(* ===== verification/UpdateWorker.v ===== *)
(** * The release worker (tools/zos-update-worker)

    The worker points, for each network, a symbolic link of the destination
    directory at the flist tag of the version the registrar of that network
    names.  The directories' links are outside: [WorkerEnv] and [LinkLaws]. *)

From S2P Require Import Prelude Paths.

Definition MainNetwork : string := "production-v4".
Definition TestNetwork : string := "testing-v4".
Definition QANetwork : string := "qa-v4".

Record Params := MkParams { pa_QAUrl : string; pa_TestUrl : string; pa_MainUrl : string }.

(** A client stands for the registrar it was made for. *)
Record Worker := MkWorker { w_src : string; w_dst : string; w_clients : gmap string string }.

Inductive wcall :=
| WVersion (client : string) (r : res string)
| WLstat (path : string) (r : option error)
| WReadlink (path : string) (r : res string)
| WSymlink (target path : string) (r : option error)
| WRemove (path : string) (r : option error).

Class WorkerEnv (S : Type) := {
  wAbs : string -> S -> res string * S;
  newClient : string -> S -> res string * S;
  wGetZosVersion : string -> S -> res string * S;
  wLstat : string -> S -> option error * S;
  wReadlink : string -> S -> res string * S;
  wSymlink : string -> string -> S -> option error * S;
  wRemove : string -> S -> option error * S;
  wIsNotExist : error -> bool;
  (* the retry policy: whether ten seconds have passed *)
  wStop : S -> bool * S }.

Section worker.
Context `{!RangeMap} {S : Type} `{!WorkerEnv S}.

(** One of the three clients of [NewWorker]. *)
Definition add_client (url net text : string) (clients : gmap string string)
    : M S wcall (res (gmap string string)) :=
  if bool_decide (url = "") then ret (Val clients)
  else
    cli <- peek (newClient url) ;;
    match cli with
    | Err err => ret (Err (Wrapped text err))
    | Val cli => ret (Val (<[net := cli]> clients))
    end.

Definition NewWorker (src dst : string) (params : Params) : M S wcall (res Worker) :=
  src <- peek (wAbs src) ;;
  match src with
  | Err err => ret (Err (Wrapped "failed to get src as abs path" err))
  | Val src =>
      dst <- peek (wAbs dst) ;;
      match dst with
      | Err err => ret (Err (Wrapped "failed to get dst as abs path" err))
      | Val dst =>
          c <- add_client (pa_QAUrl params) QANetwork
                 "failed to create new registrar client for qa net" ∅ ;;
          match c with
          | Err err => ret (Err err)
          | Val c =>
              c <- add_client (pa_TestUrl params) TestNetwork
                     "failed to create new registrar client for test net" c ;;
              match c with
              | Err err => ret (Err err)
              | Val c =>
                  c <- add_client (pa_MainUrl params) MainNetwork
                         "failed to create new registrar client for main net" c ;;
                  match c with
                  | Err err => ret (Err err)
                  | Val c => ret (Val (MkWorker src dst c))
                  end
              end
          end
      end
  end.

Definition checkNetwork (network : string) : option error :=
  if negb (bool_decide (network = MainNetwork)) && negb (bool_decide (network = QANetwork)) &&
     negb (bool_decide (network = TestNetwork))
  then Some (Fresh "invalid network") else None.

Definition updateLink (current latest link : string) : M S wcall (option error) :=
  err <- act (wLstat current) (WLstat current) ;;
  match err with
  | Some err => ret (Some err)
  | None =>
      dst <- act (wReadlink latest) (WReadlink latest) ;;
      match dst with
      | Err err =>
          if wIsNotExist err then act (wSymlink link latest) (WSymlink link latest)
          else ret (Some err)
      | Val dst =>
          if bool_decide (Base dst = Base current) then ret None
          else
            err <- act (wRemove latest) (WRemove latest) ;;
            match err with
            | Some err => ret (Some err)
            | None => act (wSymlink link latest) (WSymlink link latest)
            end
      end
  end.

Definition zosCurrent (w : Worker) (version : string) : string := w_src w +:+ "/.tag-" +:+ version.
Definition zosLatest (w : Worker) (network : string) : string := w_dst w +:+ "/" +:+ network.
Definition zosLink (w : Worker) (version : string) : string :=
  Rel (w_dst w) (w_src w) +:+ "/.tag-" +:+ version.

(** [filepath.Rel] of two absolute paths does not fail. *)
Definition updateZosVersion (w : Worker) (network client : string) : M S wcall (option error) :=
  match checkNetwork network with
  | Some err => ret (Some err)
  | None =>
      regVersion <- act (wGetZosVersion client) (WVersion client) ;;
      match regVersion with
      | Err err => ret (Some err)
      | Val version => updateLink (zosCurrent w version) (zosLatest w network) (zosLink w version)
      end
  end.

(** [n] ticks of [UpdateWithInterval]; at most [k] retries fit into the ten
    seconds of one update. *)
Fixpoint UpdateWithInterval (w : Worker) (k n : nat) : M S wcall unit :=
  match n with
  | 0 => ret tt
  | Datatypes.S n =>
      for_each (fun '(network, client) => retry wStop k (updateZosVersion w network client))
        (range_map (w_clients w)) ;;;
      UpdateWithInterval w k n
  end.
End worker.

(** ** Where the links lead *)
Class LinkView (S : Type) := links : S -> gmap string string.

Class LinkLaws {S : Type} `{!WorkerEnv S, !LinkView S} : Prop := {
  Lstat_keeps p s : links (wLstat p s).2 = links s;
  Readlink_keeps p s : links (wReadlink p s).2 = links s;
  Readlink_val p s t : (wReadlink p s).1 = Val t -> links s !! p = Some t;
  Symlink_spec t p s : links (wSymlink t p s).2 =
    match (wSymlink t p s).1 with None => <[p := t]> (links s) | Some _ => links s end;
  Remove_link p s : links (wRemove p s).2 =
    match (wRemove p s).1 with None => delete p (links s) | Some _ => links s end;
  Version_keeps c s : links (wGetZosVersion c s).2 = links s }.

Section theorems.
Context {S : Type} `{!WorkerEnv S, !LinkView S, !LinkLaws}.

Lemma updateLink_spec current latest link (s : S) :
  let m := updateLink current latest link in
  let s' := final m s in
  match result m s with
  | None => links s' = <[latest := link]> (links s) \/ links s' = <[latest := link]> (delete latest (links s)) \/
      (links s' = links s /\ exists t, links s !! latest = Some t /\ Base t = Base current)
  | Some _ => links s' = links s \/
      (WRemove latest None ∈ calls m s /\ links s' = delete latest (links s))
  end /\
  (forall e, WLstat current (Some e) ∈ calls m s -> result m s = Some e /\ links s' = links s).
Proof.
  intros m s'. subst m s'. unfold updateLink.
  pose proof (Lstat_keeps current s) as Hl. run.
  destruct (wLstat current s) as [[err|] s1]; simpl in *; run.
  { split; [by left|]. intros e He. set_solver. }
  pose proof (Readlink_keeps latest s1) as Hr. pose proof (Readlink_val latest s1) as Hv.
  destruct (wReadlink latest s1) as [[t|err] s2]; simpl in *; run.
  - specialize (Hv t eq_refl). case_bool_decide as Hb; run.
    { split; [|set_solver]. right; right. split; [congruence|]. exists t. split; [congruence|done]. }
    pose proof (Remove_link latest s2) as Hrm.
    destruct (wRemove latest s2) as [[err|] s3]; simpl in *; run.
    { split; [left; congruence|set_solver]. }
    rewrite Symlink_spec. destruct (wSymlink link latest s3).1 as [err|].
    + split; [|set_solver]. right. split; [set_solver|congruence].
    + split; [|set_solver]. right; left. congruence.
  - destruct (wIsNotExist err); run; [|split; [left; congruence|set_solver]].
    rewrite Symlink_spec. destruct (wSymlink link latest s2).1.
    + split; [left; congruence|set_solver].
    + split; [left; congruence|set_solver].
Qed.

Lemma tag_no_slash version : no_slash version -> no_slash (".tag-" +:+ version).
Proof. intros Hv. by do 5 (apply no_slash_cons; [done|]). Qed.
Lemma tag_plain version : plain (".tag-" +:+ version).
Proof. by repeat split. Qed.

Lemma tag_path dir version : dir +:+ "/.tag-" +:+ version = dir +:+ "/" +:+ (".tag-" +:+ version).
Proof. done. Qed.

(** A successful update of a network's version leaves its link leading to the version's
    directory, a failed one leaves the link as it was or missing, and no other link changes. *)
Theorem updateZosVersion_links w network client version (s : S) :
  let m := updateZosVersion w network client in
  let s' := final m s in
  checkNetwork network = None -> (wGetZosVersion client s).1 = Val version ->
  no_slash version ->
  match result m s with
  | None => exists t, links s' !! zosLatest w network = Some t /\
      (Base t = Base (zosCurrent w version) \/
       (* followed from the destination directory, the link leads to the tag *)
       elements_of (w_dst w +:+ "/" +:+ t) = elements_of (zosCurrent w version))
  | Some _ => links s' = links s \/ links s' = delete (zosLatest w network) (links s)
  end /\
  forall k, k <> zosLatest w network -> links s' !! k = links s !! k.
Proof.
  intros m s' Hnet Hver Hns. subst m s'. unfold updateZosVersion. rewrite Hnet.
  rewrite result_bind, final_bind, result_act, final_act, Hver.
  pose proof (Version_keeps client s) as Hk. set (s1 := (wGetZosVersion client s).2) in *.
  destruct (updateLink_spec (zosCurrent w version) (zosLatest w network) (zosLink w version) s1)
    as [Hu _].
  assert (Hlink : elements_of (w_dst w +:+ "/" +:+ zosLink w version) =
                  elements_of (zosCurrent w version)).
  { unfold zosLink, zosCurrent. rewrite !tag_path.
    apply Rel_link_resolves; [apply tag_plain|by apply tag_no_slash]. }
  destruct (result (updateLink _ _ _) s1).
  - destruct Hu as [Hu|[_ Hu]]; rewrite Hu, Hk.
    + split; [by left|done].
    + split; [by right|]. intros k Hne. by rewrite lookup_delete_ne.
  - destruct Hu as [Hu|[Hu|[Hu (t & Ht & Hb)]]]; rewrite Hu, Hk.
    + split; [|intros k Hne; by rewrite lookup_insert_ne].
      eexists. rewrite lookup_insert_eq. split; [done|]. by right.
    + split; [|intros k Hne; by rewrite lookup_insert_ne, lookup_delete_ne].
      eexists. rewrite lookup_insert_eq. split; [done|]. by right.
    + split; [|done]. exists t. split; [congruence|]. by left.
Qed.
End theorems.
