(* ===== verification/Identity.v ===== *)
(** * The identity of the node (pkg/identity, cmds/identityd/ssh.go)

    [NewManager] loads or creates the key pair of the node; [Farm] asks the
    registrar for the farm's name once; [manageSSHKeys] fetches the keys of the
    users that may log in.  Key store, cryptography, configuration and network
    are outside. *)

From S2P Require Import Prelude Paths GridTypes Gateway.

Record KeyPair := MkKeyPair { PrivateKey_ : string; PublicKey_ : string }.

Inductive runmode := RunningDev | RunningQA | RunningTest | RunningMain.
#[export] Instance runmode_eq_dec : EqDecision runmode.
Proof. solve_decision. Defined.

(** [environment.Environment], as far as it is read. *)
Record Environment := MkEnvironment {
  en_FarmID : Z; en_FarmSecret : string; en_RegistrarURL : string; en_RunningMode : runmode }.

Definition ErrKeyDoesNotExist_id : string := "store.ErrKeyDoesNotExist".

Inductive icall :=
| IStoreGet
| IStoreSet (k : string) (r : option error)
| IAnnihilate
| IGenerate (r : res KeyPair)
| IGetFarm (id : Z)
| ISshRemove (r : option error)
| ISshOpen (r : option error)
| IFetch (user : string)
| ICopyKeys (user body : string) (r : option error).

Class IdentityEnv (S : Type) := {
  newStore : string -> bool -> S -> option error * S;
  storeKind : S -> string * S;
  storeGet : S -> res string * S;
  storeSet : string -> S -> option error * S;
  storeAnnihilate : S -> option error * S;
  GenerateKeyPair : S -> res KeyPair * S;
  KeyPairFromKey : string -> KeyPair;
  KeyIdentity : KeyPair -> string;
  environmentGet : S -> res Environment * S;
  registrarURL : string -> res string;  (* url.JoinPath(_, "api", "v1") *)
  idNewClient : string -> S -> option error * S;
  idGetFarm : Z -> S -> (Farm * option error) * S;
  cryptoSign : string -> string -> res string;
  cryptoVerify : string -> string -> string -> option error;
  cryptoEncrypt : string -> string -> res string;
  cryptoDecrypt : string -> string -> res string;
  cryptoEncryptECDH : string -> string -> string -> res string;
  cryptoDecryptECDH : string -> string -> string -> res string }.

Record identityManager := MkManager {
  im_kind : string; im_key : KeyPair; im_env : Environment; im_farm : string }.

Section identity.
Context {S : Type} `{!IdentityEnv S}.

(** The key pair of [NewManager]. *)
Definition load_key : M S icall (res KeyPair) :=
  key <- act storeGet (fun _ => IStoreGet) ;;
  match key with
  | Val key => ret (Val (KeyPairFromKey key))
  | Err err =>
      if errors_Is err ErrKeyDoesNotExist_id then
        kp <- act GenerateKeyPair IGenerate ;;
        match kp with
        | Err err => ret (Err (Wrapped "failed to generate key pair" err))
        | Val kp =>
            err <- act (storeSet (PrivateKey_ kp)) (IStoreSet (PrivateKey_ kp)) ;;
            match err with
            | Some err => ret (Err (Wrapped "failed to persist key seed" err))
            | None => ret (Val kp)
            end
        end
      else
        act storeAnnihilate (fun _ => IAnnihilate) ;;;
        ret (Err (Wrapped "failed to load seed" err))
  end.

Definition NewManager (root : string) (debug : bool) : M S icall (res identityManager) :=
  err <- peek (newStore root (negb debug)) ;;
  match err with
  | Some err => ret (Err (Wrapped "failed to create key store" err))
  | None =>
      kp <- load_key ;;
      match kp with
      | Err err => ret (Err err)
      | Val kp =>
          env <- peek environmentGet ;;
          match env with
          | Err err => ret (Err err)
          | Val env => kind <- peek storeKind ;; ret (Val (MkManager kind kp env ""))
          end
      end
  end.

Definition StoreKind (d : identityManager) : string := im_kind d.
Definition NodeID (d : identityManager) : string := KeyIdentity (im_key d).

(** The answer and the manager, whose [farm] field is assigned.  [MustGet] of
    the environment is [env]. *)
Definition Farm (env : Environment) (d : identityManager)
    : M S icall ((string * option error) * identityManager) :=
  if negb (bool_decide (im_farm d = "")) then ret ((im_farm d, None), d)
  else
    match registrarURL (en_RegistrarURL env) with
    | Err err => ret (("", Some err), d)
    | Val url =>
        err <- peek (idNewClient url) ;;
        match err with
        | Some err => ret (("", Some err), d)
        | None =>
            '(farm, err) <- act (idGetFarm (uint64 (en_FarmID env)))
                              (fun _ => IGetFarm (uint64 (en_FarmID env))) ;;
            ret ((farm_Name farm, err), MkManager (im_kind d) (im_key d) (im_env d) (farm_Name farm))
        end
    end.

Definition FarmID (d : identityManager) : Z := en_FarmID (im_env d).
Definition FarmSecret (d : identityManager) : string := en_FarmSecret (im_env d).
Definition Sign (d : identityManager) (message : string) : res string :=
  cryptoSign (PrivateKey_ (im_key d)) message.
Definition Verify (d : identityManager) (message sig : string) : option error :=
  cryptoVerify (PublicKey_ (im_key d)) message sig.
Definition Encrypt (d : identityManager) (message : string) : res string :=
  cryptoEncrypt message (PublicKey_ (im_key d)).
Definition Decrypt (d : identityManager) (message : string) : res string :=
  cryptoDecrypt message (PrivateKey_ (im_key d)).
Definition EncryptECDH (d : identityManager) (msg pk : string) : res string :=
  cryptoEncryptECDH msg (PrivateKey_ (im_key d)) pk.
Definition DecryptECDH (d : identityManager) (msg pk : string) : res string :=
  cryptoDecryptECDH msg (PrivateKey_ (im_key d)) pk.
Definition PrivateKey (d : identityManager) : string := PrivateKey_ (im_key d).
End identity.

(** ** Login keys (ssh.go) *)
Class SshEnv (S : Type) := {
  sshUser : string * bool;  (* kernel.GetParams().GetOne("ssh-user") *)
  sshEnvironment : Environment;
  sshRemove : string -> S -> option error * S;
  sshIsNotExist : error -> bool;
  authorizedUsers : S -> res (list string) * S;  (* GetConfig().Users.Authorized *)
  authorizedTest : S -> res (list string) * S;  (* GetConfigForMode(RunningTest) *)
  sshOpen : string -> S -> option error * S;
  (* http.Get of the user's keys: status and body *)
  httpGet : string -> S -> res (Z * string) * S;
  copyKeys : string -> S -> option error * S }.

Definition mainNetFarms : list Z := [1; 79; 77; 76; 3997]%Z.

Section ssh.
Context {S : Type} `{!SshEnv S}.

(** What [backoff.Retry] makes of an attempt: done, give up, or try again. *)
Inductive fetched := FetchOk | FetchPermanent | FetchRetry.

Definition fetchKey (user : string) : M S icall fetched :=
  res <- act (httpGet user) (fun _ => IFetch user) ;;
  match res with
  | Err _ => ret FetchRetry
  | Val (status, body) =>
      if (status =? 404)%Z then ret FetchPermanent
      else if negb (status =? 200)%Z then ret FetchRetry
      else
        err <- act (copyKeys body) (ICopyKeys user body) ;;
        ret (match err with None => FetchOk | Some _ => FetchRetry end)
  end.

Fixpoint fetch_retry (n : nat) (user : string) : M S icall unit :=
  r <- fetchKey user ;;
  match r with
  | FetchOk | FetchPermanent => ret tt
  | FetchRetry => match n with 0 => ret tt | Datatypes.S n => fetch_retry n user end
  end.

(** The users whose keys are fetched. *)
Definition select_users : M S icall (res (list string)) :=
  let '(extraUser, addUser) := sshUser in
  let env := sshEnvironment in
  config <- peek authorizedUsers ;;
  match config with
  | Err err => ret (Err err)
  | Val users =>
      let addUser := if bool_decide (en_RunningMode env = RunningMain) then false else addUser in
      r <- (if bool_decide (en_RunningMode env = RunningMain) &&
               bool_decide (en_FarmID env ∈ mainNetFarms) && bool_decide (users = [])
            then peek authorizedTest else ret (Val users)) ;;
      match r with
      | Err err => ret (Err err)
      | Val users => ret (Val (if (addUser : bool) then users ++ [extraUser] else users))
      end
  end.

Definition manageSSHKeys : M S icall (option error) :=
  let authorizedKeysPath := Join ["/"; "root"; ".ssh"; "authorized_keys"] in
  err <- act (sshRemove authorizedKeysPath) ISshRemove ;;
  match (match err with Some err => if sshIsNotExist err then None else Some err | None => None end) with
  | Some err => ret (Some (Wrapped "failed to deleted authorized_keys file" err))
  | None =>
      users <- select_users ;;
      match users with
      | Err err => ret (Some err)
      | Val users =>
          err <- act (sshOpen authorizedKeysPath) ISshOpen ;;
          match err with
          | Some err => ret (Some (Wrapped "failed to open authorized_keys files" err))
          | None => for_each (fetch_retry 3) users ;;; ret None
          end
      end
  end.
End ssh.

(** ** The key of the node is stable *)
Class StoreView (S : Type) := stored : S -> option string.

Class StoreLaws {S : Type} `{!IdentityEnv S, !StoreView S} : Prop := {
  storeGet_val s k : (storeGet s).1 = Val k -> stored s = Some k;
  storeGet_none s err : (storeGet s).1 = Err err -> errors_Is err ErrKeyDoesNotExist_id = true ->
    stored s = None;
  storeGet_keeps s : stored (storeGet s).2 = stored s;
  storeSet_spec k s : stored (storeSet k s).2 =
    match (storeSet k s).1 with None => Some k | Some _ => stored s end;
  newStore_keeps r b s : stored (newStore r b s).2 = stored s;
  generate_keeps s : stored (GenerateKeyPair s).2 = stored s;
  generate_pair s kp : (GenerateKeyPair s).1 = Val kp -> KeyPairFromKey (PrivateKey_ kp) = kp;
  environment_keeps s : stored (environmentGet s).2 = stored s;
  storeKind_keeps s : stored (storeKind s).2 = stored s }.

Section theorems.
Context {S : Type} `{!IdentityEnv S, !StoreView S, !StoreLaws}.

Lemma NewManager_key root debug (s : S) m :
  result (NewManager root debug) s = Val m ->
  exists k, stored (final (NewManager root debug) s) = Some k /\ im_key m = KeyPairFromKey k /\
    (forall k', stored s = Some k' -> k = k').
Proof.
  unfold NewManager, load_key. run.
  pose proof (newStore_keeps root (negb debug) s) as Hn.
  destruct (newStore root (negb debug) s) as [[err|] s1]; simpl in *; run; [done|].
  pose proof (storeGet_val s1) as Hv. pose proof (storeGet_none s1) as Hno.
  pose proof (storeGet_keeps s1) as Hk.
  destruct (storeGet s1) as [[k|err] s2]; simpl in *; run.
  - destruct (environmentGet s2) as [[env|err] s3] eqn:Ee; simpl; run; [|done].
    intros [= <-]. exists k. rewrite storeKind_keeps.
    pose proof (environment_keeps s2) as Hen. rewrite Ee in Hen. simpl in Hen.
    rewrite Hen, Hk, (Hv k eq_refl). split; [done|]. split; [done|].
    intros k' Hk'. rewrite <- Hn, (Hv k eq_refl) in Hk'. congruence.
  - destruct (errors_Is err _) eqn:Hi; run; [|done]. specialize (Hno err eq_refl Hi).
    pose proof (generate_keeps s2) as Hg. pose proof (generate_pair s2) as Hp.
    destruct (GenerateKeyPair s2) as [[kp|err'] s3]; simpl in *; run; [|done].
    pose proof (storeSet_spec (PrivateKey_ kp) s3) as Hs.
    destruct (storeSet _ s3) as [[err'|] s4]; simpl in *; run; [done|].
    destruct (environmentGet s4) as [[env|err'] s5] eqn:Ee; simpl; run; [|done].
    intros [= <-]. exists (PrivateKey_ kp). rewrite storeKind_keeps.
    pose proof (environment_keeps s4) as Hen. rewrite Ee in Hen. simpl in Hen.
    rewrite Hen, Hs. split; [done|]. split; [by rewrite (Hp kp)|].
    intros k' Hk'. congruence.
Qed.

(** The identity of the node survives a restart: a second [NewManager] on the storage the
    first one left has the same key and the same node id, and a key that was already stored
    is the one used. *)
Theorem NewManager_stable root debug root' debug' (s : S) m m' :
  result (NewManager root debug) s = Val m ->
  result (NewManager root' debug') (final (NewManager root debug) s) = Val m' ->
  NodeID m' = NodeID m /\ PrivateKey m' = PrivateKey m /\
  (forall k, stored s = Some k -> im_key m = KeyPairFromKey k).
Proof.
  intros H1 H2. apply NewManager_key in H1 as (k & Hs & Hk & Hold).
  apply NewManager_key in H2 as (k' & _ & Hk' & Hold').
  specialize (Hold' k Hs). subst k'. unfold NodeID, PrivateKey.
  rewrite Hk, Hk'. split; [done|]. split; [done|]. intros k0 Hk0. by rewrite <- (Hold k0 Hk0).
Qed.

(** A farm name that was found is answered from the daemon's cache ever after. *)
Theorem Farm_cached env env' d (s s' : S) name d' :
  result (Farm env d) s = ((name, None), d') -> name <> "" ->
  result (Farm env' d') s' = ((name, None), d') /\ calls (Farm env' d') s' = [].
Proof.
  intros Hf Hne. assert (Hd : im_farm d' = name).
  { revert Hf. unfold Farm. case_bool_decide; simpl; [|by run; intros [= <- <-]].
    destruct (registrarURL _); [|by run]. run. destruct (idNewClient _ s).1; run; [done|].
    destruct (idGetFarm _ _).1 as [f err]. run. by intros [= <- -> <-]. }
  unfold Farm. rewrite Hd, bool_decide_eq_false_2 by done. simpl. by run.
Qed.
End theorems.

Section ssh_theorems.
Context {S : Type} `{!SshEnv S}.

Definition asked (l : list icall) : list string :=
  omap (fun c => match c with IFetch u => Some u | _ => None end) l.

Lemma fetch_retry_asked n user (s : S) :
  exists k, asked (calls (fetch_retry n user) s) = replicate k user /\ 1 <= k <= n + 1.
Proof.
  assert (Hf : forall s, asked (calls (fetchKey user) s) = [user]).
  { intros s'. unfold fetchKey. run. destruct (httpGet user s').1 as [[status body]|]; run; [|done].
    destruct (_ =? 404)%Z; run; [done|]. destruct (_ =? 200)%Z; simpl; run; done. }
  revert s. induction n as [|n IH]; intros s; cbn [fetch_retry]; rewrite calls_bind;
    unfold asked; rewrite omap_app; fold (asked (calls (fetchKey user) s)); rewrite Hf.
  - exists 1. destruct (result (fetchKey user) s); run; split; done || lia.
  - destruct (result (fetchKey user) s); [exists 1; run; split; [done|lia]..|].
    destruct (IH (final (fetchKey user) s)) as (k & Hk & Hb). unfold asked in Hk. rewrite Hk.
    exists (Datatypes.S k). split; [done|lia].
Qed.

Lemma fetch_all_asked users (s : S) :
  exists ks : list (nat * string), map snd ks = users /\
    Forall (fun ku => 1 <= ku.1 <= 4) ks /\
    asked (calls (for_each (fetch_retry 3) users) s) = ks ≫= (fun ku => replicate ku.1 ku.2).
Proof.
  revert s. induction users as [|u users IH]; intros s; cbn [for_each].
  { exists []. by run. }
  rewrite calls_bind. unfold asked. rewrite omap_app.
  destruct (fetch_retry_asked 3 u s) as (k & Hk & Hb). unfold asked in Hk. rewrite Hk.
  destruct (IH (final (fetch_retry 3 u) s)) as (ks & Hu & Hks & Ha).
  exists ((k, u) :: ks). split; [simpl; by rewrite Hu|]. split; [by constructor|].
  cbn [mbind list_bind]. rewrite <- Ha. reflexivity.
Qed.

(** The users whose keys are fetched are the configured ones (those of the test network on a
    managed farm without any) and the user of the kernel parameter except on the main net;
    each is asked one to four times. *)
Theorem manageSSHKeys_users (s : S) :
  result manageSSHKeys s = None ->
  exists listed users (ks : list (nat * string)),
    (exists s', (authorizedUsers s').1 = Val listed) /\
    (* the configured users, or those of the test network on a managed farm
       without any; the user of the kernel parameter except on main net *)
    ((users = listed \/
      (en_RunningMode sshEnvironment = RunningMain /\ en_FarmID sshEnvironment ∈ mainNetFarms /\
       listed = [] /\ exists s', (authorizedTest s').1 = Val users)) /\
     map snd ks = users ++ (if decide (en_RunningMode sshEnvironment <> RunningMain /\ sshUser.2 = true)
                            then [sshUser.1] else [])) /\
    Forall (fun ku => 1 <= ku.1 <= 4) ks /\
    asked (calls manageSSHKeys s) = ks ≫= (fun ku => replicate ku.1 ku.2).
Proof.
  unfold manageSSHKeys. rewrite result_bind, calls_bind, calls_act, final_act.
  destruct (match result _ s with Some _ => _ | None => _ end) eqn:Er; [by run|].
  set (s1 := (sshRemove _ s).2). rewrite result_bind, calls_bind.
  assert (Hsel : match result select_users s1 with
    | Val us => exists listed users, (exists s', (authorizedUsers s').1 = Val listed) /\
        (users = listed \/ (en_RunningMode sshEnvironment = RunningMain /\
           en_FarmID sshEnvironment ∈ mainNetFarms /\
           listed = [] /\ exists s', (authorizedTest s').1 = Val users)) /\
        us = users ++ (if decide (en_RunningMode sshEnvironment <> RunningMain /\ sshUser.2 = true)
                       then [sshUser.1] else [])
    | Err _ => True end /\ calls select_users s1 = []).
  { unfold select_users. destruct sshUser as [extra add]. run.
    destruct (authorizedUsers s1).1 as [listed|err] eqn:Ea; run; [|done].
    case_bool_decide as Hm; simpl.
    - rewrite decide_False by (simpl; intuition congruence).
      case_bool_decide as Hf; simpl; [case_bool_decide as Hl; simpl|]; run.
      + destruct (authorizedTest _).1 as [us|] eqn:Et; run; [|done]. split; [|done].
        exists listed, us. rewrite app_nil_r. eauto 10.
      + split; [|done]. exists listed, listed. rewrite app_nil_r. eauto 10.
      + split; [|done]. exists listed, listed. rewrite app_nil_r. eauto 10.
    - run. split; [|done]. exists listed, listed.
      destruct add; [rewrite decide_True by done|rewrite decide_False by (simpl; intuition congruence); rewrite app_nil_r];
        eauto 10. }
  destruct Hsel as [Hsel Hnil]. rewrite Hnil.
  destruct (result select_users s1) as [us|err]; [|by run].
  destruct Hsel as (listed & users & Hl & Hu & ->).
  rewrite result_bind, calls_bind, result_act, calls_act, final_act.
  destruct (sshOpen _ _).1; [by run|]. intros _.
  rewrite calls_bind, calls_ret, app_nil_r.
  destruct (fetch_all_asked (users ++ (if decide (en_RunningMode sshEnvironment <> RunningMain /\
    sshUser.2 = true) then [sshUser.1] else [])) (sshOpen (Join ["/"; "root"; ".ssh"; "authorized_keys"])
    (final select_users s1)).2) as (ks & Hks & Hf & Ha).
  exists listed, users, ks. split; [done|]. split; [done|]. split; [done|]. exact Ha.
Qed.
End ssh_theorems.
