(* ===== verification/EventsEngine.v ===== *)
(** * The event handler over the engine

    The provision daemon gives [NewContractEventHandler] the engine itself, so the
    handler's [Deprovision], [Pause] and [Resume] are the engine's requests that
    queue jobs, and the worker of the same engine handles those jobs.  Here the
    interface of [Events] is implemented by the operations of [Engine], and a
    synchronisation is followed through the queue to the storage. *)

From S2P Require Import Prelude GridTypes Sorting StartupOrder Engine Events.
From S2P Require Import EngineLaws EngineWorkloads EngineDeployments EngineWorker.

(** What the handler reads besides the engine: the capacity of the engine's
    storage, the contracts of the registrar gateway and the streams of events. *)
Class EventSources (S : Type) := {
  esCapacity : S -> res (list Deployment) * S;
  esNodeContracts : Z -> S -> res (list Z) * S;
  esGetContract : Z -> S -> (Contract * SubstrateError) * S;
  esContractCancelled : S -> option error * S;
  esContractLocked : S -> option error * S }.

(** [NewContractEventHandler(nodeID, registrarGateway, engine, consumer)]. *)
Definition handler_of_engine {S} `{!GridTypes, !EngineEnv S, !EventSources S} : EventsEnv S := {|
  evCapacity := esCapacity;
  evNodeContracts := esNodeContracts;
  evGetContract := esGetContract;
  evDeprovision twin contract reason s := (Deprovision twin contract reason s).1;
  evPause twin contract s := (Pause twin contract s).1;
  evResume twin contract s := (Resume twin contract s).1;
  evContractCancelled := esContractCancelled;
  evContractLocked := esContractLocked |}.
#[export] Existing Instance handler_of_engine.

(** The deployments the engine's storage holds, and what the operations of the
    handler do to them and to the queue. *)
Class StoredView (S : Type) := stored : S -> gmap (Z * Z) Deployment.

Class HandlerLaws {S} `{!EngineEnv S, !EngineView S, !EventSources S, !StoredView S} : Prop := {
  stored_get twin id s d : (stGet twin id s).1 = Val d -> stored s !! (twin, id) = Some d;
  stored_Get twin id : keeps stored (stGet twin id);
  stored_Enqueue j : keeps stored (qEnqueue j);
  stored_Capacity : keeps stored esCapacity;
  stored_NodeContracts node : keeps stored (esNodeContracts node);
  stored_GetContract id : keeps stored (esGetContract id);
  jobs_Capacity : keeps jobs esCapacity;
  jobs_NodeContracts node : keeps jobs (esNodeContracts node);
  jobs_esGetContract id : keeps jobs (esGetContract id) }.

Section composed.
Context `{!GridTypes, !SortSlice, !RangeMap, !RangeMapLaws} {S : Type}.
Context `{!EngineEnv S, !EngineView S, !EngineLaws, !EventSources S, !StoredView S, !HandlerLaws}.

(** The storage answers what it holds, and the queue takes every job. *)
Definition storage_serves : Prop := forall s twin id d,
  stored s !! (twin, id) = Some d -> (stGet twin id s).1 = Val d.
Definition queue_accepts : Prop := forall j s, (qEnqueue j s).1 = None.

Definition not_on_chain : string := "contract not active on chain".

(** The job a removed contract owes to the stored deployments. *)
Definition removal (m : gmap (Z * Z) Deployment) (p : Z * Deployment) : option engineJob :=
  (fun d => MkJob opDeprovision d None not_on_chain) <$> m !! (TwinID p.2, p.1).

(** A job that follows the grace period of a contract of the chain. *)
Definition lock_job (onchain : list Z) (dls : list Deployment) (m : gmap (Z * Z) Deployment)
    (j : engineJob) : Prop :=
  exists contract dl, contract ∈ onchain /\ by_contract dls !! contract = Some dl /\
    m !! (TwinID dl, contract) = Some (jTarget j) /\
    jOp j = if isLocked dl then opResume else opPause.

Section requests.
Hypothesis Hserve : storage_serves.
Hypothesis Haccept : queue_accepts.

(** One request: the job of the stored deployment, if there is one, is queued. *)
Lemma schedule_state twin id op message (s : S) :
  let s' := (schedule twin id op message s).1.2 in
  stored s' = stored s /\
  jobs s' = jobs s ++ match stored s !! (twin, id) with
                      | Some d => [MkJob op d None message] | None => [] end.
Proof.
  simpl. change (schedule twin id op message s).1.2 with (final (schedule twin id op message) s).
  unfold schedule, StorageGet, Enqueue. rewrite final_bind, result_act, final_act.
  destruct (stGet twin id s).1 as [d|err] eqn:Eg.
  - rewrite final_act, stored_Enqueue, stored_Get, jobs_Enqueue, Haccept, jobs_Get.
    by rewrite (stored_get _ _ _ _ Eg).
  - rewrite final_ret, stored_Get, jobs_Get. split; [done|].
    destruct (stored s !! _) as [d|] eqn:Es; [|by rewrite app_nil_r].
    by rewrite (Hserve _ _ _ _ Es) in Eg.
Qed.

Lemma deprovision_one_state p (s : S) :
  let s' := final (deprovision_one p) s in
  stored s' = stored s /\ jobs s' = jobs s ++ match removal (stored s) p with Some j => [j] | None => [] end.
Proof.
  destruct p as [c dl]. unfold deprovision_one, removal. simpl. run.
  destruct (schedule_state (TwinID dl) c opDeprovision not_on_chain s) as [Hs Hj].
  split; [exact Hs|]. unfold Deprovision. etrans; [exact Hj|].
  by destruct (stored s !! _).
Qed.

Lemma deprovision_all_state l (s : S) :
  let s' := final (for_each deprovision_one l) s in
  stored s' = stored s /\ jobs s' = jobs s ++ omap (removal (stored s)) l.
Proof.
  revert s. induction l as [|p l IH]; intros s; cbn [for_each].
  { rewrite final_ret. by rewrite app_nil_r. }
  rewrite final_bind. destruct (deprovision_one_state p s) as [Hs Hj].
  destruct (IH (final (deprovision_one p) s)) as [Hs' Hj'].
  rewrite Hs', Hj', Hj, Hs. split; [done|]. rewrite <- app_assoc. f_equal.
  simpl. by destruct (removal (stored s) p).
Qed.

Lemma sync_one_state id dl (s : S) : ContractID dl = id ->
  let s' := final (sync_one (id, dl)) s in
  stored s' = stored s /\ exists js, jobs s' = jobs s ++ js /\
    Forall (fun j => stored s !! (TwinID dl, id) = Some (jTarget j) /\
                     jOp j = if isLocked dl then opResume else opPause) js.
Proof.
  intros <-. unfold sync_one. cbv zeta. rewrite final_bind, result_act, final_act.
  cbn [evGetContract handler_of_engine].
  set (s1 := (esGetContract (ContractID dl) s).2).
  assert (Hs1 : stored s1 = stored s /\ jobs s1 = jobs s)
    by (unfold s1; by rewrite stored_GetContract, jobs_esGetContract).
  destruct Hs1 as [Hs1 Hj1]. clearbody s1.
  destruct (esGetContract _ _).1 as [contract err]. destruct (se_IsError err).
  { rewrite final_ret, Hs1, Hj1. split; [done|]. exists []. by rewrite app_nil_r. }
  case_bool_decide as Hl.
  { rewrite final_ret, Hs1, Hj1. split; [done|]. exists []. by rewrite app_nil_r. }
  unfold set_locked. rewrite final_bind, final_ret.
  assert (Hop : (if IsGracePeriod contract then opPause else opResume) =
                if isLocked dl then opResume else opPause)
    by (destruct (IsGracePeriod contract), (isLocked dl); done).
  destruct (schedule_state (TwinID dl) (ContractID dl)
    (if IsGracePeriod contract then opPause else opResume) "" s1) as [Hs Hj].
  destruct (IsGracePeriod contract); rewrite final_act; cbn [evPause evResume handler_of_engine];
    unfold Pause, Resume; rewrite Hs, Hj, Hs1, Hj1; (split; [done|]);
    (eexists; split; [done|]);
    destruct (stored s !! _); repeat constructor; done.
Qed.

Lemma sync_all_state l (s : S) :
  Forall (fun p => ContractID p.2 = p.1) l ->
  let s' := final (for_each sync_one l) s in
  exists js, jobs s' = jobs s ++ js /\ stored s' = stored s /\
    Forall (fun j => exists p, p ∈ l /\ stored s !! (TwinID p.2, p.1) = Some (jTarget j) /\
                     jOp j = if isLocked p.2 then opResume else opPause) js.
Proof.
  intros Hl. revert s. induction Hl as [|[id dl] l Hid Hl IH]; intros s; cbn [for_each].
  { rewrite final_ret. exists []. by rewrite app_nil_r. }
  rewrite final_bind. destruct (sync_one_state id dl s Hid) as [Hs (js & Hj & Hjs)].
  destruct (IH (final (sync_one (id, dl)) s)) as (js' & Hj' & Hs' & Hjs').
  exists (js ++ js'). rewrite Hj', Hj, app_assoc, Hs', Hs. split_and!; [done..|].
  apply Forall_app. split; (eapply Forall_impl; [eassumption|]).
  - intros j Hjj. exists (id, dl). split; [left|done].
  - intros j (p & Hp & Hjj). exists p. split; [by right|]. by rewrite Hs in Hjj.
Qed.

(** The deployments a synchronisation gives up and those it keeps. *)
Lemma move_running_absent onchain dls active' running' :
  move_running onchain (by_contract dls) ∅ = (active', running') ->
  active' = filter (fun p => p.1 ∉ onchain) (by_contract dls) /\
  running' = filter (fun p => p.1 ∈ onchain) (by_contract dls).
Proof.
  intros Hm. pose proof (move_running_sync onchain dls) as Hk. rewrite Hm in Hk.
  split; apply map_eq; intros k; destruct (Hk k) as [Ha Hr].
  - rewrite Ha, map_lookup_filter. destruct (by_contract dls !! k); simpl;
      repeat (case_decide || case_guard); simpl in *; by try contradiction.
  - apply option_eq. intros d. rewrite Hr, map_lookup_filter_Some. tauto.
Qed.

Lemma sync_queue node dls onchain (s : S) :
  (esCapacity s).1 = Val dls ->
  (esNodeContracts (uint32 node) (esCapacity s).2).1 = Val onchain ->
  exists removals locks,
    jobs (final (sync node) s) = jobs s ++ removals ++ locks /\
    removals ≡ₚ omap (removal (stored s))
                  (map_to_list (filter (fun p => p.1 ∉ onchain) (by_contract dls))) /\
    Forall (lock_job onchain dls (stored s)) locks.
Proof.
  intros Hc Hn. unfold sync, current. rewrite !final_bind, !result_bind, !result_act, !final_act.
  cbn [evCapacity evNodeContracts handler_of_engine]. rewrite Hc, result_ret, final_ret, final_bind.
  rewrite result_act, final_act. cbn [evNodeContracts handler_of_engine]. rewrite Hn.
  set (s1 := (esNodeContracts _ _).2).
  assert (Hs1 : stored s1 = stored s /\ jobs s1 = jobs s)
    by (unfold s1; by rewrite stored_NodeContracts, stored_Capacity, jobs_NodeContracts, jobs_Capacity).
  destruct Hs1 as [Hs1 Hj1]. clearbody s1.
  destruct (move_running _ _ _) as [active' running'] eqn:Hm.
  apply move_running_absent in Hm as [-> ->].
  set (gone := filter _ _). set (kept := filter _ _).
  rewrite !final_bind, final_ret.
  destruct (deprovision_all_state (range_map gone) s1) as [Hs2 Hj2].
  destruct (sync_all_state (range_map kept) (final (for_each deprovision_one (range_map gone)) s1))
    as (locks & Hj3 & _ & Hlocks).
  { apply Forall_forall. intros [id dl] Hin. rewrite range_map_perm in Hin.
    apply elem_of_map_to_list, map_lookup_filter_Some in Hin as [Hin _].
    by apply by_contract_keyed in Hin. }
  eexists _, locks. split; [|split].
  - rewrite Hj3, Hj2, Hj1, <- app_assoc. done.
  - rewrite Hs1. by rewrite range_map_perm.
  - eapply Forall_impl; [exact Hlocks|]. intros j ([id dl] & Hin & Ht & Hop).
    rewrite range_map_perm in Hin.
    apply elem_of_map_to_list, map_lookup_filter_Some in Hin as [Hin Hon].
    rewrite Hs2, Hs1 in Ht. by exists id, dl.
Qed.
End requests.

(** With a storage that can load every stored deployment and a queue that accepts every job,
    a synchronisation of the handler over the engine queues, in this order, exactly one job
    to deprovision for each active contract the chain no longer lists whose deployment is
    stored, and then only jobs that pause or resume deployments of contracts the chain
    lists, the ones not locked and the ones locked. *)
Theorem sync_queues_jobs node dls onchain (s : S) :
  storage_serves -> queue_accepts ->
  (esCapacity s).1 = Val dls ->
  (esNodeContracts (uint32 node) (esCapacity s).2).1 = Val onchain ->
  exists removals locks,
    jobs (final (sync node) s) = jobs s ++ removals ++ locks /\
    removals ≡ₚ omap (removal (stored s))
                  (map_to_list (filter (fun p => p.1 ∉ onchain) (by_contract dls))) /\
    Forall (lock_job onchain dls (stored s)) locks.
Proof. intros Hserve Haccept. by apply sync_queue. Qed.

(** ** From the queue to the storage *)
Variable e : NativeEngine S.

Lemma uninstallAll_each ctx ws reason w s : w ∈ ws -> exists s',
  forall c, c ∈ calls (uninstallWorkload ctx w reason) s' -> c ∈ calls (uninstallAll ctx ws reason) s.
Proof.
  intros Hw. revert s. induction Hw as [w ws|w v ws _ IH]; intros s; simpl; rewrite !calls_bind.
  - exists s. intros c Hc. apply elem_of_app. by left.
  - destruct (IH (final (uninstallWorkload ctx v reason) s)) as [s' Hs']. exists s'. intros c Hc.
    apply elem_of_app. right. apply elem_of_app. left. by apply Hs'.
Qed.

(** What the worker does about a workload it has to remove: it reads the record,
    and asks the provisioner unless there is no record to read. *)
Definition given_up (w : WorkloadWithID) (l : list ecall) : Prop :=
  exists twin id name r, stored_key w = (twin, id, name) /\ StCurrent twin id name r ∈ l /\
    forall c, r = Val c -> exists r', PvDeprovision w r' ∈ l.

Lemma given_up_mono w l l' : (forall c, c ∈ l -> c ∈ l') -> given_up w l -> given_up w l'.
Proof.
  intros Hl (twin & id & name & r & Hk & Hr & Hp). exists twin, id, name, r.
  split_and!; [done|by apply Hl|]. intros c Hc. destruct (Hp c Hc) as [r' Hr'].
  exists r'. by apply Hl.
Qed.

Lemma uninstallWorkload_given_up ctx w reason s :
  given_up w (calls (uninstallWorkload ctx w reason) s).
Proof.
  unfold given_up, stored_key, uninstallWorkload, Current, Transaction.
  destruct (Parts (ID w)) as [[[twin id] name] perr].
  exists twin, id, name, (stCurrent twin id name s).1. split; [done|].
  rewrite calls_bind, calls_act, result_act. split; [left|].
  intros c ->. rewrite calls_bind, calls_act. eexists. right. left.
Qed.

(** What a finished removal of [d] leaves in the trace. *)
Definition removed_in (d : Deployment) (l : list ecall) : Prop :=
  (forall w, w ∈ by_types (reverse (order (startup e))) d -> given_up w l) /\
  (Exists storage_failed l \/ exists r, StDelete (TwinID d) (ContractID d) r ∈ l).

Lemma removed_in_mono d l l' : (forall c, c ∈ l -> c ∈ l') -> removed_in d l -> removed_in d l'.
Proof.
  intros Hl [Hw Hd]. split; [intros w Hin; eapply given_up_mono; eauto|].
  destruct Hd as [Hf|[r Hr]]; [left|right; exists r; by apply Hl].
  apply Exists_exists in Hf as (c & Hc & Hf). apply Exists_exists. eauto.
Qed.

Lemma uninstallDeployment_done ctx d reason s :
  removed_in d (calls (uninstallDeployment e ctx d reason) s).
Proof.
  unfold removed_in, uninstallDeployment. set (ws := by_types _ _). rewrite calls_bind. split.
  - intros w Hw. destruct (uninstallAll_each ctx ws reason w s Hw) as [s' Hs'].
    eapply given_up_mono; [|apply (uninstallWorkload_given_up ctx w reason s')].
    intros c Hc. apply elem_of_app. left. by apply Hs'.
  - pose proof (uninstallAll_failed ctx ws reason s) as Hf.
    destruct (result (uninstallAll ctx ws reason) s).
    + left. apply Exists_app. left. by apply Hf.
    + right. run. eexists. apply elem_of_app. right. left.
Qed.

Lemma deprovision_job_done root d reason s :
  removed_in d (calls (handle_job e root (MkJob opDeprovision d None reason)) s).
Proof.
  unfold handle_job, dispatch. cbn [jOp jTarget jMessage needs_contract].
  rewrite calls_bind, calls_ret, result_ret, final_ret, calls_bind.
  eapply removed_in_mono; [|apply uninstallDeployment_done].
  intros c Hc. apply elem_of_app. right. apply elem_of_app. by left.
Qed.

(** *** From the chain to the queue *)

(** The stored deployments stay as they are and jobs are appended to the queue. *)
Definition queues (s s' : S) : Prop :=
  stored s' = stored s /\ exists js, jobs s' = jobs s ++ js.

#[local] Instance queues_refl : Reflexive queues.
Proof. intros s. split; [done|]. exists []. by rewrite app_nil_r. Qed.
#[local] Instance queues_trans : Transitive queues.
Proof.
  intros s1 s2 s3 [Hs1 [js1 J1]] [Hs2 [js2 J2]]. split; [congruence|].
  exists (js1 ++ js2). by rewrite J2, J1, app_assoc.
Qed.

Lemma queues_schedule twin id op message : steps queues (schedule twin id op message).
Proof.
  unfold schedule, StorageGet, Enqueue. apply steps_bind; [apply _| |].
  - apply steps_act. intros s. split; [apply stored_Get|]. exists [].
    by rewrite jobs_Get, app_nil_r.
  - intros []; [|apply steps_ret, _]. apply steps_act. intros s. split; [apply stored_Enqueue|].
    rewrite jobs_Enqueue. destruct (qEnqueue _ s).1; [exists []; by rewrite app_nil_r|by eexists].
Qed.
Lemma queues_deprovision_one p : steps queues (deprovision_one p).
Proof.
  destruct p as [contract dl]. apply steps_bind; [apply _| |intros; apply steps_ret, _].
  apply steps_act. intros s. apply queues_schedule.
Qed.
Lemma queues_sync_one p : steps queues (sync_one p).
Proof.
  destruct p as [id dl]. unfold sync_one. apply steps_bind; [apply _| |].
  - apply steps_act. intros s. split; [apply stored_GetContract|]. exists [].
    cbn [evGetContract handler_of_engine]. by rewrite jobs_esGetContract, app_nil_r.
  - intros [ct err]. destruct (se_IsError err); [apply steps_ret, _|].
    case_bool_decide; [apply steps_ret, _|]. apply steps_bind; [apply _| |intros; apply steps_ret, _].
    destruct (IsGracePeriod ct); apply steps_act; intros s; apply queues_schedule.
Qed.

(** A request for [contract] that was not refused leaves the job of the stored deployment
    in the queue. *)
Lemma deprovision_one_queues contract dl s :
  (forall reason err, EvDeprovision (TwinID dl) contract reason (Some err)
                        ∉ calls (deprovision_one (contract, dl)) s) ->
  exists d, stored s !! (TwinID dl, contract) = Some d /\
    MkJob opDeprovision d None not_on_chain ∈ jobs (final (deprovision_one (contract, dl)) s).
Proof.
  unfold deprovision_one. rewrite calls_bind, final_bind, calls_act, calls_ret, final_act, final_ret.
  cbn [evDeprovision handler_of_engine]. fold not_on_chain. intros Hok.
  change (Deprovision (TwinID dl) contract not_on_chain s).1.2
    with (final (Deprovision (TwinID dl) contract not_on_chain) s).
  assert (result (Deprovision (TwinID dl) contract not_on_chain) s = None) as Hr.
  { destruct (result _ s) as [err|] eqn:E; [|done]. destruct (Hok not_on_chain err).
    unfold result in E. rewrite E. left. }
  revert Hr. clear Hok. unfold Deprovision, schedule, StorageGet, Enqueue. run.
  destruct (stGet _ _ s).1 as [d|err] eqn:Eg; run; [|done]. intros Hq.
  exists d. split; [by apply stored_get|]. rewrite jobs_Enqueue, Hq. set_solver.
Qed.

Lemma for_each_queues {A B} (f : A -> M S evcall B) l x s :
  (forall y, steps queues (f y)) -> x ∈ l ->
  exists s1, queues s s1 /\ queues (final (f x) s1) (final (for_each f l) s) /\
    forall c, c ∈ calls (f x) s1 -> c ∈ calls (for_each f l) s.
Proof.
  intros Hf Hx. revert s. induction Hx as [x l|x y l _ IH]; intros s; simpl;
    rewrite calls_bind, final_bind.
  - exists s. split; [done|]. split; [by apply steps_for_each; [apply _..|]|].
    intros c Hc. rewrite elem_of_app. by left.
  - destruct (IH (final (f y) s)) as (s1 & Hb & Ha & Hc). exists s1.
    split; [etrans; [apply Hf|done]|]. split; [done|].
    intros c Hin. rewrite elem_of_app. right. by apply Hc.
Qed.

Lemma sync_removal node dls onchain s contract dl :
  (esCapacity s).1 = Val dls ->
  (esNodeContracts (uint32 node) (esCapacity s).2).1 = Val onchain ->
  by_contract dls !! contract = Some dl -> contract ∉ onchain ->
  (forall reason err, EvDeprovision (TwinID dl) contract reason (Some err) ∉ calls (sync node) s) ->
  exists d, stored s !! (TwinID dl, contract) = Some d /\
    MkJob opDeprovision d None not_on_chain ∈ jobs (final (sync node) s).
Proof.
  intros Hc Hn Hdl Hoff. unfold sync, current.
  rewrite !calls_bind, !final_bind, !result_bind, !calls_act, !result_act, !final_act.
  cbn [evCapacity evNodeContracts handler_of_engine]. rewrite Hc, result_ret, final_ret, calls_ret.
  rewrite calls_bind, final_bind, calls_act, result_act, final_act.
  cbn [evNodeContracts handler_of_engine]. rewrite Hn.
  set (s1 := (esNodeContracts _ _).2).
  assert (stored s1 = stored s) as Hs1 by (unfold s1; by rewrite stored_NodeContracts, stored_Capacity).
  clearbody s1. destruct (move_running _ _ _) as [active' running'] eqn:Hm.
  apply move_running_absent in Hm as [-> ->]. set (gone := filter _ _). set (kept := filter _ _).
  rewrite !calls_bind, !final_bind, final_ret, calls_ret. intros Hok.
  destruct (for_each_queues deprovision_one (range_map gone) (contract, dl) s1)
    as (s2 & [Hs2 _] & [_ [js Hjs]] & Hcs).
  { apply queues_deprovision_one. }
  { rewrite range_map_perm. by apply elem_of_map_to_list, map_lookup_filter_Some. }
  destruct (deprovision_one_queues contract dl s2) as (d & Hd & Hj).
  { intros reason err Hin. apply (Hok reason err). rewrite !elem_of_app. right. right. left. by apply Hcs. }
  exists d. rewrite <- Hs1, <- Hs2. split; [done|].
  destruct (steps_for_each queues sync_one (range_map kept) (fun x _ => queues_sync_one x)
    (final (for_each deprovision_one (range_map gone)) s1)) as [_ [js' Hjs']].
  rewrite Hjs', Hjs, !elem_of_app. left. by left.
Qed.

(** C14: A contract that disappeared from the chain is given up by the node: when a
    synchronisation of the event handler over the engine had no request to deprovision that
    contract refused (its deployment could be loaded and its job queued), and no read or
    removal of the queue's head then failed, one round of the engine's worker per queued job
    empties the queue, reads the record of every workload of the contract's stored
    deployment, asks the provisioner to deprovision each that has one, and deletes the
    deployment from the storage unless a storage call failed. On those failures the code
    only logs, and goes on. *)
Theorem sync_then_worker node root dls onchain (s : S) contract dl :
  callback_keeps_jobs e ->
  (esCapacity s).1 = Val dls ->
  (esNodeContracts (uint32 node) (esCapacity s).2).1 = Val onchain ->
  by_contract dls !! contract = Some dl -> contract ∉ onchain ->
  (forall reason err, EvDeprovision (TwinID dl) contract reason (Some err) ∉ calls (sync node) s) ->
  let s' := final (sync node) s in
  let m := Engine.Run_loop e (length (jobs s')) root in
  ~ Exists queue_failed (calls m s') ->
  jobs (final m s') = [] /\
  exists d, stored s !! (TwinID dl, contract) = Some d /\ removed_in d (calls m s').
Proof.
  intros Hcb Hc Hn Hdl Hoff Hreq s' m Hok.
  destruct (sync_removal node dls onchain s contract dl) as (d & Hd & Hj); [done..|].
  destruct (Run_loop_served e root s' Hcb Hok) as [He Hin]. split; [done|].
  exists d. split; [done|]. destruct (Hin _ Hj) as [s2 Hs2].
  eapply removed_in_mono; [exact Hs2|apply deprovision_job_done].
Qed.
End composed.
