(* ===== verification/EngineSystem.v ===== *)
(** * The engine as a concurrent system

    Requests of other daemons run while the worker of the engine handles jobs, and
    the daemon may crash at any point and start again on its persistent queue.
    [node_step] interleaves them: the worker takes the head of the queue in hand,
    handles it and removes it; requests may be served at any time in between.  A
    handled job is one step here: of the queue it touches only the head, which it
    removes at its end, so a request served while it is handled appends to the queue
    in the same way before and after the step.  A crash keeps the queue and loses what the worker had in hand; what
    it leaves of the storage is any state. *)

From S2P Require Import Prelude GridTypes Sorting StartupOrder Engine EngineApi EngineLaws.
From S2P Require Import EngineWorker.

(** ** The queue of a trace *)

(** What a call does to the queue, and how many jobs a trace removed from it. *)
Definition queue_step (q : list engineJob) (c : ecall) : list engineJob :=
  match c with
  | QEnqueue j None => q ++ [j]
  | QDequeue None => tail q
  | _ => q
  end.
Definition removed (l : list ecall) : nat :=
  length (omap (fun c => match c with QDequeue None => Some tt | _ => None end) l).

Lemma removed_app l k : removed (l ++ k) = removed l + removed k.
Proof. unfold removed. by rewrite omap_app, length_app. Qed.

Lemma accepted_cons c l : accepted (c :: l) = accepted [c] ++ accepted l.
Proof. apply (accepted_app [c]). Qed.
Lemma removed_cons c l : removed (c :: l) = removed [c] + removed l.
Proof. apply (removed_app [c]). Qed.
Lemma handled_cons c l : handled (c :: l) = handled [c] ++ handled l.
Proof. apply (handled_app [c]). Qed.

(** The calls that only the worker makes, and those on the queue. *)
Definition worker_call (c : ecall) : bool :=
  match c with QPeek _ | QDequeue _ => true | _ => false end.
Definition queue_call (c : ecall) : bool :=
  match c with QPeek _ | QDequeue _ | QEnqueue _ _ => true | _ => false end.

Lemma requests_append q l :
  Forall (fun c => worker_call c = false) l ->
  foldl queue_step q l = q ++ accepted l /\ handled l = [] /\ removed l = 0.
Proof.
  intros Hl. revert q. induction Hl as [|c l Hc Hl IH]; intros q; simpl.
  { by rewrite app_nil_r. }
  destruct (IH (queue_step q c)) as (-> & Hh & Hr). unfold removed in *. simpl.
  destruct c; try done. destruct r; simpl; [done|]. by rewrite <- app_assoc.
Qed.

Lemma quiet_calls l :
  Forall (fun c => queue_call c = false) l -> accepted l = [] /\ handled l = [] /\ removed l = 0.
Proof.
  induction 1 as [|c l Hc _ IH]; [done|]. destruct IH as (Ha & Hh & Hr).
  unfold removed in *. simpl. destruct c; done.
Qed.

(** ** Programs act on the queue as their calls say *)
Section tracked.
Context `{!GridTypes, !SortSlice} {S : Type} `{!EngineEnv S, !EngineView S, !EngineLaws}.

Definition tracked {A} (m : M S ecall A) : Prop :=
  forall s, jobs (final m s) = foldl queue_step (jobs s) (calls m s).

Lemma tracked_ret {A} (a : A) : tracked (ret a).
Proof. by intros s. Qed.
Lemma tracked_bind {A B} (m : M S ecall A) (k : A -> M S ecall B) :
  tracked m -> (forall a, tracked (k a)) -> tracked (bind m k).
Proof. intros Hm Hk s. by rewrite final_bind, calls_bind, foldl_app, Hk, Hm. Qed.
Lemma tracked_act {A} (f : S -> A * S) (c : A -> ecall) :
  (forall s, jobs (f s).2 = queue_step (jobs s) (c (f s).1)) -> tracked (act f c).
Proof. intros Hf s. rewrite final_act, calls_act. apply Hf. Qed.
Lemma tracked_keeps {A} (f : S -> A * S) (c : A -> ecall) :
  keeps jobs f -> (forall q a, queue_step q (c a) = q) -> tracked (act f c).
Proof. intros Hf Hc. apply tracked_act. intros s. by rewrite Hf, Hc. Qed.
Lemma tracked_peek {A} (f : S -> A * S) : keeps jobs f -> tracked (peek f).
Proof. intros Hf s. by rewrite final_peek, calls_peek, Hf. Qed.
Lemma tracked_for_each {A B} (f : A -> M S ecall B) l :
  (forall x, tracked (f x)) -> tracked (for_each f l).
Proof. intros Hf. induction l; simpl; [apply tracked_ret|by apply tracked_bind]. Qed.
Lemma tracked_append_err {A B} (f : A -> M S ecall (res (list B))) l :
  (forall x, tracked (f x)) -> tracked (append_err f l).
Proof.
  intros Hf. induction l as [|x l IH]; simpl; [apply tracked_ret|].
  apply tracked_bind; [done|]. intros []; [|apply tracked_ret].
  apply tracked_bind; [done|]. intros []; apply tracked_ret.
Qed.
Lemma tracked_retry stop n (f : M S ecall (option error)) :
  keeps jobs stop -> tracked f -> tracked (retry stop n f).
Proof.
  intros Hs Hf. induction n as [|n IH]; simpl; (apply tracked_bind; [done|]);
    intros []; try apply tracked_ret.
  apply tracked_bind; [by apply tracked_peek|]. intros []; [apply tracked_ret|done].
Qed.

Lemma tracked_Enqueue j : tracked (Enqueue j).
Proof. apply tracked_act. intros s. rewrite jobs_Enqueue. by destruct (qEnqueue j s).1. Qed.
Lemma tracked_Dequeue : tracked (act qDequeue QDequeue).
Proof. apply tracked_act. intros s. rewrite jobs_Dequeue. by destruct (qDequeue s).1. Qed.

Ltac tracking :=
  repeat first
    [ apply tracked_ret | apply tracked_Enqueue | apply tracked_Dequeue
    | apply tracked_for_each; intros | apply tracked_append_err; intros
    | apply tracked_retry; [solve [eauto with go]|]
    | apply tracked_bind; [|intros]
    | apply tracked_keeps; [solve [eauto with go]|intros; reflexivity]
    | apply tracked_peek; solve [eauto with go]
    | match goal with |- tracked (match ?x with _ => _ end) => destruct x end ].

Variable e : NativeEngine S.

(** ** The requests *)
Inductive request :=
| RCreateOrUpdate (twin : Z) (d : Deployment) (update : bool)
| RPause (twin id : Z)
| RResume (twin id : Z)
| RDeprovision (twin id : Z) (reason : string)
| RDecommission (id reason : string)
| RGet (twin id : Z)
| RList (twin : Z)
| RChanges (twin id : Z)
| RPublicIPs
| RPrivateIPs (twin : Z) (network : string)
| RStatus (id : string).

Definition serve (r : request) : M S ecall unit :=
  match r with
  | RCreateOrUpdate twin d update => CreateOrUpdate e twin d update ;;; ret tt
  | RPause twin id => Pause twin id ;;; ret tt
  | RResume twin id => Resume twin id ;;; ret tt
  | RDeprovision twin id reason => Deprovision twin id reason ;;; ret tt
  | RDecommission id reason => DecommissionCached id reason ;;; ret tt
  | RGet twin id => Get twin id ;;; ret tt
  | RList twin => List_ twin ;;; ret tt
  | RChanges twin id => Changes twin id ;;; ret tt
  | RPublicIPs => ListPublicIPs ;;; ret tt
  | RPrivateIPs twin network => ListPrivateIPs twin network ;;; ret tt
  | RStatus id => GetWorkloadStatus id ;;; ret tt
  end.

(** The twins database of the engine leaves the queue alone. *)
Definition twins_keep_jobs : Prop := forall id, keeps jobs (twins e id).

Lemma tracked_uninstallWorkload ctx w reason : tracked (uninstallWorkload ctx w reason).
Proof. unfold uninstallWorkload, Current, Transaction. tracking. Qed.

Lemma tracked_serve r : twins_keep_jobs -> tracked (serve r).
Proof.
  intros Htw. destruct r; unfold serve, CreateOrUpdate, Update, Provision, Pause, Resume, Deprovision,
    schedule, DecommissionCached, Get, List_, Changes, ListPublicIPs, ListPrivateIPs, List_,
    GetWorkloadStatus, check_verified, isTwinVerified, StorageGet, Current; tracking.
  all: try apply tracked_uninstallWorkload.
  all: try (apply tracked_keeps; [apply jobs_Verify, Htw|done]).
Qed.

Lemma serve_no_worker_call r s : Forall (fun c => worker_call c = false) (calls (serve r) s).
Proof.
  revert s. change (all_calls (fun c => worker_call c = false) (serve r)).
  destruct r; unfold serve, CreateOrUpdate, Update, Provision, Pause, Resume, Deprovision,
    schedule, DecommissionCached, Get, List_, Changes, ListPublicIPs, ListPrivateIPs, List_,
    GetWorkloadStatus, check_verified, isTwinVerified, StorageGet, Current, Enqueue,
    uninstallWorkload, Current, Transaction; every_call.
Qed.

(** ** One job *)
Lemma dispatch_quiet ctx job s : Forall (fun c => queue_call c = false) (calls (dispatch e ctx job) s).
Proof.
  revert s. change (all_calls (fun c => queue_call c = false) (dispatch e ctx job)).
  unfold dispatch, installDeployment, uninstallDeployment, lockDeployment, unlockDeployment,
    updateDeployment, installWorkload, updateWorkload, lockWorkload, Current, Transaction.
  every_call.
  all: match goal with |- all_calls ?P (uninstallAll ?c ?ws ?r) =>
    induction ws; simpl; unfold uninstallWorkload, Current, Transaction; every_call; done
    | |- all_calls _ (uninstallWorkload _ _ _) =>
    unfold uninstallWorkload, Current, Transaction; every_call end.
Qed.
Lemma validate_quiet ctx d nv s : Forall (fun c => queue_call c = false) (calls (validate e ctx d nv) s).
Proof. eapply Forall_impl; [apply validate_calls|]. by intros []. Qed.
Lemma safeCallback_quiet d del s : Forall (fun c => queue_call c = false) (calls (safeCallback e d del) s).
Proof.
  revert s. change (all_calls (fun c => queue_call c = false) (safeCallback e d del)).
  unfold safeCallback. every_call.
Qed.

(** Handling a job touches the queue once, at its end, where it removes the head. *)
Lemma handle_job_queue root job s :
  callback_keeps_jobs e ->
  let m := handle_job e root job in
  accepted (calls m s) = [] /\ handled (calls m s) = [] /\
  ((removed (calls m s) = 1 /\ jobs (final m s) = tail (jobs s)) \/
   (removed (calls m s) = 0 /\ jobs (final m s) = jobs s /\
      exists err, QDequeue (Some err) ∈ calls m s)).
Proof.
  intros Hcb m. unfold m, handle_job. set (target := jTarget job). set (v := if needs_contract _ then _ else _).
  assert (Hv : preserves jobs v /\ forall s, Forall (fun c => queue_call c = false) (calls v s)).
  { unfold v. destruct (needs_contract _).
    - split; [apply jobs_validate|apply validate_quiet].
    - split; [apply preserves_ret|]. intros s'. rewrite calls_ret. constructor. }
  clearbody v. destruct Hv as [Hj Hc]. destruct (quiet_calls _ (Hc s)) as (Ha & Hh & Hr).
  rewrite calls_bind, final_bind, accepted_app, handled_app, removed_app, Ha, Hh, Hr.
  destruct (result v s) as [ctx|err].
  - destruct (quiet_calls _ (dispatch_quiet ctx job (final v s))) as (Ha1 & Hh1 & Hr1).
    set (s1 := final (dispatch e ctx job) (final v s)).
    destruct (quiet_calls _ (safeCallback_quiet target (bool_decide (jOp job = opDeprovision))
      (qDequeue s1).2)) as (Ha2 & Hh2 & Hr2).
    run. fold s1. rewrite accepted_app, handled_app, removed_app, Ha1, Hh1, Hr1.
    rewrite jobs_safeCallback by done. rewrite jobs_Dequeue.
    replace (jobs s1) with (jobs s) by (unfold s1; by rewrite jobs_dispatch, Hj).
    rewrite !app_nil_l, accepted_cons, handled_cons, removed_cons, Ha2, Hh2, Hr2.
    destruct (qDequeue s1).1 eqn:Ed; (split; [done|split; [done|]]).
    + right. split; [done|split; [done|]]. eexists. rewrite !elem_of_app. right. right. left.
    + by left.
  - run. unfold accepted, handled, removed. simpl. rewrite jobs_Dequeue, jobs_Error, Hj.
    destruct (qDequeue _).1 eqn:Ed; simpl; (split; [done|split; [done|]]); [right|by left].
    split; [done|split; [done|]]. eexists. rewrite elem_of_app. right. right. left.
Qed.

(** ** The system *)
Record node := MkNode { outside : S; in_hand : option engineJob }.

Inductive node_step (root : Ctx) : node -> list ecall -> node -> Prop :=
| step_request r s h :
    node_step root (MkNode s h) (calls (serve r) s) (MkNode (final (serve r) s) h)
| step_take s :
    node_step root (MkNode s None) (calls (act qPeekBlock QPeek) s)
      (MkNode (final (act qPeekBlock QPeek) s)
              (match result (act qPeekBlock QPeek) s with Val j => Some j | Err _ => None end))
| step_handle s j :
    node_step root (MkNode s (Some j)) (calls (handle_job e root j) s)
      (MkNode (final (handle_job e root j) s) None).

(** A crash before the job in hand is removed from the queue, and after. *)
Inductive crash_step : node -> list ecall -> node -> Prop :=
| crash_before s h s' :
    jobs s' = jobs s -> crash_step (MkNode s h) [] (MkNode s' None)
| crash_after s j s' :
    jobs s' = tail (jobs s) -> crash_step (MkNode s (Some j)) [QDequeue None] (MkNode s' None).

(** Runs of a system, with what they called. *)
Inductive runs (step : node -> list ecall -> node -> Prop) (n0 : node) : list ecall -> node -> Prop :=
| runs_refl : runs step n0 [] n0
| runs_step l n k n' : runs step n0 l n -> step n k n' -> runs step n0 (l ++ k) n'.

Definition crashing_step (root : Ctx) (n : node) (l : list ecall) (n' : node) : Prop :=
  node_step root n l n' \/ crash_step n l n'.

(** ** At least once and in order

    [attempts done open started]: the jobs of [started] are the finished jobs [done],
    each once or more in a row, and then some attempts at the unfinished [open]. *)
Inductive attempts : list engineJob -> option engineJob -> list engineJob -> Prop :=
| attempts_nil : attempts [] None []
| attempts_start d o st j :
    attempts d o st -> (forall j', o = Some j' -> j' = j) -> attempts d (Some j) (st ++ [j])
| attempts_done d st j : attempts d (Some j) st -> attempts (d ++ [j]) None st.

(** What a run from [n0] that called [l] has made of the queue: it holds the jobs that
    were queued, less the removed ones, which were all attempted. *)
Definition served (n0 : node) (l : list ecall) (n : node) : Prop :=
  let all := jobs (outside n0) ++ accepted l in
  removed l <= length all /\ jobs (outside n) = drop (removed l) all /\
  exists o, attempts (take (removed l) all) o (handled l) /\
    (forall j, o = Some j -> head (jobs (outside n)) = Some j) /\
    (forall j, in_hand n = Some j -> o = Some j).

Lemma head_drop {A} (l : list A) k x : head (drop k l) = Some x -> l !! k = Some x.
Proof.
  intros Hx. destruct (drop k l) as [|y l'] eqn:E; simplify_eq/=.
  by rewrite <- (Nat.add_0_r k), <- lookup_drop, E.
Qed.

(** The job in hand is removed. *)
Lemma served_done n0 l s j s' k :
  served n0 l (MkNode s (Some j)) -> jobs s' = tail (jobs s) ->
  accepted k = [] -> handled k = [] -> removed k = 1 -> served n0 (l ++ k) (MkNode s' None).
Proof.
  intros (Hle & Hj & o & Hat & Hh & Ho) Hs' Ha Hk Hr. simpl in *.
  specialize (Ho j eq_refl). subst o. specialize (Hh j eq_refl). rewrite Hj in Hh.
  apply head_drop in Hh. unfold served. simpl.
  rewrite accepted_app, removed_app, handled_app, Ha, Hk, Hr, !app_nil_r.
  split; [apply lookup_lt_Some in Hh; lia|]. split.
  { rewrite Hs', Hj. rewrite (drop_S _ _ _ Hh). simpl. by rewrite Nat.add_1_r. }
  exists None. split_and!; [|done..]. rewrite Nat.add_1_r, (take_S_r _ _ _ Hh).
  by apply attempts_done.
Qed.

Lemma served_step root n0 l n k n' :
  callback_keeps_jobs e -> twins_keep_jobs ->
  served n0 l n -> crashing_step root n k n' -> served n0 (l ++ k) n'.
Proof.
  intros Hcb Htw Hn Hstep. revert Hn.
  destruct Hstep as [[r s h|s|s j]|[s h s' Hs'|s j s' Hs']]; intros Hn.
  - destruct (requests_append (jobs s) _ (serve_no_worker_call r s)) as (Hq & Hh & Hr).
    rewrite <- (tracked_serve r Htw s) in Hq. destruct Hn as (Hle & Hj & o & Hat & Ho & Hhand).
    simpl in *. unfold served. simpl.
    rewrite accepted_app, removed_app, handled_app, Hh, Hr, Nat.add_0_r, app_nil_r, app_assoc.
    split; [rewrite length_app; lia|]. split; [rewrite Hq, Hj; symmetry; by apply drop_app_le|].
    exists o. rewrite take_app_le by done. split_and!; [done| |done].
    intros j Hoj. rewrite Hq. specialize (Ho j Hoj). by destruct (jobs s).
  - destruct Hn as (Hle & Hj & o & Hat & Ho & Hhand). simpl in *. unfold served. simpl.
    rewrite calls_act, final_act, result_act, jobs_PeekBlock, accepted_app, removed_app, handled_app.
    unfold accepted at 2 4 6, removed at 2 4 6, handled at 2. simpl.
    rewrite app_nil_r, Nat.add_0_r. split; [done|]. split; [done|].
    destruct (qPeekBlock s).1 as [j|err] eqn:Ep.
    + pose proof (jobs_Peek s j Ep) as Hp. exists (Some j). split_and!; [|naive_solver..].
      eapply attempts_start; [exact Hat|]. intros j' Hj'. specialize (Ho j' Hj'). congruence.
    + rewrite app_nil_r. by exists o.
  - destruct (handle_job_queue root j s Hcb) as (Ha & Hh & [[Hr Hq]|(Hr & Hq & _)]).
    + by eapply served_done.
    + destruct Hn as (Hle & Hj & o & Hat & Ho & Hhand). unfold served. simpl in *.
      rewrite accepted_app, removed_app, handled_app, Ha, Hh, Hr, !app_nil_r, Nat.add_0_r, Hq.
      split; [done|split; [done|]]. by exists o.
  - destruct Hn as (Hle & Hj & o & Hat & Ho & Hhand). unfold served. simpl in *.
    rewrite app_nil_r, Hs'. split; [done|split; [done|]]. by exists o.
  - by eapply served_done.
Qed.

Lemma runs_served step root s0 l n :
  callback_keeps_jobs e -> twins_keep_jobs ->
  (forall n l n', step n l n' -> crashing_step root n l n') ->
  runs step (MkNode s0 None) l n -> served (MkNode s0 None) l n.
Proof.
  intros Hcb Htw Hsub. induction 1 as [|l n k n' _ IH Hstep]; [|by eapply served_step; eauto].
  unfold served. simpl. split; [apply Nat.le_0_l|]. rewrite app_nil_r, drop_0. split; [done|].
  exists None. split_and!; [constructor|done..].
Qed.

(** C8: Over any interleaving of requests, worker steps and crashes that keep the queue, no
    job is lost or overtaken: the queue holds the accepted jobs less the removed ones, every
    removed job was handled, once or more in a row, before any job after it, and the job in
    hand is the head of the queue. *)
Theorem queue_at_least_once root s0 l n :
  callback_keeps_jobs e -> twins_keep_jobs ->
  runs (crashing_step root) (MkNode s0 None) l n -> served (MkNode s0 None) l n.
Proof. intros Hcb Htw. by apply (runs_served _ root). Qed.

(** No attempt to remove a job from the queue failed. *)
Definition dequeues_served (l : list ecall) : Prop := forall err, QDequeue (Some err) ∉ l.

(** One step of a system that does not crash and whose queue lets go of its head. *)
Lemma once_step root n0 l n k n' :
  callback_keeps_jobs e -> dequeues_served k ->
  served n0 l n -> node_step root n k n' ->
  let started l n := take (removed l) (jobs (outside n0) ++ accepted l) ++ option_list (in_hand n) in
  handled l = started l n -> handled (l ++ k) = started (l ++ k) n'.
Proof.
  intros Hcb Hdq Hn Hstep. revert Hn.
  destruct Hstep as [r s h|s|s j]; intros (Hle & Hj & o & _ & Ho & Hhand) started Hh;
    unfold started in *; simpl in *; rewrite accepted_app, removed_app, handled_app, Hh.
  - destruct (requests_append (jobs s) _ (serve_no_worker_call r s)) as (_ & -> & ->).
    by rewrite Nat.add_0_r, (app_assoc (jobs _)), app_nil_r, (take_app_le (_ ++ _)) by done.
  - rewrite calls_act, result_act. unfold accepted at 3, removed at 3, handled at 1. simpl.
    rewrite app_nil_r, Nat.add_0_r, app_nil_r. by destruct (qPeekBlock s).1.
  - destruct (handle_job_queue root j s Hcb) as (-> & -> & [[-> _]|(_ & _ & err & Herr)]);
      [|by apply Hdq in Herr].
    specialize (Ho j (Hhand j eq_refl)). rewrite Hj in Ho. apply head_drop in Ho.
    by rewrite !app_nil_r, Nat.add_1_r, (take_S_r _ _ _ Ho).
Qed.

(** C7: While no call to remove a job from the queue fails and nothing crashes, the engine
    is a FIFO queue: over any interleaving of requests with the steps of the worker, the
    jobs that were handled are the queued ones in the order they were accepted, each once,
    the last of them perhaps still in hand, and the queue holds the rest. The code only logs
    a failed removal and handles the same job again, which [queue_at_least_once] covers. *)
Theorem queue_exactly_once root s0 l n :
  callback_keeps_jobs e -> twins_keep_jobs ->
  runs (node_step root) (MkNode s0 None) l n -> dequeues_served l ->
  let queued := jobs s0 ++ accepted l in
  jobs (outside n) = drop (removed l) queued /\
  handled l = take (removed l) queued ++ option_list (in_hand n).
Proof.
  intros Hcb Htw Hrun Hdq queued.
  assert (forall l n, runs (node_step root) (MkNode s0 None) l n -> served (MkNode s0 None) l n) as Hs.
  { intros l' n'. apply (runs_served _ root); [done..|]. by left. }
  split; [by destruct (Hs _ _ Hrun) as (_ & ? & _)|]. unfold queued.
  induction Hrun as [|l n k n' Hrun IH Hstep]; [done|].
  apply (once_step root (MkNode s0 None) l n k n' Hcb); [|by apply Hs|done|apply IH].
  all: intros err Herr; apply (Hdq err), elem_of_app; auto.
Qed.
End tracked.
