(* ===== verification/EngineProvisioner.v ===== *)
(** * The engine over the map provisioner

    The engine's [Provisioner] is an interface; [mapProvisioner] is the package's own
    implementation of it.  Here the interface of [Engine] is implemented by the
    operations of [Provisioner], whose managers keep the laws of [EngineLaws], and a
    workload is followed from a job to the manager of its type and back to its
    record, through pauses and resumes queued one after the other. *)

From S2P Require Import Prelude GridTypes Provisioner Sorting StartupOrder Engine EngineLaws.
From S2P Require Import EngineWorkloads EngineDeployments.

(** An operation of the provisioner as the engine calls it. *)
Definition provisioner_call {S A} (m : M S mcall A) (s : S) : A * S := (result m s, final m s).

(** [New] with a [mapProvisioner] for its [provisioner]. *)
Definition engine_with_managers `{!GridTypes} {S V} (base : EngineEnv S)
    (json_marshal : V -> res string) (managers : gmap string (Manager S V)) : EngineEnv S := {|
  stCreate := @stCreate S base;
  stGet := @stGet S base;
  stUpdate := @stUpdate S base;
  stError := @stError S base;
  stAdd := @stAdd S base;
  stRemove := @stRemove S base;
  stTransaction := @stTransaction S base;
  stCurrent := @stCurrent S base;
  stDelete := @stDelete S base;
  stChanges := @stChanges S base;
  stTwins := @stTwins S base;
  stByTwin := @stByTwin S base;
  pvProvision ctx w := provisioner_call (Provisioner.Provision (@now S base) json_marshal managers ctx w);
  pvDeprovision ctx w := provisioner_call (Provisioner.Deprovision managers ctx w);
  pvUpdate ctx w := provisioner_call (Provisioner.Update (@now S base) json_marshal managers ctx w);
  pvPause ctx w := provisioner_call (Provisioner.Pause (@now S base) managers ctx w);
  pvResume ctx w := provisioner_call (Provisioner.Resume (@now S base) managers ctx w);
  pvCanUpdate := CanUpdate managers;
  qOpen := @qOpen S base;
  qRemoveAll := @qRemoveAll S base;
  qEnqueue := @qEnqueue S base;
  qPeekBlock := @qPeekBlock S base;
  qDequeue := @qDequeue S base;
  gwGetContract := @gwGetContract S base;
  gwGetNodeRentContract := @gwGetNodeRentContract S base;
  kycURL := @kycURL S base;
  kycGet := @kycGet S base;
  dlVerify := @dlVerify S base;
  now := @now S base;
  backoffStop := @backoffStop S base |}.

(** A manager leaves the records and the queue of the engine alone. *)
Definition manager_keeps {S V B} (f : S -> B) (mgr : Manager S V) : Prop :=
  (forall ctx w, keeps f (mgProvision mgr ctx w)) /\
  (forall ctx w, keeps f (mgDeprovision mgr ctx w)) /\
  (forall update, mgUpdate mgr = Some update -> forall ctx w, keeps f (update ctx w)) /\
  (forall pause resume, mgPauser mgr = Some (pause, resume) ->
     forall ctx w, keeps f (pause ctx w) /\ keeps f (resume ctx w)).

Section keeps.
Context `{!GridTypes} {S V B : Type} (f : S -> B).
Variable clock : S -> Z * S.
Variable json_marshal : V -> res string.
Variable managers : gmap string (Manager S V).
Hypothesis Hclock : keeps f clock.
Hypothesis Hmanagers : map_Forall (fun _ mgr => manager_keeps f mgr) managers.

Lemma keeps_setState r err : preserves f (setState clock r err).
Proof. unfold setState. preserve. Qed.
Lemma keeps_buildResult data err : preserves f (buildResult clock json_marshal data err).
Proof. unfold buildResult. apply preserves_bind; [apply keeps_setState|intros]. preserve. Qed.

Lemma keeps_Provision ctx w : preserves f (Provisioner.Provision clock json_marshal managers ctx w).
Proof.
  unfold Provisioner.Provision. destruct (managers !! _) as [mgr|] eqn:Em; [|preserve].
  apply Hmanagers in Em as (Hp & _).
  apply preserves_bind; [by apply preserves_act|]. intros [data err].
  destruct (is_err err _); [preserve|apply keeps_buildResult].
Qed.
Lemma keeps_Deprovision ctx w : preserves f (Provisioner.Deprovision managers ctx w).
Proof.
  unfold Provisioner.Deprovision. destruct (managers !! _) as [mgr|] eqn:Em; [|preserve].
  apply Hmanagers in Em as (_ & Hd & _). by apply preserves_act.
Qed.
Lemma keeps_Update ctx w : preserves f (Provisioner.Update clock json_marshal managers ctx w).
Proof.
  unfold Provisioner.Update. destruct (managers !! _) as [mgr|] eqn:Em; [|preserve].
  apply Hmanagers in Em as (_ & _ & Hu & _).
  destruct (mgUpdate mgr) as [update|]; [|preserve]. specialize (Hu update eq_refl).
  apply preserves_bind; [by apply preserves_act|]. intros [data err].
  destruct (is_err err _); [preserve|apply keeps_buildResult].
Qed.
Lemma keeps_Pause ctx w : preserves f (Provisioner.Pause clock managers ctx w).
Proof.
  unfold Provisioner.Pause. destruct (negb _); [preserve|].
  destruct (managers !! _) as [mgr|] eqn:Em; [|preserve]. apply Hmanagers in Em as (_ & _ & _ & Hp).
  apply preserves_bind; [|intros; apply preserves_bind; [apply keeps_setState|intros; preserve]].
  destruct (mgPauser mgr) as [[pause resume]|]; [|preserve].
  apply preserves_act. by apply (Hp pause resume).
Qed.
Lemma keeps_Resume ctx w : preserves f (Provisioner.Resume clock managers ctx w).
Proof.
  unfold Provisioner.Resume. destruct (negb _); [preserve|].
  destruct (managers !! _) as [mgr|] eqn:Em; [|preserve]. apply Hmanagers in Em as (_ & _ & _ & Hp).
  apply preserves_bind; [|intros; apply preserves_bind; [apply keeps_setState|intros; preserve]].
  destruct (mgPauser mgr) as [[pause resume]|]; [|preserve].
  apply preserves_act. by apply (Hp pause resume).
Qed.
End keeps.

(** ** The composed engine keeps the laws of the engine *)
Section composed.
Context `{!GridTypes, !GridTypesLaws, !SortSlice} {S V : Type}.
Context (base : EngineEnv S) `{!EngineView S, !EngineLaws (EngineEnv0 := base)}.
Variable json_marshal : V -> res string.
Variable managers : gmap string (Manager S V).
Hypothesis Hdb : map_Forall (fun _ mgr => manager_keeps db mgr) managers.
Hypothesis Hjobs : map_Forall (fun _ mgr => manager_keeps jobs mgr) managers.

Local Instance composed : EngineEnv S := engine_with_managers base json_marshal managers.

Lemma composed_laws : EngineLaws (EngineEnv0 := composed).
Proof.
  split; simpl; try apply EngineLaws0; unfold provisioner_call; simpl; intros.
  - apply keeps_Provision; [apply EngineLaws0|done].
  - by apply keeps_Deprovision.
  - apply keeps_Update; [apply EngineLaws0|done].
  - apply keeps_Pause; [apply EngineLaws0|done].
  - apply keeps_Resume; [apply EngineLaws0|done].
  - apply keeps_Provision; [apply EngineLaws0|done].
  - by apply keeps_Deprovision.
  - apply keeps_Update; [apply EngineLaws0|done].
  - apply keeps_Pause; [apply EngineLaws0|done].
  - apply keeps_Resume; [apply EngineLaws0|done].
Qed.
End composed.

(** ** Pausing and resuming a deployment *)
Section locking.
Context `{!GridTypes, !GridTypesLaws, !SortSlice} {S : Type}.
Context `{!EngineEnv S, !EngineView S, !EngineLaws}.

(** The key under which a workload's record is stored, as its id says. *)
Definition keyed (w : WorkloadWithID) (k : wl_key) : Prop :=
  (Parts (ID w)).1 = k /\ k.2 = Name (wl_of w).

Lemma lockWorkload_off_key ctx w lock k k' s :
  keyed w k -> k' <> k -> db (final (lockWorkload ctx w lock) s) !! k' = db s !! k'.
Proof.
  destruct k as [[twin dl] name]. intros [Hid Hname] Hk. simpl in Hname. subst name.
  by apply (lockWorkload_step ctx w lock twin dl s Hid).
Qed.

(** A list of distinct workloads leaves on the record of one of them what that one leaves. *)
Lemma lock_list_record ctx lock ws w k s :
  Forall (fun w => exists k, keyed w k) ws -> NoDup ((fun w => (Parts (ID w)).1) <$> ws) ->
  w ∈ ws -> keyed w k ->
  exists s', db s' !! k = db s !! k /\
    db (final (for_each (fun w => lockWorkload ctx w lock) ws) s) !! k =
    db (final (lockWorkload ctx w lock) s') !! k /\
    forall c, c ∈ calls (lockWorkload ctx w lock) s' ->
              c ∈ calls (for_each (fun w => lockWorkload ctx w lock) ws) s.
Proof.
  intros Hkeyed Hnd Hin Hk. revert s.
  assert (forall v, v ∈ ws -> (Parts (ID v)).1 <> k -> forall s,
    db (final (lockWorkload ctx v lock) s) !! k = db s !! k) as Hoff.
  { intros v Hv Hne s. rewrite Forall_forall in Hkeyed. destruct (Hkeyed v Hv) as [kv Hkv].
    apply (lockWorkload_off_key _ _ _ kv); [done|]. destruct Hkv as [Hp _]. congruence. }
  clear Hkeyed. induction ws as [|v ws IH]; intros s; [by apply elem_of_nil in Hin|].
  simpl in Hnd. apply NoDup_cons in Hnd as [Hv Hnd]. simpl. rewrite final_bind, calls_bind.
  apply elem_of_cons in Hin as [<-|Hin].
  - exists s. split; [done|]. split; [|set_solver]. clear IH. revert s.
    assert (forall s, db (final (for_each (fun w => lockWorkload ctx w lock) ws) s) !! k = db s !! k)
      as Hrest; [|intros s; apply Hrest].
    destruct Hk as [Hk _]. rewrite Hk in Hv. clear Hnd.
    induction ws as [|u ws IHws]; intros s; simpl; [by rewrite final_ret|].
    rewrite final_bind, IHws.
    + apply Hoff; [set_solver|]. intros Hu. apply Hv. simpl. rewrite Hu. left.
    + intros Hx. apply Hv. simpl. by right.
    + intros x Hx. apply Hoff. set_solver.
  - edestruct IH as (s' & Hs' & Hf & Hc); [exact Hnd|exact Hin|intros x Hx; apply Hoff; by right|].
    exists s'. split; [|split; [done|set_solver]]. rewrite Hs'. apply Hoff; [left|].
    intros Hvk. apply Hv. destruct Hk as [<- _]. rewrite Hvk. apply list_elem_of_fmap. by exists w.
Qed.

Lemma for_each_bind {C A B D} (f : A -> M S C D) (g : B -> list A) l s :
  for_each (fun x => for_each f (g x)) l s = for_each f (l ≫= g) s.
Proof.
  assert (forall ys k s, (for_each f ys ;;; for_each f k) s = for_each f (ys ++ k) s) as Happ.
  { induction ys as [|y ys IHy]; intros k s'; simpl.
    - unfold bind, ret. by destruct (for_each f k s') as [[[] ?] ?].
    - specialize (IHy k). unfold bind in *. destruct (f y s') as [[a s1] l1].
      specialize (IHy s1). rewrite <- IHy. destruct (for_each f ys s1) as [[[] s2] l2].
      destruct (for_each f k s2) as [[[] s3] l3]. by rewrite app_assoc. }
  revert s. induction l as [|x l IH]; intros s; [done|]. cbn [for_each]. rewrite bind_cons, <- Happ.
  unfold bind. destruct (for_each f (g x) s) as [[[] s1] l1]. by rewrite IH.
Qed.

Lemma lockDeployment_list (e : NativeEngine S) ctx d s :
  lockDeployment e ctx d s =
  for_each (fun w => lockWorkload ctx w true) (by_types (reverse (order (startup e))) d) s.
Proof. apply (for_each_bind _ (fun typ => ByType d [typ])). Qed.
Lemma unlockDeployment_list (e : NativeEngine S) ctx d s :
  unlockDeployment e ctx d s =
  for_each (fun w => lockWorkload ctx w false) (by_types (order (startup e)) d) s.
Proof. apply (for_each_bind _ (fun typ => ByType d [typ])). Qed.

(** A pause or a resume job locks or unlocks the workloads of its target, in order. *)
Lemma dispatch_lock (e : NativeEngine S) ctx (lock : bool) d s :
  dispatch e ctx (MkJob (if lock then opPause else opResume) d None "") s =
  for_each (fun w => lockWorkload ctx w lock)
    (by_types (if lock then reverse (order (startup e)) else order (startup e)) d) s.
Proof. destruct lock; [apply lockDeployment_list|apply unlockDeployment_list]. Qed.

(** What pausing or resuming leaves on a record in an okay state, when no storage call
    of it failed. *)
Lemma lockWorkload_record ctx w (lock : bool) k c s :
  ~ Exists storage_failed (calls (lockWorkload ctx w lock) s) ->
  keyed w k -> db s !! k = Some c -> IsOkay (State (WResult c)) = true ->
  exists s1, let '(r, err) := (if lock then pvPause ctx w s1 else pvResume ctx w s1).1 in
    db (final (lockWorkload ctx w lock) s) !! k =
      Some (match err with None => WithResults (wl_of w) r | Some _ => c end).
Proof.
  intros Hok [Hid Hname] Hc Hst. revert Hok. unfold lockWorkload, Current, Transaction.
  destruct (Parts (ID w)) as [[[twin dl] name] perr]. simpl in Hid. subst k. simpl in Hname. subst name.
  run. destruct (stCurrent _ _ _ s).1 as [c'|err] eqn:Ec; run.
  2:{ intros Hok. destruct (errors_Is err ErrWorkloadNotExist_id) eqn:Eis.
      - pose proof (Current_absent _ _ _ _ _ Ec Eis). congruence.
      - destruct Hok. by left. }
  apply Current_val in Ec. assert (c' = c) as -> by congruence. rewrite Hst. simpl.
  set (s1 := (stCurrent twin dl _ s).2). intros Hok. exists s1.
  assert (db s1 = db s) as Hs1 by apply db_Current.
  destruct lock; run; run in Hok.
  all: match goal with |- context [match ?x with (_, _) => _ end] => destruct x as [r err] eqn:E end.
  all: destruct err as [err|]; simpl in *; [destruct (errors_Is err _)|]; run; run in Hok; dbrun;
    try by rewrite Hs1.
  all: destruct (stTransaction _ _ _ _).1; [destruct Hok; right; right; by left|].
  all: by rewrite WithResults_name, lookup_insert_eq.
Qed.
End locking.

Section resuming.
Context `{!GridTypes, !GridTypesLaws, !SortSlice} {S V : Type}.
Context (base : EngineEnv S) `{!EngineView S, !EngineLaws (EngineEnv0 := base)}.
Variable json_marshal : V -> res string.
Variable managers : gmap string (Manager S V).
Hypothesis Hdb : map_Forall (fun _ mgr => manager_keeps db mgr) managers.
Hypothesis Hjobs : map_Forall (fun _ mgr => manager_keeps jobs mgr) managers.

Local Instance over_managers : EngineEnv S := engine_with_managers base json_marshal managers.
Local Instance over_managers_laws : EngineLaws (EngineEnv0 := over_managers).
Proof. by apply composed_laws. Qed.

(** Without a way of its own to pause, a manager's workload is marked and unmarked. *)
Lemma pvPause_default ctx w mgr s :
  managers !! Type_ (wl_of w) = Some mgr -> mgPauser mgr = None ->
  State (WResult (wl_of w)) = StateOk ->
  exists time, (pvPause ctx w s).1 =
    (MkResult time StatePaused "paused" (Data (WResult (wl_of w))), None).
Proof.
  intros Hm Hp Hs. simpl. unfold provisioner_call, Provisioner.Pause.
  rewrite bool_decide_eq_true_2, Hm, Hp by done. simpl. run. rewrite setState_result. by eexists.
Qed.
Lemma pvResume_default ctx w mgr s :
  managers !! Type_ (wl_of w) = Some mgr -> mgPauser mgr = None ->
  State (WResult (wl_of w)) = StatePaused ->
  exists time, (pvResume ctx w s).1 =
    (MkResult time StateOk "" (Data (WResult (wl_of w))), None).
Proof.
  intros Hm Hp Hs. simpl. unfold provisioner_call, Provisioner.Resume.
  rewrite bool_decide_eq_true_2, Hm, Hp by done. simpl. run. rewrite setState_result. by eexists.
Qed.
Lemma pvResume_refused ctx w s :
  State (WResult (wl_of w)) <> StatePaused -> is_Some (pvResume ctx w s).1.2.
Proof.
  intros Hs. simpl. unfold provisioner_call, Provisioner.Resume.
  rewrite bool_decide_eq_false_2 by done. simpl. run. by eexists.
Qed.

(** A resume whose copy of the workload is not paused changes no record. *)
Lemma stale_unlock ctx w s :
  State (WResult (wl_of w)) <> StatePaused -> db (final (lockWorkload ctx w false) s) = db s.
Proof.
  intros Hs. unfold lockWorkload, Current, Transaction.
  destruct (Parts (ID w)) as [[[twin dl] name] perr].
  rewrite final_bind, result_act, final_act.
  destruct (stCurrent twin dl name s).1 as [c|err]; [|by rewrite final_ret, db_Current].
  destruct (negb _); [by rewrite final_ret, db_Current|].
  rewrite final_bind, result_act, final_act.
  destruct (pvResume_refused ctx w (stCurrent twin dl name s).2 Hs) as [err Herr].
  destruct (pvResume _ _ _).1 as [r e'] eqn:E. simpl in Herr. subst e'.
  destruct (is_err _ _); rewrite final_ret, db_pvResume; apply db_Current.
Qed.
Lemma stale_unlocks ctx ws s :
  Forall (fun w => State (WResult (wl_of w)) <> StatePaused) ws ->
  db (final (for_each (fun w => lockWorkload ctx w false) ws) s) = db s.
Proof.
  intros Hws. revert s. induction Hws as [|w ws Hw Hws IH]; intros s; cbn [for_each]; [done|].
  rewrite final_bind, IH. by apply stale_unlock.
Qed.

Variable e : NativeEngine S.

(** The workloads of a deployment have distinct records. *)
Definition well_keyed (ws : list WorkloadWithID) : Prop :=
  Forall (fun w => exists k, keyed w k) ws /\ NoDup ((fun w => (Parts (ID w)).1) <$> ws).

(** A workload of [ws] under [k] whose manager has no pauser. *)
Definition plain_workload (ws : list WorkloadWithID) (w : WorkloadWithID) (k : wl_key) : Prop :=
  well_keyed ws /\ w ∈ ws /\ keyed w k /\
  exists mgr, managers !! Type_ (wl_of w) = Some mgr /\ mgPauser mgr = None.

Lemma lock_list_default ctx (lock : bool) ws w k c s :
  ~ Exists storage_failed (calls (for_each (fun w => lockWorkload ctx w lock) ws) s) ->
  plain_workload ws w k ->
  db s !! k = Some c -> IsOkay (State (WResult c)) = true ->
  State (WResult (wl_of w)) = (if lock then StateOk else StatePaused) ->
  exists time, db (final (for_each (fun w => lockWorkload ctx w lock) ws) s) !! k =
    Some (WithResults (wl_of w) (MkResult time (if lock then StatePaused else StateOk)
      (if lock then "paused" else "") (Data (WResult (wl_of w))))).
Proof.
  intros Hserved ([Hkeyed Hnd] & Hin & Hk & mgr & Hm & Hp) Hc Hok Hst.
  destruct (lock_list_record ctx lock ws w k s Hkeyed Hnd Hin Hk) as (s' & Hs' & -> & Hsub).
  destruct (lockWorkload_record ctx w lock k c s') as [s1 Hs1]; [|done|by rewrite Hs'|done|].
  { rewrite !Exists_exists in *. naive_solver. }
  destruct lock.
  - destruct (pvPause_default ctx w mgr s1 Hm Hp Hst) as [time Ht]. rewrite Ht in Hs1. by exists time.
  - destruct (pvResume_default ctx w mgr s1 Hm Hp Hst) as [time Ht]. rewrite Ht in Hs1. by exists time.
Qed.

(** A pause job, or a resume job, none of whose storage calls failed. *)
Definition locking_job (lock : bool) (d : Deployment) : engineJob :=
  MkJob (if lock then opPause else opResume) d None "".
Definition job_served (ctx : Ctx) (job : engineJob) (s : S) : Prop :=
  ~ Exists storage_failed (calls (dispatch e ctx job) s).

Lemma locking_job_default ctx (lock : bool) d w k c s :
  job_served ctx (locking_job lock d) s ->
  plain_workload (by_types (if lock then reverse (order (startup e)) else order (startup e)) d) w k ->
  db s !! k = Some c -> IsOkay (State (WResult c)) = true ->
  State (WResult (wl_of w)) = (if lock then StateOk else StatePaused) ->
  exists time, db (final (dispatch e ctx (locking_job lock d)) s) !! k =
    Some (WithResults (wl_of w) (MkResult time (if lock then StatePaused else StateOk)
      (if lock then "paused" else "") (Data (WResult (wl_of w))))).
Proof.
  unfold job_served, locking_job, final, calls. rewrite dispatch_lock. apply lock_list_default.
Qed.

(** C18: A resume job that was queued before the pause in front of it was handled is lost:
    it carries the workloads as they were before they were paused, the provisioner refuses
    to resume them and no record changes, so that a workload that was ok, whose manager has
    no pauser and whose pause was recorded without a failed storage call stays paused. *)
Theorem stale_resume_lost ctx ctx' d w k c s :
  job_served ctx (MkJob opPause d None "") s ->
  plain_workload (by_types (reverse (order (startup e))) d) w k ->
  db s !! k = Some c -> IsOkay (State (WResult c)) = true ->
  State (WResult (wl_of w)) = StateOk ->
  Forall (fun w => State (WResult (wl_of w)) <> StatePaused) (by_types (order (startup e)) d) ->
  let s1 := final (dispatch e ctx (MkJob opPause d None "")) s in
  let s2 := final (dispatch e ctx' (MkJob opResume d None "")) s1 in
  db s2 = db s1 /\
  exists time, db s2 !! k = Some (WithResults (wl_of w)
    (MkResult time StatePaused "paused" (Data (WResult (wl_of w))))).
Proof.
  intros Hserved Hw Hc Hok Hst Hfresh s1 s2.
  assert (db s2 = db s1) as Hs2.
  { unfold s2, final. rewrite (dispatch_lock e ctx' false). by apply stale_unlocks. }
  split; [done|]. rewrite Hs2. by apply (locking_job_default ctx true d w k c).
Qed.

(** C17: A pause job on a workload that is ok, with a record in an okay state and a manager
    that has no pauser, and a later resume job queued with the deployment as it was stored
    in between bring the workload back to ok, with the data it had and no error, when no
    storage call of either job fails (a failed transaction is only logged and leaves the
    record as it was). *)
Theorem pause_then_resume ctx ctx' d d' w w' k c s :
  plain_workload (by_types (reverse (order (startup e))) d) w k ->
  db s !! k = Some c -> IsOkay (State (WResult c)) = true ->
  State (WResult (wl_of w)) = StateOk ->
  job_served ctx (MkJob opPause d None "") s ->
  let s1 := final (dispatch e ctx (MkJob opPause d None "")) s in
  plain_workload (by_types (order (startup e)) d') w' k -> db s1 !! k = Some (wl_of w') ->
  job_served ctx' (MkJob opResume d' None "") s1 ->
  let s2 := final (dispatch e ctx' (MkJob opResume d' None "")) s1 in
  exists time, db s2 !! k = Some (WithResults (wl_of w')
    (MkResult time StateOk "" (Data (WResult (wl_of w))))).
Proof.
  intros Hw Hc Hok Hst Hserved s1 Hw' Hs1 Hserved' s2.
  destruct (locking_job_default ctx true d w k c s) as [time Hpaused]; [done..|].
  pose proof Hs1 as Hw'w. unfold s1 in Hw'w. change (MkJob opPause d None "") with (locking_job true d) in Hw'w.
  rewrite Hpaused in Hw'w. injection Hw'w as Hw'w.
  assert (WResult (wl_of w') = MkResult time StatePaused "paused" (Data (WResult (wl_of w)))) as Hres
    by (by rewrite <- Hw'w, WithResults_result).
  destruct (locking_job_default ctx' false d' w' k (wl_of w') s1) as [time' Ht']; [done..| | |].
  - rewrite Hres. apply IsOkay_StatePaused.
  - by rewrite Hres.
  - exists time'. rewrite Hres in Ht'. exact Ht'.
Qed.

(** ** From a manager's answer to the record *)

(** What the provisioner makes of a manager's answer. *)
Lemma pvProvision_answer ctx w s :
  exists time, (pvProvision ctx w s).1 =
    match managers !! Type_ (wl_of w) with
    | None => (zero_result, Some (unknown_type w))
    | Some mgr =>
        let '(data, err) := (mgProvision mgr ctx w s).1 in
        if is_err err ErrNoActionNeeded_id then (zero_result, err)
        else match json_marshal data with
             | Val br => (MkResult time (state_of err) (text_of err) br, None)
             | Err jerr => (MkResult time (state_of err) (text_of err) "",
                            Some (Wrapped "failed to encode result" jerr))
             end
    end.
Proof.
  simpl. unfold provisioner_call, Provisioner.Provision.
  destruct (managers !! _) as [mgr|]; [|by exists 0%Z; run].
  run. destruct (mgProvision mgr ctx w s).1 as [data err].
  destruct (is_err err _); [by exists 0%Z; run|]. unfold buildResult. run.
  rewrite setState_result. destruct (json_marshal data); run; by eexists.
Qed.

(** The record that a new workload gets, from its manager's answer. *)
Definition new_record (ctx : Ctx) (w : WorkloadWithID) (s : S) (time : Z) : Workload :=
  let failed err := WithResults (wl_of w) (MkResult time StateError (error_string err) "") in
  match managers !! Type_ (wl_of w) with
  | None => failed (unknown_type w)
  | Some mgr =>
      let '(data, err) := (mgProvision mgr ctx w s).1 in
      if is_err err ErrNoActionNeeded_id then wl_of w
      else match json_marshal data with
           | Val br => WithResults (wl_of w) (MkResult time (state_of err) (text_of err) br)
           | Err jerr =>
               if errors_Is jerr ErrNoActionNeeded_id then wl_of w
               else failed (Wrapped "failed to encode result" jerr)
           end
  end.

(** The state in which the manager of a workload without a record is asked: after the
    record was looked for, and added. *)
Definition provision_state (w : WorkloadWithID) (k : wl_key) (s : S) : S :=
  let '(twin, dl, name) := k in (stAdd twin dl (wl_of w) (stCurrent twin dl name s).2).2.

#[local] Opaque over_managers.

Lemma Transaction_served twin dl (w : Workload) r s :
  ~ Exists storage_failed (calls (Transaction twin dl (WithResults w r)) s) ->
  db (final (Transaction twin dl (WithResults w r)) s) !! (twin, dl, Name w) =
    Some (WithResults w r).
Proof.
  unfold Transaction. run. intros Hok. rewrite db_Transaction, WithResults_name.
  destruct (stTransaction _ _ _ _).1; [destruct Hok; by left|]. by rewrite lookup_insert_eq.
Qed.

Lemma Transaction_timed twin dl (w : Workload) (f : Z -> Result) s :
  let m := result <- (created <- peek now ;; ret (f created)) ;;
           Transaction twin dl (WithResults w result) in
  ~ Exists storage_failed (calls m s) ->
  db (final m s) !! (twin, dl, Name w) = Some (WithResults w (f (now s).1)).
Proof.
  simpl. rewrite !calls_bind, !final_bind, result_bind, !result_ret, result_peek, final_peek, final_ret,
    calls_peek, calls_ret. apply Transaction_served.
Qed.

(** C16: With the engine over the map provisioner, installing a workload without a record,
    when none of the storage calls made fails, leaves on its record exactly what the manager
    of its type answered when it was asked after the record was added: the state its error
    asks for and the data it made, the provision error of an unknown type or of data that
    cannot be encoded, or the workload as it was when no action was needed. *)
Theorem install_records_manager ctx w k s :
  keyed w k -> db s !! k = None ->
  ~ Exists storage_failed (calls (installWorkload ctx w) s) ->
  exists time, db (final (installWorkload ctx w) s) !! k =
    Some (new_record ctx w (provision_state w k s) time).
Proof.
  intros [Hid Hname] Habs. unfold installWorkload, Current, Transaction, provision_state.
  destruct (Parts (ID w)) as [[[twin dl] name] perr]. simpl in Hid. subst k. simpl in Hname. subst name.
  rewrite calls_bind, final_bind, result_act, final_act, calls_act, Exists_app.
  destruct (stCurrent _ _ _ s).1 as [c|err] eqn:Ec; [apply Current_val in Ec; congruence|].
  intros Hok. destruct (errors_Is err _) eqn:Eis; [|destruct Hok; left; by left].
  assert (forall P Q : Prop, ~ (P \/ Q) -> ~ Q) as Hr by tauto. apply Hr in Hok. revert Hok.
  rewrite calls_bind, final_bind, result_act, final_act, calls_act, Exists_app.
  destruct (stAdd _ _ _ _).1 as [aerr|] eqn:Ea; [intros Hok; destruct Hok; left; by left|].
  intros Hok%Hr. revert Hok. set (s1 := (stAdd _ _ _ _).2).
  assert (db s1 !! (twin, dl, Name (wl_of w)) = Some (wl_of w)) as Hs1.
  { unfold s1. rewrite db_Add, Ea. apply lookup_insert_eq. }
  rewrite calls_bind, final_bind, result_act, final_act, calls_act, Exists_app. unfold new_record.
  destruct (pvProvision_answer ctx w s1) as [time ->]. clearbody s1. intros Hok%Hr. revert Hok.
  set (s2 := (pvProvision ctx w s1).2).
  destruct (managers !! Type_ (wl_of w)) as [mgr|].
  2:{ exists (now s2).1. revert Hok. by apply Transaction_timed. }
  destruct (mgProvision mgr ctx w s1).1 as [data merr]. destruct (is_err merr _) eqn:Hm.
  { exists 0%Z. rewrite Hm, final_ret. unfold s2. by rewrite db_pvProvision. }
  destruct (json_marshal data) as [br|jerr]; simpl in *.
  - exists time. revert Hok. rewrite calls_bind, final_bind, result_ret, final_ret. apply Transaction_served.
  - destruct (errors_Is jerr _); [exists 0%Z; unfold s2; by rewrite final_ret, db_pvProvision|].
    exists (now s2).1. revert Hok. by apply Transaction_timed.
Qed.
End resuming.
