(* ===== verification/Daemon.v ===== *)
(** * The programs of the daemons

    What the entry points under cmds/ share: how a process ends, the steps of a main
    function that give up on an error, the wait for a flag of the app package, and
    lemmas that follow such a program to one of its calls. *)

From S2P Require Import Prelude.

Inductive ending := Returned (err : option error) | Fatal (text : string) | Exited (code : Z) | Blocked
  | Panicked.

(** [return errors.Wrap(err, text)] and [return err]. *)
Definition failed (text : string) (err : error) : ending := Returned (Some (Wrapped text err)).
Definition passed_on (err : error) : ending := Returned (Some err).

Section daemon.
Context {S D : Type}.
Notation P A := (M S D A).

(** [if err != nil { ... }] with a return or an exit in it, with and without a value. *)
Definition must (leave : error -> ending) (m : P (option error)) (k : P ending) : P ending :=
  e <- m ;; match e with Some e => ret (leave e) | None => k end.
Definition must_val {A} (leave : error -> ending) (m : P (res A)) (k : A -> P ending) : P ending :=
  r <- m ;; match r with Err e => ret (leave e) | Val a => k a end.

(** A call that answers nothing of interest. *)
Definition do_ (c : D) : P unit := act (fun s => (tt, s)) (fun _ => c).

(** [n] looks at a flag; whether it was found cleared. *)
Fixpoint wait_cleared (look : P bool) (n : nat) : P bool :=
  match n with
  | 0 => ret false
  | Datatypes.S n => set <- look ;; if (set : bool) then wait_cleared look n else ret true
  end.

Lemma result_must leave m k (s : S) :
  result (must leave m k) s =
  match result m s with Some e => leave e | None => result k (final m s) end.
Proof. unfold must. rewrite result_bind. by destruct (result m s). Qed.
Lemma result_must_val {A} leave (m : P (res A)) k (s : S) :
  result (must_val leave m k) s =
  match result m s with Err e => leave e | Val a => result (k a) (final m s) end.
Proof. unfold must_val. rewrite result_bind. by destruct (result m s). Qed.

(** ** What leads to a call

    [c] is found behind a step that does not make it. *)
Lemma bind_reaches {A B} (m : P A) (k : A -> P B) c s :
  c ∉ calls m s -> c ∈ calls (bind m k) s ->
  c ∈ calls (k (result m s)) (final m s) /\
  calls (bind m k) s = calls m s ++ calls (k (result m s)) (final m s).
Proof. rewrite calls_bind. set_solver. Qed.
Lemma must_reaches wrap m k c s :
  c ∉ calls m s -> c ∈ calls (must wrap m k) s ->
  result m s = None /\ c ∈ calls k (final m s) /\
  calls (must wrap m k) s = calls m s ++ calls k (final m s).
Proof. unfold must. rewrite calls_bind. destruct (result m s); run; set_solver. Qed.
Lemma must_val_reaches {A} wrap (m : P (res A)) k c s :
  c ∉ calls m s -> c ∈ calls (must_val wrap m k) s ->
  exists a, result m s = Val a /\ c ∈ calls (k a) (final m s) /\
    calls (must_val wrap m k) s = calls m s ++ calls (k a) (final m s).
Proof.
  unfold must_val. rewrite calls_bind. destruct (result m s) as [a|err]; run; [|set_solver].
  exists a. set_solver.
Qed.

Lemma ret_not_in {A} (a : A) (c : D) (s : S) : c ∈ calls (ret a : P A) s -> False.
Proof. rewrite calls_ret. by intros ?%elem_of_nil. Qed.
Lemma act_not_in {A} (f : S -> A * S) (d : A -> D) c s :
  (forall a, c <> d a) -> c ∉ calls (act f d) s.
Proof. rewrite calls_act. intros Hd [Hc|[]%elem_of_nil]%elem_of_cons. by apply Hd in Hc. Qed.
Lemma do_not_in (d c : D) s : c <> d -> c ∉ calls (do_ d) s.
Proof. intros Hd. by apply act_not_in. Qed.
Lemma embed_not_in {C A} (d : C -> D) (m : M S C A) c s :
  (forall x, c <> d x) -> c ∉ calls (embed d m) s.
Proof. rewrite calls_embed. intros Hd (x & Hc & _)%list_elem_of_fmap. by apply Hd in Hc. Qed.
Lemma act_made {A} (f : S -> A * S) (d : A -> D) s r :
  result (act f d) s = r -> d r ∈ calls (act f d) s.
Proof. rewrite result_act, calls_act. intros <-. left. Qed.
Lemma do_made (d : D) s : d ∈ calls (do_ d) s.
Proof. left. Qed.

Lemma all_calls_not_in {A} (Q : D -> Prop) (m : P A) c s : all_calls Q m -> ~ Q c -> c ∉ calls m s.
Proof. intros Hm Hc Hin. specialize (Hm s). rewrite Forall_forall in Hm. by apply Hm in Hin. Qed.
Lemma all_calls_must Q wrap m k : all_calls Q m -> all_calls Q k -> all_calls Q (must wrap m k).
Proof. intros Hm Hk. apply all_calls_bind; [done|]. intros []; [apply all_calls_ret|done]. Qed.
Lemma all_calls_must_val {A} Q wrap (m : P (res A)) k :
  all_calls Q m -> (forall a, all_calls Q (k a)) -> all_calls Q (must_val wrap m k).
Proof. intros Hm Hk. apply all_calls_bind; [done|]. intros []; [done|apply all_calls_ret]. Qed.
Lemma all_calls_embed {C A} (Q : D -> Prop) (d : C -> D) (m : M S C A) :
  (forall x, Q (d x)) -> all_calls Q (embed d m).
Proof. intros Hd s. rewrite calls_embed. apply Forall_map, Forall_true, Hd. Qed.
Lemma all_calls_do (Q : D -> Prop) d : Q d -> all_calls Q (do_ d).
Proof. intros Hd. by apply all_calls_act. Qed.
Lemma all_calls_wait Q look n : all_calls Q look -> all_calls Q (wait_cleared look n).
Proof.
  intros Hl. induction n as [|n IH]; simpl; [apply all_calls_ret|].
  apply all_calls_bind; [done|]. intros []; [done|apply all_calls_ret].
Qed.

Lemma wait_cleared_looked f (d : bool -> D) n s :
  result (wait_cleared (act f d) n) s = true -> d false ∈ calls (wait_cleared (act f d) n) s.
Proof.
  revert s. induction n as [|n IH]; intros s; simpl; [done|].
  rewrite result_bind, calls_bind, result_act, final_act, calls_act.
  destruct (f s).1 eqn:E; [|left]. intros Hw. right. by apply IH.
Qed.
End daemon.

(** ** Traces *)
Section traces.
Context {A : Type}.

(** A trace goes through [mid] in one go. *)
Definition goes_through (mid l : list A) : Prop := exists pre post, l = pre ++ mid ++ post.

Lemma goes_through_here (mid l : list A) : goes_through mid (mid ++ l).
Proof. by exists [], l. Qed.
Lemma goes_through_l (mid k l : list A) : goes_through mid l -> goes_through mid (k ++ l).
Proof. intros (pre & post & ->). exists (k ++ pre), post. by rewrite <- app_assoc. Qed.
Lemma goes_through_r (mid k l : list A) : goes_through mid l -> goes_through mid (l ++ k).
Proof. intros (pre & post & ->). exists pre, (post ++ k). by rewrite <- !app_assoc. Qed.

(** [c] is in the trace, and before it the calls [need], in their order. *)
Definition preceded (need : list A) (c : A) (l : list A) : Prop :=
  exists pre post, l = pre ++ c :: post /\ need `sublist_of` pre.

Lemma preceded_here (c : A) l : preceded [] c (c :: l).
Proof. by exists [], l. Qed.
Lemma preceded_skip need (c : A) k l : preceded need c l -> preceded need c (k ++ l).
Proof.
  intros (pre & post & -> & Hn). exists (k ++ pre), post. split; [by rewrite <- app_assoc|].
  by apply sublist_inserts_l.
Qed.
Lemma preceded_take x need (c : A) k l :
  x ∈ k -> preceded need c l -> preceded (x :: need) c (k ++ l).
Proof.
  intros (k1 & k2 & ->)%list_elem_of_split (pre & post & -> & Hn).
  exists ((k1 ++ x :: k2) ++ pre), post. split; [by rewrite <- (app_assoc (k1 ++ x :: k2))|].
  rewrite <- app_assoc. apply sublist_inserts_l. simpl. apply sublist_skip.
  by apply sublist_inserts_l.
Qed.
Lemma preceded_app_r need (c : A) k l : preceded need c l -> preceded need c (l ++ k).
Proof. intros (pre & post & -> & Hn). exists pre, (post ++ k). by rewrite <- app_assoc. Qed.
End traces.

Ltac daemon_calls :=
  repeat first
    [ solve [eauto 3 with calls nocore]
    | apply all_calls_must | apply all_calls_must_val; intros
    | apply all_calls_wait
    | apply all_calls_do; first [exact I | reflexivity]
    | apply all_calls_embed; intros; exact I | progress every_call ].

(** Pass one step of the program on the way to the call in [H]. *)
Ltac passes :=
  first [ apply act_not_in; intros ?; discriminate | apply do_not_in; discriminate
        | apply embed_not_in; intros ?; discriminate ].
Ltac pass H :=
  first
    [ apply must_reaches in H as (? & H & ->); [|solve [passes]]
    | apply must_val_reaches in H as (? & ? & H & ->); [|solve [passes]]
    | apply bind_reaches in H as (H & ->); [|solve [passes]] ];
  cbv beta iota in H |- *.
(** There is no call left. *)
Ltac none_left H := exfalso; revert H; apply ret_not_in.
(** All calls of a step satisfy [Q], which the call sought does not. *)
Tactic Notation "avoids" constr(Q) := apply (all_calls_not_in Q); [daemon_calls|exact id].
