(* ===== verification/Powerd.v ===== *)
(** * The power daemon (cmds/modules/powerd/main.go)

    [action] learns who the node is, starts the uptime reports beside itself, sets
    wake on lan up and runs the power server of [Power] with what it learned.  The two
    loops share no state of the node but the chain's and the mark. *)

From S2P Require Import Prelude GridTypes Gateway Power Daemon.

Inductive pdcall :=
| WClient (r : option error)
| WPushErrors (label : string) (errors : list string) (r : option error)
| WNodeID (r : res Z)
| WTwinID (r : res Z)
| WPrivateKey
| WIdentity
| WGoUptime
| WPower (c : pcall)
| WConsumer (r : option error).

Class PowerdEnv (S : Type) := {
  wdMustGet : S -> option Z * S; (* the farm id of the environment; [None] is a panic *)
  wdClient : S -> option error * S;
  wdPushErrors : string -> list string -> S -> option error * S;
  wdNodeID : S -> res Z * S;
  wdTwinID : S -> res Z * S;
  wdPrivateKey : S -> string * S;
  (* substrate.NewIdentityFromEd25519Key: whether the identity is nil, and the error *)
  wdIdentity : string -> S -> (bool * option error) * S;
  wdConsumer : S -> option error * S }.

Section powerd.
Context {S : Type} `{!PowerEnv S, !PowerdEnv S}.
Notation P A := (M S pdcall A).

Definition powerdLabel : string := "powerd".
Definition push (errors : list string) : P (option error) :=
  act (wdPushErrors powerdLabel errors) (WPushErrors powerdLabel errors).

(** An id that could not be read is shown on the console. *)
Definition read_id (text : string) (m : P (res Z)) (k : Z -> P ending) : P ending :=
  id <- m ;;
  match id with
  | Err err => push [error_string err] ;;; ret (failed text err)
  | Val id => k id
  end.

Definition wake_on_lan (k : bool -> P ending) : P ending :=
  '(enabled, err) <- embed WPower EnsureWakeOnLan ;;
  match err with
  | Some err => ret (failed "failed to enable wol" err)
  | None => k enabled
  end.

(** [n] more rounds of the power server before the context is done; its error is then
    the one of the context, which is not passed on. *)
Definition run_server (n : nat) (p : PowerServer) : P ending :=
  embed WPower (Start p n) ;;; ret (Returned None).

Definition serve_power (n : nat) (farm node twin : Z) : P ending :=
  do_ WGoUptime ;;;
  wake_on_lan (fun enabled =>
  must (failed "failed to to create event consumer") (act wdConsumer WConsumer) (
  run_server n (MkPowerServer enabled farm node twin))).

Definition action (n : nat) : P ending :=
  env <- peek wdMustGet ;;
  match env with
  | None => ret Panicked
  | Some farm =>
      must (failed "failed to connect to message broker server") (act wdClient WClient) (
      push [] ;;;
      read_id "failed to get node id from powerd" (act wdNodeID WNodeID) (fun node =>
      read_id "failed to get twin id" (act wdTwinID WTwinID) (fun twin =>
      sk <- act wdPrivateKey (fun _ => WPrivateKey) ;;
      '(absent, err) <- act (wdIdentity sk) (fun _ => WIdentity) ;;
      (* the public key is logged before the error is looked at *)
      if (absent : bool) then ret Panicked
      else match err with
           | Some err => ret (Returned (Some err))
           | None => serve_power n farm node twin
           end)))
  end.

(** ** When the daemon turns the node off *)
Definition stays_on (c : pdcall) : Prop :=
  match c with WPower c => turns_off c = false | _ => True end.

(** A call that turns the node off comes behind the steps that do not. *)
Lemma app_off k l pre c post :
  Forall stays_on k -> turns_off c = true -> k ++ l = pre ++ WPower c :: post ->
  exists pre', pre = k ++ pre' /\ l = pre' ++ WPower c :: post.
Proof.
  intros Hk Hc Heq. apply app_eq_inv in Heq as [(k2 & -> & Heq)|(k2 & -> & Heq)]; [|by exists k2].
  destruct k2 as [|c' k2]; simplify_eq/=; [by exists []; rewrite !app_nil_r|].
  apply Forall_app in Hk as [_ Hk]. apply Forall_cons in Hk as [Hk _]. simpl in Hk. congruence.
Qed.
Lemma bind_off {A B} (m : P A) (k : A -> P B) (s : S) pre c post :
  all_calls stays_on m -> turns_off c = true -> calls (bind m k) s = pre ++ WPower c :: post ->
  exists pre', pre = calls m s ++ pre' /\
    calls (k (result m s)) (final m s) = pre' ++ WPower c :: post.
Proof. intros Hm Hc. rewrite calls_bind. by apply app_off. Qed.
Lemma ret_off {A} (a : A) (s : S) pre c post : calls (ret a : P A) s = pre ++ WPower c :: post -> False.
Proof. rewrite calls_ret. by destruct pre. Qed.
Lemma must_off g m k (s : S) pre c post :
  all_calls stays_on m -> turns_off c = true -> calls (must g m k) s = pre ++ WPower c :: post ->
  result m s = None /\ exists pre', pre = calls m s ++ pre' /\
    calls k (final m s) = pre' ++ WPower c :: post.
Proof.
  intros Hm Hc Heq. apply bind_off in Heq as (pre' & -> & Heq); [|done..].
  destruct (result m s); [by apply ret_off in Heq|]. split; [done|by exists pre'].
Qed.
Lemma read_id_off text m k (s : S) pre c post :
  all_calls stays_on m -> turns_off c = true ->
  calls (read_id text m k) s = pre ++ WPower c :: post ->
  exists id, result m s = Val id /\ exists pre', pre = calls m s ++ pre' /\
    calls (k id) (final m s) = pre' ++ WPower c :: post.
Proof.
  intros Hm Hc Heq. apply bind_off in Heq as (pre' & -> & Heq); [|done..].
  destruct (result m s) as [id|err]; [exists id; split; [done|by exists pre']|].
  apply bind_off in Heq as (pre2 & _ & Heq); [by apply ret_off in Heq|unfold push; every_call|done].
Qed.

(** [nic] is the one device among the interfaces of a bridge. *)
Definition only_nic (nics : list (string * string)) (nic : string) : Prop :=
  filter (fun n => n.1 = "device") nics = [("device", nic)].

(** Wake on lan is supported once it was set on the only device of the bridge. *)
Lemma EnsureWakeOnLan_set (s : S) :
  Forall (fun c => turns_off c = false) (calls EnsureWakeOnLan s) /\
  (result EnsureWakeOnLan s = (true, None) -> exists bridge nics nic,
     calls EnsureWakeOnLan s = [PListNics bridge (Val nics); PSetWol nic None] /\ only_nic nics nic).
Proof.
  unfold EnsureWakeOnLan, only_nic. run. destruct (bridgeGet s).1 as [bridge|]; run; [|done].
  destruct (bridgeListNics _ _).1 as [nics|]; run; [|by repeat constructor].
  destruct (filter _ _) as [|[ty nic] [|]] eqn:Ef; run; try by repeat constructor.
  destruct (ValueOfFlag _ _).1; [destruct (negb _)|destruct (errors_Is _ _)]; run; try by repeat constructor.
  split; [by repeat constructor|]. intros [= ->]. exists bridge, nics, nic. split; [done|].
  assert ((ty, nic) ∈ filter (fun n : string * string => n.1 = "device") nics) as Hin
    by (rewrite Ef; left).
  apply list_elem_of_filter in Hin as [Hty _]. simpl in Hty. by rewrite Ef, Hty.
Qed.

Lemma Start_enabled p n (s : S) pre c post :
  calls (Start p n) s = pre ++ c :: post -> turns_off c = true -> enabled p = true.
Proof.
  intros Heq Hc. destruct (enabled p) eqn:He; [done|].
  pose proof (Start_disabled p n s He) as Hall. rewrite Heq, Forall_app, Forall_cons in Hall.
  destruct Hall as (_ & Hall & _). congruence.
Qed.

(** The server runs only once wake on lan was set up. *)
Lemma serve_power_off n farm node twin (s : S) pre c post :
  calls (serve_power n farm node twin) s = pre ++ WPower c :: post -> turns_off c = true ->
  exists bridge nics nic before within after s', pre = before ++ map WPower within /\
    [WGoUptime; WPower (PListNics bridge (Val nics)); WPower (PSetWol nic None); WConsumer None]
      `sublist_of` before /\ only_nic nics nic /\
    calls (Start (MkPowerServer true farm node twin) n) s' = within ++ c :: after.
Proof.
  intros Heq Hc. unfold serve_power, wake_on_lan in Heq.
  apply bind_off in Heq as (p0 & -> & Heq); [|by apply all_calls_do|done].
  apply bind_off in Heq as (p1 & -> & Heq); [| |done].
  2:{ intros s0. rewrite calls_embed. apply Forall_map. eapply Forall_impl; [apply EnsureWakeOnLan_set|done]. }
  destruct (EnsureWakeOnLan_set (final (do_ WGoUptime) s)) as [_ Hset].
  rewrite result_embed in Heq. destruct (result EnsureWakeOnLan _) as [enabled [err|]];
    [by apply ret_off in Heq|].
  apply must_off in Heq as (Hcons & p2 & -> & Heq); [|every_call|done].
  set (s2 := final (act wdConsumer WConsumer) _) in Heq. unfold run_server in Heq.
  rewrite calls_bind, calls_ret, app_nil_r, calls_embed in Heq.
  apply map_eq_app in Heq as (within & l & Hstart & <- & Hl).
  destruct l as [|c' after]; [discriminate Hl|]. injection Hl as -> _.
  pose proof (Start_enabled _ _ _ _ _ _ Hstart Hc) as He. simpl in He. subst enabled.
  destruct (Hset eq_refl) as (bridge & nics & nic & Hnic & Honly).
  exists bridge, nics, nic, (calls (do_ WGoUptime) s ++ map WPower (calls EnsureWakeOnLan (final (do_ WGoUptime) s)) ++
    calls (act wdConsumer WConsumer) (final (embed WPower EnsureWakeOnLan) (final (do_ WGoUptime) s))).
  exists within, after, s2. split; [by rewrite calls_embed, <- !app_assoc|]. split; [|done].
  rewrite Hnic. simpl. rewrite calls_act in *. rewrite result_act in Hcons. by rewrite Hcons.
Qed.

(** C23: The power daemon turns the node off or marks it down only as a step of the power
    server it runs for the farm of its environment, the node and the twin it looked up,
    after wake on lan was set on the only device among the interfaces of the bridge and the
    uptime reports were started; and it shuts the node down or reboots it only while the
    chain's state, as last read or written, is down. *)
Theorem powerd_off n (s : S) pre c post :
  calls (action n) s = pre ++ WPower c :: post -> turns_off c = true ->
  exists farm node twin bridge nics nic before within after s',
    (wdMustGet s).1 = Some farm /\ only_nic nics nic /\
    pre = before ++ map WPower within /\
    [WNodeID (Val node); WTwinID (Val twin); WGoUptime; WPower (PListNics bridge (Val nics));
     WPower (PSetWol nic None); WConsumer None] `sublist_of` before /\
    calls (Start (MkPowerServer true farm node twin) n) s' = within ++ c :: after /\
    (match c with PShutdown _ | PReboot => True | _ => False end -> chain_state None within = Some false).
Proof.
  intros Heq Hc. unfold action in Heq.
  apply bind_off in Heq as (p0 & -> & Heq); [|every_call|done].
  rewrite result_peek in Heq. destruct (wdMustGet s).1 as [farm|]; [|by apply ret_off in Heq].
  apply must_off in Heq as (_ & p1 & -> & Heq); [|every_call|done].
  apply bind_off in Heq as (p2 & -> & Heq); [|unfold push; every_call|done].
  apply read_id_off in Heq as (node & Hnode & p3 & -> & Heq); [|every_call|done].
  apply read_id_off in Heq as (twin & Htwin & p4 & -> & Heq); [|every_call|done].
  apply bind_off in Heq as (p5 & -> & Heq); [|every_call|done].
  apply bind_off in Heq as (p6 & -> & Heq); [|every_call|done].
  destruct (result (act (wdIdentity _) _) _) as [[] [err|]]; try by apply ret_off in Heq.
  apply serve_power_off in Heq as
    (bridge & nics & nic & before & within & after & s' & -> & Hb & Honly & Hstart); [|done].
  rewrite !app_assoc. exists farm, node, twin, bridge, nics, nic. eexists _, within, after, s'.
  split; [done|]. split; [done|]. split; [reflexivity|].
  rewrite <- !app_assoc. split; [|split; [done|]].
  - do 3 apply sublist_inserts_l. apply (sublist_app [_]); [|apply (sublist_app [_])].
    + apply singleton_sublist_l. by apply act_made.
    + apply singleton_sublist_l. by apply act_made.
    + by do 2 apply sublist_inserts_l.
  - apply (off_when_down_here None _ _ after). rewrite <- Hstart. apply Start_down_only.
Qed.
End powerd.
