(* ===== verification/Noded.v ===== *)
(** * The node daemon (cmds/modules/noded/main.go)

    [action] gathers what the node is made of, hands it to the registration server of
    [Registrar], which runs beside it, and waits for the ids the registration gives
    the node before it starts the event stream and the monitors.  The retries and the
    wait for the cache are bounded by [tries] and [looks]; a daemon that still waits
    then is [Blocked].  The vendor and device of a GPU are only logged. *)

From S2P Require Import Prelude GridTypes Gateway Registrar Daemon.

Inductive ncall :=
| NClient (r : option error)
| NPrintID
| NPrintNet
| NServer (r : option error)
| NCapacity (r : res Capacity)
| NSecureBoot (r : bool * option error)
| NDmi (r : res string)
| NHypervisor (r : res string)
| NGpus (r : res (list string))
| NGoRegistration (info : RegistrationInfo)
| NNewRegistrar (info : RegistrationInfo)
| NPerfMonitor (r : option error)
| NNtpCheck
| NAddTask (task : string)
| NPerfRun (r : option error)
| NCheckFlag (r : bool)
| NNodeID (r : res Z)
| NTwinID (r : res Z)
| NSubstrate (r : option error)
| NNewStream (farm node : Z) (r : option error)
| NGoEvents (node : Z)
| NSystemMonitor (node : Z) (r : option error)
| NHostMonitor (r : option error)
| NRegister (name : string) (r : option error)
| NServe (r : option error).

Class NodedEnv (S : Type) := {
  ndMustGet : S -> option Z * S; (* the farm id of the environment; [None] is a panic *)
  ndClient : S -> option error * S;
  ndServer : S -> option error * S;
  ndTotal : S -> res Capacity * S;
  ndIsSecureBoot : S -> (bool * option error) * S;
  ndDMI : S -> res string * S; (* its board version *)
  ndGetHypervisor : S -> res string * S;
  ndGPUs : S -> res (list string) * S; (* the short ids *)
  ndPerfMonitor : S -> option error * S;
  ndNTPCheck : S -> unit * S;
  ndPerfRun : S -> option error * S;
  ndCheckFlag : S -> bool * S;
  ndNodeID : S -> res Z * S;
  ndTwinID : S -> res Z * S;
  ndBackoffStop : S -> bool * S;
  ndSubstrate : S -> option error * S;
  ndNewStream : Z -> Z -> S -> option error * S;
  ndSystemMonitor : Z -> S -> option error * S;
  ndHostMonitor : S -> option error * S;
  ndRegister : string -> S -> option error * S;
  ndServe : S -> option error * S;
  ndIsCanceled : error -> bool (* err == context.Canceled *) }.

Section noded.
Context {S : Type} `{!NodedEnv S}.
Notation P A := (M S ncall A).

(** The end of both servers. *)
Definition serve (text : string) : P ending :=
  err <- act ndServe NServe ;;
  ret (match err with
       | Some err => if ndIsCanceled err then Returned None else Fatal text
       | None => Returned None
       end).

Definition registerationServer (info : RegistrationInfo) : P ending :=
  must (failed "fail to connect to message broker server") (act ndClient NClient) (
  must (failed "fail to connect to message broker server") (act ndServer NServer) (
  do_ (NNewRegistrar info) ;;;
  must passed_on (act (ndRegister "registrar") (NRegister "registrar")) (
  serve "unexpected error exited registrar"))).

Definition zero_info : RegistrationInfo :=
  MkInfo zero_capacity (MkLocation "" "" "" "") false false "" ∅.

(** The loop over the GPUs and the options after it. *)
Definition node_info (cap : Capacity) (secure : bool) (board hypervisor : string) (gpus : list string)
    : RegistrationInfo :=
  let info := foldl (fun info gpu => WithGPU gpu info) zero_info gpus in
  WithVirtualized (negb (bool_decide (hypervisor = "")))
    (WithSecureBoot secure (WithSerialNumber board (WithCapacity cap info))).

(** One attempt at the ids, and the retries while the policy allows them. *)
Definition get_ids : P (res (Z * Z)) :=
  node <- act ndNodeID NNodeID ;;
  match node with
  | Err err => ret (Err err)
  | Val node =>
      twin <- act ndTwinID NTwinID ;;
      match twin with
      | Err err => ret (Err err)
      | Val twin => ret (Val (node, twin))
      end
  end.

Fixpoint wait_ids (tries : nat) : P (option (res (Z * Z))) :=
  match tries with
  | 0 => ret None
  | Datatypes.S tries =>
      ids <- get_ids ;;
      match ids with
      | Val ids => ret (Some (Val ids))
      | Err err =>
          stop <- peek ndBackoffStop ;;
          if (stop : bool) then ret (Some (Err err)) else wait_ids tries
      end
  end.

(** Once the node is registered. *)
Definition serve_node (farm node : Z) : P ending :=
  must passed_on (act ndSubstrate NSubstrate) (
  must passed_on (act (ndNewStream farm node) (NNewStream farm node)) (
  do_ (NGoEvents node) ;;;
  must (fun _ => Fatal "failed to initialize system monitor")
    (act (ndSystemMonitor node) (NSystemMonitor node)) (
  must (fun _ => Fatal "failed to initialize host monitor") (act ndHostMonitor NHostMonitor) (
  act (ndRegister "host") (NRegister "host") ;;;
  act (ndRegister "system") (NRegister "system") ;;;
  act (ndRegister "performance-monitor") (NRegister "performance-monitor") ;;;
  serve "unexpected error")))).

(** From the performance tests to the registered node. *)
Definition run_node (looks tries : nat) (farm : Z) : P ending :=
  must (failed "failed to create a new perfMon") (act ndPerfMonitor NPerfMonitor) (
  must (failed "failed to create a zbus client to the msgBroker") (act ndClient NClient) (
  act ndNTPCheck (fun _ => NNtpCheck) ;;;
  for_each (fun task => do_ (NAddTask task)) ["iperf"; "cpubench"; "publicip"; "healthcheck"] ;;;
  must (failed "failed to run the scheduler") (act ndPerfRun NPerfRun) (
  cleared <- wait_cleared (act ndCheckFlag NCheckFlag) looks ;;
  if negb cleared then ret Blocked
  else
    ids <- wait_ids tries ;;
    match ids with
    | None => ret Blocked
    | Some (Err err) => ret (failed "failed to get node id" err)
    | Some (Val (node, twin)) => serve_node farm node
    end))).

Definition action (looks tries : nat) (printID printNet : bool) : P ending :=
  env <- peek ndMustGet ;;
  match env with
  | None => ret Panicked
  | Some farm =>
      must (failed "fail to connect to message broker server") (act ndClient NClient) (
      if printID then do_ NPrintID ;;; ret (Returned None)
      else if printNet then do_ NPrintNet ;;; ret (Returned None)
      else
      must (failed "fail to connect to message broker server") (act ndServer NServer) (
      must_val (failed "failed to get node capacity") (act ndTotal NCapacity) (fun cap =>
      '(secure, _) <- act ndIsSecureBoot NSecureBoot ;;
      must_val (failed "failed to get dmi information") (act ndDMI NDmi) (fun board =>
      must_val (failed "failed to get hypervisors") (act ndGetHypervisor NHypervisor) (fun hypervisor =>
      must_val (failed "failed to list gpus") (act ndGPUs NGpus) (fun gpus =>
      do_ (NGoRegistration (node_info cap secure board hypervisor gpus)) ;;;
      run_node looks tries farm))))))
  end.

(** ** What the registration is given *)
Lemma node_info_fields cap secure board hypervisor gpus :
  node_info cap secure board hypervisor gpus =
  MkInfo cap (MkLocation "" "" "" "") secure (negb (bool_decide (hypervisor = ""))) board
    (list_to_set gpus).
Proof.
  unfold node_info, WithVirtualized, WithSecureBoot, WithSerialNumber, WithCapacity.
  assert (forall info, foldl (fun info gpu => WithGPU gpu info) info gpus =
    MkInfo (ri_Capacity info) (ri_Location info) (ri_SecureBoot info) (ri_Virtualized info)
      (ri_SerialNumber info) (list_to_set gpus ∪ ri_GPUs info)) as Hg.
  { induction gpus as [|gpu gpus IH]; intros [? ? ? ? ? set]; simpl; [f_equal; set_solver|].
    rewrite IH. simpl. f_equal. set_solver. }
  rewrite Hg. simpl. by rewrite (right_id_L ∅ (∪)).
Qed.

Definition no_registration (c : ncall) : Prop :=
  match c with NGoRegistration _ => False | _ => True end.
Definition no_events (c : ncall) : Prop := match c with NGoEvents _ => False | _ => True end.

Lemma wait_ids_calls Q tries :
  all_calls Q get_ids -> all_calls Q (wait_ids tries).
Proof. intros Hq. induction tries; simpl; every_call. Qed.

Lemma run_node_registers looks tries farm : all_calls no_registration (run_node looks tries farm).
Proof.
  unfold run_node, serve_node, serve. daemon_calls.
  apply wait_ids_calls. unfold get_ids. every_call.
Qed.

#[local] Hint Resolve run_node_registers : calls.

(** The node daemon starts the registration with the capacity, secure boot flag, board
    version and virtualization it was answered, without a location, and with exactly the
    GPUs that were listed. *)
Theorem node_registers looks tries printID printNet info s :
  NGoRegistration info ∈ calls (action looks tries printID printNet) s ->
  exists cap secure err board hypervisor gpus,
    info = MkInfo cap (MkLocation "" "" "" "") secure (negb (bool_decide (hypervisor = ""))) board
      (list_to_set gpus) /\
    preceded [NServer None; NCapacity (Val cap); NSecureBoot (secure, err); NDmi (Val board);
              NHypervisor (Val hypervisor); NGpus (Val gpus)]
      (NGoRegistration info) (calls (action looks tries printID printNet) s).
Proof.
  unfold action. intros Hgo. rewrite calls_bind in Hgo |- *. rewrite calls_peek in Hgo |- *. simpl in *.
  destruct (result (peek ndMustGet) s) as [farm|]; [|none_left Hgo].
  pass Hgo. destruct printID; [pass Hgo; none_left Hgo|].
  destruct printNet; [pass Hgo; none_left Hgo|].
  apply must_reaches in Hgo as (Hsrv & Hgo & ->); [|passes].
  apply must_val_reaches in Hgo as (cap & Hcap & Hgo & ->); [|passes].
  apply bind_reaches in Hgo as (Hgo & ->); [|passes].
  destruct (result (act ndIsSecureBoot _) _) as [secure err] eqn:Hsec.
  apply must_val_reaches in Hgo as (board & Hdmi & Hgo & ->); [|passes].
  apply must_val_reaches in Hgo as (hypervisor & Hhyp & Hgo & ->); [|passes].
  apply must_val_reaches in Hgo as (gpus & Hgpus & Hgo & ->); [|passes].
  rewrite calls_bind in Hgo |- *. apply elem_of_app in Hgo as [Hgo|Hgo].
  2:{ exfalso. revert Hgo. avoids no_registration. }
  apply list_elem_of_singleton in Hgo as [= ->].
  exists cap, secure, err, board, hypervisor, gpus. split; [apply node_info_fields|].
  apply preceded_skip. do 6 (apply preceded_take; [by apply act_made|]). apply preceded_here.
Qed.

(** ** Who the node is once it serves *)
Lemma get_ids_made s node twin :
  result get_ids s = Val (node, twin) ->
  calls get_ids s = [NNodeID (Val node); NTwinID (Val twin)].
Proof.
  unfold get_ids. run. destruct (ndNodeID s).1 as [node'|err]; run; [|done].
  destruct (ndTwinID _).1 as [twin'|err]; run; [|done]. by intros [= -> ->].
Qed.
(** The ids that are used are those of the last attempt. *)
Lemma wait_ids_last tries s node twin :
  result (wait_ids tries) s = Some (Val (node, twin)) ->
  exists pre, calls (wait_ids tries) s = pre ++ [NNodeID (Val node); NTwinID (Val twin)].
Proof.
  revert s. induction tries as [|tries IH]; intros s; [done|]. cbn [wait_ids].
  rewrite result_bind, calls_bind. destruct (result get_ids s) as [[node' twin']|err] eqn:E.
  - rewrite result_ret, calls_ret, app_nil_r. intros [= -> ->]. exists []. by apply get_ids_made.
  - rewrite result_bind, calls_bind, calls_peek. destruct (result (peek _) _); [by rewrite result_ret|].
    intros (pre & ->)%IH. eexists (_ ++ pre). by rewrite <- app_assoc.
Qed.

(** The node daemon starts the event stream of a node only after the registration was
    started with what the node is made of, the cache is no longer limited and one attempt
    answered both this node id and a twin id; it retries the ids until then. *)
Theorem node_served looks tries printID printNet node s :
  NGoEvents node ∈ calls (action looks tries printID printNet) s ->
  exists info farm twin,
    preceded [NServer None; NGoRegistration info; NPerfRun None; NCheckFlag false;
              NNodeID (Val node); NTwinID (Val twin); NSubstrate None; NNewStream farm node None]
      (NGoEvents node) (calls (action looks tries printID printNet) s).
Proof.
  unfold action. intros Hgo. rewrite calls_bind in Hgo |- *. rewrite calls_peek in Hgo |- *. simpl in *.
  destruct (result (peek ndMustGet) s) as [farm|]; [|none_left Hgo].
  pass Hgo. destruct printID; [pass Hgo; none_left Hgo|].
  destruct printNet; [pass Hgo; none_left Hgo|].
  apply must_reaches in Hgo as (Hsrv & Hgo & ->); [|passes].
  pass Hgo. apply bind_reaches in Hgo as (Hgo & ->); [|passes].
  destruct (result (act ndIsSecureBoot _) _) as [secure err]. do 4 pass Hgo. unfold run_node in *.
  do 3 pass Hgo. apply bind_reaches in Hgo as (Hgo & ->); [|avoids no_events].
  apply must_reaches in Hgo as (Hperf & Hgo & ->); [|passes].
  apply bind_reaches in Hgo as (Hgo & ->); [|avoids no_events].
  destruct (result (wait_cleared _ _) _) eqn:Hw; simpl negb in *; cbv iota in *; [|none_left Hgo].
  apply bind_reaches in Hgo as (Hgo & ->).
  2:{ apply (all_calls_not_in no_events); [|exact id]. apply wait_ids_calls. unfold get_ids. every_call. }
  destruct (result (wait_ids tries) _) as [[[node' twin]|err']|] eqn:Hids; [|none_left Hgo|none_left Hgo].
  destruct (wait_ids_last _ _ _ _ Hids) as [pre Hpre]. rewrite Hpre. clear Hpre. unfold serve_node in *.
  apply must_reaches in Hgo as (Hsub & Hgo & ->); [|passes].
  apply must_reaches in Hgo as (Hstr & Hgo & ->); [|passes].
  rewrite calls_bind in Hgo |- *. apply elem_of_app in Hgo as [Hgo|Hgo].
  2:{ exfalso. revert Hgo. unfold serve. avoids no_events. }
  apply list_elem_of_singleton in Hgo as [= ->]. eexists _, farm, twin.
  apply preceded_skip, preceded_take; [by apply act_made|]. do 5 apply preceded_skip.
  apply preceded_take; [apply do_made|]. do 4 apply preceded_skip.
  apply preceded_take; [by apply act_made|]. apply preceded_take; [by apply wait_cleared_looked|].
  rewrite <- app_assoc. apply preceded_skip.
  do 2 (apply (preceded_take _ _ _ [_]); [left|]).
  do 2 (apply preceded_take; [by apply act_made|]). apply preceded_here.
Qed.
End noded.
