(* ===== verification/Identityd.v ===== *)
(** * The identity daemon (cmds/identityd/main.go and monitor.go)

    [main] prints one of the node's properties when a flag asks for it; otherwise it
    creates the identity manager of [Identity] and the upgrader of [Upgrade], serves the
    manager on the bus, sets up the keys for ssh and runs the upgrader, whose end is
    the end of the process.  The package's options for the upgrader and its version,
    which the kernel's boot tag tells, are read but not examined. *)

From S2P Require Import Prelude Paths GridTypes Gateway UpgradeFiles.
From S2P Require Upgrade.
From S2P Require Import Identity Daemon.

Record flags := MkFlags { fl_v : bool; fl_farm : bool; fl_net : bool; fl_id : bool; fl_debug : bool }.

Inductive idcall :=
| DShowVersion
| DClient (r : option error)
| DPrint (text : string)
| DPrivateKey
| DMkdirAll (path : string) (r : option error)
| DIdentity (c : icall)
| DUpgrade (c : ucall)
| DServer (r : option error)
| DRegister (name : string)
| DGoServe.

Class IdentitydEnv (S : Type) := {
  (* zbus.NewRedisClient: the client, whatever the error *)
  daClient : S -> (string * option error) * S;
  (* environment.MustGet: the farm id and the network, as printed; [None] is a panic *)
  daMustGet : S -> option (string * string) * S;
  daPrivateKey : S -> string * S; (* of the identity stub *)
  daMkdirAll : string -> S -> option error * S;
  daVersion : S -> string * S; (* upgrader.Version *)
  daServer : S -> option error * S;
  (* base64.StdEncoding of the public half of a private key *)
  daPublicText : string -> string;
  (* the exit code of version.ShowAndExit *)
  daShowAndExit : Z }.

(** ** The version monitor *)
Record monitorStream := MkMonitor { duration : Z; version : string }.
Definition newVersionMonitor (d : Z) (version : string) : monitorStream := MkMonitor d version.
Definition GetVersion (m : monitorStream) : string := version m.

Inductive mocall := MoSend (version : string) | MoSleep (d : Z).

(** The goroutine of [Version], up to its [n]-th round. *)
Fixpoint version_rounds {S} (m : monitorStream) (n : nat) : M S mocall unit :=
  match n with
  | 0 => ret tt
  | Datatypes.S n => do_ (MoSend (version m)) ;;; do_ (MoSleep (duration m)) ;;; version_rounds m n
  end.
Definition Version {S} (m : monitorStream) (n : nat) : M S mocall unit :=
  do_ (MoSend (version m)) ;;; version_rounds m n.

(** ** The daemon *)
Section identityd.
Context {S : Type} `{!FileEnv S, !Upgrade.UpgradeEnv S, !IdentityEnv S, !SshEnv S, !IdentitydEnv S}.
Notation P A := (M S idcall A).

Definition getIdentityMgr (root : string) (debug : bool) : P (res identityManager) :=
  manager <- embed DIdentity (NewManager root debug) ;;
  match manager with
  | Err err => ret (Err err)
  | Val manager =>
      env <- peek environmentGet ;;
      match env with
      | Err err => ret (Err (Wrapped "failed to parse node environment" err))
      | Val _ => ret (Val manager)
      end
  end.

(** The end of [main], from what the upgrader returned; [None] is one that still runs. *)
Definition upgrader_end (r : option (Upgrade.outcome (option error))) : ending :=
  match r with
  | None => Blocked
  | Some Upgrade.Panicked => Panicked
  | Some (Upgrade.Returned err) =>
      if is_err err Upgrade.ErrRestartNeeded_id then Returned None
      else match err with Some _ => Exited 1 | None => Returned None end
  end.

(** [n] rounds of the upgrader at most. *)
Definition serve_identity (n : nat) (upgrader : Upgrade.Upgrader) : P ending :=
  peek daVersion ;;;
  must (fun _ => Fatal "fail to connect to message broker server") (act daServer DServer) (
  do_ (DRegister "manager") ;;;
  do_ (DRegister "monitor") ;;;
  do_ DGoServe ;;;
  embed DIdentity manageSSHKeys ;;;
  r <- embed DUpgrade (Upgrade.Run upgrader n) ;;
  ret (upgrader_end r)).

Definition run_daemon (n : nat) (root : string) (debug : bool) (client : string) : P ending :=
  must (fun _ => Fatal "failed to create root directory")
    (act (daMkdirAll root) (DMkdirAll root)) (
  must_val (fun _ => Fatal "failed to create identity manager") (getIdentityMgr root debug) (fun idMgr =>
  must_val (fun _ => Fatal "failed to initialize upgrader")
    (embed DUpgrade (Upgrade.NewUpgrader root [Upgrade.NoZosUpgrade debug; Upgrade.ZbusClient client]))
    (serve_identity n))).

(** A value of the environment is printed. *)
Definition print_env (text : string * string -> string) : P ending :=
  env <- peek daMustGet ;;
  match env with
  | None => ret Panicked
  | Some env => do_ (DPrint (text env)) ;;; ret (Exited 0)
  end.

Definition main (n : nat) (root : string) (f : flags) : P ending :=
  if fl_v f then do_ DShowVersion ;;; ret (Exited daShowAndExit)
  else
    '(client, err) <- act daClient (fun r => DClient r.2) ;;
    if fl_farm f then print_env fst
    else if fl_net f then print_env snd
    else if fl_id f then
      match err with
      | Some err => ret (Fatal "failed to connect to zbus")
      | None =>
          sk <- act daPrivateKey (fun _ => DPrivateKey) ;;
          do_ (DPrint (daPublicText sk)) ;;;
          ret (Exited 0)
      end
    else run_daemon n root (fl_debug f) client.

(** ** How the daemon ends *)
Lemma Run_exits u n s err :
  (forall s, (Upgrade.bootOther s).1 = false) ->
  result (Upgrade.Run u n) s = Some (Upgrade.Returned (Some err)) ->
  errors_Is err Upgrade.ErrRestartNeeded_id = true \/ errors_Is err "context.Canceled" = true.
Proof.
  intros Hb. unfold Upgrade.Run. run. rewrite Hb. intros Hr.
  pose proof (Upgrade.Run_loop_exits u n (Upgrade.bootOther s).2) as He. by rewrite Hr in He.
Qed.

(** The flags that print something and exit. *)
Definition prints (f : flags) : bool := fl_v f || fl_farm f || fl_net f || fl_id f.

(** What [main] does with the end of the upgrader's run: it leaves without an error when
    asked to restart, with exit code 1 for any other error, which on a node booted from the
    hub is only ever that the context was cancelled. *)
Definition end_of_run (r : option (Upgrade.outcome (option error))) (e : ending) : Prop :=
  match r with
  | None => e = Blocked
  | Some Upgrade.Panicked => e = Panicked
  | Some (Upgrade.Returned None) => e = Returned None
  | Some (Upgrade.Returned (Some err)) =>
      (errors_Is err Upgrade.ErrRestartNeeded_id = true /\ e = Returned None) \/
      (errors_Is err Upgrade.ErrRestartNeeded_id = false /\ e = Exited 1 /\
       ((forall s, (Upgrade.bootOther (S:=S) s).1 = false) -> errors_Is err "context.Canceled" = true))
  end.

(** A step before the daemon serves that failed, and what the daemon then says. *)
Inductive start_failure (root : string) (f : flags) (client : string) (l : list idcall)
    : string -> Prop :=
| no_root err : DMkdirAll root (Some err) ∈ l ->
    start_failure root f client l "failed to create root directory"
| no_manager s err : DMkdirAll root None ∈ l ->
    result (getIdentityMgr root (fl_debug f)) s = Err err ->
    start_failure root f client l "failed to create identity manager"
| no_upgrader s err : DMkdirAll root None ∈ l ->
    result (Upgrade.NewUpgrader (S:=S) root
      [Upgrade.NoZosUpgrade (fl_debug f); Upgrade.ZbusClient client]) s = Err err ->
    start_failure root f client l "failed to initialize upgrader"
| no_server err : DServer (Some err) ∈ l ->
    start_failure root f client l "fail to connect to message broker server".

(** The run of the upgrader [u] from [s'] is the last thing a program with these calls and
    this final state did; before it the daemon was serving, and [u] was made for [root]. *)
Definition run_of (n : nat) (root : string) (f : flags) (client : string)
    (u : Upgrade.Upgrader) (s' : S) (l : list idcall) (after : S) : Prop :=
  exists s0 pre1 pre2,
    let new := Upgrade.NewUpgrader root [Upgrade.NoZosUpgrade (fl_debug f); Upgrade.ZbusClient client] in
    result new s0 = Val u /\
    l = pre1 ++ map DUpgrade (calls new s0) ++ pre2 ++ map DUpgrade (calls (Upgrade.Run u n) s') /\
    [DServer None; DRegister "manager"; DRegister "monitor"; DGoServe] `sublist_of` pre2 /\
    after = final (Upgrade.Run u n) s'.

Lemma upgrader_end_of_run u n (s : S) :
  end_of_run (result (Upgrade.Run u n) s) (upgrader_end (result (Upgrade.Run u n) s)).
Proof.
  destruct (result (Upgrade.Run u n) s) as [[[err|]|]|] eqn:Hr; simpl; [|done..].
  destruct (errors_Is err _) eqn:He; [by left|]. right. split_and!; [done..|]. intros Hb.
  destruct (Run_exits u n s err Hb Hr) as [Hx|Hx]; [congruence|done].
Qed.

(** From the connection to the bus on. *)
Lemma serve_identity_end n u (s : S) :
  let m := serve_identity n u in
  (exists err, calls m s = [DServer (Some err)] /\
     result m s = Fatal "fail to connect to message broker server") \/
  (exists pre s', calls m s = pre ++ map DUpgrade (calls (Upgrade.Run u n) s') /\
     [DServer None; DRegister "manager"; DRegister "monitor"; DGoServe] `sublist_of` pre /\
     final m s = final (Upgrade.Run u n) s' /\
     end_of_run (result (Upgrade.Run u n) s') (result m s)).
Proof.
  simpl. unfold serve_identity, must.
  rewrite !calls_bind, !result_bind, !final_bind, calls_peek, result_act, final_act, calls_act. simpl app.
  destruct (daServer _).1 as [err|] eqn:Ed.
  { left. exists err. by rewrite calls_ret, result_ret. }
  right. rewrite !calls_bind, !result_bind, !final_bind, !calls_embed, !result_embed, !final_embed,
    calls_ret, result_ret, final_ret, app_nil_r.
  set (s2 := final (do_ DGoServe) _). set (s' := final manageSSHKeys s2).
  exists ([DServer None; DRegister "manager"; DRegister "monitor"; DGoServe] ++
    map DIdentity (calls manageSSHKeys s2)), s'.
  split; [done|]. split; [by apply sublist_inserts_r|]. split; [done|apply upgrader_end_of_run].
Qed.

Lemma getIdentityMgr_quiet root debug (s : S) : DGoServe ∉ calls (getIdentityMgr root debug) s.
Proof.
  unfold getIdentityMgr. rewrite calls_bind. intros [Hin|Hin]%elem_of_app; revert Hin.
  - by apply embed_not_in.
  - destruct (result _ _); run; [destruct (environmentGet _).1|]; run; by intros ?%elem_of_nil.
Qed.


(** *** The version stream *)
Definition sent (l : list mocall) : list string :=
  omap (fun c => match c with MoSend v => Some v | _ => None end) l.

(** The version monitor sends nothing but the version it was made with. *)
Theorem monitor_constant {T} d v n (s : T) :
  sent (calls (Version (newVersionMonitor d v) n) s) = replicate (Datatypes.S n) v.
Proof.
  assert (forall s : T, sent (calls (version_rounds (newVersionMonitor d v) n) s) = replicate n v) as Hr.
  { induction n as [|n IH]; intros s'; [done|]. cbn [version_rounds].
    rewrite !calls_bind. unfold sent in *. simpl. f_equal. apply IH. }
  unfold Version. rewrite calls_bind. unfold sent in *. simpl. f_equal. apply Hr.
Qed.
End identityd.
