(* ===== verification/Vmd.v ===== *)
(** * The virtual machine daemon (cmds/modules/vmd/main.go)

    Before vmd serves its module it moves the configurations of the machines that run
    from the persistent to the volatile directory, if any machine runs, and removes
    the old directory.  [filepath.Walk] is modelled as far as the callback of
    [copyDepth1] lets it go: the root and its entries. *)

From S2P Require Import Prelude Paths Daemon.

Inductive vcall :=
| VMkdirAll (path : string) (r : option error)
| VClient (r : option error)
| VServer (r : option error)
| VVolatileDir (path : string) (r : option error)
| VModule (root config : string) (r : option error)
| VList (r : res (list string))
| VLstat (path : string) (r : res bool)
| VReadDir (path : string) (r : res (list string))
| VOpen (path : string) (r : option error)
| VCreate (path : string) (r : option error)
| VCopy (src dst : string) (r : option error)
| VRemoveAll (path : string) (r : option error)
| VRegister (name : string)
| VMonitor
| VServe (r : option error).

Class VmdEnv (S : Type) := {
  vmMkdirAll : string -> S -> option error * S;
  vmClient : S -> option error * S;
  vmServer : S -> option error * S;
  (* cache.VolatileDir: the directory also comes with the error that it exists *)
  vmVolatileDir : S -> (string * option error) * S;
  vmModule : string -> string -> S -> option error * S;
  vmList : S -> res (list string) * S;
  vmLstat : string -> S -> res bool * S; (* whether it is a directory *)
  vmReadDir : string -> S -> res (list string) * S; (* readDirNames, sorted *)
  vmOpen : string -> S -> option error * S;
  vmCreate : string -> S -> option error * S;
  vmCopy : string -> string -> S -> option error * S;
  vmRemoveAll : string -> S -> option error * S;
  vmServe : S -> option error * S;
  vmIsExist : error -> bool;
  vmIsNotExist : error -> bool;
  vmIsCanceled : error -> bool;
  ConfigDir : string }.

Section vmd.
Context {S : Type} `{!VmdEnv S}.
Notation P A := (M S vcall A).

(** ** The copy of a directory *)
(** What a [WalkFunc] answers. *)
Inductive walked := WalkOk | SkipDir | WalkErr (err : error).

Definition copy_file (dst path : string) : P walked :=
  err <- act (vmOpen path) (VOpen path) ;;
  match err with
  | Some err => ret (WalkErr err)
  | None =>
      let dstPath := Join [dst; Base path] in
      err <- act (vmCreate dstPath) (VCreate dstPath) ;;
      match err with
      | Some err => ret (WalkErr err)
      | None =>
          err <- act (vmCopy path dstPath) (VCopy path dstPath) ;;
          ret (match err with Some err => WalkErr err | None => WalkOk end)
      end
  end.

(** The callback of [copyDepth1]. *)
Definition visit (src dst path : string) (dir : bool) (err : option error) : P walked :=
  match err with
  | Some err => ret (WalkErr err)
  | None =>
      if dir && bool_decide (src = path) then ret WalkOk
      else if dir then ret SkipDir
      else copy_file dst path
  end.

(** [walk] on an entry, none of whose own entries are visited. *)
Definition walk_entry (src dst path : string) (dir : bool) : P walked :=
  if negb dir then visit src dst path false None
  else
    names <- act (vmReadDir path) (VReadDir path) ;;
    visit src dst path true (match names with Err err => Some err | Val _ => None end).

(** The loop of [walk] over the entries of the root. *)
Fixpoint walk_entries (src dst : string) (names : list string) : P walked :=
  match names with
  | [] => ret WalkOk
  | name :: names =>
      let path := Join [src; name] in
      info <- act (vmLstat path) (VLstat path) ;;
      match info with
      | Err err =>
          r <- visit src dst path false (Some err) ;;
          match r with WalkErr err => ret (WalkErr err) | _ => walk_entries src dst names end
      | Val dir =>
          r <- walk_entry src dst path dir ;;
          match r with
          | WalkOk => walk_entries src dst names
          | SkipDir => if (dir : bool) then walk_entries src dst names else ret SkipDir
          | WalkErr err => ret (WalkErr err)
          end
      end
  end.

Definition walk_root (src dst : string) : P walked :=
  info <- act (vmLstat src) (VLstat src) ;;
  match info with
  | Err err => visit src dst src false (Some err)
  | Val dir =>
      if negb dir then visit src dst src false None
      else
        names <- act (vmReadDir src) (VReadDir src) ;;
        match names with
        | Err err => visit src dst src true (Some err)
        | Val names =>
            r <- visit src dst src true None ;;
            match r with WalkOk => walk_entries src dst names | r => ret r end
        end
  end.

Definition copyDepth1 (src dst : string) : P (option error) :=
  r <- walk_root src dst ;;
  ret (match r with WalkErr err => Some err | _ => None end).

(** ** The daemon *)
(** The old configuration is moved when machines run, and removed in any case. *)
Definition move_config (moduleRoot config : string) (k : P ending) : P ending :=
  let oldConfig := Join [moduleRoot; ConfigDir] in
  must_val (failed "failed to list running vms") (act vmList VList) (fun vms =>
  (if bool_decide (vms = []) then ret tt else copyDepth1 oldConfig config ;;; ret tt) ;;;
  act (vmRemoveAll oldConfig) (VRemoveAll oldConfig) ;;;
  k).

Definition serve_module : P ending :=
  do_ (VRegister "manager") ;;;
  do_ VMonitor ;;;
  err <- act vmServe VServe ;;
  ret (Returned (match err with
                 | Some err => if vmIsCanceled err then None else Some (Wrapped "unexpected error" err)
                 | None => None
                 end)).

Definition action (moduleRoot : string) : P ending :=
  must (fun _ => Fatal "Failed to create module root")
    (act (vmMkdirAll moduleRoot) (VMkdirAll moduleRoot)) (
  must (failed "failed to connect to message broker") (act vmClient VClient) (
  must (failed "fail to connect to message broker server") (act vmServer VServer) (
  '(config, err) <- act vmVolatileDir (fun r => VVolatileDir r.1 r.2) ;;
  match (match err with Some err => if vmIsExist err then None else Some err | None => None end) with
  | Some err => ret (failed "failed to create vmd volatile storage" err)
  | None =>
      must (failed "failed to create a new instance of manager")
        (act (vmModule moduleRoot config) (VModule moduleRoot config))
        (move_config moduleRoot config serve_module)
  end))).

(** ** What a copy copies *)
(** Every path found to be no directory was copied to its place under [dst]. *)
Definition copied (dst : string) (l : list vcall) : Prop :=
  forall path, VLstat path (Val false) ∈ l -> VCopy path (Join [dst; Base path]) None ∈ l.

Lemma copied_app dst l k : copied dst l -> copied dst k -> copied dst (l ++ k).
Proof. intros Hl Hk path. rewrite !elem_of_app. intros [Hx|Hx]; [left|right]; auto. Qed.
Lemma copied_none dst l : Forall (fun c => match c with VLstat _ _ => False | _ => True end) l -> copied dst l.
Proof. intros Hl path Hx. rewrite Forall_forall in Hl. by apply Hl in Hx. Qed.

Lemma copy_file_calls dst path :
  all_calls (fun c => match c with VLstat _ _ => False | _ => True end) (copy_file dst path).
Proof. unfold copy_file. every_call. Qed.
Lemma copy_file_ok dst path s :
  result (copy_file dst path) s = WalkOk ->
  VCopy path (Join [dst; Base path]) None ∈ calls (copy_file dst path) s.
Proof.
  unfold copy_file. run. destruct (vmOpen _ _).1; run; [done|].
  destruct (vmCreate _ _).1; run; [done|]. destruct (vmCopy _ _ _).1; run; [done|set_solver].
Qed.
Lemma copy_file_no_skip dst path s : result (copy_file dst path) s <> SkipDir.
Proof.
  unfold copy_file. run. destruct (vmOpen _ _).1; run; [done|].
  destruct (vmCreate _ _).1; run; [done|]. by destruct (vmCopy _ _ _).1.
Qed.

(** One entry: a file is copied, a directory is left aside. *)
Lemma walk_entry_spec src dst path dir s :
  let m := walk_entry src dst path dir in
  (result m s = SkipDir -> dir = true) /\
  copied dst (calls m s) /\
  (dir = false -> result m s = WalkOk -> VCopy path (Join [dst; Base path]) None ∈ calls m s).
Proof.
  intros m. unfold m, walk_entry, visit. destruct dir; simpl.
  - split; [done|]. split; [|done]. rewrite calls_bind, calls_act. apply copied_none.
    constructor; [done|]. destruct (result _ _); [|by rewrite calls_ret].
    destruct (bool_decide _); simpl; by rewrite calls_ret.
  - split; [by intros ?%copy_file_no_skip|].
    split; [apply copied_none, copy_file_calls|intros _; apply copy_file_ok].
Qed.

Lemma walk_entries_spec src dst names s :
  let m := walk_entries src dst names in
  result m s <> SkipDir /\
  (result m s = WalkOk -> copied dst (calls m s) /\
     forall name, name ∈ names -> exists dir, VLstat (Join [src; name]) (Val dir) ∈ calls m s).
Proof.
  intros m. unfold m. clear m. revert s. induction names as [|name names IH]; intros s; cbn [walk_entries].
  { split; [done|]. intros _. split; [by apply copied_none|]. by intros ? ?%elem_of_nil. }
  set (path := Join [src; name]).
  rewrite result_bind, calls_bind, calls_act, result_act. set (s1 := final _ s).
  destruct (vmLstat path s).1 as [dir|err]; [|by run].
  rewrite result_bind, calls_bind. destruct (walk_entry_spec src dst path dir s1) as (Hskip & Hcop & Hok).
  set (s2 := final _ s1). destruct (IH s2) as [Hns Hall].
  destruct (result (walk_entry _ _ _ _) s1) as [| |err] eqn:Hr; [| |by run].
  - split; [done|]. intros Hw. destruct (Hall Hw) as [Hc Hn]. split.
    + intros p. rewrite !elem_of_app, elem_of_cons. intros [[Hp|[]%elem_of_nil]|[Hp|Hp]]; [|right; left; auto|right; right; auto].
      injection Hp as -> <-. right. left. by apply Hok.
    + intros n [->|Hin]%elem_of_cons; [exists dir; set_solver|].
      destruct (Hn n Hin) as [d Hd]. exists d. set_solver.
  - specialize (Hskip eq_refl). subst dir. split; [done|]. intros Hw. destruct (Hall Hw) as [Hc Hn]. split.
    + intros p. rewrite !elem_of_app, elem_of_cons.
      intros [[Hp|[]%elem_of_nil]|[Hp|Hp]]; [discriminate Hp|right; left; auto|right; right; auto].
    + intros n [->|Hin]%elem_of_cons; [exists true; set_solver|].
      destruct (Hn n Hin) as [d Hd]. exists d. set_solver.
Qed.

(** A copy that succeeds copied every file of the directory, and only its directories were
    left aside. *)
Theorem copyDepth1_copies src dst names s :
  let m := copyDepth1 src dst in
  result m s = None -> (vmLstat src s).1 = Val true ->
  (vmReadDir src (vmLstat src s).2).1 = Val names ->
  copied dst (calls m s) /\
  forall name, name ∈ names -> exists dir, VLstat (Join [src; name]) (Val dir) ∈ calls m s.
Proof.
  intros m. unfold m, copyDepth1, walk_root. clear m.
  rewrite !result_bind, !calls_bind, !calls_ret, !result_act, !final_act, calls_act.
  intros Hr Hdir Hnames. revert Hr. rewrite Hdir. simpl.
  rewrite !result_bind, !calls_bind, !result_act, !final_act, calls_act, Hnames.
  unfold visit. rewrite bool_decide_eq_true_2 by done. simpl.
  rewrite !result_bind, !calls_bind, !result_ret, !final_ret, calls_ret.
  set (s2 := (vmReadDir _ _).2). destruct (walk_entries_spec src dst names s2) as [Hns Hall].
  destruct (result (walk_entries _ _ _) s2) as [| |err] eqn:Hw; [|done|done]. intros _.
  destruct (Hall eq_refl) as [Hc Hn]. split.
  - rewrite !app_nil_r. apply (copied_app dst [_]); [|apply (copied_app dst [_])].
    + intros p [Hp|[]%elem_of_nil]%elem_of_cons. discriminate Hp.
    + by apply copied_none; repeat constructor.
    + done.
  - intros name Hin. destruct (Hn name Hin) as [dir Hd]. exists dir. set_solver.
Qed.

(** ** When the old configuration is removed *)
Definition not_removed (c : vcall) : Prop := match c with VRemoveAll _ _ => False | _ => True end.

Lemma copyDepth1_not_removed src dst : all_calls not_removed (copyDepth1 src dst).
Proof.
  unfold copyDepth1, walk_root. every_call; unfold visit, copy_file; every_call.
  match goal with |- all_calls _ (walk_entries _ _ ?names) => induction names end; simpl; every_call.
  all: unfold walk_entry, visit, copy_file; every_call.
Qed.

Lemma removal_reached old r s :
  let m := act (vmRemoveAll old) (VRemoveAll old) ;;; serve_module in
  VRemoveAll old r ∈ calls m s -> exists k, calls m s = [VRemoveAll old r] ++ k.
Proof.
  intros m. unfold m. rewrite calls_bind, calls_act. intros [[= ->]|Hr]%elem_of_cons; [by eexists|].
  exfalso. revert Hr. unfold serve_module. avoids not_removed.
Qed.

(** The old configuration is removed only after the volatile directory was there and the
    module could list its machines; unless no machine runs, a whole copy of the
    configuration into the volatile directory comes right before the removal, whatever
    became of it. *)
Theorem config_moved moduleRoot r s :
  let old := Join [moduleRoot; ConfigDir] in
  VRemoveAll old r ∈ calls (action moduleRoot) s ->
  exists config e vms,
    preceded [VVolatileDir config e; VModule moduleRoot config None; VList (Val vms)]
      (VRemoveAll old r) (calls (action moduleRoot) s) /\
    (vms = [] \/ exists s', goes_through (calls (copyDepth1 old config) s' ++ [VRemoveAll old r])
                              (calls (action moduleRoot) s)).
Proof.
  intros old Hr. unfold action in *. do 3 pass Hr. apply bind_reaches in Hr as (Hr & ->); [|passes].
  destruct (result (act vmVolatileDir _) _) as [config e] eqn:Hv.
  destruct (match e with Some _ => _ | None => _ end); [none_left Hr|].
  apply must_reaches in Hr as (Hmod & Hr & ->); [|passes]. unfold move_config in *. fold old in Hr |- *.
  apply must_val_reaches in Hr as (vms & Hvms & Hr & ->); [|passes].
  assert (VRemoveAll old r ∉ calls (if bool_decide (vms = []) then ret tt
    else copyDepth1 old config ;;; ret tt)
    (final (act vmList VList) (final (act (vmModule moduleRoot config) (VModule moduleRoot config))
       (final (act vmVolatileDir (fun r => VVolatileDir r.1 r.2))
          (final (act vmServer VServer) (final (act vmClient VClient)
             (final (act (vmMkdirAll moduleRoot) (VMkdirAll moduleRoot)) s))))))) as Hno.
  { apply (all_calls_not_in not_removed); [|exact id]. pose proof (copyDepth1_not_removed old config).
    destruct (bool_decide _); every_call. }
  apply bind_reaches in Hr as (Hr & ->); [|done]. clear Hno.
  apply removal_reached in Hr as [k ->].
  exists config, e, vms. split.
  - do 3 apply preceded_skip. apply preceded_take; [change (config, e).1 with config|].
    { pose proof (act_made _ _ _ _ Hv) as Hm. exact Hm. }
    do 2 (apply preceded_take; [by apply act_made|]). apply preceded_skip, preceded_here.
  - case_bool_decide as Hvm; [by left|right].
    rewrite (calls_bind (copyDepth1 old config)), calls_ret, app_nil_r.
    eexists. do 6 apply goes_through_l. rewrite app_assoc. apply goes_through_here.
Qed.
End vmd.
