(* ===== verification/Modules.v ===== *)
(** * The zos binary and its smaller daemons

    cmds/zos/main.go, which runs one of the modules of cmds/modules by the name it is
    called by, and the daemons that only wire a component of zosbase to the message
    bus: storaged, flistd, contd, gateway, netlightd and api_gateway.  What these
    components do is not part of the repository: a daemon is the trace of what it
    builds, starts, registers and serves.  The waits for a binary and the restarts of
    a server are bounded by [n]; a daemon that still waits then is [Blocked]. *)

From stdpp Require Import pretty.
From S2P Require Import Prelude Paths Daemon.

(** ** The binary *)
Definition Commands : list string :=
  ["zui"; "storaged"; "flistd"; "contd"; "vmd"; "noded"; "netlightd"; "provisiond"; "zbusdebug";
   "gateway"; "powerd"; "api-gateway"].

(** The loop over the commands, which leaves at the first whose name fits. *)
Fixpoint find_command (name : string) (rest args : list string) (commands : list string) : list string :=
  match commands with
  | [] => args
  | cmd :: commands =>
      if bool_decide (cmd = name) then ["bin"; name] ++ rest else find_command name rest args commands
  end.

(** The arguments the application runs with; [None] is the panic without a first one. *)
Definition app_args (args : list string) : option (list string) :=
  match args with
  | [] => None
  | prog :: rest => Some (find_command (Base prog) rest args Commands)
  end.

(** What [--list] prints. *)
Definition list_commands (visible : list string) : list string := filter (fun name => name <> "help") visible.

Lemma find_command_spec name rest args commands :
  find_command name rest args commands =
  if bool_decide (name ∈ commands) then ["bin"; name] ++ rest else args.
Proof.
  induction commands as [|cmd commands IH]; cbn [find_command].
  { by rewrite bool_decide_eq_false_2 by apply not_elem_of_nil. }
  rewrite IH, (bool_decide_ext (name ∈ cmd :: commands) (cmd = name \/ name ∈ commands)).
  2:{ rewrite elem_of_cons. naive_solver. }
  repeat case_bool_decide; naive_solver.
Qed.

(** A link to the binary runs the module it is named after, with all its arguments; under
    any other name the arguments are left as they are. *)
Theorem app_args_link prog rest :
  app_args (prog :: rest) =
  Some (if bool_decide (Base prog ∈ Commands) then ["bin"; Base prog] ++ rest else prog :: rest).
Proof. unfold app_args. by rewrite find_command_spec. Qed.

(** ** The daemons *)
Inductive mcall :=
| MLookPath (bin : string) (missing : bool)
| MMkdirAll (path : string) (r : option error)
| MServer (r : option error)
| MClient (r : option error)
| MNew (what : string) (args : list string) (r : option error)
| MPrivateKey
| MBridgeValid (r : option error)
| MOpenRules (r : option error)
| MNftApply (r : option error)
| MNdmz (r : option error)
| MBridgeExists (bridge : string) (r : bool)
| MBridgeNew (bridge : string) (r : option error)
| MIfaceExists (iface : string) (r : bool)
| MVethPair (iface bridge : string) (r : option error)
| MMycelium (iface : string) (r : option error)
| MGo (what : string)
| MRegister (name : string) (r : option error)
| MGetFarm (id : Z) (r : res Z)
| MSetupRoutes
| MServe (r : option error)
| MDone.

Class ModuleEnv (S : Type) := {
  mdMissing : string -> S -> bool * S; (* exec.LookPath answers an error *)
  mdMkdirAll : string -> S -> option error * S;
  mdServer : S -> option error * S;
  mdClient : S -> option error * S;
  mdNew : string -> list string -> S -> option error * S;
  mdPrivateKey : S -> string * S;
  mdBridgeValid : S -> option error * S;
  mdOpenRules : S -> option error * S;
  mdNftApply : S -> option error * S;
  mdNdmz : S -> option error * S;
  mdBridgeExists : string -> S -> bool * S;
  mdBridgeNew : string -> S -> option error * S;
  mdIfaceExists : string -> S -> bool * S;
  mdVethPair : string -> string -> S -> option error * S;
  mdMycelium : string -> string -> S -> option error * S;
  mdRegister : string -> S -> option error * S;
  mdMustGet : S -> option Z * S; (* the farm id of the environment; [None] is a panic *)
  mdGetFarm : Z -> S -> res Z * S; (* its twin *)
  mdServe : S -> option error * S;
  mdIsCanceled : error -> bool; (* err == context.Canceled *)
  mdFlag : string -> string; (* cli.String, for the daemon that runs *)
  mdIsCleaner : bool; (* the flist module is a Cleaner *)
  mdEdToX25519 : string -> string; (* the seed of a private key, x25519.EdPrivateKeyToX25519 *)
  HostMyceliumBr : string }.

Section modules.
Context {S : Type} `{!ModuleEnv S}.
Notation P A := (M S mcall A).

Definition redis_server : P (option error) := act mdServer MServer.
Definition redis_client : P (option error) := act mdClient MClient.
Definition new (what : string) (args : list string) : P (option error) := act (mdNew what args) (MNew what args).
Definition mkdir (path : string) : P (option error) := act (mdMkdirAll path) (MMkdirAll path).
Definition register (name : string) : P (option error) := act (mdRegister name) (MRegister name).

(** [backoff.RetryNotify] without an end, until the binary is found; whether it was. *)
Definition wait_binary (n : nat) (bin : string) : P bool :=
  wait_cleared (act (mdMissing bin) (MLookPath bin)) n.

(** The end of a daemon: the server runs, and only the end of the context is no error. *)
Definition serve : P ending :=
  err <- act mdServe MServe ;;
  ret (match err with
       | Some err => if mdIsCanceled err then Returned None else failed "unexpected error" err
       | None => Returned None
       end).

(** *** storaged *)
Definition storaged_action : P ending :=
  must (failed "failed to initialize storage module") (new "storage" []) (
  must (failed "fail to connect to message broker server") redis_server (
  register "storage" ;;;
  serve)).

(** *** flistd *)
Definition flistd_action : P ending :=
  must (failed "fail to connect to message broker server") redis_client (
  must (failed "fail to connect to message broker server") redis_server (
  new "flist" [mdFlag "root"] ;;;
  register "flist" ;;;
  (if mdIsCleaner then do_ (MGo "CacheCleaner") else ret tt) ;;;
  serve)).

(** *** contd *)
Definition contd_flags : list string := ["root"; "broker"; "congainerd"; "workers"].

Definition contd_action (n : nat) : P ending :=
  let moduleRoot := mdFlag "root" in
  let containerdCon := mdFlag "containerd" in
  found <- wait_binary n "shim-logs" ;;
  if negb found then ret Blocked
  else
  must (failed "fail to create module root") (mkdir moduleRoot) (
  must (failed "fail to connect to message broker server") redis_server (
  must (failed "fail to connect to message broker server") redis_client (
  new "container" [moduleRoot; containerdCon] ;;;
  register "container" ;;;
  do_ (MGo "Watch") ;;;
  serve))).

(** *** gateway *)
Definition gateway_action : P ending :=
  must (failed "fail to connect to message broker server") redis_server (
  must (failed "failed to connect to zbus broker") redis_client (
  must (failed "failed to construct gateway object") (new "gateway" [mdFlag "root"]) (
  register "manager" ;;;
  serve))).

(** *** netlightd *)
Definition waitMyceliumBin (n : nat) : P bool := wait_binary n "mycelium".
Definition myceliumSeedFromIdentity (privKey : string) : string := mdEdToX25519 privKey.
Definition hostMyCelium : string := "hmycelium".

(** The rules of the host and the bridge of the NDMZ. *)
Definition host_network (k : P ending) : P ending :=
  must (fun _ => Returned (Some (Fresh "failed to load rules.nft file"))) (act mdOpenRules MOpenRules) (
  must (failed "failed to apply host nft rules") (act mdNftApply MNftApply) (
  must (failed "failed to create ndmz bridge") (act mdNdmz MNdmz) k)).

(** A bridge, and the link of mycelium on it, are made only when they are not there. *)
Definition make_bridge : P (option error) :=
  there <- act (mdBridgeExists HostMyceliumBr) (MBridgeExists HostMyceliumBr) ;;
  if (there : bool) then ret None else act (mdBridgeNew HostMyceliumBr) (MBridgeNew HostMyceliumBr).
Definition make_link : P (option error) :=
  there <- act (mdIfaceExists hostMyCelium) (MIfaceExists hostMyCelium) ;;
  if (there : bool) then ret None
  else act (mdVethPair hostMyCelium HostMyceliumBr) (MVethPair hostMyCelium HostMyceliumBr).

Definition host_mycelium (k : P ending) : P ending :=
  must (failed ("could not create bridge " +:+ HostMyceliumBr)) make_bridge (
  must (failed "failed to create mycelium link") make_link (
  sk <- act mdPrivateKey (fun _ => MPrivateKey) ;;
  must (failed "failed to setup mycelium on host")
    (act (mdMycelium hostMyCelium (myceliumSeedFromIdentity sk)) (MMycelium hostMyCelium)) k)).

Definition netlightd_action (n : nat) : P ending :=
  must (failed "fail to create module root") (mkdir (mdFlag "root")) (
  found <- waitMyceliumBin n ;;
  if negb found then ret Blocked
  else
  must (failed "invalid setup") (act mdBridgeValid MBridgeValid) (
  must (failed "failed to connect to zbus broker") redis_client (
  must (failed "failed to connect to zbus broker") redis_server (
  host_network (host_mycelium (
  must (failed "failed to create Networker") (new "networker" []) (
  must (failed "failed to register network light module") (register "netlight")
  serve))))))).

(** *** api_gateway *)
(** The server runs beside the daemon, again after each error but the end of the
    context; whether it ended within [n] runs. *)
Fixpoint serve_loop (n : nat) : P bool :=
  match n with
  | 0 => ret false
  | Datatypes.S n =>
      err <- act mdServe MServe ;;
      match err with
      | Some err => if mdIsCanceled err then ret true else serve_loop n
      | None => ret true
      end
  end.

(** Until the context is done. *)
Definition api_gateway_action : P ending :=
  must (failed "fail to connect to message broker server") redis_server (
  must (failed "fail to connect to message broker server") redis_client (
  act mdPrivateKey (fun _ => MPrivateKey) ;;;
  must (failed "failed to create api gateway") (new "registrar-gateway" []) (
  register "api-gateway" ;;;
  do_ (MGo "serve_loop") ;;;
  env <- peek mdMustGet ;;
  match env with
  | None => ret Panicked
  | Some farm =>
      must_val (failed "failed to get farm") (act (mdGetFarm farm) (MGetFarm farm)) (fun twin =>
      must (failed "failed to create zos api") (new "zosapi" [pretty (uint32 twin)]) (
      do_ MSetupRoutes ;;;
      do_ MDone ;;;
      ret (Returned None)))
  end))).

(** ** What is done before a daemon serves *)
Inductive daemon := Storaged | Flistd | Contd | GatewayDaemon | Netlightd.

Definition daemon_action (n : nat) (d : daemon) : P ending :=
  match d with
  | Storaged => storaged_action
  | Flistd => flistd_action
  | Contd => contd_action n
  | GatewayDaemon => gateway_action
  | Netlightd => netlightd_action n
  end.

(** The calls a daemon has made, in this order, when it serves; [e] and [e'] are errors
    that are not looked at. *)
Definition made_before (d : daemon) (e e' : option error) : list mcall :=
  match d with
  | Storaged => [MNew "storage" [] None; MServer None; MRegister "storage" e']
  | Flistd => [MClient None; MServer None; MNew "flist" [mdFlag "root"] e; MRegister "flist" e']
  | Contd =>
      [MLookPath "shim-logs" false; MMkdirAll (mdFlag "root") None; MServer None; MClient None;
       MNew "container" [mdFlag "root"; mdFlag "containerd"] e; MRegister "container" e'; MGo "Watch"]
  | GatewayDaemon =>
      [MServer None; MClient None; MNew "gateway" [mdFlag "root"] None; MRegister "manager" e']
  | Netlightd =>
      [MMkdirAll (mdFlag "root") None; MLookPath "mycelium" false; MBridgeValid None; MClient None;
       MServer None; MOpenRules None; MNftApply None; MNdmz None; MMycelium hostMyCelium None;
       MNew "networker" [] None; MRegister "netlight" None]
  end.

Definition not_served (c : mcall) : Prop := match c with MServe _ => False | _ => True end.

(** One step that leads on, remembered or not. *)
Ltac take_step H :=
  first [ apply must_reaches in H as (Hmade & H & ->);
            [|first [solve [passes] | avoids not_served]];
          apply preceded_take; [by apply act_made|]; clear Hmade
        | apply bind_reaches in H as (H & ->); [|first [solve [passes] | avoids not_served]];
          apply preceded_take; [by first [apply act_made | apply do_made]|] ].

Lemma serve_reached r s : MServe r ∈ calls serve s -> preceded [] (MServe r) (calls serve s).
Proof.
  unfold serve. rewrite calls_bind, calls_act. intros [[= ->]|H]%elem_of_cons; [apply preceded_here|].
  none_left H.
Qed.

Lemma wait_binary_found n bin s :
  result (wait_binary n bin) s = true -> MLookPath bin false ∈ calls (wait_binary n bin) s.
Proof. apply wait_cleared_looked. Qed.

Lemma module_served_contd n r s :
  MServe r ∈ calls (contd_action n) s ->
  exists e e', preceded (made_before Contd e e') (MServe r) (calls (contd_action n) s).
Proof.
  unfold contd_action. cbv zeta. intros H. apply bind_reaches in H as (H & ->); [|avoids not_served].
  destruct (result (wait_binary n _) _) eqn:Hw; simpl negb in *; cbv iota in *; [|none_left H].
  eexists _, _. apply preceded_take; [by apply wait_binary_found|].
  do 6 take_step H. by apply serve_reached.
Qed.

Lemma mycelium_link_calls : all_calls not_served make_link /\ all_calls not_served make_bridge.
Proof. split; [unfold make_link|unfold make_bridge]; daemon_calls. Qed.

Lemma module_served_netlightd n r s :
  MServe r ∈ calls (netlightd_action n) s ->
  preceded (made_before Netlightd None None) (MServe r) (calls (netlightd_action n) s).
Proof.
  unfold netlightd_action. intros H. take_step H.
  apply bind_reaches in H as (H & ->); [|avoids not_served].
  destruct (result (waitMyceliumBin n) _) eqn:Hw; simpl negb in *; cbv iota in *; [|none_left H].
  apply preceded_take; [by apply wait_binary_found|]. do 3 take_step H. unfold host_network in *.
  do 3 take_step H. unfold host_mycelium in *. destruct mycelium_link_calls as [Hl Hb].
  apply must_reaches in H as (_ & H & ->); [|apply (all_calls_not_in not_served); [done|exact id]].
  apply must_reaches in H as (_ & H & ->); [|apply (all_calls_not_in not_served); [done|exact id]].
  apply bind_reaches in H as (H & ->); [|passes]. do 3 apply preceded_skip.
  do 3 take_step H. by apply serve_reached.
Qed.

(** When a daemon serves, it has made, in this order, the calls its component needs, and
    those it looks at succeeded: netlightd serves only after the host has its nft rules, the
    NDMZ bridge and mycelium, contd only after the shim was found and the watch was started. *)
Theorem module_served n d r s :
  MServe r ∈ calls (daemon_action n d) s ->
  exists e e', preceded (made_before d e e') (MServe r) (calls (daemon_action n d) s).
Proof.
  intros H. destruct d; simpl in *.
  - unfold storaged_action in *. eexists None, _. do 3 take_step H. by apply serve_reached.
  - unfold flistd_action in *. eexists _, _. do 4 take_step H.
    apply bind_reaches in H as (H & ->); [apply preceded_skip; by apply serve_reached|].
    destruct mdIsCleaner; avoids not_served.
  - by apply module_served_contd.
  - unfold gateway_action in *. eexists None, _. do 4 take_step H. by apply serve_reached.
  - exists None, None. by apply module_served_netlightd.
Qed.

(** ** The connection to containerd *)
Definition built_with (what : string) (args : list string) (c : mcall) : Prop :=
  match c with MNew what' args' _ => what' = what /\ args' = args | _ => True end.

(** The containerd module is always built with an empty address: the flag that is read is
    not the one that is declared. *)
Theorem contd_address n args r s :
  (forall flag, flag ∉ contd_flags -> mdFlag flag = "") ->
  MNew "container" args r ∈ calls (contd_action n) s -> args = [mdFlag "root"; ""].
Proof.
  intros Hf. assert (mdFlag "containerd" = "") as Hc by (apply Hf; unfold contd_flags; set_solver).
  assert (all_calls (built_with "container" [mdFlag "root"; ""]) (contd_action n)) as Hall.
  { unfold contd_action. rewrite Hc. unfold wait_binary, serve. daemon_calls. }
  intros Hin. specialize (Hall s). rewrite Forall_forall in Hall. by apply Hall in Hin as [_ ->].
Qed.

(** ** The host's network *)
(** The bridge of mycelium is made only right after it was found missing. *)
Theorem bridge_new_guard s bridge r :
  MBridgeNew bridge r ∈ calls make_bridge s ->
  bridge = HostMyceliumBr /\ calls make_bridge s = [MBridgeExists bridge false; MBridgeNew bridge r].
Proof.
  unfold make_bridge. run. destruct (mdBridgeExists _ _).1; run; [set_solver|].
  intros [?|[[= -> ->]|[]%elem_of_nil]%elem_of_cons]%elem_of_cons; done.
Qed.

(** ** The api gateway *)
(** The routes of the node api are set up only after the gateway was built and registered,
    its server was started, and the farm could be read, with the twin of the farm as the one
    to trust. *)
Theorem api_routes s :
  MSetupRoutes ∈ calls api_gateway_action s ->
  exists e farm twin,
    preceded [MServer None; MClient None; MNew "registrar-gateway" [] None; MRegister "api-gateway" e;
              MGo "serve_loop"; MGetFarm farm (Val twin); MNew "zosapi" [pretty (uint32 twin)] None]
      MSetupRoutes (calls api_gateway_action s).
Proof.
  intros H. unfold api_gateway_action in *. 
  apply must_reaches in H as (Hsrv & H & ->); [|passes].
  apply must_reaches in H as (Hcl & H & ->); [|passes].
  apply bind_reaches in H as (H & ->); [|passes].
  apply must_reaches in H as (Hnew & H & ->); [|passes].
  apply bind_reaches in H as (H & ->); [|passes].
  apply bind_reaches in H as (H & ->); [|passes].
  apply bind_reaches in H as (H & ->); [|rewrite calls_peek; apply not_elem_of_nil].
  destruct (result (peek mdMustGet) _) as [farm|]; [|none_left H].
  apply must_val_reaches in H as (twin & Htw & H & ->); [|passes].
  apply must_reaches in H as (Hapi & H & ->); [|passes].
  eexists _, farm, twin.
  do 2 (apply preceded_take; [by apply act_made|]). apply preceded_skip.
  do 2 (apply preceded_take; [by apply act_made|]). apply preceded_take; [apply do_made|].
  apply preceded_skip. do 2 (apply preceded_take; [by apply act_made|]).
  rewrite calls_bind. apply preceded_app_r, preceded_here.
Qed.

(** The server of the api gateway is run again after every error but the end of the context,
    and never after it ended without one. *)
Theorem serve_loop_ends n s :
  exists again last, Forall (fun err => mdIsCanceled err = false) again /\
    calls (serve_loop n) s = map (fun err => MServe (Some err)) again ++ last /\
    (if result (serve_loop n) s
     then exists e, last = [MServe e] /\ (forall err, e = Some err -> mdIsCanceled err = true)
     else last = [] /\ length again = n).
Proof.
  revert s. induction n as [|n IH]; intros s; [exists [], []; by run|]. cbn [serve_loop].
  rewrite calls_bind, calls_act, result_bind, result_act, final_act.
  destruct (mdServe s) as [[err|] s']; simpl.
  2:{ exists [], [MServe None]. run. split; [done|]. split; [done|]. by exists None. }
  destruct (mdIsCanceled err) eqn:Hc.
  { exists [], [MServe (Some err)]. run. split; [done|]. split; [done|]. exists (Some err).
    split; [done|]. by intros ? [= <-]. }
  destruct (IH s') as (again & last & Hall & -> & Hr). exists (err :: again), last.
  split; [by constructor|]. split; [done|].
  destruct (result (serve_loop n) s'); [done|]. destruct Hr as [-> <-]. done.
Qed.
End modules.
