(* ===== verification/Provisiond.v ===== *)
(** * The provision daemon

    cmds/modules/provisiond/main.go: [action] checks the metrics, migrates the old
    storage, restores what was used before, builds the engine from the other
    components and starts the loops.  The programs of [Migration], [Capacity],
    [Auth] and [Engine] run inside it, their calls wrapped; a goroutine
    is a call that starts it.  An orphan node blocks forever, and the wait for the
    cache makes at most [n] rounds and then is still waiting: both are [Blocked].
    The type assertion on the public key of an ed25519 key cannot fail. *)

From S2P Require Import Prelude GridTypes Sorting StartupOrder Engine.
From S2P Require Import Gateway Capacity Auth Migration Daemon.

Inductive loop (B : Type) := GoSetter | GoEngine (e : B) | GoHandler | GoReporter.
Arguments GoSetter {B}.
Arguments GoEngine {B}.
Arguments GoHandler {B}.
Arguments GoReporter {B}.

Record Environment_ := MkEnvironment_ { env_Orphan : bool; env_FarmID : Z }.

(** External calls; [B] is the type of a built engine. *)
Inductive dcall (B : Type) :=
| DServer (r : option error)
| DClient (r : option error)
| DReportChecks (path : string) (r : option error)
| DPushErrors (errors : list string) (r : option error)
| DRunIntegrity (r : string * option error)
| DRemoveAll (path : string) (r : option error)
| DCheckFlag (r : bool)
| DMkdirAll (path : string) (r : option error)
| DEnvironment (r : res Environment_)
| DPrivateKey
| DOpenStore (path : string) (r : option error)
| DStat (path : string) (r : option error)
| DOpenFs (path : string) (r : option error)
| DMigration (c : migcall)
| DCleanDeleted (r : option error)
| DCapacityTotal (r : option error)
| DFirstBoot (r : bool)
| DStoreCapacity (r : option error)
| DTwins (r : option error)
| DAuth (c : authcall)
| DTwinByKey (r : res Z)
| DNodeByTwin (twin : Z) (r : res Z)
| DCapacity (c : ccall)
| DEngine (c : ecall)
| DRegister (name : string)
| DInitialize (r : option error)
| DGo (l : loop B)
| DMarkBooted (r : option error)
| DConsumer (r : option error)
| DRemove (path : string)
| DReporter (path : string) (r : option error)
| DServe (r : option error)
| DCloseStore
| DCache (r : res Z).
Arguments DServer {B}.
Arguments DClient {B}.
Arguments DReportChecks {B}.
Arguments DPushErrors {B}.
Arguments DRunIntegrity {B}.
Arguments DRemoveAll {B}.
Arguments DCheckFlag {B}.
Arguments DMkdirAll {B}.
Arguments DEnvironment {B}.
Arguments DPrivateKey {B}.
Arguments DOpenStore {B}.
Arguments DStat {B}.
Arguments DOpenFs {B}.
Arguments DMigration {B}.
Arguments DCleanDeleted {B}.
Arguments DCapacityTotal {B}.
Arguments DFirstBoot {B}.
Arguments DStoreCapacity {B}.
Arguments DTwins {B}.
Arguments DAuth {B}.
Arguments DTwinByKey {B}.
Arguments DNodeByTwin {B}.
Arguments DCapacity {B}.
Arguments DEngine {B}.
Arguments DRegister {B}.
Arguments DInitialize {B}.
Arguments DGo {B}.
Arguments DMarkBooted {B}.
Arguments DConsumer {B}.
Arguments DRemove {B}.
Arguments DReporter {B}.
Arguments DServe {B}.
Arguments DCloseStore {B}.
Arguments DCache {B}.

Class ProvisiondEnv (S : Type) := {
  pdServer : S -> option error * S;
  pdClient : S -> option error * S;
  pdReportChecks : string -> S -> option error * S;
  pdPushErrors : list string -> S -> option error * S;
  (* the daemon again, with --integrity: what it wrote to stderr and its end *)
  pdRunIntegrity : S -> (string * option error) * S;
  pdRemoveAll : string -> S -> option error * S;
  pdCheckFlag : S -> bool * S; (* app.LimitedCache *)
  pdMkdirAll : string -> S -> option error * S;
  pdEnvironment : S -> res Environment_ * S;
  pdPrivateKey : S -> unit * S;
  pdOpenStore : string -> S -> option error * S;
  pdStat : string -> S -> option error * S;
  pdOpenFs : string -> S -> option error * S;
  pdCleanDeleted : S -> option error * S;
  pdCapacityTotal : S -> option error * S;
  pdIsFirstBoot : S -> bool * S;
  pdStoreCapacity : S -> (list Deployment * option error) * S;
  pdTwins : S -> option error * S; (* the cache of NewRegistrarTwins *)
  pdTwinByPubKey : S -> res Z * S;
  pdNodeByTwinID : Z -> S -> res Z * S; (* the NodeID of the node *)
  pdNewConsumer : S -> option error * S;
  pdMarkBooted : S -> option error * S;
  pdRemove : string -> S -> unit * S;
  pdNewReporter : string -> S -> option error * S;
  pdServe : S -> option error * S;
  pdJoin : string -> string -> string; (* filepath.Join *)
  pdIsCanceled : error -> bool; (* err == context.Canceled *)
  (* the setter's [Callback] over its channel, the registrar's keys *)
  pdCallback : Engine.Callback S;
  pdTwinKeys : Twins S;
  pdAdminKeys : registrarAdmins -> Twins S;
  (* the names of zosbase's workload types *)
  QuantumSafeFSType : string;
  NetworkLightType : string;
  ZMachineLightType : string;
  ZLogsType : string;
  pdRangeSet : gset string -> list string;
  pdInitialize : S -> option error * S; (* of the primitives' provisioner *)
  pdCache : S -> res Z * S; (* the size in use on the storage's cache *)
  Max : Z -> Z -> Z; (* of gridtypes, as is Gigabyte *)
  Gigabyte : Z }.

Section provisiond.
Context `{!GridTypes, !SortSlice} {S : Type}.
Context `{!ProvisiondEnv S, !EngineEnv S, !MigrationEnv S, !CapacityEnv S, !AuthEnv S}.
Notation P A := (M S (dcall (NativeEngine S)) A).

Definition metricsStorageDBOld : string := "metrics.bolt".
Definition metricsStorageDB : string := "metrics-diff.bolt".
Definition boltStorageDB : string := "workloads.bolt".
Definition fsStorageDB : string := "workloads".

Definition integrityChecks (rootDir : string) : P (option error) :=
  let path := pdJoin rootDir metricsStorageDB in
  act (pdReportChecks path) (DReportChecks path).

Definition runChecks (rootDir : string) : P (option error) :=
  act (pdPushErrors []) (DPushErrors []) ;;;
  '(stderr, err) <- act pdRunIntegrity DRunIntegrity ;;
  match err with
  | None => ret None
  | Some err =>
      if pdIsCanceled err then ret (Some err)
      else
        let text := ["integrity check failed, resetting rrd db stderr=" +:+ stderr +:+ ": " +:+
                     error_string err] in
        act (pdPushErrors text) (DPushErrors text) ;;;
        let path := pdJoin rootDir metricsStorageDB in
        act (pdRemoveAll path) (DRemoveAll path)
  end.

(** The storage of the old style is migrated and removed. *)
Definition migrate_store (rootDir : string) (k : P ending) : P ending :=
  let fsStoragePath := pdJoin rootDir fsStorageDB in
  err <- act (pdStat fsStoragePath) (DStat fsStoragePath) ;;
  match err with
  | Some _ => k
  | None =>
      must passed_on (act (pdOpenFs fsStoragePath) (DOpenFs fsStoragePath)) (
      must (failed "storage migration failed") (embed DMigration storageMigration) (
      act (pdRemoveAll fsStoragePath) (DRemoveAll fsStoragePath) ;;; k))
  end.

(** The deployments whose capacity is in use, when this is not the first boot. *)
Definition restore_active : P (list Deployment) :=
  first <- act pdIsFirstBoot DFirstBoot ;;
  if (first : bool) then ret []
  else
    '(active, _) <- act pdStoreCapacity (fun r => DStoreCapacity r.2) ;;
    embed DMigration (netResourceMigration active) ;;;
    ret active.

Definition startup_types : list string :=
  [ZMountType; VolumeType; QuantumSafeFSType; NetworkLightType; PublicIPv4Type; PublicIPType;
   ZMachineLightType; ZLogsType].

(** The options of [provision.New]. *)
Definition engine_options (admins : registrarAdmins) (nodeID : Z) (first : bool)
    : list (EngineOption S) :=
  [WithTwins pdTwinKeys; WithAdmins (pdAdminKeys admins); WithAPIGateway nodeID;
   WithStartupOrder pdRangeSet startup_types; WithRerunAll first; WithCallback pdCallback].

(** From the engine to the end: the loops are started and the bus is served. *)
Definition serve_engine (rootDir : string) (e : NativeEngine S) : P ending :=
  do_ (DRegister "provision") ;;;
  do_ (DRegister "statistics") ;;;
  must passed_on (act pdInitialize DInitialize) (
  do_ (DGo (GoEngine e)) ;;;
  act pdMarkBooted DMarkBooted ;;;
  must (failed "failed to create event consumer") (act pdNewConsumer DConsumer) (
  do_ (DGo GoHandler) ;;;
  let old := pdJoin rootDir metricsStorageDBOld in
  act (pdRemove old) (fun _ => DRemove old) ;;;
  let metrics := pdJoin rootDir metricsStorageDB in
  must (failed "failed to setup capacity reporter") (act (pdNewReporter metrics) (DReporter metrics)) (
  do_ (DGo GoReporter) ;;;
  err <- act pdServe DServe ;;
  ret (match err with
       | Some err => if pdIsCanceled err then Returned None
                     else Fatal "zbus provision engine api exited unexpectedly"
       | None => Returned None
       end)))).

(** Once the old storage is out of the way. *)
Definition provision_migrated (rootDir : string) (farmID : Z) : P ending :=
  act pdCleanDeleted DCleanDeleted ;;;
  must (failed "failed to get node capacity") (act pdCapacityTotal DCapacityTotal) (
  active <- restore_active ;;
  must (failed "failed to create substrate users database") (act pdTwins DTwins) (
  must_val (failed "failed to create substrate admins database")
    (embed DAuth (NewRegistrarAdmins (uint64 farmID))) (fun admins =>
  must_val (failed "failed to get node twin id") (act pdTwinByPubKey DTwinByKey) (fun twin =>
  must_val (failed "failed to get node from twin")
    (act (pdNodeByTwinID twin) (DNodeByTwin twin)) (fun nodeID =>
  let queues := pdJoin rootDir "queues" in
  must (failed "failed to create storage for queues") (act (pdMkdirAll queues) (DMkdirAll queues)) (
  embed DCapacity (Set_ active) ;;;
  do_ (DGo GoSetter) ;;;
  first <- act pdIsFirstBoot DFirstBoot ;;
  match New (engine_options admins nodeID first) with
  | None => ret Panicked
  | Some new =>
      must_val (failed "failed to instantiate provision engine") (embed DEngine new)
        (serve_engine rootDir)
  end)))))).

(** With the storage open, which is closed at the end. *)
Definition provision_node (rootDir : string) (farmID : Z) : P ending :=
  migrate_store rootDir (provision_migrated rootDir farmID).

Definition action (n : nat) (rootDir : string) (integrity : bool) : P ending :=
  must (failed "failed to connect to message broker") (act pdServer DServer) (
  must (failed "fail to connect to message broker server") (act pdClient DClient) (
  if integrity then err <- integrityChecks rootDir ;; ret (Returned err)
  else
  must (failed "error running integrity checks") (runChecks rootDir) (
  cleared <- wait_cleared (act pdCheckFlag DCheckFlag) n ;;
  if negb cleared then ret Blocked
  else
  must (failed "failed to create cache directory") (act (pdMkdirAll rootDir) (DMkdirAll rootDir)) (
  must_val (failed "failed to parse node environment") (act pdEnvironment DEnvironment) (fun env =>
  if env_Orphan env then ret Blocked
  else
  act pdPrivateKey (fun _ => DPrivateKey) ;;;
  let store := pdJoin rootDir boltStorageDB in
  must (failed "failed to create local reservation store") (act (pdOpenStore store) (DOpenStore store)) (
  r <- provision_node rootDir (env_FarmID env) ;;
  match r with
  | Fatal _ | Exited _ | Blocked => ret r
  | r => do_ DCloseStore ;;; ret r
  end)))))).

(** What is kept for the node itself, out of the total [available]. *)
Definition getNodeReserved (available : Capacity) : P (res Capacity) :=
  fs <- act pdCache DCache ;;
  match fs with
  | Err err => ret (Err err)
  | Val used =>
      ret (Val (MkCapacity 0 (uint64 used) 0
        (uint64 (Max (uint64 (MRU available * 10) / 100) (uint64 (2 * Gigabyte)))) 0))
  end.

End provisiond.

(** ** The old storage *)
Section theorems.
Context `{!GridTypes, !SortSlice, !SortSliceLaws} {S : Type}.
Context `{!ProvisiondEnv S, !EngineEnv S, !MigrationEnv S, !CapacityEnv S, !AuthEnv S}.

Definition removes (c : dcall (NativeEngine S)) : Prop :=
  match c with DRemoveAll _ _ => False | _ => True end.
Lemma provision_migrated_keeps rootDir farm : all_calls removes (provision_migrated rootDir farm).
Proof.
  unfold provision_migrated, restore_active, serve_engine. daemon_calls.
Qed.

(** The metrics and the old deployments are stored under different paths. *)
Definition paths_differ (rootDir : string) : Prop :=
  pdJoin rootDir metricsStorageDB <> pdJoin rootDir fsStorageDB.

Lemma runChecks_keeps rootDir r s :
  paths_differ rootDir -> DRemoveAll (pdJoin rootDir fsStorageDB) r ∉ calls (runChecks rootDir) s.
Proof.
  intros Hp. unfold paths_differ in Hp. unfold runChecks. run.
  destruct (pdRunIntegrity _).1 as [stderr [err|]]; run; [|set_solver].
  destruct (pdIsCanceled err); run; [set_solver|]. intros Hin.
  repeat (apply elem_of_cons in Hin as [Hin|Hin]; [try discriminate Hin|]).
  - by injection Hin as ? _.
  - by apply elem_of_nil in Hin.
Qed.
Definition is_flag (c : dcall (NativeEngine S)) : Prop :=
  match c with DCheckFlag _ => True | _ => False end.

Lemma migrate_store_removes rootDir k r s :
  all_calls removes k ->
  DRemoveAll (pdJoin rootDir fsStorageDB) r ∈ calls (migrate_store rootDir k) s ->
  exists s', result storageMigration s' = None /\
    goes_through (map DMigration (calls storageMigration s') ++
                  [DRemoveAll (pdJoin rootDir fsStorageDB) r])
      (calls (migrate_store rootDir k) s).
Proof.
  intros Hk Hr0. assert (Hnot : forall s, DRemoveAll (pdJoin rootDir fsStorageDB) r ∉ calls k s).
  { intros s' Hin. specialize (Hk s'). rewrite Forall_forall in Hk. by apply Hk in Hin. }
  unfold migrate_store in *. pass Hr0. rewrite result_act in Hr0 |- *.
  destruct (pdStat _ s).1; [by apply Hnot in Hr0|]. pass Hr0. pass Hr0.
  match goal with H0 : result (embed _ _) ?s' = None |- _ =>
    rewrite result_embed in H0; rewrite (calls_embed DMigration _ s'); exists s' end.
  rewrite calls_bind, calls_act in Hr0. apply elem_of_cons in Hr0 as [Hr0|Hr0]; [|by apply Hnot in Hr0].
  split; [done|]. apply goes_through_l, goes_through_l. injection Hr0 as ->.
  rewrite calls_bind, calls_act, app_assoc. apply goes_through_here.
Qed.

(** The store is closed unless the process was killed or goes on. *)
Lemma close_store_keeps (e : ending) path r s :
  DRemoveAll path r ∉ calls (match e with
    | Fatal _ | Exited _ | Blocked => ret e
    | e => do_ DCloseStore ;;; ret e
    end : M S (dcall (NativeEngine S)) ending) s.
Proof. destruct e; run; intros Hin; repeat (apply elem_of_cons in Hin as [Hin|Hin]; [discriminate Hin|]); by apply elem_of_nil in Hin. Qed.

(** C22: The provision daemon removes the storage of the old style only right after a
    migration that loaded and migrated every deployment of every twin it lists, each before
    it was deleted, except those of a twin whose deployments could not be listed. *)
Theorem old_store_removed n rootDir r s :
  paths_differ rootDir ->
  DRemoveAll (pdJoin rootDir fsStorageDB) r ∈ calls (action n rootDir false) s ->
  exists twins m,
    goes_through (map DMigration m ++ [DRemoveAll (pdJoin rootDir fsStorageDB) r])
      (calls (action n rootDir false) s) /\
    FsTwins (Val twins) ∈ m /\ Forall (twin_migrated m) twins /\ deleted_after [] m.
Proof.
  intros Hp Hr0. set (c := DRemoveAll _ _) in *. unfold action in *. cbv zeta in *.
  pass Hr0. pass Hr0.
  apply must_reaches in Hr0 as (_ & Hr0 & ->); [|by apply runChecks_keeps].
  apply bind_reaches in Hr0 as (Hr0 & ->).
  2:{ avoids is_flag. }
  destruct (result (wait_cleared _ n) _); simpl negb in *; cbv iota in *; [|none_left Hr0].
  pass Hr0. pass Hr0. destruct (env_Orphan _); [none_left Hr0|].
  pass Hr0. pass Hr0. rewrite calls_bind in Hr0 |- *. apply elem_of_app in Hr0 as [Hr0|Hr0].
  2:{ exfalso. revert Hr0. apply close_store_keeps. }
  apply migrate_store_removes in Hr0 as (s' & Hr & Hc); [|apply provision_migrated_keeps].
  apply storageMigration_None in Hr as Ht. destruct Ht as (twins & Hin & Hall).
  exists twins, (calls storageMigration s').
  split; [|split; [done|split; [done|apply storageMigration_deleted_after]]].
  do 8 apply goes_through_l. by apply goes_through_r.
Qed.
End theorems.

(** ** The start of the engine *)

Section engine_start.
Context `{!GridTypes, !SortSlice} {S : Type}.
Context `{!ProvisiondEnv S, !EngineEnv S, !MigrationEnv S, !CapacityEnv S, !AuthEnv S}.

Lemma New_opened opts new (e : NativeEngine S) s :
  New opts = Some new -> result new s = Val e ->
  apply_options opts = Some e /\ QOpen None ∈ calls new s.
Proof.
  unfold New. destruct (apply_options opts) as [e'|]; simpl; [|done]. intros [= <-].
  run. destruct (rerunAll e'); run; destruct (qOpen _).1; run; intros; simplify_eq; set_solver.
Qed.

Definition no_engine (c : dcall (NativeEngine S)) : Prop :=
  match c with DGo (GoEngine _) => False | _ => True end.

Lemma close_store_starts (r : ending) (e : NativeEngine S) s :
  DGo (GoEngine e) ∉ calls (match r with
    | Fatal _ | Exited _ | Blocked => ret r
    | r => do_ DCloseStore ;;; ret r
    end : M S (dcall (NativeEngine S)) ending) s.
Proof. destruct r; run; set_solver. Qed.

Lemma serve_engine_starts root (e e' : NativeEngine S) s :
  DGo (GoEngine e) ∈ calls (serve_engine root e') s ->
  e = e' /\ preceded [DInitialize None] (DGo (GoEngine e)) (calls (serve_engine root e') s).
Proof.
  unfold serve_engine. intros Hgo. do 2 pass Hgo.
  apply must_reaches in Hgo as (Hi & Hgo & ->); [|passes].
  rewrite calls_bind in Hgo |- *. apply elem_of_app in Hgo as [Hgo|Hgo].
  - apply list_elem_of_singleton in Hgo as [= ->]. split; [done|].
    do 2 apply preceded_skip. apply preceded_take; [by apply act_made|]. apply preceded_here.
  - exfalso. revert Hgo. avoids no_engine.
Qed.

(** What comes before the engine starts, once the store is open. *)
Definition node_known (twin nodeID : Z) (first : bool) : list (dcall (NativeEngine S)) :=
  [DCapacityTotal None; DTwins None; DTwinByKey (Val twin); DNodeByTwin twin (Val nodeID);
   DGo GoSetter; DFirstBoot first; DEngine (QOpen None); DInitialize None].

Lemma provision_migrated_starts root farm (e : NativeEngine S) s :
  DGo (GoEngine e) ∈ calls (provision_migrated root farm) s ->
  exists twin nodeID first admins s',
    result (NewRegistrarAdmins (uint64 farm)) s' = Val admins /\
    apply_options (engine_options admins nodeID first) = Some e /\
    preceded (node_known twin nodeID first) (DGo (GoEngine e))
      (calls (provision_migrated root farm) s).
Proof.
  unfold provision_migrated. intros Hgo. pass Hgo.
  apply must_reaches in Hgo as (Hcap & Hgo & ->); [|passes].
  apply bind_reaches in Hgo as (Hgo & ->); [|unfold restore_active; avoids no_engine].
  apply must_reaches in Hgo as (Htwins & Hgo & ->); [|passes].
  apply must_val_reaches in Hgo as (admins & Hadm & Hgo & ->); [|passes].
  apply must_val_reaches in Hgo as (twin & Htwin & Hgo & ->); [|passes].
  apply must_val_reaches in Hgo as (nodeID & Hnode & Hgo & ->); [|passes].
  do 3 pass Hgo. rewrite calls_bind in Hgo |- *.
  apply elem_of_app in Hgo as [Hgo|Hgo]; [by rewrite calls_act in Hgo; set_solver|].
  rewrite result_act in Hgo |- *. set (first := (pdIsFirstBoot _).1) in *.
  destruct (New _) as [new|] eqn:Hnew; [|none_left Hgo].
  apply must_val_reaches in Hgo as (e' & He & Hgo & ->); [|passes].
  rewrite result_embed in He. rewrite result_embed in Hadm. apply serve_engine_starts in Hgo as [<- Hpre].
  destruct (New_opened _ _ _ _ Hnew He) as [Hopts Hopen].
  exists twin, nodeID, first, admins. eexists. split; [exact Hadm|]. split; [done|].
  unfold node_known. apply preceded_skip, preceded_take; [by apply act_made|]. apply preceded_skip.
  apply preceded_take; [by apply act_made|]. apply preceded_skip.
  apply preceded_take; [by apply act_made|]. apply preceded_take; [by apply act_made|].
  do 2 apply preceded_skip.
  apply preceded_take; [apply do_made|].
  apply preceded_take; [rewrite calls_act; set_solver|].
  apply preceded_take; [|done]. rewrite calls_embed. by apply list_elem_of_fmap_2.
Qed.

Lemma migrate_store_reaches root k e s :
  DGo (GoEngine e) ∈ calls (migrate_store root k) s ->
  exists s' pre, DGo (GoEngine e) ∈ calls k s' /\ calls (migrate_store root k) s = pre ++ calls k s'.
Proof.
  intros Hgo. unfold migrate_store in *. pass Hgo.
  destruct (result _ _); [by eexists _, _|]. do 3 pass Hgo. eexists _, _. split; [done|].
  by rewrite !app_assoc.
Qed.

Lemma engine_options_fields admins nodeID first e :
  apply_options (engine_options admins nodeID first) = Some e ->
  withStartupOrder_apply pdRangeSet startup_types (MkStartup Types ∅) = Some (startup e) /\
  e = MkEngine pdTwinKeys (pdAdminKeys admins) (startup e) first nodeID true (Some pdCallback).
Proof.
  unfold apply_options, engine_options. simpl. unfold WithStartupOrder. simpl.
  destruct (withStartupOrder_apply _ _ _) as [st|]; simpl; [|done]. by intros [= <-].
Qed.

(** C21: The provision daemon starts the engine only on a node that is not an orphan, once
    the cache is no longer limited, the store is open, the node's twin and node id were
    found by its key and the provisioners are initialised, in this order; and the engine it
    starts has the registered twins, the farmer as the administrator, this node's id, the
    startup order of the daemon and the capacity callback, and reruns the stored deployments
    exactly on the first boot. *)
Theorem engine_started n root e s :
  DGo (GoEngine e) ∈ calls (action n root false) s ->
  exists env twin node first admins s',
    env_Orphan env = false /\
    result (NewRegistrarAdmins (uint64 (env_FarmID env))) s' = Val admins /\
    preceded
      (DCheckFlag false :: DEnvironment (Val env) :: DOpenStore (pdJoin root boltStorageDB) None ::
       node_known twin node first)
      (DGo (GoEngine e)) (calls (action n root false) s) /\
    withStartupOrder_apply pdRangeSet startup_types (MkStartup Types ∅) = Some (startup e) /\
    e = MkEngine pdTwinKeys (pdAdminKeys admins) (startup e) first node true (Some pdCallback).
Proof.
  intros Hgo. unfold action in *. cbv zeta in *. do 2 pass Hgo.
  apply must_reaches in Hgo as (_ & Hgo & ->); [|unfold runChecks; avoids no_engine].
  apply bind_reaches in Hgo as (Hgo & ->).
  2:{ avoids no_engine. }
  destruct (result (wait_cleared _ n) _) eqn:Hw; simpl negb in *; cbv iota in *;
    [|none_left Hgo].
  pass Hgo. apply must_val_reaches in Hgo as (env & Henv & Hgo & ->); [|passes].
  destruct (env_Orphan env) eqn:Ho; [none_left Hgo|].
  pass Hgo. apply must_reaches in Hgo as (Hst & Hgo & ->); [|passes].
  rewrite calls_bind in Hgo |- *. apply elem_of_app in Hgo as [Hgo|Hgo].
  2:{ exfalso. revert Hgo. apply close_store_starts. }
  unfold provision_node in *. destruct (migrate_store_reaches _ _ _ _ Hgo) as (s1 & pre & Hgo1 & ->).
  apply provision_migrated_starts in Hgo1 as (twin & node & first & admins & s' & Hadm & Hopts & Hpre).
  exists env, twin, node, first, admins, s'. split; [done|]. split; [done|].
  split; [|by apply engine_options_fields in Hopts].
  do 3 apply preceded_skip. apply preceded_take; [by apply wait_cleared_looked|].
  apply preceded_skip. apply preceded_take; [by apply act_made|]. apply preceded_skip.
  apply preceded_take; [by apply act_made|]. by apply preceded_app_r, preceded_skip.
Qed.

(** What the node keeps for itself is a tenth of its memory and at least two gigabytes. *)
Theorem getNodeReserved_memory available (s : S) c :
  (forall a b, Max a b = Z.max a b) -> (0 <= MRU available * 10 < 2 ^ 64)%Z ->
  (0 <= Gigabyte < 2 ^ 63)%Z -> result (getNodeReserved available) s = Val c ->
  MRU c = Z.max (MRU available / 10) (2 * Gigabyte) /\ (2 * Gigabyte <= MRU c)%Z.
Proof.
  intros Hmax Hm Hg. unfold getNodeReserved. run. destruct (pdCache s).1 as [used|err]; run; [|done].
  intros [= <-]. simpl. rewrite Hmax, (uint64_small (2 * _)), (uint64_small (MRU _ * 10)) by lia.
  replace (MRU available * 10 / 100)%Z with (MRU available / 10)%Z.
  2:{ replace 100%Z with (10 * 10)%Z by lia. by rewrite Z.div_mul_cancel_r by lia. }
  assert (0 <= MRU available / 10 < 2 ^ 64)%Z.
  { split; [apply Z.div_pos; lia|]. apply Z.div_lt_upper_bound; lia. }
  rewrite uint64_small by lia. lia.
Qed.
End engine_start.
