(* ===== verification/DebugTools.v ===== *)
(** * The debugging tools (cmds/modules/zbusdebug, cmds/modules/zlf)

    zbusdebug prints the status of one module on the bus or of all of them, in the
    order of a [range] over a Go map, which is a parameter.  zlf forwards what it
    reads from the log socket to a redis channel; its loop is bounded by [n] reads. *)

From stdpp Require Import pretty.
From S2P Require Import Prelude Daemon.

(** ** The status of the modules *)
Definition PossibleModules : list string :=
  ["storage"; "node"; "identityd"; "vmd"; "flist"; "netlight"; "container"; "provision"; "gateway"; "qsfsd"].

Inductive bcall :=
| BClient (r : option error)
| BStatus (module : string) (r : option error).

Class DebugEnv (S : Type) := {
  dbClient : S -> option error * S;
  dbStatus : string -> S -> option error * S }.

Section zbusdebug.
Context {S : Type} `{!DebugEnv S}.
Notation P A := (M S bcall A).

(** What it prints is left out. *)
Definition printModuleStatus (module : string) : P (option error) :=
  act (dbStatus module) (BStatus module).

(** The loop: the error is passed on only when one module is asked. *)
Fixpoint print_all (one : bool) (debug : list string) : P (option error) :=
  match debug with
  | [] => ret None
  | module :: debug =>
      err <- printModuleStatus module ;;
      match err with
      | Some err => if one then ret (Some err) else print_all one debug
      | None => print_all one debug
      end
  end.

(** [order] is the one in which the map is visited. *)
Definition debug_action (module : string) (order : list string) : P ending :=
  must (failed "failed to initialize zbus client") (act dbClient BClient) (
  let run debug := err <- print_all (bool_decide (length debug = 1)) debug ;; ret (Returned err) in
  if bool_decide (module <> "") then
    if bool_decide (module ∈ PossibleModules) then run [module]
    else ret (Returned (Some (Fresh "unknown module")))
  else run order).

Definition asked (l : list bcall) : list string :=
  omap (fun c => match c with BStatus m _ => Some m | _ => None end) l.

Lemma print_all_many debug s :
  result (print_all false debug) s = None /\ asked (calls (print_all false debug) s) = debug.
Proof.
  revert s. induction debug as [|m debug IH]; intros s; [done|]. cbn [print_all].
  rewrite result_bind, calls_bind. unfold printModuleStatus. rewrite result_act, calls_act, final_act.
  destruct (IH (dbStatus m s).2) as [Hr Ha].
  destruct (dbStatus m s).1; (split; [done|exact (f_equal (cons m) Ha)]).
Qed.

(** Without a module all are asked, each once, and no failure is passed on; a known module
    is asked alone and its answer passed on; an unknown one is refused without a question. *)
Theorem debug_action_spec module order s :
  order ≡ₚ PossibleModules -> (dbClient s).1 = None ->
  let s1 := (dbClient s).2 in
  let m := debug_action module order in
  if bool_decide (module = "") then
    result m s = Returned None /\ asked (calls m s) ≡ₚ PossibleModules
  else if bool_decide (module ∈ PossibleModules) then
    result m s = Returned (dbStatus module s1).1 /\ asked (calls m s) = [module]
  else result m s = Returned (Some (Fresh "unknown module")) /\ asked (calls m s) = [].
Proof.
  intros Ho Hc s1 m. unfold m, debug_action, must. cbv zeta.
  rewrite result_bind, calls_bind, result_act, calls_act, final_act, Hc. fold s1.
  destruct (decide (module = "")) as [->|Hm].
  - rewrite (bool_decide_eq_false_2 ("" <> "")), (bool_decide_eq_true_2 ("" = "")) by naive_solver.
    rewrite bool_decide_eq_false_2 by (rewrite (Permutation_length Ho); done).
    rewrite result_bind, calls_bind. destruct (print_all_many order s1) as [-> Ha]. split; [done|].
    rewrite calls_ret, app_nil_r. cbn. unfold asked in Ha. by rewrite Ha.
  - rewrite (bool_decide_eq_true_2 (module <> "")), (bool_decide_eq_false_2 (module = "")) by done.
    case_bool_decide as Hin; [|by run]. cbn [length]. rewrite bool_decide_eq_true_2 by done.
    cbn [print_all]. unfold printModuleStatus. run. destruct (dbStatus module s1).1; by run.
Qed.
End zbusdebug.

(** ** The log forwarder *)
(** [strings.TrimSpace]: the encodings of the white space of Unicode. *)
Definition bytes (l : list nat) : list Ascii.ascii := map Ascii.ascii_of_nat l.
Definition white_space : list (list Ascii.ascii) :=
  map (fun b => bytes [b]) [9; 10; 11; 12; 13; 32] ++
  map bytes ([[194; 133]; [194; 160]; [225; 154; 128]] ++
    map (fun b => [226; 128; b]) [128; 129; 130; 131; 132; 133; 134; 135; 136; 137; 138; 168; 169; 175] ++
    [[226; 129; 159]; [227; 128; 128]]).

Definition strip (white : list (list Ascii.ascii)) (l : list Ascii.ascii) : option (list Ascii.ascii) :=
  head (omap (fun w => if bool_decide (w `prefix_of` l) then Some (drop (length w) l) else None) white).
Fixpoint trim_front (n : nat) (white : list (list Ascii.ascii)) (l : list Ascii.ascii) : list Ascii.ascii :=
  match n with
  | 0 => l
  | Datatypes.S n => match strip white l with Some l => trim_front n white l | None => l end
  end.
Definition trim_bytes (l : list Ascii.ascii) : list Ascii.ascii :=
  let l := trim_front (length l) white_space l in
  reverse (trim_front (length l) (map reverse white_space) (reverse l)).
Definition TrimSpace (s : string) : string :=
  String.string_of_list_ascii (trim_bytes (String.list_ascii_of_string s)).

Example trim_ascii : TrimSpace "  one line  " = "one line". Proof. by vm_compute. Qed.

Lemma strip_some white l l' :
  Forall (fun w => w <> []) white -> strip white l = Some l' ->
  length l' < length l /\ l' `suffix_of` l.
Proof.
  intros Hw Hs. apply head_Some_elem_of in Hs. apply list_elem_of_omap in Hs as (w & Hin & Hs).
  rewrite Forall_forall in Hw. specialize (Hw w Hin). case_bool_decide as Hp; [|done].
  injection Hs as <-. destruct Hp as [k ->]. rewrite drop_app_length, length_app.
  split; [|by exists w]. destruct w; [done|simpl; lia].
Qed.
Lemma strip_none white l w : strip white l = None -> w ∈ white -> ~ w `prefix_of` l.
Proof.
  unfold strip. rewrite head_None. intros Hs Hw Hp.
  assert (drop (length w) l ∈ omap (fun w => if bool_decide (w `prefix_of` l)
    then Some (drop (length w) l) else None) white) as Hin.
  { apply list_elem_of_omap. exists w. by rewrite bool_decide_eq_true_2. }
  rewrite Hs in Hin. by apply elem_of_nil in Hin.
Qed.
Lemma trim_front_spec white n l :
  Forall (fun w => w <> []) white -> length l <= n ->
  trim_front n white l `suffix_of` l /\
  (forall w, w ∈ white -> ~ w `prefix_of` trim_front n white l).
Proof.
  intros Hw. revert l. induction n as [|n IH]; intros l Hl; simpl.
  - split; [done|]. intros w Hin [k Hk]. rewrite Forall_forall in Hw. destruct l; [|simpl in *; lia].
    symmetry in Hk. apply app_eq_nil in Hk as [-> _]. by apply (Hw [] Hin).
  - destruct (strip white l) as [l'|] eqn:Hs; [|split; [done|intros w; by apply strip_none]].
    apply strip_some in Hs as [Hlen Hsuf]; [|done]. destruct (IH l') as [Hs' Hn]; [lia|].
    split; [by etrans|done].
Qed.
Lemma white_space_nonempty :
  Forall (fun w => w <> []) white_space /\ Forall (fun w => w <> []) (map reverse white_space).
Proof. by split; repeat constructor. Qed.

(** [TrimSpace] leaves a part of the line that neither begins nor ends with white space. *)
Theorem TrimSpace_spec l :
  (exists pre post, l = pre ++ trim_bytes l ++ post) /\
  forall w, w ∈ white_space -> ~ w `prefix_of` trim_bytes l /\ ~ w `suffix_of` trim_bytes l.
Proof.
  unfold trim_bytes. cbv zeta. destruct white_space_nonempty as [Hw Hr].
  destruct (trim_front_spec white_space (length l) l Hw) as [[pre Hpre] Hf]; [lia|].
  set (l1 := trim_front (length l) white_space l) in *.
  destruct (trim_front_spec (map reverse white_space) (length l1) (reverse l1) Hr) as [[post Hpost] Hb];
    [by rewrite length_reverse|].
  set (l2 := trim_front (length l1) _ _) in *.
  assert (l1 = reverse l2 ++ reverse post) as Hl1.
  { apply (f_equal reverse) in Hpost. by rewrite reverse_involutive, reverse_app in Hpost. }
  split; [exists pre, (reverse post); by rewrite <- Hl1|]. intros w Hin. split.
  - intros Hp. apply (Hf w Hin). rewrite Hl1. by apply prefix_app_r.
  - intros [k Hk]. apply (Hb (reverse w)); [by apply list_elem_of_fmap_2|].
    exists (reverse k). apply (f_equal reverse) in Hk. by rewrite reverse_involutive, reverse_app in Hk.
Qed.

Inductive lcall :=
| LDial (socket : string) (r : option error)
| LPing (addr : string) (r : option error)
| LRead (r : string * option error)
| LPublish (channel line : string) (r : option error).

Class LogEnv (S : Type) := {
  lgDial : string -> S -> option error * S;
  lgPing : string -> S -> option error * S; (* the redis server at the address *)
  lgRead : S -> (string * option error) * S; (* what was read, and the error *)
  lgPublish : string -> string -> S -> option error * S }.

Section zlf.
Context {S : Type} `{!LogEnv S}.
Notation P A := (M S lcall A).

(** The error that is logged with the text is the one of the read. *)
Fixpoint reader (n : nat) (channel : string) : P ending :=
  match n with
  | 0 => ret Blocked
  | Datatypes.S n =>
      '(data, err) <- act lgRead LRead ;;
      match (err : option error) with
      | Some _ => ret (Returned None)
      | None =>
          let logline := TrimSpace data in
          err <- act (lgPublish channel logline) (LPublish channel logline) ;;
          match err with
          | Some _ => ret (Fatal "error while publishing log line")
          | None => reader n channel
          end
      end
  end.

Definition forwarded (channel : string) (data : string) : list lcall :=
  [LRead (data, None); LPublish channel (TrimSpace data) None].

Lemma reader_sends n channel s line r :
  LPublish channel line r ∈ calls (reader n channel) s ->
  exists data, LRead (data, None) ∈ calls (reader n channel) s /\ line = TrimSpace data.
Proof.
  revert s. induction n as [|n IH]; intros s; [by intros ?%elem_of_nil|]. cbn [reader].
  rewrite calls_bind, calls_act, result_act, final_act.
  destruct (lgRead s) as [[data [err|]] s']; cbn [fst snd].
  { rewrite calls_ret. intros [?|[]%elem_of_nil]%elem_of_cons. done. }
  cbv zeta. rewrite calls_bind, calls_act, result_act, final_act.
  intros [?|[[= -> _]|H]%elem_of_cons]%elem_of_cons; [done|exists data; split; [left|done]|].
  destruct (lgPublish channel (TrimSpace data) s') as [[err|] s2]; cbn [fst snd] in *.
  { rewrite calls_ret in H. by apply elem_of_nil in H. }
  destruct (IH s2 H) as (data' & Hd & Hl). exists data'. split; [|done]. do 2 right. exact Hd.
Qed.

(** Every read is published, trimmed, before the next one, until a read or a publication
    fails: the first ends the loop silently, the second ends the process. *)
Theorem reader_forwards n channel s :
  exists lines last, calls (reader n channel) s = concat (map (forwarded channel) lines) ++ last /\
    ((last = [] /\ length lines = n /\ result (reader n channel) s = Blocked) \/
     (exists data err, last = [LRead (data, Some err)] /\ result (reader n channel) s = Returned None) \/
     (exists data err, last = [LRead (data, None); LPublish channel (TrimSpace data) (Some err)] /\
        result (reader n channel) s = Fatal "error while publishing log line")).
Proof.
  revert s. induction n as [|n IH]; intros s; [exists [], []; by run; auto|]. cbn [reader].
  rewrite calls_bind, calls_act, result_bind, result_act, final_act.
  destruct (lgRead s) as [[data [err|]] s']; cbn [fst snd].
  { exists [], [LRead (data, Some err)]. run. split; [done|]. right. left. by eexists _, _. }
  cbv zeta. rewrite calls_bind, calls_act, result_bind, result_act, final_act.
  destruct (lgPublish channel (TrimSpace data) s') as [[err|] s2]; cbn [fst snd].
  { exists [], [LRead (data, None); LPublish channel (TrimSpace data) (Some err)]. run.
    split; [done|]. right. right. by eexists _, _. }
  destruct (IH s2) as (lines & last & -> & Hr). exists (data :: lines), last. split; [done|].
  destruct Hr as [(-> & <- & Hr)|Hr]; [by left|by right].
Qed.

(** [main], with the values of its flags. *)
Definition zlf_main (n : nat) (logs channel host : string) (port : Z) : P ending :=
  let addr := host +:+ ":" +:+ pretty port in
  must (fun _ => Fatal "cannot dial server") (act (lgDial logs) (LDial logs)) (
  must (fun _ => Fatal "cannot ping server") (act (lgPing addr) (LPing addr)) (
  reader n channel)).

(** A line is published only after the log socket and the redis server were reached, and is
    what was read, trimmed. *)
Theorem zlf_main_connected n logs channel host port line r s :
  LPublish channel line r ∈ calls (zlf_main n logs channel host port) s ->
  [LDial logs None; LPing (host +:+ ":" +:+ pretty port) None] `sublist_of`
    calls (zlf_main n logs channel host port) s /\
  exists data, LRead (data, None) ∈ calls (zlf_main n logs channel host port) s /\ line = TrimSpace data.
Proof.
  intros H. unfold zlf_main in *. cbv zeta in *.
  apply must_reaches in H as (Hd & H & ->); [|passes]. apply must_reaches in H as (Hp & H & ->); [|passes].
  rewrite result_act in Hd, Hp. rewrite !calls_act, Hd, Hp. split; [by do 2 apply sublist_skip; apply sublist_nil_l|].
  apply reader_sends in H as (data & Hdata & Hline). exists data. split; [|done]. rewrite !elem_of_app. auto.
Qed.
End zlf.
