(* ===== verification/JsStrings.v ===== *)
(** * Strings of the API pages

    The methods of JavaScript strings that the pages use, on strings of ASCII
    characters: [replace] with a global one-character pattern, [join] and
    [split], with the equations the theorems on the pages rewrite with. *)

From S2P Require Import Prelude.
From Stdlib Require Import Ascii.

Lemma app_cons_s c (s t : string) : String c s +:+ t = String c (s +:+ t).
Proof. done. Qed.
Lemma app_nil_s (t : string) : "" +:+ t = t.
Proof. done. Qed.
Lemma app_nil (s : string) : s +:+ "" = s.
Proof. induction s as [|c s IH]; [done|by rewrite app_cons_s, IH]. Qed.
Lemma app_assoc_s (s t u : string) : (s +:+ t) +:+ u = s +:+ (t +:+ u).
Proof. induction s as [|c s IH]; [done|by rewrite !app_cons_s, IH]. Qed.
Lemma app_length_s (s t : string) : String.length (s +:+ t) = String.length s + String.length t.
Proof. induction s; [done|]. rewrite app_cons_s. simpl. lia. Qed.

Create HintDb strs discriminated.
#[export] Hint Rewrite app_nil app_assoc_s app_cons_s app_nil_s : strs.

Definition chr (c : ascii) : string := String c EmptyString.
Lemma chr_app c s : chr c +:+ s = String c s.
Proof. done. Qed.

(** Every character of a string satisfies a test. *)
Fixpoint all_chars (p : ascii -> bool) (s : string) : bool :=
  match s with EmptyString => true | String c s => p c && all_chars p s end.

Lemma all_chars_app p s t : all_chars p (s +:+ t) = all_chars p s && all_chars p t.
Proof.
  induction s as [|c s IH]; [done|]. rewrite app_cons_s. simpl. by rewrite IH, andb_assoc.
Qed.

Lemma all_chars_impl (p q : ascii -> bool) s :
  (forall c, p c = true -> q c = true) -> all_chars p s = true -> all_chars q s = true.
Proof.
  intros Hpq. induction s as [|c s IH]; simpl; [done|].
  rewrite !andb_true_iff. intros [Hc Hs]. auto.
Qed.

(** [s.replace(/c/g, by)]. *)
Fixpoint replace_char (c : ascii) (by_ s : string) : string :=
  match s with
  | EmptyString => EmptyString
  | String c' s => (if bool_decide (c' = c) then by_ else chr c') +:+ replace_char c by_ s
  end.

(** [s.replace(/c/, by)]. *)
Fixpoint replace_first (c : ascii) (by_ s : string) : string :=
  match s with
  | EmptyString => EmptyString
  | String c' s => if bool_decide (c' = c) then by_ +:+ s else String c' (replace_first c by_ s)
  end.

Definition has_char (c : ascii) (s : string) : bool :=
  negb (all_chars (fun c' => negb (bool_decide (c' = c))) s).

Lemma has_char_cons c c' s :
  has_char c (String c' s) = bool_decide (c' = c) || has_char c s.
Proof. unfold has_char. simpl. by destruct (bool_decide (c' = c)). Qed.
Lemma has_char_app c s t : has_char c (s +:+ t) = has_char c s || has_char c t.
Proof. unfold has_char. rewrite all_chars_app. by destruct (all_chars _ s). Qed.

(** [l.join(sep)]. *)
Fixpoint join (sep : string) (l : list string) : string :=
  match l with
  | [] => ""
  | [s] => s
  | s :: l => s +:+ sep +:+ join sep l
  end.

(** [s.split(c)] for a one-character separator. *)
Fixpoint split_char (c : ascii) (s : string) : list string :=
  match s with
  | EmptyString => [""]
  | String c' s =>
      if bool_decide (c' = c) then "" :: split_char c s
      else match split_char c s with
           | x :: l => String c' x :: l
           | [] => []
           end
  end.

Lemma split_char_none c s : has_char c s = false -> split_char c s = [s].
Proof.
  induction s as [|c' s IH]; [done|]. rewrite has_char_cons, orb_false_iff.
  simpl. intros [-> Hs]. by rewrite IH.
Qed.
Lemma split_char_app c s t :
  has_char c s = false -> split_char c (s +:+ String c t) = s :: split_char c t.
Proof.
  induction s as [|c' s IH]; [rewrite app_nil_s; simpl; by rewrite bool_decide_eq_true_2|].
  rewrite has_char_cons, orb_false_iff, app_cons_s. simpl. intros [-> Hs]. by rewrite IH.
Qed.
Lemma split_char_join c l : l <> [] -> Forall (fun s => has_char c s = false) l ->
  split_char c (join (chr c) l) = l.
Proof.
  intros Hne Hl. induction Hl as [|s l Hs Hl IH]; [done|]. destruct l as [|t l].
  - by apply split_char_none.
  - change (join (chr c) (s :: t :: l)) with (s +:+ String c (join (chr c) (t :: l))).
    by rewrite split_char_app, IH.
Qed.
