(* ===== verification/Zui.v ===== *)
(** * The console (cmds/modules/zui)

    What the console shows, without the drawing: the table of services and the order
    in which their reports arrive (service.go), the header (header.go), the addresses
    (net.go), the storage pools (disk.go) and the flag that asks for a rendering
    (main.go).  A table is the list of its rows, a report the value a goroutine sends
    when its service has answered. *)

From stdpp Require Import pretty sorting.
From S2P Require Import Prelude Power Registrar Daemon JsStrings.

(** ** The flag

    Both operations swap atomically; the flag is an int32. *)
Definition Signal (f : Z) : Z := 1.
Definition Signaled (f : Z) : bool * Z := ((f =? 1)%Z, 0%Z).

Inductive flag_op := OpSignal | OpSignaled.
(** What the checks of a sequence of operations answer. *)
Fixpoint flag_answers (f : Z) (ops : list flag_op) : list bool :=
  match ops with
  | [] => []
  | OpSignal :: ops => flag_answers (Signal f) ops
  | OpSignaled :: ops => let '(b, f) := Signaled f in b :: flag_answers f ops
  end.

(** The reference: whether there was a signal since the last check. *)
Fixpoint signal_answers (pending : bool) (ops : list flag_op) : list bool :=
  match ops with
  | [] => []
  | OpSignal :: ops => signal_answers true ops
  | OpSignaled :: ops => pending :: signal_answers false ops
  end.

(** The flag loses no signal and answers none twice: whatever the order of signals and
    checks, a check answers whether there was a signal since the last one. *)
Theorem flag_signals ops : flag_answers 0 ops = signal_answers false ops.
Proof.
  assert (forall b, flag_answers (if b : bool then 1 else 0) ops = signal_answers b ops) as Hf;
    [|exact (Hf false)].
  induction ops as [|[] ops IH]; intros b; simpl; [done|exact (IH true)|].
  f_equal; [by destruct b|exact (IH false)].
Qed.

(** ** Calls *)
Inductive zcall :=
| ZNodeID (r : Z * option error)
| ZSignal
| ZFarmID (r : Z)
| ZFarm (r : res string)
| ZPushErrors (label : string) (errors : list string)
| ZCheckFlag (flag : string) (r : bool)
| ZUname (r : res string).

Class ZuiEnv (S : Type) := {
  zNodeID : S -> (Z * option error) * S;
  zFarmID : S -> Z * S;
  zFarm : S -> res string * S;
  zPushErrors : string -> list string -> S -> option error * S;
  zCheckFlag : string -> S -> bool * S;
  zUname : S -> res string * S; (* the release, with the zero bytes behind it *)
  zLimitedCache : string;
  zReadonlyCache : string }.

Definition green (s : string) : string := "[" +:+ s +:+ "](fg:green)".
Definition red (s : string) : string := "[" +:+ s +:+ "](fg:red)".
Definition isInProgressError (err : error) : bool := Contains (error_string err) (error_string ErrInProgress).

(** ** The services (service.go) *)
Definition activeStatus : string := "Active".
Definition InProgressStatus : string := "In progress".
Definition FailedStatus : string := "Failed".
Definition InactiveStatus : string := "Inactive".
Definition networkdService : string := "Networkd".
Definition registrationService : string := "Registerar".
Definition statisticsService : string := "Statistics".
Definition containerdService : string := "Containerd".
Definition storagedService : string := "Storaged".
Definition nodedService : string := "Noded".
Definition PowerdService : string := "Powerd".

Notation row := (string * string)%type (only parsing).
Definition initial_rows : list row :=
  [("", "Status"); (networkdService, InProgressStatus); (registrationService, InactiveStatus);
   (statisticsService, InactiveStatus); (containerdService, InactiveStatus);
   (storagedService, InactiveStatus); (nodedService, InactiveStatus); (PowerdService, InactiveStatus)].

(** [services.Rows[i][1] = status]; every index used is one of the table. *)
Definition set_status (i : nat) (status : string) (rows : list row) : list row :=
  alter (fun r : row => (r.1, status)) i rows.

Definition service_row (service : string) : option nat :=
  if bool_decide (service = networkdService) then Some 1
  else if bool_decide (service = statisticsService) then Some 3
  else if bool_decide (service = containerdService) then Some 4
  else if bool_decide (service = storagedService) then Some 5
  else if bool_decide (service = nodedService) then Some 6
  else if bool_decide (service = PowerdService) then Some 7
  else None.

Notation report := (string * bool)%type (only parsing).
Definition report_status (r : report) : string := if r.2 then green activeStatus else red FailedStatus.
(** The [switch] on the service of a report. *)
Definition show_report (rows : list row) (r : report) : list row :=
  match service_row r.1 with Some i => set_status i (report_status r) rows | None => rows end.

Section services.
Context {S : Type} `{!ZuiEnv S}.
Notation P A := (M S zcall A).

Definition registrar_status (r : Z * option error) : string :=
  match r.2 with
  | Some err => if isInProgressError err then InProgressStatus else red FailedStatus
  | None => green activeStatus
  end.
Definition getRegistrarStatus : P string :=
  r <- act zNodeID ZNodeID ;; ret (registrar_status r).

(** The loop that receives the reports, in the order in which they arrive. *)
Fixpoint show_reports (rows : list row) (reports : list report) : P (list row) :=
  match reports with
  | [] => ret rows
  | r :: reports =>
      status <- getRegistrarStatus ;;
      let rows := show_report (set_status 2 status rows) r in
      do_ ZSignal ;;;
      show_reports rows reports
  end.

(** The six reports: each of the goroutines sends one. *)
Definition service_reports (network : bool) : list report :=
  [(networkdService, network); (statisticsService, true); (containerdService, true);
   (storagedService, true); (nodedService, true); (PowerdService, true)].

(** [serviceRender], with the reports in the order in which they arrive; the table when it is done. *)
Definition serviceRender (reports : list report) : P (list row) :=
  do_ ZSignal ;;; show_reports initial_rows reports.

(** The table that is left, whatever the order. *)
Definition done_rows (network : bool) (registrar : string) : list row :=
  [("", "Status");
   (networkdService, if network then green activeStatus else red FailedStatus);
   (registrationService, registrar);
   (statisticsService, green activeStatus); (containerdService, green activeStatus);
   (storagedService, green activeStatus); (nodedService, green activeStatus);
   (PowerdService, green activeStatus)].

Definition node_ids (l : list zcall) : list (Z * option error) :=
  omap (fun c => match c with ZNodeID r => Some r | _ => None end) l.
Definition signals (l : list zcall) : nat :=
  length (omap (fun c => match c with ZSignal => Some tt | _ => None end) l).

Lemma service_row_range service i : service_row service = Some i -> i <> 2 /\ i <> 0 /\ i < 8.
Proof. unfold service_row. repeat case_bool_decide; intros; simplify_eq; lia. Qed.

(** What one report leaves of row [i]. *)
Lemma show_report_lookup rows r i :
  show_report rows r !! i =
  if bool_decide (service_row r.1 = Some i) then (fun x => (x.1, report_status r)) <$> rows !! i
  else rows !! i.
Proof.
  unfold show_report, set_status. destruct (service_row r.1) as [j|]; simpl; [|done].
  case_bool_decide as Hj; [injection Hj as ->; apply list_lookup_alter_eq|].
  apply list_lookup_alter_ne. congruence.
Qed.

Lemma show_reports_cons rows r reports s :
  let '(st, s') := zNodeID s in
  result (show_reports rows (r :: reports)) s =
    result (show_reports (show_report (set_status 2 (registrar_status st) rows) r) reports) s' /\
  calls (show_reports rows (r :: reports)) s =
    ZNodeID st :: ZSignal ::
    calls (show_reports (show_report (set_status 2 (registrar_status st) rows) r) reports) s'.
Proof.
  cbn [show_reports]. unfold getRegistrarStatus, do_. run. by destruct (zNodeID s) as [st s'].
Qed.

Lemma show_reports_other i reports : i <> 2 ->
  (forall r, r ∈ reports -> service_row r.1 <> Some i) ->
  forall rows s, result (show_reports rows reports) s !! i = rows !! i.
Proof.
  intros Hi. induction reports as [|r reports IH]; intros Hr rows s; [done|].
  pose proof (show_reports_cons rows r reports s) as Hs. destruct (zNodeID s) as [st s'].
  destruct Hs as [-> _]. rewrite IH by (intros; apply Hr; by right).
  rewrite show_report_lookup, bool_decide_eq_false_2 by (apply Hr; left).
  by apply list_lookup_alter_ne.
Qed.

Lemma show_reports_row i r reports :
  r ∈ reports -> service_row r.1 = Some i ->
  (forall r', r' ∈ reports -> service_row r'.1 = Some i -> r' = r) ->
  forall rows s, result (show_reports rows reports) s !! i =
    (fun x => (x.1, report_status r)) <$> rows !! i.
Proof.
  intros Hr Hi. destruct (service_row_range _ _ Hi) as [Hi2 _].
  induction reports as [|r' reports IH]; [by apply elem_of_nil in Hr|].
  intros Hall rows s. pose proof (show_reports_cons rows r' reports s) as Hs.
  destruct (zNodeID s) as [st s']. destruct Hs as [-> _].
  assert (show_report (set_status 2 (registrar_status st) rows) r' !! i =
    if bool_decide (service_row r'.1 = Some i) then (fun x => (x.1, report_status r')) <$> rows !! i
    else rows !! i) as Hrow.
  { rewrite show_report_lookup. unfold set_status. by rewrite list_lookup_alter_ne. }
  destruct (decide (r ∈ reports)) as [Hin|Hout].
  - rewrite IH by first [done | intros; apply Hall; [by right|done]]. rewrite Hrow.
    case_bool_decide as Hb; [|done]. rewrite (Hall r' ltac:(left) Hb). by destruct (rows !! i).
  - assert (r' = r) as -> by (apply elem_of_cons in Hr as [->|Hr]; done).
    rewrite (show_reports_other i reports Hi2).
    + by rewrite Hrow, bool_decide_eq_true_2.
    + intros r' Hr' Hrow'. apply Hout. rewrite <- (Hall r'); [done|by right|done].
Qed.

Lemma show_reports_registrar reports rows s :
  let l := calls (show_reports rows reports) s in
  length (node_ids l) = length reports /\ signals l = length reports /\
  (reports <> [] -> exists st, last (node_ids l) = Some st /\
     result (show_reports rows reports) s !! 2 = (fun x => (x.1, registrar_status st)) <$> rows !! 2).
Proof.
  revert rows s. induction reports as [|r reports IH]; intros rows s; [done|].
  pose proof (show_reports_cons rows r reports s) as Hs. destruct (zNodeID s) as [st s'].
  destruct Hs as [Hres Hcalls]. cbv zeta. rewrite Hres, Hcalls.
  set (rows' := show_report _ r). destruct (IH rows' s') as (Hl & Hsig & Hlast).
  set (l' := calls (show_reports rows' reports) s') in *.
  change (node_ids (ZNodeID st :: ZSignal :: l')) with (st :: node_ids l').
  change (signals (ZNodeID st :: ZSignal :: l')) with (Datatypes.S (signals l')).
  split; [simpl; by rewrite Hl|]. split; [simpl; by rewrite Hsig|]. intros _.
  assert (rows' !! 2 = (fun x => (x.1, registrar_status st)) <$> rows !! 2) as H2.
  { unfold rows'. rewrite show_report_lookup, bool_decide_eq_false_2.
    - unfold set_status. apply list_lookup_alter_eq.
    - intros Hx. by apply service_row_range in Hx as [? _]. }
  destruct reports as [|r' reports].
  - exists st. split; [done|]. exact H2.
  - destruct Hlast as (st' & Hst' & Hrow); [done|]. exists st'. split.
    + rewrite last_cons. by rewrite Hst'.
    + rewrite Hrow, H2. by destruct (rows !! 2).
Qed.

Lemma service_reports_inj network r r' i :
  r ∈ service_reports network -> service_row r.1 = Some i ->
  r' ∈ service_reports network -> service_row r'.1 = Some i -> r' = r.
Proof.
  unfold service_reports. rewrite !elem_of_cons, !elem_of_nil. intros Hr Hi Hr' Hi'.
  destruct_or!; subst; try done; vm_compute in Hi, Hi'; congruence.
Qed.

(** Whatever the order in which the services report, the table ends with every service
    active, the network as it reported, and the registrar as its last of six answers says; a
    rendering is asked for seven times. *)
Theorem serviceRender_done network reports s :
  reports ≡ₚ service_reports network ->
  let m := serviceRender reports in
  exists st, result m s = done_rows network (registrar_status st) /\
    last (node_ids (calls m s)) = Some st /\ length (node_ids (calls m s)) = 6 /\
    signals (calls m s) = 7.
Proof.
  intros Hp m. unfold m, serviceRender, do_. run.
  destruct (show_reports_registrar reports initial_rows s) as (Hl & Hsig & Hreg).
  pose proof (Permutation_length Hp) as Hlen. simpl in Hlen. rewrite Hlen in Hl, Hsig.
  destruct Hreg as (st & Hst & H2); [by intros ->|].
  exists st. split; [|split_and!; [done|done|exact (f_equal Datatypes.S Hsig)]].
  assert (forall i r, r ∈ service_reports network -> service_row r.1 = Some i ->
    result (show_reports initial_rows reports) s !! i =
      (fun x => (x.1, report_status r)) <$> initial_rows !! i) as Hrow.
  { intros i r Hr Hi. apply show_reports_row; [by rewrite Hp|done|]. intros r'. rewrite Hp.
    intros Hr' Hi'. by eapply service_reports_inj. }
  apply list_eq. intros i. destruct (decide (i = 2)) as [->|Hi2]; [by rewrite H2|].
  assert (forall r, r ∈ reports -> service_row r.1 <> Some i \/ i <> 0 /\ i < 8) as Hout.
  { intros r _. destruct (decide (service_row r.1 = Some i)) as [Hr|]; [|by left].
    right. by apply service_row_range in Hr as (_ & ? & ?). }
  destruct i as [|[|[|[|[|[|[|[|i]]]]]]]]; try done.
  2:{ by rewrite (Hrow 1 (networkdService, network)) by (done || left). }
  2:{ by rewrite (Hrow 3 (statisticsService, true)) by (done || set_solver). }
  2:{ by rewrite (Hrow 4 (containerdService, true)) by (done || set_solver). }
  2:{ by rewrite (Hrow 5 (storagedService, true)) by (done || set_solver). }
  2:{ by rewrite (Hrow 6 (nodedService, true)) by (done || set_solver). }
  2:{ by rewrite (Hrow 7 (PowerdService, true)) by (done || set_solver). }
  all: rewrite show_reports_other; [done|done|]; intros r Hr; destruct (Hout r Hr); [done|lia].
Qed.

(** ** The header (header.go) *)
Definition newline : string := String (Ascii.ascii_of_nat 10) "".

Definition header_text (node farm version mode uname cache : string) : string :=
  "          Welcome to [Zero-OS](fg:yellow), [ThreeFold](fg:blue) Autonomous Operating System" +:+
  newline +:+ newline +:+
  " This is node " +:+ node +:+ " (farmer " +:+ farm +:+ ")" +:+ newline +:+
  " running Zero-OS version [" +:+ version +:+ "](fg:blue) (mode [" +:+ mode +:+ "](fg:cyan))" +:+
  newline +:+ " kernel: " +:+ uname +:+ newline +:+ " cache disk: " +:+ cache.

Definition registrarLable : string := "registrar".

(** The node: an id, a registration that goes on, or an error that is pushed. *)
Definition node_text (r : Z * option error) : P string :=
  let '(node, err) := r in
  match err with
  | None => ret (green (pretty node))
  | Some err =>
      if isInProgressError err then ret (green (error_string err))
      else
        act (zPushErrors registrarLable [error_string err])
          (fun _ => ZPushErrors registrarLable [error_string err]) ;;;
        ret (red (pretty node +:+ " (unregistered)"))
  end.

Definition cache_text : P string :=
  limited <- act (zCheckFlag zLimitedCache) (ZCheckFlag zLimitedCache) ;;
  if (limited : bool) then ret (red "no ssd disks detected, running on hdd-only mode")
  else
    readonly <- act (zCheckFlag zReadonlyCache) (ZCheckFlag zReadonlyCache) ;;
    ret (if (readonly : bool) then red "cache is read-only" else green "OK").

(** One round of the loop over the versions: the new text of the header. *)
Definition header_round (farmID : Z) (mode version : string) : P string :=
  name <- act zFarm ZFarm ;;
  let farm := match name with
              | Err err => red (pretty farmID +:+ ": " +:+ error_string err)
              | Val name => green (pretty farmID +:+ ": " +:+ name)
              end in
  r <- act zNodeID ZNodeID ;;
  nodeID <- node_text r ;;
  cache <- cache_text ;;
  uname <- act zUname ZUname ;;
  let uname := match uname with Err err => red (error_string err) | Val release => green release end in
  do_ ZSignal ;;;
  ret (header_text nodeID farm version mode uname cache).

Fixpoint header_rounds (farmID : Z) (mode : string) (versions : list string) (text : string) : P string :=
  match versions with
  | [] => ret text
  | version :: versions =>
      text <- header_round farmID mode version ;;
      header_rounds farmID mode versions text
  end.

(** The goroutine of [headerRenderer]; the text when the versions end. *)
Definition header_goroutine (mode : string) (versions : list string) : P string :=
  act (zPushErrors registrarLable []) (fun _ => ZPushErrors registrarLable []) ;;;
  farmID <- act zFarmID ZFarmID ;;
  header_rounds farmID mode versions
    (newline +:+ "    Fetching realtime node information... please wait.").

Lemma signals_app l k : signals (l ++ k) = signals l + signals k.
Proof. unfold signals. by rewrite omap_app, length_app. Qed.

Lemma header_round_signals farmID mode version s : signals (calls (header_round farmID mode version) s) = 1.
Proof.
  unfold header_round, node_text, cache_text, do_. run.
  destruct (zNodeID _).1 as [node [err|]]; [destruct (isInProgressError err)|]; run.
  all: by destruct (zCheckFlag zLimitedCache _).1; run.
Qed.
Lemma header_rounds_signals farmID mode versions text s :
  signals (calls (header_rounds farmID mode versions text) s) = length versions.
Proof.
  revert text s. induction versions as [|version versions IH]; intros t s; [done|]. cbn [header_rounds].
  rewrite calls_bind, signals_app, header_round_signals, IH. done.
Qed.

(** The header asks for one rendering for every version it shows. *)
Theorem header_signals mode versions s :
  signals (calls (header_goroutine mode versions) s) = length versions.
Proof.
  unfold header_goroutine. rewrite !calls_bind, !calls_act. simpl. apply header_rounds_signals.
Qed.

Ltac pick Hin :=
  repeat (apply elem_of_cons in Hin as [Hin|Hin]; [try discriminate Hin|]);
  try (by apply elem_of_nil in Hin).

(** A round of the header pushes an error to the console exactly when the node could not be
    asked for its id for another reason than a registration that goes on. *)
Theorem header_pushes farmID mode version s :
  let m := header_round farmID mode version in
  forall errors, ZPushErrors registrarLable errors ∈ calls m s <->
    exists node err, ZNodeID (node, Some err) ∈ calls m s /\ isInProgressError err = false /\
      errors = [error_string err].
Proof.
  intros m errors. unfold m, header_round, node_text, cache_text, do_. run.
  destruct (zNodeID _).1 as [node [err|]] eqn:En; [destruct (isInProgressError err) eqn:Ep|]; run.
  all: destruct (zCheckFlag zLimitedCache _).1; run;
    (split; [intros Hin; pick Hin | intros (node' & err' & Hin & Hp & ->); pick Hin]).
  all: try (injection Hin as <- <-; congruence || set_solver).
  all: injection Hin as ->; exists node, err; set_solver.
Qed.

(** What the registrar answers while a registration goes on is recognised by the console as
    such. *)
Theorem in_progress_recognised locked read1 read2 node err :
  rs_State read1 = InProgress -> Registrar.NodeID locked read1 read2 = (node, Some err) ->
  isInProgressError err = true.
Proof.
  unfold Registrar.NodeID, returnIfDone. intros ->. simpl. case_bool_decide; [done|].
  by intros [= _ <-].
Qed.
End services.

(** ** The addresses (net.go)

    An address is its text, or nothing when it has no IP. *)
Definition toString (al : list (option string)) : string :=
  foldl (fun buf a =>
    match a with
    | None => buf
    | Some a => (if bool_decide (buf = "") then "" else buf +:+ ", ") +:+ a
    end) "" al.

Lemma concat_cons sep x xs :
  String.concat sep (x :: xs) = x +:+ foldr (fun y acc => sep +:+ y +:+ acc) "" xs.
Proof.
  revert x. induction xs as [|y xs IH]; intros x; simpl.
  - by rewrite app_nil.
  - by rewrite <- (IH y).
Qed.
Lemma toString_from al buf :
  buf <> "" -> Forall (fun a => a <> Some "") al ->
  foldl (fun buf a =>
    match a with
    | None => buf
    | Some a => (if bool_decide (buf = "") then "" else buf +:+ ", ") +:+ a
    end) buf al = buf +:+ foldr (fun y acc => ", " +:+ y +:+ acc) "" (omap id al).
Proof.
  intros Hb Hal. revert buf Hb. induction Hal as [|[a|] al Ha Hal IH]; intros buf Hb; simpl.
  - by rewrite app_nil.
  - rewrite bool_decide_eq_false_2 by done.
    rewrite IH; [by rewrite !app_assoc_s|]. by destruct buf.
  - by apply IH.
Qed.

(** The addresses that have an IP are shown in their order, with a comma between any two. *)
Theorem toString_joined al :
  Forall (fun a => a <> Some "") al -> toString al = String.concat ", " (omap id al).
Proof.
  unfold toString. induction 1 as [|[a|] al Ha Hal IH]; [done| |done]. simpl.
  rewrite app_nil_s, toString_from by (done || congruence). symmetry. apply concat_cons.
Qed.

(** ** The storage pools (disk.go)

    No other file calls [diskRender]. *)
(** [sort.Strings], which compares bytes. *)
Definition byte_le (a b : string) : Prop := String.leb a b = true.
#[export] Instance byte_le_dec : RelDecision byte_le.
Proof. intros a b. unfold byte_le. apply _. Defined.
Definition sort_strings : list string -> list string := merge_sort byte_le.

(** The names of the rows of a round: the names kept from the rounds before, to which all
    are added when their number is not the one of the pools; a [range] over the pools
    visits them in the order [names]. *)
Definition disk_keys (keys names : list string) : list string :=
  if bool_decide (length keys <> length names) then sort_strings (keys ++ names) else keys.

Lemma disk_keys_keep keys names (rounds : list (list string)) :
  keys ≡ₚ names -> Forall (fun r => r ≡ₚ names) rounds -> foldl disk_keys keys rounds ≡ₚ names.
Proof.
  intros Hk Hall. revert keys Hk. induction Hall as [|r rounds Hp _ IH]; intros keys Hk; simpl; [done|].
  apply IH. unfold disk_keys. rewrite bool_decide_eq_false_2; [done|].
  rewrite (Permutation_length Hk), (Permutation_length Hp). lia.
Qed.

(** While the storage pools stay the same each is shown once. *)
Theorem disk_keys_stable names (rounds : list (list string)) :
  rounds <> [] -> Forall (fun r => r ≡ₚ names) rounds ->
  foldl disk_keys [] rounds ≡ₚ names.
Proof.
  intros Hr Hall. destruct Hall as [|r rounds Hp Hall]; [done|]. simpl.
  apply disk_keys_keep; [|done]. unfold disk_keys. case_bool_decide as Hl; simpl in *.
  - unfold sort_strings. by rewrite merge_sort_Permutation.
  - destruct r; [done|simpl in *; lia].
Qed.

(** From the round on in which a pool is added, the rows grow by all pools in every round. *)
Theorem disk_keys_grow keys (rounds : list (list string)) n :
  0 < length keys < n -> Forall (fun r => length r = n) rounds ->
  length (foldl disk_keys keys rounds) = length keys + length rounds * n.
Proof.
  intros Hk Hall. assert (0 < length keys /\ length keys <> n) as Hk' by lia. clear Hk.
  revert keys Hk'. induction Hall as [|r rounds Hr _ IH]; intros keys Hk; simpl; [lia|].
  assert (length (disk_keys keys r) = length keys + n) as Hlen.
  { unfold disk_keys. rewrite bool_decide_eq_true_2 by lia. unfold sort_strings.
    rewrite merge_sort_Permutation, length_app. lia. }
  rewrite IH; lia.
Qed.
