(* ===== verification/BootstrapHub.v ===== *)
(** * The bootstrap program: parameters, configuration and hub

    bootstrap/bootstrap/src: kparams.rs, config.rs and hub.rs.  A Rust function that
    returns a [Result] answers [Ok] or [Fail]; a panic is [Panic]; a retry without
    a limit that has used up the attempts it was given is [Stuck]. *)

From S2P Require Import Prelude JsStrings.
From Stdlib Require Import Ascii.

Inductive R (A : Type) := Ok (a : A) | Fail (e : error) | Panic | Stuck.
Arguments Ok {A} _.
Arguments Fail {A} _.
Arguments Panic {A}.
Arguments Stuck {A}.

Definition R_of_res {A} (r : res A) : R A := match r with Val a => Ok a | Err e => Fail e end.
Definition R_of_err (e : option error) : R unit := match e with None => Ok tt | Some e => Fail e end.

(** ** hub.rs: what the hub answers *)
Inductive Kind := Regular | Symlink | Tag | TagLink.
#[export] Instance Kind_eq_dec : EqDecision Kind.
Proof. solve_decision. Defined.

Record Flist := MkFlist {
  kind : Kind;
  updated : Z;
  md5 : string;
  name : string;
  target : option string;
  url : string }.
Definition set_url (u : string) (f : Flist) : Flist :=
  MkFlist (kind f) (updated f) (md5 f) (name f) (target f) u.

Record response := MkResponse { status : Z; body : string }.
Definition is_success (r : response) : bool := (200 <=? status r)%Z && (status r <? 300)%Z.

Inductive file_type := FtDir | FtFile | FtSymlink | FtOther.

(** External calls, with their answers. *)
Inductive bcall :=
| BParams
| BHttp (u : string) (r : res response)
| BOpen (path : string) (r : option error)
| BWrite (path : string) (content : string) (r : option error)
| BWriteAll (path : string) (content : string) (r : option error)
| BCreateDirAll (path : string) (r : option error)
| BSpawn (backend meta target : string) (r : option error)
| BMountpoint (target : string) (r : res bool)
| BKill (r : option error)
| BUmount (path : string) (r : option error)
| BWait (r : option error)
| BWalk (root : string)
| BCopy (src dst : string) (r : option error)
| BRename (src dst : string) (r : option error)
| BReadLink (src : string) (r : res string)
| BRemoveFile (path : string) (r : option error)
| BSymlink (orig dst : string) (r : option error)
| BReadDir (path : string)
| BMonitor (service : string) (r : option error)
| BCurrentDir (r : res string)
| BCreateDir (path : string)
| BMountTmpfs (path : string) (r : option error)
| BSetCurrentDir (path : string) (r : option error)
| BRemoveDirAll (path : string) (r : option error)
| BExec (args : list string) (r : option error).

(** [create_dir] and [remove_file] distinguish one kind of error. *)
Inductive io_error := IoKnown | IoOther (e : error).

Class BootEnv (S : Type) := {
  readParams : S -> res string * S; (* /proc/cmdline, as UTF-8 *)
  shlex_split : string -> option (list string);
  cliArgs : res N * bool; (* -s, a u32, and -d *)
  httpGet : string -> S -> res response * S;
  parseFlists : string -> res (list Flist);
  parseFlist : string -> res Flist;
  parseConfig : string -> res (list string); (* the field v4hub_url *)
  fsOpen : string -> S -> option error * S; (* write and create, without truncating *)
  fsWrite : string -> string -> S -> option error * S;
  fsWriteAll : string -> string -> S -> option error * S; (* the whole file *)
  createDirAll : string -> S -> option error * S;
  spawnG8ufs : string -> string -> string -> S -> option error * S;
  mountpoint : string -> S -> res bool * S;
  killChild : S -> option error * S;
  umount : string -> S -> option error * S;
  waitChild : S -> option error * S;
  walkDir : string -> S -> list (res (string * file_type)) * S; (* paths below the root *)
  fsCopy : string -> string -> S -> option error * S;
  fsRename : string -> string -> S -> option error * S;
  readLink : string -> S -> res string * S;
  removeFile : string -> S -> option io_error * S; (* known: not found *)
  symlink : string -> string -> S -> option error * S;
  readDir : string -> S -> (option (res (list (res (string * bool))))) * S; (* None: not found *)
  zinitMonitor : string -> S -> option error * S;
  currentDir : S -> res string * S;
  createDir : string -> S -> option io_error * S; (* known: already exists *)
  mountTmpfs : string -> S -> option error * S;
  setCurrentDir : string -> S -> option error * S;
  removeDirAll : string -> S -> option error * S;
  toJson : Flist -> res string;
  binName : string;
  execve : list string -> S -> option error * S }. (* [None]: the process is replaced *)

Section hub.
Context {S : Type} `{!BootEnv S}.

(** The [?] operator. *)
Definition try {A B} (m : M S bcall (R A)) (k : A -> M S bcall (R B)) : M S bcall (R B) :=
  r <- m ;;
  match r with
  | Ok a => k a
  | Fail e => ret (Fail e)
  | Panic => ret Panic
  | Stuck => ret Stuck
  end.
Definition fallible (f : S -> option error * S) (c : option error -> bcall) : M S bcall (R unit) :=
  r <- act f c ;; ret (R_of_err r).
Definition fallible_res {A} (f : S -> res A * S) (c : res A -> bcall) : M S bcall (R A) :=
  r <- act f c ;; ret (R_of_res r).

(** ** kparams.rs *)
Definition Params : Type := gmap string (option string).

(** [arg.splitn(2, '=')], inserted; a later argument wins. *)
Definition insert_param (m : Params) (arg : string) : Params :=
  match split_char "=" arg with
  | key :: (_ :: _) as parts => <[key := Some (join "=" parts)]> m
  | key :: [] => <[key := None]> m
  | [] => m
  end.
Definition parse (cmdline : string) : R Params :=
  match shlex_split cmdline with
  | Some args => Ok (foldl insert_param ∅ args)
  | None => Fail (Fresh "failed to parse kernel params")
  end.
Definition params : M S bcall (R Params) :=
  try (fallible_res readParams (fun _ => BParams)) (fun bytes => ret (parse bytes)).

(** ** config.rs *)
Inductive RunMode := Prod | Test_ | Dev | QA.
Definition RunMode_fmt (m : RunMode) : string :=
  match m with Prod => "production" | QA => "qa" | Test_ => "testing" | Dev => "development" end.
Inductive Version_ := V3 | V3Light | V4.

Definition runmode_of (p : Params) : R RunMode :=
  match p !! "runmode" with
  | Some (Some mode) =>
      if bool_decide (mode ∈ ["prod"; "production"]) then Ok Prod
      else if bool_decide (mode ∈ ["dev"; "development"]) then Ok Dev
      else if bool_decide (mode ∈ ["test"; "testing"]) then Ok Test_
      else if bool_decide (mode = "qa") then Ok QA
      else Fail (Fresh ("unknown runmode: " +:+ mode))
  | Some None => Fail (Fresh "missing runmode value")
  | None => Ok Prod
  end.
Definition runmode : M S bcall (R RunMode) := try params (fun p => ret (runmode_of p)).

Definition version_of (p : Params) : R Version_ :=
  match p !! "version" with
  | Some (Some input) =>
      if bool_decide (input = "v3") then Ok V3
      else if bool_decide (input = "v3light") then Ok V3Light
      else if bool_decide (input = "v4") then Ok V4
      else Fail (Fresh ("unknown version: " +:+ input))
  | Some None | None => Ok V3
  end.
Definition version : M S bcall (R Version_) := try params (fun p => ret (version_of p)).

Record Config := MkConfig {
  stage : N;
  debug : bool;
  cf_runmode : RunMode;
  cf_version : Version_ }.

Definition Config_current : M S bcall (R Config) :=
  let '(stage, debug) := cliArgs in
  match stage with
  | Err _ => ret (Fail (Fresh "invalid stage format expecting a positive integer"))
  | Val stage =>
      if (stage =? 0)%N then ret (Fail (Fresh "invalid stage value 0, stages starting from 1"))
      else
        try (if (stage =? 2)%N then version else ret (Ok V3)) (fun ver =>
        try runmode (fun mode => ret (Ok (MkConfig stage debug mode ver))))
  end.

(** ** hub.rs *)
Definition config_filename (m : RunMode) : string :=
  match m with
  | Prod => "production.json" | Dev => "development.json" | Test_ => "testing.json" | QA => "qa.json"
  end.
Definition config_url (m : RunMode) : string :=
  "https://github.com/threefoldtech/zos-config/raw/main/" +:+ "/" +:+ config_filename m.
Definition fallback : list string := ["https://v4.hub.grid.tf"].

(** [retry(Exponential::from_millis(1000).take(n), ...)]: a first attempt and [n] more. *)
Fixpoint retry_get (n : nat) (u : string) : M S bcall (option response) :=
  r <- act (httpGet u) (BHttp u) ;;
  match r with
  | Val resp =>
      if is_success resp then ret (Some resp)
      else match n with O => ret None | Datatypes.S n => retry_get n u end
  | Err _ => match n with O => ret None | Datatypes.S n => retry_get n u end
  end.

Definition get_hub_url (m : RunMode) : M S bcall (list string) :=
  hub_urls <- retry_get 5 (config_url m) ;;
  match hub_urls with
  | None => ret fallback
  | Some response =>
      match parseConfig (body response) with
      | Err _ => ret fallback
      | Val [] => ret fallback
      | Val v4hub_url => ret v4hub_url
      end
  end.

Record Repo := MkRepo { rp_name : string; hub : list string }.

Definition Repo_new (name : string) : M S bcall (R Repo) :=
  try Config_current (fun config =>
  hub <- get_hub_url (cf_runmode config) ;; ret (Ok (MkRepo name hub))).

Definition is_working (r : res response) : bool :=
  match r with Val response => is_success response | Err _ => false end.
Definition is_hub_working (hub_url : string) : M S bcall bool :=
  let health_url := hub_url +:+ "/api/flist" in
  r <- act (httpGet health_url) (BHttp health_url) ;; ret (is_working r).

(** The first hub that works, or else the first one; a panic without any. *)
Fixpoint first_working (l : list string) : M S bcall (option string) :=
  match l with
  | [] => ret None
  | hub_url :: l =>
      ok <- is_hub_working hub_url ;;
      if (ok : bool) then ret (Some hub_url) else first_working l
  end.
Definition get_working_hub (repo : Repo) : M S bcall (R string) :=
  w <- first_working (hub repo) ;;
  match w, hub repo with
  | Some hub_url, _ => ret (Ok hub_url)
  | None, hub_url :: _ => ret (Ok hub_url)
  | None, [] => ret Panic
  end.

Definition flist_info_failed (r : response) : error := Fresh "failed to get flist info".

(** A loop over the flists that fills in their urls. *)
Fixpoint each_flist (f : Flist -> M S bcall (R Flist)) (l : list Flist)
    : M S bcall (R (list Flist)) :=
  match l with
  | [] => ret (Ok [])
  | x :: l => try (f x) (fun y => try (each_flist f l) (fun ys => ret (Ok (y :: ys))))
  end.

Definition list_ (repo : Repo) : M S bcall (R (list Flist)) :=
  try (get_working_hub repo) (fun h =>
  let u := h +:+ "/api/flist/" +:+ rp_name repo in
  try (fallible_res (httpGet u) (BHttp u)) (fun response =>
  if (status response =? 200)%Z then
    try (ret (R_of_res (parseFlists (body response)))) (fun info =>
    each_flist (fun flist =>
      try (get_working_hub repo) (fun h =>
      ret (Ok (set_url (h +:+ "/" +:+ rp_name repo +:+ "/" +:+ name flist) flist)))) info)
  else ret (Fail (flist_info_failed response)))).

Definition list_tag (repo : Repo) (tag : string) : M S bcall (R (option (list Flist))) :=
  try (get_working_hub repo) (fun h =>
  let u := h +:+ "/api/flist/" +:+ rp_name repo +:+ "/tags/" +:+ tag in
  try (fallible_res (httpGet u) (BHttp u)) (fun response =>
  if (status response =? 200)%Z then
    try (ret (R_of_res (parseFlists (body response)))) (fun info =>
    try (each_flist (fun flist =>
      if bool_decide (kind flist = Regular) then ret (Ok flist)
      else match target flist with
           | None => ret (Ok flist)
           | Some target => try (get_working_hub repo) (fun h =>
                            ret (Ok (set_url (h +:+ "/" +:+ target) flist)))
           end) info) (fun info => ret (Ok (Some info))))
  else if (status response =? 404)%Z then ret (Ok None)
  else ret (Fail (flist_info_failed response)))).

Definition get (repo : Repo) (flist : string) : M S bcall (R Flist) :=
  try (get_working_hub repo) (fun h =>
  let u := h +:+ "/api/flist/" +:+ rp_name repo +:+ "/" +:+ flist +:+ "/light" in
  try (fallible_res (httpGet u) (BHttp u)) (fun response =>
  if (status response =? 200)%Z then
    try (ret (R_of_res (parseFlist (body response)))) (fun info =>
    try (get_working_hub repo) (fun h =>
    ret (Ok (set_url (h +:+ "/" +:+ rp_name repo +:+ "/" +:+ flist) info))))
  else ret (Fail (flist_info_failed response)))).

(** The repository and the tag of a tag link; panics on anything else. *)
Definition tag_link (f : Flist) : R (string * string) :=
  if negb (bool_decide (kind f = TagLink)) then Panic
  else match target f with
       | None => Panic
       | Some target =>
           match split_char "/" target with
           | [repo; tags; tag] => if bool_decide (tags = "tags") then Ok (repo, tag) else Panic
           | _ => Panic
           end
       end.

Definition download (f : Flist) (out : string) : M S bcall (R unit) :=
  match kind f with
  | Regular | Symlink =>
      try (fallible (fsOpen out) (BOpen out)) (fun _ =>
      try (fallible_res (httpGet (url f)) (BHttp (url f))) (fun response =>
      if negb (is_success response) then ret (Fail (Fresh "failed to download flist"))
      else fallible (fsWrite out (body response)) (BWrite out (body response))))
  | _ => ret Panic
  end.

Definition write (f : Flist) (out : string) : M S bcall (R unit) :=
  try (ret (R_of_res (toJson f))) (fun json => fallible (fsWriteAll out json) (BWriteAll out json)).

(** *** The results and the calls of the operators *)
Lemma result_try {A B} (m : M S bcall (R A)) (k : A -> M S bcall (R B)) s :
  result (try m k) s =
    match result m s with
    | Ok a => result (k a) (final m s)
    | Fail e => Fail e
    | Panic => Panic
    | Stuck => Stuck
    end.
Proof. unfold try. rewrite result_bind. by destruct (result m s). Qed.
Lemma calls_try {A B} (m : M S bcall (R A)) (k : A -> M S bcall (R B)) s :
  calls (try m k) s =
    calls m s ++ match result m s with Ok a => calls (k a) (final m s) | _ => [] end.
Proof. unfold try. rewrite calls_bind. by destruct (result m s). Qed.
Lemma result_fallible_res {A} (f : S -> res A * S) c s :
  result (fallible_res f c) s = R_of_res (f s).1.
Proof. unfold fallible_res. by rewrite result_bind, result_act, result_ret. Qed.
Lemma calls_fallible_res {A} (f : S -> res A * S) c s : calls (fallible_res f c) s = [c (f s).1].
Proof. unfold fallible_res. by rewrite calls_bind, calls_act, result_act. Qed.

(** The health check of a hub, answered. *)
Definition health_check (h : string) (r : res response) : bcall := BHttp (h +:+ "/api/flist") r.

Lemma result_is_hub_working h s :
  result (is_hub_working h) s = is_working (httpGet (h +:+ "/api/flist") s).1.
Proof. unfold is_hub_working. by rewrite result_bind, result_act, result_ret. Qed.
Lemma calls_is_hub_working h s :
  calls (is_hub_working h) s = [health_check h (httpGet (h +:+ "/api/flist") s).1].
Proof. unfold is_hub_working. by rewrite calls_bind, calls_act, calls_ret. Qed.

(** [first_working] checks the hubs in order until one works. *)
Lemma first_working_spec l : forall s,
  exists pre rs, Forall (fun r => is_working r = false) rs /\ length rs = length pre /\
    match result (first_working l) s with
    | Some h => exists post r, l = pre ++ h :: post /\ is_working r = true /\
        calls (first_working l) s = zip_with health_check pre rs ++ [health_check h r]
    | None => l = pre /\ calls (first_working l) s = zip_with health_check pre rs
    end.
Proof.
  induction l as [|h l IH]; intros s; simpl.
  { by exists [], []. }
  rewrite !result_bind, !calls_bind, result_is_hub_working, calls_is_hub_working.
  destruct (is_working _) eqn:Hw.
  - exists [], []. simpl. split; [constructor|]. split; [done|]. by eexists _, _.
  - set (s' := final _ s). destruct (IH s') as (pre & rs & Hrs & Hlen & Hm).
    exists (h :: pre), ((httpGet (h +:+ "/api/flist") s).1 :: rs).
    split; [by constructor|]. split; [by simpl; rewrite Hlen|].
    destruct (result (first_working l) s') as [h'|].
    + destruct Hm as (post & r & -> & Hr & ->). by exists post, r.
    + by destruct Hm as [-> ->].
Qed.

Lemma get_hub_url_nonempty m s : result (get_hub_url m) s <> [].
Proof.
  unfold get_hub_url. rewrite result_bind.
  destruct (result (retry_get 5 (config_url m)) s) as [r|]; [|by rewrite result_ret].
  destruct (parseConfig (body r)) as [[]|]; by rewrite result_ret.
Qed.

Lemma Repo_new_nonempty n s repo : result (Repo_new n) s = Ok repo -> hub repo <> [].
Proof.
  unfold Repo_new. rewrite result_try. destruct (result Config_current s) as [cfg|e| |]; try done.
  rewrite result_bind, result_ret. intros [= <-]. apply get_hub_url_nonempty.
Qed.

(** C32: For a repository made by [Repo_new] the index 0 is always in bounds, so that
    choosing a hub never panics: the hubs are checked in their order, the first that works
    is chosen and no later one is checked, and when none works it is the first of the list. *)
Theorem get_working_hub_spec n s repo :
  result (Repo_new n) s = Ok repo ->
  forall s', exists pre post rs h,
    hub repo = pre ++ post /\ result (get_working_hub repo) s' = Ok h /\
    Forall (fun r => is_working r = false) rs /\ length rs = length pre /\
    match post with
    | [] => head (hub repo) = Some h /\
        calls (get_working_hub repo) s' = zip_with health_check pre rs
    | h' :: _ => h = h' /\ exists r, is_working r = true /\
        calls (get_working_hub repo) s' = zip_with health_check pre rs ++ [health_check h r]
    end.
Proof.
  intros Hne%Repo_new_nonempty s'. unfold get_working_hub. rewrite result_bind, calls_bind.
  destruct (first_working_spec (hub repo) s') as (pre & rs & Hrs & Hlen & Hm).
  destruct (result (first_working (hub repo)) s') as [h|].
  - destruct Hm as (post & r & Hl & Hr & ->). exists pre, (h :: post), rs, h.
    rewrite result_ret, calls_ret, app_nil_r. repeat split; eauto.
  - destruct Hm as [Hl ->]. exists pre, [], rs. rewrite (app_nil_r pre).
    rewrite Hl in Hne |- *. destruct pre as [|h pre]; [done|].
    exists h. rewrite result_ret, calls_ret, app_nil_r. repeat split; eauto.
Qed.
End hub.
