(* ===== verification/Bootstrap.v ===== *)
(** * The bootstrap program: mounting, copying and installing

    bootstrap/bootstrap/src: zfs.rs, workdir.rs, zinit.rs, bootstrap.rs and main.rs.
    A value with a [Drop] implementation is dropped at the end of its scope, also
    when the scope is left by an error or a panic.  The retries without a limit,
    of the flist info and of a download, make at most [fuel] retries here and are
    [Stuck] after them; nothing is dropped by a program that is still retrying. *)

From stdpp Require Import pretty.
From S2P Require Import Prelude JsStrings BootstrapHub.
From Stdlib Require Import Ascii.

Section bootstrap.
Context {S : Type} `{!BootEnv S}.
Variable fuel : nat.

(** ** Retries *)
Fixpoint retry_take {A} (n : nat) (f : M S bcall (R A)) : M S bcall (R A) :=
  r <- f ;;
  match r with
  | Fail e => match n with O => ret (Fail e) | Datatypes.S n => retry_take n f end
  | r => ret r
  end.
Fixpoint retry_until {A} (n : nat) (f : M S bcall (R A)) : M S bcall (R A) :=
  r <- f ;;
  match r with
  | Fail e => match n with O => ret Stuck | Datatypes.S n => retry_until n f end
  | r => ret r
  end.

(** [context] on a result. *)
Definition context {A} (text : string) (m : M S bcall (R A)) : M S bcall (R A) :=
  r <- m ;; ret (match r with Fail e => Fail (Wrapped text e) | r => r end).

(** [m], and then [drop] unless the program is still in [m]. *)
Definition dropping {A} (drop : M S bcall unit) (m : M S bcall (R A)) : M S bcall (R A) :=
  r <- m ;;
  match r with
  | Stuck => ret Stuck
  | r => drop ;;; ret r
  end.

Fixpoint for_try {A} (f : A -> M S bcall (R unit)) (l : list A) : M S bcall (R unit) :=
  match l with
  | [] => ret (Ok tt)
  | x :: l => try (f x) (fun _ => for_try f l)
  end.

(** ** zfs.rs *)

(** [PathBuf::push]: an absolute path replaces the one it is pushed to. *)
Definition is_absolute (p : string) : bool := match p with String "/" _ => true | _ => false end.
Fixpoint ends_with_slash (p : string) : bool :=
  match p with
  | EmptyString => false
  | String c EmptyString => bool_decide (c = "/"%char)
  | String _ p => ends_with_slash p
  end.
Definition push (p q : string) : string :=
  if is_absolute q || bool_decide (p = "") then q
  else if ends_with_slash p then p +:+ q else p +:+ "/" +:+ q.

Definition mount (backend meta target : string) : M S bcall (R unit) :=
  try (fallible (createDirAll target) (BCreateDirAll target)) (fun _ =>
  try (fallible (spawnG8ufs backend meta target) (BSpawn backend meta target)) (fun _ =>
  result <- retry_take 10 (try (fallible_res (mountpoint target) (BMountpoint target))
              (fun ok => ret (if (ok : bool) then Ok tt else Fail (Fresh "not a mount point")))) ;;
  match result with
  | Fail e =>
      try (fallible killChild BKill) (fun _ => ret (Fail (Wrapped "failed to mount flist" e)))
  | r => ret r
  end)).

Definition copy_entry (from to : string) (entry : res (string * file_type)) : M S bcall (R unit) :=
  match entry with
  | Err e => ret (Fail e)
  | Val (rel, typ) =>
      let src := push from rel in
      let dst := push to rel in
      match typ with
      | FtDir => context "failed to create directory" (fallible (createDirAll dst) (BCreateDirAll dst))
      | FtFile =>
          let tmp := dst +:+ ".partial" in
          try (context "failed to copy file" (fallible (fsCopy src tmp) (BCopy src tmp))) (fun _ =>
          context "failed to rename file" (fallible (fsRename tmp dst) (BRename tmp dst)))
      | FtSymlink =>
          try (context "failed to read link" (fallible_res (readLink src) (BReadLink src))) (fun orig =>
          let orig := if is_absolute orig then push to orig else orig in
          r <- act (removeFile dst) (fun r => BRemoveFile dst
                 (match r with Some (IoOther e) => Some e | _ => None end)) ;;
          match r with
          | Some (IoOther e) => ret (Fail (Wrapped "failed to delete file" e))
          | _ => context "failed to create symlink" (fallible (symlink orig dst) (BSymlink orig dst))
          end)
      | FtOther => ret (Ok tt)
      end
  end.
Definition copy (from to : string) : M S bcall (R unit) :=
  entries <- act (walkDir from) (fun _ => BWalk from) ;; for_try (copy_entry from to) entries.

Definition Zfs_drop (target : string) : M S bcall unit :=
  act (umount target) (BUmount target) ;;; act waitChild BWait ;;; ret tt.

(** ** zinit.rs and the services of an flist *)
Definition monitor (service : string) : M S bcall (option error) :=
  act (zinitMonitor service) (BMonitor service).

(** [name.rfind(".yaml")] and the part before it. *)
Fixpoint rfind (pat s : string) : option nat :=
  match s with
  | EmptyString => if bool_decide (pat = "") then Some 0 else None
  | String c s' =>
      match rfind pat s' with
      | Some i => Some (Datatypes.S i)
      | None => if String.prefix pat s then Some 0 else None
      end
  end.
Definition service_name (name : string) : option string :=
  (fun i => String.substring 0 i name) <$> rfind ".yaml" name.

Definition run_service (service : res (string * bool)) : M S bcall (R unit) :=
  match service with
  | Err e => ret (Fail e)
  | Val (name, is_file) =>
      if negb is_file then ret (Ok tt)
      else match service_name name with
           | None => ret (Ok tt)
           | Some service => monitor service ;;; ret (Ok tt)
           end
  end.
Definition run_all (fs : string) : M S bcall (R unit) :=
  let cfg := push (push fs "etc") "zinit" in
  services <- act (readDir cfg) (fun _ => BReadDir cfg) ;;
  match services with
  | None => ret (Ok tt)
  | Some (Err e) => ret (Fail (Wrapped "failed to read directory" e))
  | Some (Val services) => for_try run_service services
  end.

(** ** bootstrap.rs *)
Definition ZOS_REPO : string := "tf-zos".
Definition FLIST_TAG_FILE : string := "/tmp/tag.info".
Definition BOOTSTAP_FLIST : string := "bootstrap-v4:latest.flist".
Definition WORKDIR : string := "/tmp/bootstrap".

Definition install_package (flist : Flist) : M S bcall (R unit) :=
  try (retry_until fuel (context ("failed to download flist: " +:+ url flist)
                           (download flist (name flist)))) (fun _ =>
  try (retry_take 10 (context ("failed to mount flist: " +:+ url flist)
                        (mount "backend" (name flist) "root"))) (fun _ =>
  dropping (Zfs_drop "root")
    (try (context "failed to copy files" (copy "root" "/")) (fun _ => run_all "root")))).

Definition install_packages (packages : list Flist) : M S bcall (R unit) :=
  for_try install_package packages.

(** ** workdir.rs *)
Definition WorkDir_drop (path old : string) : M S bcall unit :=
  act (setCurrentDir old) (BSetCurrentDir old) ;;;
  act (umount path) (BUmount path) ;;;
  act (removeDirAll path) (BRemoveDirAll path) ;;; ret tt.

(** [WorkDir::new] after the current directory was read. *)
Definition WorkDir_setup (path : string) : M S bcall (R unit) :=
  r <- act (createDir path) (fun _ => BCreateDir path) ;;
  match r with
  | Some (IoOther e) => ret (Fail e)
  | _ =>
      try (fallible (mountTmpfs path) (BMountTmpfs path)) (fun _ =>
      fallible (setCurrentDir path) (BSetCurrentDir path))
  end.
Definition WorkDir_run {A} (path : string) (f : M S bcall (R A)) : M S bcall (R A) :=
  try (fallible_res currentDir BCurrentDir) (fun old =>
  dropping (WorkDir_drop path old) (try (WorkDir_setup path) (fun _ => f))).

Definition update_bootstrap : M S bcall (R unit) :=
  try (Repo_new "tf-autobuilder") (fun repo =>
  try (retry_until fuel (get repo BOOTSTAP_FLIST)) (fun flist =>
  let bak := binName +:+ ".bak" in
  try (fallible (fsRename binName bak) (BRename binName bak)) (fun _ =>
  install_package flist))).
Definition update : M S bcall (R unit) := WorkDir_run WORKDIR update_bootstrap.

Definition listname (cfg : Config) : string :=
  let runmode := RunMode_fmt (cf_runmode cfg) in
  match cf_version cfg with
  | V3 => runmode
  | V3Light => runmode +:+ "-v3light"
  | V4 => runmode +:+ "-v4"
  end.
Fixpoint find_tag (listname : string) (l : list Flist) : option Flist :=
  match l with
  | [] => None
  | f :: l => if bool_decide (kind f = TagLink) && bool_decide (name f = listname) then Some f
              else find_tag listname l
  end.

Definition install_tag (tag : option Flist) : M S bcall (R unit) :=
  match tag with
  | None => ret (Fail (Fresh "no tag found attached to this version"))
  | Some tag =>
      try (write tag FLIST_TAG_FILE) (fun _ =>
      try (ret (tag_link tag)) (fun '(repo, tag) =>
      try (Repo_new repo) (fun client =>
      try (list_tag client tag) (fun packages =>
      match packages with
      | None => ret (Fail (Fresh "tag is not found"))
      | Some packages => install_packages packages
      end))))
  end.
Definition install (cfg : Config) : M S bcall (R unit) :=
  try (Repo_new ZOS_REPO) (fun repo =>
  try (list_ repo) (fun lists =>
  WorkDir_run WORKDIR (install_tag (find_tag (listname cfg) lists)))).

(** ** main.rs *)
Definition stages : list (Config -> M S bcall (R unit)) :=
  [(fun cfg => if debug cfg then ret (Ok tt) else update); install].

Definition app : M S bcall (R unit) :=
  try Config_current (fun config =>
  match stages !! N.to_nat (stage config - 1) with
  | None => ret (Fail (Fresh "unknown stage"))
  | Some run =>
      try (run config) (fun _ =>
      let next := (stage config + 1)%N in
      if (next <=? N.of_nat (length stages))%N then
        let args := [binName; "-s"; pretty next] ++ (if debug config then ["-d"] else []) in
        r <- act (execve args) (BExec args) ;; ret (R_of_err r)
      else ret (Ok tt))
  end).
End bootstrap.

(** ** What is mounted

    A trace is followed by an automaton that knows whether an flist is mounted at
    [root], as the mount point check saw it, the one that g8ufs was last started for, and
    those mounted so far.  It has no step when an flist is mounted over another or unmounted
    while none is mounted, or when files are copied or services monitored without one.  An
    unmount that fails is only logged by the code: the flist stays where it is, the
    automaton is [lost] and follows the trace no further. *)
Record mstate := MkMstate { mounted : bool; spawned : string; served : list string; lost : bool }.
Definition idle (l : list string) (m : string) : mstate := MkMstate false m l false.
Definition busy (l : list string) (m : string) : mstate := MkMstate true m l false.

Definition mount_step (st : mstate) (c : bcall) : option mstate :=
  match c with
  | BSpawn _ meta _ _ =>
      if lost st then Some st
      else if mounted st then None else Some (MkMstate false meta (served st) (lost st))
  | BMountpoint _ (Val true) =>
      if lost st then Some st
      else if mounted st then None
      else Some (MkMstate true (spawned st) (served st ++ [spawned st]) (lost st))
  | BUmount path r =>
      if bool_decide (path <> "root") || lost st then Some st
      else if mounted st then
        match r with
        | None => Some (MkMstate false (spawned st) (served st) (lost st))
        | Some _ => Some (MkMstate true (spawned st) (served st) true)
        end
      else None
  | BWalk _ | BCopy _ _ _ | BReadLink _ _ | BSymlink _ _ _ | BReadDir _ | BMonitor _ _ =>
      if lost st || mounted st then Some st else None
  | _ => Some st
  end.
Fixpoint mounts (st : mstate) (l : list bcall) : option mstate :=
  match l with
  | [] => Some st
  | c :: l => st' ← mount_step st c; mounts st' l
  end.

Definition is_ok {A} (r : R A) : bool := match r with Ok _ => true | _ => false end.

Section triples.
Context {S : Type} `{!BootEnv S}.

(** From [st], the program's calls are steps of the automaton, to a state that
    satisfies [Q] with the result unless an unmount failed on the way. *)
Definition triple {A} (st : mstate) (x : M S bcall A) (Q : A -> mstate -> Prop) : Prop :=
  forall s, exists st', mounts st (calls x s) = Some st' /\ (lost st' = true \/ Q (result x s) st').

(** The program leaves the automaton in [st]. *)
Definition stays {A} (st : mstate) (x : M S bcall A) : Prop := triple st x (fun _ => eq st).

(** The program is never left retrying. *)
Definition settles {A} (x : M S bcall (R A)) : Prop := forall s, result x s <> Stuck.

(** *** Rules *)
Lemma mounts_app st l k : mounts st (l ++ k) = st' ← mounts st l; mounts st' k.
Proof.
  revert st. induction l as [|c l IH]; intros st; [done|]. simpl.
  destruct (mount_step st c); simpl; auto.
Qed.

Lemma mounts_lost st l : lost st = true -> mounts st l = Some st.
Proof.
  intros Hst. induction l as [|c l IH]; [done|]. simpl.
  assert (mount_step st c = Some st) as -> by (unfold mount_step; rewrite Hst; destruct c; rewrite ?orb_true_r; by repeat case_match).
  done.
Qed.
Lemma triple_lost {A} st (x : M S bcall A) Q : lost st = true -> triple st x Q.
Proof. intros Hst s. exists st. split; [by apply mounts_lost|by left]. Qed.

Lemma triple_ret {A} st (a : A) Q : Q a st -> triple st (ret a) Q.
Proof. intros HQ s. rewrite calls_ret, result_ret. exists st. auto. Qed.
Lemma triple_bind {A B} st (x : M S bcall A) (k : A -> M S bcall B) P Q :
  triple st x P -> (forall a st', P a st' -> triple st' (k a) Q) -> triple st (bind x k) Q.
Proof.
  intros Hx Hk s. rewrite calls_bind, result_bind.
  destruct (Hx s) as (st' & Hst & [Hl|HP]).
  - exists st'. rewrite mounts_app, Hst. simpl. split; [by apply mounts_lost|by left].
  - destruct (Hk _ _ HP (final x s)) as (st'' & Hst' & HQ). exists st''. by rewrite mounts_app, Hst.
Qed.
Lemma triple_act {A} st (f : S -> A * S) (c : A -> bcall) (Q : A -> mstate -> Prop) :
  (forall a, exists st', mount_step st (c a) = Some st' /\ (lost st' = true \/ Q a st')) ->
  triple st (act f c) Q.
Proof.
  intros Hc s. rewrite calls_act, result_act. destruct (Hc (f s).1) as (st' & Hst & HQ).
  exists st'. simpl. by rewrite Hst.
Qed.
Lemma triple_weaken {A} st (x : M S bcall A) (P Q : A -> mstate -> Prop) :
  triple st x P -> (forall a st', P a st' -> Q a st') -> triple st x Q.
Proof. intros Hx HPQ s. destruct (Hx s) as (st' & Hst & HP). exists st'. naive_solver. Qed.
Lemma triple_try {A B} st (x : M S bcall (R A)) (k : A -> M S bcall (R B)) P Q :
  triple st x P ->
  (forall a st', P (Ok a) st' -> triple st' (k a) Q) ->
  (forall e st', P (Fail e) st' -> Q (Fail e) st') ->
  (forall st', P Panic st' -> Q Panic st') -> (forall st', P Stuck st' -> Q Stuck st') ->
  triple st (try x k) Q.
Proof. intros Hx ????. eapply triple_bind; [exact Hx|]. intros [] st' HP; auto using triple_ret. Qed.

(** *** Programs that leave the automaton where it is *)
Lemma stays_ret {A} st (a : A) : stays st (ret a).
Proof. by apply triple_ret. Qed.
Lemma stays_bind {A B} st (x : M S bcall A) (k : A -> M S bcall B) :
  stays st x -> (forall a, stays st (k a)) -> stays st (bind x k).
Proof. intros Hx Hk. eapply triple_bind; [exact Hx|]. intros a ? <-. apply Hk. Qed.
Lemma stays_act {A} st (f : S -> A * S) (c : A -> bcall) :
  (forall a, mount_step st (c a) = Some st) -> stays st (act f c).
Proof. intros Hc. apply triple_act. eauto. Qed.
Lemma stays_try {A B} st (x : M S bcall (R A)) (k : A -> M S bcall (R B)) :
  stays st x -> (forall a, stays st (k a)) -> stays st (try x k).
Proof. intros Hx Hk. apply stays_bind; [done|]. intros []; auto using stays_ret. Qed.
Lemma stays_context {A} st text (x : M S bcall (R A)) : stays st x -> stays st (context text x).
Proof. intros Hx. apply stays_bind; [done|]. intros. apply stays_ret. Qed.
Lemma stays_for_try {A} st (f : A -> M S bcall (R unit)) l :
  (forall x, stays st (f x)) -> stays st (for_try f l).
Proof. intros Hf. induction l; simpl; [apply stays_ret|by apply stays_try]. Qed.
Lemma stays_retry_until {A} st n (f : M S bcall (R A)) : stays st f -> stays st (retry_until n f).
Proof.
  intros Hf. induction n; simpl; (apply stays_bind; [done|]); intros []; auto using stays_ret.
Qed.
Lemma stays_retry_get st n u : stays st (retry_get n u).
Proof.
  induction n; simpl; (apply stays_bind; [by apply stays_act|]); intros []; auto using stays_ret;
    destruct (is_success _); auto using stays_ret.
Qed.
Lemma stays_first_working st l : stays st (first_working l).
Proof.
  induction l; simpl; [apply stays_ret|]. apply stays_bind.
  - apply stays_bind; [by apply stays_act|intros; apply stays_ret].
  - intros []; auto using stays_ret.
Qed.
Lemma stays_each_flist st f l : (forall x, stays st (f x)) -> stays st (each_flist f l).
Proof.
  intros Hf. induction l; simpl; [apply stays_ret|].
  apply stays_try; [done|]. intros. apply stays_try; [done|]. intros. apply stays_ret.
Qed.

(** *** Programs that are never left retrying *)
Lemma settles_ret {A} (r : R A) : r <> Stuck -> settles (ret r).
Proof. intros Hr s. by rewrite result_ret. Qed.
Lemma settles_bind {A B} (x : M S bcall B) (k : B -> M S bcall (R A)) :
  (forall b, settles (k b)) -> settles (bind x k).
Proof. intros Hk s. rewrite result_bind. apply Hk. Qed.
Lemma settles_try {A B} (x : M S bcall (R A)) (k : A -> M S bcall (R B)) :
  settles x -> (forall a, settles (k a)) -> settles (try x k).
Proof.
  intros Hx Hk s. unfold try. rewrite result_bind. specialize (Hx s).
  destruct (result x s); first [apply Hk|done|by rewrite result_ret].
Qed.
Lemma settles_for_try {A} (f : A -> M S bcall (R unit)) l :
  (forall x, settles (f x)) -> settles (for_try f l).
Proof. intros Hf. induction l; simpl; [by apply settles_ret|by apply settles_try]. Qed.
Lemma settles_fallible f c : settles (fallible f c).
Proof. apply settles_bind. intros []; by apply settles_ret. Qed.
Lemma settles_fallible_res {A} (f : S -> res A * S) c : settles (fallible_res f c).
Proof. apply settles_bind. intros []; by apply settles_ret. Qed.
Lemma settles_context {A} text (x : M S bcall (R A)) : settles x -> settles (context text x).
Proof.
  intros Hx s. unfold context. rewrite result_bind, result_ret. specialize (Hx s).
  by destruct (result x s).
Qed.
End triples.

Ltac staying :=
  intros; repeat first
    [ apply stays_ret | apply stays_for_try; intros | apply stays_retry_until
    | apply stays_retry_get | apply stays_first_working | apply stays_each_flist; intros
    | apply stays_try; [|intros] | apply stays_act; intros; reflexivity
    | apply stays_bind; [|intros]
    | match goal with |- stays _ (match ?x with _ => _ end) => destruct x end
    | progress unfold context, fallible, fallible_res, monitor ].
Ltac settling :=
  repeat first
    [ apply settles_ret; by try destruct (_ : option _) | apply settles_for_try; intros
    | apply settles_fallible | apply settles_fallible_res | apply settles_context
    | apply settles_try; [|intros] | apply settles_bind; intros
    | match goal with |- settles (match ?x with _ => _ end) => destruct x end ].

Section installing.
Context {S : Type} `{!BootEnv S}.
Variable fuel : nat.

(** *** The calls of one package *)
Lemma copy_stays from to m l : stays (busy l m) (copy from to).
Proof. unfold copy, copy_entry. staying. Qed.
Lemma run_all_stays fs m l : stays (busy l m) (run_all fs).
Proof. unfold run_all, run_service. staying. Qed.
Lemma download_stays st f out : stays st (download f out).
Proof. unfold download. staying. Qed.
Lemma copy_settles from to : settles (copy from to).
Proof. unfold copy, copy_entry. settling. Qed.
Lemma run_all_settles fs : settles (run_all fs).
Proof. unfold run_all, run_service. settling. Qed.

Lemma install_package_body_settles (p : Flist) :
  settles (try (context "failed to copy files" (copy "root" "/")) (fun _ => run_all "root")).
Proof. auto using settles_try, settles_context, copy_settles, run_all_settles. Qed.

Definition answered {A} (r : R A) : Prop := match r with Ok _ | Fail _ => True | _ => False end.

Lemma triple_fallible st st' (f : S -> option error * S) c :
  (forall a, mount_step st (c a) = Some st') ->
  triple st (fallible f c) (fun r st'' => st'' = st' /\ answered r).
Proof.
  intros Hc. eapply triple_bind.
  - apply (triple_act _ _ _ (fun _ => eq st')). eauto.
  - intros [] ? <-; by apply triple_ret.
Qed.

(** A retry that keeps [Inv] on every failed attempt. *)
Lemma triple_retry_take {A} n (f : M S bcall (R A)) (Inv : mstate -> Prop) Q :
  (forall st, Inv st -> triple st f (fun r st' => Q r st' /\ (answered r -> is_ok r = false -> Inv st'))) ->
  forall st, Inv st -> triple st (retry_take n f) Q.
Proof.
  intros Hf. induction n as [|n IH]; intros st Hi; simpl; (eapply triple_bind; [by apply Hf|]);
    intros [] st' [HQ Hst']; try (by apply triple_ret). by apply IH, Hst'.
Qed.

Lemma triple_context {A} text st (x : M S bcall (R A)) (Q : R A -> mstate -> Prop) :
  triple st x Q -> (forall e st', Q (Fail e) st' -> Q (Fail (Wrapped text e)) st') ->
  triple st (context text x) Q.
Proof. intros Hx HQ. eapply triple_bind; [exact Hx|]. intros [] st' Hr; apply triple_ret; auto. Qed.

Lemma triple_dropping {A} st st' drop (x : M S bcall (R A)) :
  stays st x -> settles x -> triple st drop (fun _ => eq st') ->
  triple st (dropping drop x) (fun _ => eq st').
Proof.
  intros Hx Hn Hd s. unfold dropping. rewrite calls_bind.
  destruct (Hx s) as (st1 & Hst & Hst1). rewrite mounts_app, Hst. simpl. specialize (Hn s).
  destruct Hst1 as [Hl|<-]; [exists st1; split; [by apply mounts_lost|by left]|].
  assert (forall r : R A, triple st (drop ;;; ret r) (fun _ => eq st')) as Hr.
  { intros r. eapply triple_bind; [exact Hd|]. intros ? ? <-. by apply triple_ret. }
  by destruct (result x s); try apply Hr.
Qed.

(** What a mount attempt leaves: the flist mounted, or nothing mounted and nothing served. *)
Definition mount_post (meta : string) (l : list string) (r : R unit) (st : mstate) : Prop :=
  match r with
  | Ok _ => st = busy (l ++ [meta]) meta
  | Fail _ => mounted st = false /\ served st = l
  | Panic | Stuck => False
  end.

Definition mountpoint_post (meta : string) (l : list string) (r : R unit) (st : mstate) : Prop :=
  match r with
  | Ok _ => st = busy (l ++ [meta]) meta
  | Fail _ => st = idle l meta
  | Panic | Stuck => False
  end.

Lemma mountpoint_triple meta l target :
  triple (idle l meta)
    (try (fallible_res (mountpoint target) (BMountpoint target))
       (fun ok => ret (if (ok : bool) then Ok tt else Fail (Fresh "not a mount point"))))
    (mountpoint_post meta l).
Proof.
  unfold try, fallible_res.
  eapply (triple_bind _ _ _ (fun r st => match r with
    | Ok true => st = busy (l ++ [meta]) meta
    | Ok false | Fail _ => st = idle l meta
    | _ => False end)).
  - eapply triple_bind; [apply (triple_act _ _ _ (fun r st => st =
      match r with Val true => busy (l ++ [meta]) meta | _ => idle l meta end))|].
    + intros [[]|]; eauto.
    + intros [[]|] ? ->; by apply triple_ret.
  - intros [[]| | |] st Hst; done || by apply triple_ret.
Qed.

Lemma mount_triple backend meta l st :
  mounted st = false -> served st = l ->
  triple st (mount backend meta "root") (mount_post meta l).
Proof.
  destruct st as [? m ? []]; simpl; [intros; by apply triple_lost|]. intros -> ->. unfold mount.
  eapply triple_try; [by apply triple_fallible| |by intros ? ? [-> _]|by intros ? []..].
  intros _ ? [-> _].
  eapply triple_try; [by apply triple_fallible| |by intros ? ? [-> _]|by intros ? []..].
  intros _ ? [-> _]. eapply triple_bind.
  - apply (triple_retry_take _ _ (eq (idle l meta)) (mountpoint_post meta l)); [|done].
    intros ? <-. eapply triple_weaken; [apply mountpoint_triple|]. by intros [] st Hst.
  - intros [] st Hst; try (by apply triple_ret). simpl in Hst. subst st.
    eapply triple_try; [by apply triple_fallible| |by intros ? ? [-> _]|by intros ? []..].
    intros _ ? [-> _]. by apply triple_ret.
Qed.

Lemma Zfs_drop_triple m l :
  triple (busy l m) (Zfs_drop "root") (fun _ => eq (idle l m)).
Proof.
  eapply triple_bind; [apply (triple_act _ _ _ (fun _ => eq (idle l m)))|].
  { intros [err|]; eexists; (split; [reflexivity|]); [by left|by right]. }
  intros _ ? <-. unfold idle. by staying.
Qed.

(** What installing the packages [l] leaves, from [st]. *)
Definition installed (st : mstate) (l : list Flist) (r : R unit) (st' : mstate) : Prop :=
  mounted st' = false /\ served st `prefix_of` served st' /\
  served st' `prefix_of` served st ++ (name <$> l) /\
  (is_ok r -> served st' = served st ++ (name <$> l)).

Lemma installed_none st l r st' :
  mounted st' = false -> served st' = served st -> is_ok r = false -> installed st l r st'.
Proof. intros Hm Hs Hr. unfold installed. rewrite Hs, Hr.
  repeat split; [done|done|by apply prefix_app_r|done].
Qed.
Lemma installed_cons st p l r st1 st2 :
  installed st [p] (Ok tt) st1 -> installed st1 l r st2 -> installed st (p :: l) r st2.
Proof.
  intros (_ & _ & _ & H1) (Hm & Hle & Hge & H2). rewrite H1 in * by done.
  unfold installed. simpl in *. rewrite <- app_assoc in *. repeat split; auto.
  by etrans; [|exact Hle]; apply prefix_app_r.
Qed.

Lemma install_package_triple st p :
  mounted st = false -> triple st (install_package fuel p) (installed st [p]).
Proof.
  intros Hm. unfold install_package. eapply triple_try.
  { apply stays_retry_until, stays_context, download_stays. }
  2: by intros e ? <-; apply installed_none.
  2,3: by intros ? <-; apply installed_none.
  intros _ ? <-. eapply triple_try.
  { apply (triple_retry_take _ _ (fun st' => mounted st' = false /\ served st' = served st)
             (mount_post (name p) (served st))); [|done].
    intros st1 [Hm1 Hs1]. eapply triple_weaken.
    - apply triple_context; [by apply (mount_triple _ _ (served st))|done].
    - by intros [] st2 Hst2. }
  2: by intros e st' [Hst' Hs']; apply installed_none.
  2,3: done.
  intros _ st' ->. eapply triple_weaken.
  { apply triple_dropping; [..|apply Zfs_drop_triple].
    - apply stays_try; [apply stays_context, copy_stays|intros; apply run_all_stays].
    - by apply install_package_body_settles. }
  intros r ? <-. repeat split; [by apply prefix_app_r|done].
Qed.

Lemma install_packages_triple ps : forall st,
  mounted st = false -> triple st (install_packages fuel ps) (installed st ps).
Proof.
  unfold install_packages. induction ps as [|p ps IH]; intros st Hm; simpl.
  - apply triple_ret. unfold installed. by rewrite app_nil_r.
  - assert (forall r st', installed st [p] r st' -> is_ok r = false -> installed st (p :: ps) r st')
      as Hfail.
    { intros r st' (?&?&Hge&?) Hr. repeat split; try done; [|by rewrite Hr].
      change (name <$> p :: ps) with ([name p] ++ (name <$> ps)). rewrite app_assoc.
      by apply prefix_app_r. }
    eapply triple_try; [by apply install_package_triple|..].
    + intros [] st1 H1. eapply triple_weaken; [apply IH, H1|]. intros r st2. by apply installed_cons.
    + intros e st1 H1. by apply Hfail.
    + intros st1 H1. by apply Hfail.
    + intros st1 H1. by apply Hfail.
Qed.

(** *** The whole program leaves nothing mounted *)
Definition idles {A} (x : M S bcall A) : Prop :=
  forall st, mounted st = false -> triple st x (fun _ st' => mounted st' = false).

Lemma idles_stays {A} (x : M S bcall A) : (forall st, stays st x) -> idles x.
Proof. intros Hx st Hm. eapply triple_weaken; [apply Hx|]. by intros _ ? <-. Qed.
Lemma idles_bind {A B} (x : M S bcall A) (k : A -> M S bcall B) :
  idles x -> (forall a, idles (k a)) -> idles (bind x k).
Proof. intros Hx Hk st Hm. eapply triple_bind; [by apply Hx|]. intros a st' Hst. by apply Hk. Qed.
Lemma idles_try {A B} (x : M S bcall (R A)) (k : A -> M S bcall (R B)) :
  idles x -> (forall a, idles (k a)) -> idles (try x k).
Proof.
  intros Hx Hk. apply idles_bind; [done|]. intros []; first [done|apply idles_stays; staying].
Qed.
Lemma idles_install_packages ps : idles (install_packages fuel ps).
Proof.
  intros st Hm. eapply triple_weaken; [by apply install_packages_triple|]. by intros r st' [].
Qed.
Lemma idles_install_package p : idles (install_package fuel p).
Proof.
  intros st Hm. eapply triple_weaken; [by apply install_package_triple|]. by intros r st' [].
Qed.

Lemma idles_WorkDir_run {A} (f : M S bcall (R A)) : idles f -> idles (WorkDir_run WORKDIR f).
Proof.
  intros Hf. unfold WorkDir_run. apply idles_try; [apply idles_stays; staying|]. intros old.
  apply idles_bind.
  - apply idles_try; [|done]. apply idles_stays. unfold WorkDir_setup. intros. staying.
  - intros []; apply idles_stays; unfold WorkDir_drop; intros; staying.
Qed.

Lemma Repo_new_stays n st : stays st (Repo_new n).
Proof.
  unfold Repo_new, Config_current, version, runmode, params, get_hub_url. staying.
Qed.
Lemma list_stays repo st : stays st (list_ repo).
Proof. unfold list_, get_working_hub. staying. Qed.
Lemma list_tag_stays repo tag st : stays st (list_tag repo tag).
Proof. unfold list_tag, get_working_hub. staying. Qed.
Lemma get_stays repo f st : stays st (get repo f).
Proof. unfold get, get_working_hub. staying. Qed.

Lemma update_idles : idles (update fuel).
Proof.
  apply idles_WorkDir_run. unfold update_bootstrap.
  apply idles_try; [apply idles_stays, Repo_new_stays|intros repo].
  apply idles_try; [apply idles_stays; intros; apply stays_retry_until, get_stays|intros flist].
  apply idles_try; [apply idles_stays; staying|intros _]. apply idles_install_package.
Qed.
Lemma install_idles cfg : idles (install fuel cfg).
Proof.
  unfold install. apply idles_try; [apply idles_stays, Repo_new_stays|intros repo].
  apply idles_try; [apply idles_stays, list_stays|intros lists]. apply idles_WorkDir_run.
  destruct (find_tag _ _) as [tag|]; simpl; [|apply idles_stays; staying].
  apply idles_try; [apply idles_stays; unfold write; staying|intros _].
  apply idles_try; [apply idles_stays; staying|intros [repo' tag']].
  apply idles_try; [apply idles_stays, Repo_new_stays|intros client].
  apply idles_try; [apply idles_stays, list_tag_stays|intros [ps|]];
    [apply idles_install_packages|apply idles_stays; staying].
Qed.

Lemma app_idles : idles (app fuel).
Proof.
  unfold app. apply idles_try.
  { apply idles_stays. unfold Config_current, version, runmode, params. staying. }
  intros config. destruct (stages fuel !! _) as [run|] eqn:Hrun; [|apply idles_stays; staying].
  apply idles_try; [|intros _; case_match; apply idles_stays; staying].
  unfold stages in Hrun. destruct (N.to_nat _) as [|[|n]]; simplify_eq/=; [|apply install_idles].
  case_match; [apply idles_stays; staying|apply update_idles].
Qed.
End installing.

(** ** The theorems *)
Section theorems.
Context {S : Type} `{!BootEnv S}.

(** A forced unmount of the flist that failed. *)
Definition unmount_failed (c : bcall) : Prop :=
  match c with BUmount path (Some _) => path = "root" | _ => False end.

Lemma mount_step_lost st c st' :
  mount_step st c = Some st' -> lost st' = true -> lost st = true \/ unmount_failed c.
Proof.
  destruct st as [m sp sv []]; [by left|]. unfold mount_step, unmount_failed.
  destruct c; simpl; repeat case_match; intros; simplify_eq/=; auto.
  rewrite orb_false_r in *. right. by match goal with H : bool_decide _ = false |- _ =>
    apply bool_decide_eq_false in H; apply dec_stable in H end.
Qed.

Lemma mounts_lost_inv st l st' :
  mounts st l = Some st' -> lost st' = true -> lost st = true \/ Exists unmount_failed l.
Proof.
  revert st. induction l as [|c l IH]; intros st; simpl; [intros [= ->]; by left|].
  destruct (mount_step st c) as [st1|] eqn:Hc; simpl; [|done]. intros Hm Hl.
  destruct (IH st1 Hm Hl) as [H1|H1]; [|right; by right].
  destruct (mount_step_lost _ _ _ Hc H1); [by left|right; by left].
Qed.


(** Whatever the stage and whatever else fails, while no unmount fails the program never
    mounts an flist over another and leaves none mounted. *)
Theorem app_leaves_nothing_mounted fuel s :
  exists st, mounts (idle [] "") (calls (app fuel) s) = Some st /\
    (~ Exists unmount_failed (calls (app fuel) s) -> mounted st = false).
Proof.
  destruct (app_idles fuel (idle [] "") eq_refl s) as (st & Hst & Hq). exists st. split; [done|].
  intros Hok. destruct Hq as [Hl|Hm]; [|done]. destruct Hok.
  by destruct (mounts_lost_inv _ _ _ Hst Hl).
Qed.

(** A retry that has an answer has the same one with any more attempts allowed. *)
Lemma retry_until_more {A} k (f : M S bcall (R A)) : forall n s,
  result (retry_until n f) s <> Stuck -> retry_until (n + k) f s = retry_until n f s.
Proof.
  intros n. induction n as [|n IH]; intros s; simpl.
  - destruct k as [|k]; [done|]. simpl. rewrite result_bind. unfold bind, result.
    destruct (f s) as [[[] s'] l]; simpl; done.
  - rewrite result_bind. unfold bind, result, final. destruct (f s) as [[[] s'] l]; simpl; try done.
    intros Hr. by rewrite IH.
Qed.

(** A program run in the working directory ends, also after an error or a panic, with the
    old directory as the current one and the working directory unmounted and removed; when
    the current directory cannot be read nothing is done. *)
Theorem WorkDir_run_restores {A} path (f : M S bcall (R A)) s :
  match (currentDir s).1 with
  | Err e => calls (WorkDir_run path f) s = [BCurrentDir (Err e)]
             /\ result (WorkDir_run path f) s = Fail e
  | Val old =>
      result (WorkDir_run path f) s <> Stuck ->
      exists pre r1 r2 r3, calls (WorkDir_run path f) s =
        BCurrentDir (Val old) :: pre
        ++ [BSetCurrentDir old r1; BUmount path r2; BRemoveDirAll path r3]
  end.
Proof.
  unfold WorkDir_run. rewrite calls_try, result_try, calls_fallible_res, result_fallible_res.
  destruct (currentDir s).1 as [old|e]; simpl; [|done]. generalize (try (WorkDir_setup path) (fun _ => f)).
  intros x. set (s' := final _ s). unfold dropping. rewrite calls_bind, result_bind.
  intros Hr. exists (calls x s').
  assert (forall r s'', exists r1 r2 r3, calls (WorkDir_drop path old ;;; ret (r : R A)) s'' =
    [BSetCurrentDir old r1; BUmount path r2; BRemoveDirAll path r3]) as Hd.
  { intros r s''. unfold WorkDir_drop. do 3 eexists. by rewrite !calls_bind, !calls_act, !calls_ret. }
  destruct (result x s') as [a|e| |]; [| | |by rewrite result_ret in Hr].
  all: match goal with |- context [calls (_ ;;; ret ?r) ?s] =>
    destruct (Hd r s) as (r1 & r2 & r3 & ->) end; by exists r1, r2, r3.
Qed.
End theorems.
