(* ===== verification/Internet.v ===== *)
(** * The internet bootstrap

    cmds/internet/main.go: the node finds an interface with an address, attaches it
    to the bridge [zos], sets its vlans, starts the DHCP service and then waits until
    the hub can be reached.  [backoff.RetryNotify] is [retry] with a policy that may
    give up before any attempt but the first, and that has given up after [n]
    retries; the theorems hold for every policy and every [n].  The pause of a second
    after the bridge is created takes no step. *)

From S2P Require Import Prelude.

(** External calls, with their answers; [L], [B] and [I] are netlink's links and
    bridges and the configurations of the interfaces. *)
Inductive ncall (L B I : Type) :=
| NLoUp (r : option error)
| NAnalyze (vlan : option Z) (r : res I)
| NSelect (r : res string)
| NCreateBridge (name : string) (vlan : option Z) (r : res B)
| NLinkByName (name : string) (r : res L)
| NAttach (l : L) (b : B) (r : option error)
| NIPv6Disable (name : string) (r : option error)
| NLinkUp (l : L) (r : option error)
| NVlanDel (l : L) (vlan : Z) (pvid untagged self master : bool) (r : option error)
| NVlanAdd (l : L) (vlan : Z) (pvid untagged self master : bool) (r : option error)
| NDhcpDestroy (r : option error)
| NDhcpCreate (r : option error)
| NDhcpStart (r : option error)
| NGetBridge (name : string) (r : res B)
| NAddrList (b : B) (r : option error)
| NRouteList (b : B) (r : option error)
| NDial (address : string) (r : option error)
| NClose (address : string) (r : option error).
Arguments NLoUp {L B I}.
Arguments NAnalyze {L B I}.
Arguments NSelect {L B I}.
Arguments NCreateBridge {L B I}.
Arguments NLinkByName {L B I}.
Arguments NAttach {L B I}.
Arguments NIPv6Disable {L B I}.
Arguments NLinkUp {L B I}.
Arguments NVlanDel {L B I}.
Arguments NVlanAdd {L B I}.
Arguments NDhcpDestroy {L B I}.
Arguments NDhcpCreate {L B I}.
Arguments NDhcpStart {L B I}.
Arguments NGetBridge {L B I}.
Arguments NAddrList {L B I}.
Arguments NRouteList {L B I}.
Arguments NDial {L B I}.
Arguments NClose {L B I}.

Class NetEnv (S L B I : Type) := {
  privVlan : option Z; (* of the environment, each a uint16 *)
  pubVlan : option Z;
  defaultBridge : string;
  setLoUp : S -> option error * S;
  analyzeLinks : option Z -> S -> res I * S; (* RequiresIPv4, physical, plugged *)
  selectZOS : I -> S -> res string * S;
  createDefaultBridge : string -> option Z -> S -> res B * S;
  linkByName : string -> S -> res L * S;
  attachNicWithMac : L -> B -> S -> option error * S;
  ipv6Disable : string -> S -> option error * S;
  linkSetUp : L -> S -> option error * S;
  bridgeVlanDel : L -> Z -> bool -> bool -> bool -> bool -> S -> option error * S;
  bridgeVlanAdd : L -> Z -> bool -> bool -> bool -> bool -> S -> option error * S;
  dhcpDestroyOlder : S -> option error * S; (* the service of the default bridge *)
  dhcpCreate : S -> option error * S;
  dhcpStart : S -> option error * S;
  bridgeGet : string -> S -> res B * S;
  addrList : B -> S -> option error * S;
  routeList : B -> S -> option error * S;
  netDial : string -> S -> option error * S;
  conClose : string -> S -> option error * S;
  linkName : L -> string;
  netBackoffStop : S -> bool * S }.

Section internet.
Context {S L B I : Type} `{!NetEnv S L B I}.
Notation P A := (M S (ncall L B I) A).

(** [if err := f(); err != nil { return errors.Wrap(err, text) }] and then [k]. *)
Definition check_err (wrap : error -> error) (m : P (option error)) (k : P (option error))
    : P (option error) :=
  e <- m ;; match e with Some e => ret (Some (wrap e)) | None => k end.
Definition get_val {A} (wrap : error -> error) (m : P (res A)) (k : A -> P (option error))
    : P (option error) :=
  r <- m ;; match r with Err e => ret (Some (wrap e)) | Val a => k a end.

Definition debugZos : P (option error) :=
  get_val (Wrapped "failed to get default bridge")
    (act (bridgeGet defaultBridge) (NGetBridge defaultBridge)) (fun br =>
  check_err (Wrapped "failed to list bridge addresses") (act (addrList br) (NAddrList br)) (
  check_err (Wrapped "failed to list bridge routes") (act (routeList br) (NRouteList br)) (
  ret None))).

Definition dial_one (address : string) : P (option error) :=
  check_err (Wrapped ("failed to reach " +:+ address)) (act (netDial address) (NDial address)) (
  act (conClose address) (NClose address)).
Definition addresses : list string := ["bootstrap.grid.tf:http"; "v4.hub.grid.tf:http"].
Definition check_attempt : P (option error) := debugZos ;;; for_err dial_one addresses.
Definition check_ (n : nat) : P (option error) := retry netBackoffStop n check_attempt.

(** The vlans of the interface. *)
Definition drop_default_vlan (link : L) (k : P (option error)) : P (option error) :=
  match privVlan, pubVlan with
  | Some _, Some _ =>
      check_err (Wrapped ("failed to delete default vlan on device '" +:+ linkName link +:+ "'"))
        (act (bridgeVlanDel link 1 true true false false) (NVlanDel link 1 true true false false)) k
  | _, _ => k
  end.
Definition add_vlan (link : L) (vlan : option Z) (k : P (option error)) : P (option error) :=
  match vlan with
  | Some v =>
      check_err (Wrapped ("failed to set vlan on device '" +:+ linkName link +:+ "'"))
        (act (bridgeVlanAdd link v false false false false) (NVlanAdd link v false false false false)) k
  | None => k
  end.

Definition configure_attempt : P (option error) :=
  get_val id (act (analyzeLinks privVlan) (NAnalyze privVlan)) (fun ifaceConfigs =>
  get_val id (act (selectZOS ifaceConfigs) NSelect) (fun zosChild =>
  get_val id (act (createDefaultBridge defaultBridge privVlan) (NCreateBridge defaultBridge privVlan)) (fun br =>
  get_val (Wrapped ("could not get link " +:+ zosChild))
    (act (linkByName zosChild) (NLinkByName zosChild)) (fun link =>
  check_err id (act (attachNicWithMac link br) (NAttach link br)) (
  check_err (Wrapped ("failed to disable ip6 on zos slave " +:+ zosChild))
    (act (ipv6Disable zosChild) (NIPv6Disable zosChild)) (
  check_err (Wrapped ("could not bring " +:+ zosChild +:+ " up"))
    (act (linkSetUp link) (NLinkUp link)) (
  drop_default_vlan link (
  add_vlan link privVlan (
  add_vlan link pubVlan (
  check_err id (act dhcpDestroyOlder NDhcpDestroy) (
  check_err id (act dhcpCreate NDhcpCreate) (
  check_err id (act dhcpStart NDhcpStart) (
  ret None))))))))))))).
Definition configureZOS (n : nat) : P (option error) := retry netBackoffStop n configure_attempt.

(** The exit code; [ver] is the flag that only shows the version. *)
Definition main (ver : bool) (n : nat) : P Z :=
  if ver then ret 0%Z
  else
    e <- act setLoUp NLoUp ;;
    match e with
    | Some _ => ret 0%Z
    | None =>
        e <- configureZOS n ;;
        match e with
        | Some _ => ret 1%Z
        | None => e <- check_ n ;; ret (match e with Some _ => 1%Z | None => 0%Z end)
        end
    end.

(** ** What a success has done *)
Lemma check_err_None wrap m k s :
  result (check_err wrap m k) s = None ->
  result m s = None /\ result k (final m s) = None /\
  calls (check_err wrap m k) s = calls m s ++ calls k (final m s).
Proof. unfold check_err. rewrite result_bind, calls_bind. by destruct (result m s). Qed.
Lemma get_val_None {A} wrap (m : P (res A)) k s :
  result (get_val wrap m k) s = None ->
  exists a, result m s = Val a /\ result (k a) (final m s) = None /\
  calls (get_val wrap m k) s = calls m s ++ calls (k a) (final m s).
Proof. unfold get_val. rewrite result_bind, calls_bind. destruct (result m s); [eauto|done]. Qed.

(** The calls of one attempt that configures the interface [child]. *)
Definition vlan_calls (link : L) (vlan : option Z) : list (ncall L B I) :=
  match vlan with Some v => [NVlanAdd link v false false false false None] | None => [] end.
Definition default_vlan_calls (link : L) : list (ncall L B I) :=
  match privVlan, pubVlan with
  | Some _, Some _ => [NVlanDel link 1 true true false false None]
  | _, _ => []
  end.
Definition wiring (ifs : I) (child : string) (br : B) (link : L) : list (ncall L B I) :=
  [NAnalyze privVlan (Val ifs); NSelect (Val child); NCreateBridge defaultBridge privVlan (Val br);
   NLinkByName child (Val link); NAttach link br None; NIPv6Disable child None; NLinkUp link None]
  ++ default_vlan_calls link ++ vlan_calls link privVlan ++ vlan_calls link pubVlan
  ++ [NDhcpDestroy None; NDhcpCreate None; NDhcpStart None].

Lemma add_vlan_None link vlan k s :
  result (add_vlan link vlan k) s = None ->
  exists s', result k s' = None /\
    calls (add_vlan link vlan k) s = vlan_calls link vlan ++ calls k s'.
Proof.
  destruct vlan as [v|]; simpl; [|eauto]. intros (Hm & Hk & ->)%check_err_None.
  rewrite result_act in Hm. rewrite calls_act, Hm. eauto.
Qed.
Lemma drop_default_vlan_None link k s :
  result (drop_default_vlan link k) s = None ->
  exists s', result k s' = None /\
    calls (drop_default_vlan link k) s = default_vlan_calls link ++ calls k s'.
Proof.
  unfold drop_default_vlan, default_vlan_calls. destruct privVlan, pubVlan; simpl; eauto.
  intros (Hm & Hk & ->)%check_err_None. rewrite result_act in Hm. rewrite calls_act, Hm. eauto.
Qed.

Ltac one_call H :=
  first [ apply check_err_None in H as (? & H & ->) | apply get_val_None in H as (? & ? & H & ->) ];
  match goal with Hm : result (act _ _) _ = _ |- _ =>
    rewrite result_act in Hm; rewrite calls_act, Hm; clear Hm; simpl app end.

Lemma configure_attempt_None s :
  result configure_attempt s = None ->
  exists ifs child br link, calls configure_attempt s = wiring ifs child br link.
Proof.
  unfold configure_attempt. intros H. do 7 one_call H.
  apply drop_default_vlan_None in H as (s1 & H & ->).
  apply add_vlan_None in H as (s2 & H & ->). apply add_vlan_None in H as (s3 & H & ->).
  do 3 one_call H. rewrite calls_ret. by do 4 eexists.
Qed.

Definition reached : list (ncall L B I) :=
  flat_map (fun a => [NDial a None; NClose a None]) addresses.
Lemma for_err_dials l : forall s, result (for_err dial_one l) s = None ->
  calls (for_err dial_one l) s = flat_map (fun a => [NDial a None; NClose a None]) l.
Proof.
  induction l as [|a l IH]; intros s; simpl; [done|]. rewrite result_bind, calls_bind.
  destruct (result (dial_one a) s) as [e|] eqn:H; [by rewrite result_ret|].
  intros Hl%IH. rewrite Hl. unfold dial_one in *. one_call H. 
  rewrite result_act in H. by rewrite calls_act, H.
Qed.

(** The exit code 0 means that the interface was configured, its vlans set and the DHCP
    service started, in that order, and that afterwards both addresses were reached, unless
    the loopback interface could not be brought up. *)
Theorem main_connected n s :
  result (main false n) s = 0%Z ->
  (exists e, calls (main false n) s = [NLoUp (Some e)]) \/
  exists pre ifs child br link mid,
    calls (main false n) s =
      NLoUp None :: pre ++ wiring ifs child br link ++ mid ++ reached.
Proof.
  unfold main. rewrite result_bind, calls_bind, result_act, calls_act.
  destruct (setLoUp s).1 as [e|]; [left; exists e; by rewrite calls_ret|].
  set (s1 := final _ s). rewrite result_bind, calls_bind. unfold configureZOS.
  destruct (result (retry _ _ configure_attempt) s1) eqn:Hc; [by rewrite result_ret|].
  apply retry_last in Hc as (pre & s2 & -> & (ifs & child & br & link & ->)%configure_attempt_None).
  rewrite result_bind, calls_bind, result_ret, calls_ret, app_nil_r. unfold check_.
  match goal with |- context [result (retry ?st n check_attempt) ?s3] =>
    destruct (result (retry st n check_attempt) s3) eqn:Hk end; [done|]. intros _.
  apply retry_last in Hk as (mid & s4 & -> & Hd).
  unfold check_attempt in *. rewrite result_bind in Hd. rewrite calls_bind, (for_err_dials _ _ Hd).
  right. exists pre, ifs, child, br, link, (mid ++ calls debugZos s4).
  by rewrite <- !app_assoc.
Qed.
End internet.
