(* ===== verification/SampleNode.v ===== *)
(** * Concrete environments of the node's other services

    One instance per interface, on small states, so that the theorems of the
    services can be applied to concrete runs. *)

From S2P Require Import Prelude Paths GridTypes Sorting Engine Gateway Capacity Events Reporter.
From S2P Require Import Migration Power UpgradeFiles Upgrade Registrar Auth UpdateWorker Identity.
From S2P Require Import Sample.
From Stdlib Require Import SpecFloat.

#[export] Existing Instance map_to_list_range.
#[export] Existing Instance map_to_list_range_laws.

(** ** Registrar client and power *)
#[export] Instance sample_client : RegistrarClient unit := {|
  rcGetZosVersion s := (Val "v1.0.0", s);
  rcRegisterNode _ s := (Val 7%Z, s);
  rcCreateAccount _ _ s := ((MkAccount 3 "key", None), s);
  rcEnsureAccount _ _ s := ((MkAccount 3 "key", None), s);
  rcGetFarm id s := (Val (MkFarm id "farm" 3), s);
  rcGetNode _ s := (Err (Fresh "no node"), s);
  rcGetNodeByTwinID _ s := (Err (Fresh "no node"), s);
  rcListNodes _ s := (([], None), s);
  rcGetAccount _ s := (Val (MkAccount 3 "key"), s);
  rcGetAccountByPK _ s := ((MkAccount 3 "key", None), s);
  rcUpdateNode _ s := (None, s);
  rcReportUptime _ s := (None, s) |}.

Definition sample_node : Node :=
  MkNode 7 1 3 (MkLocation "4.4" "51.0" "Belgium" "Ghent") (MkNodeResources 0 0 8 1024)
    [MkInterface "eth0" "aa:bb" []; MkInterface "zos" "cc:dd" ["10.0.0.2"]] "serial" true false.

(** The state is what the chain holds: whether the node is up, and its target. *)
#[export] Instance sample_power : PowerEnv (bool * bool) := {|
  pwGetPowerTarget s := (Val (MkNodePower s.1 s.2), s);
  pwSetNodePowerState up s := (None, (up, s.2));
  pwGetNode _ s := (Val sample_node, s);
  pwUpdateUptime _ _ s := (None, s);
  etherWake _ s := (None, s);
  zinitShutdown s := (None, s);
  zinitReboot s := (None, s);
  CheckFlag _ s := (false, s);
  hostUptime s := (Val 100%Z, s);
  clock s := (5%Z, s);
  markDone s := (tt, s);
  pwStream s := (Val [MkPowerEvent 1 7 false true], s);
  bridgeGet s := (Val "zos", s);
  bridgeListNics _ s := (Val [("device", "eth0")], s);
  ValueOfFlag _ s := (Val "pumbg", s);
  SetWol _ s := (None, s);
  MagicPacket := "g";
  ReadonlyCache := "readonly";
  LimitedCache := "limited";
  NotReachable := "unreachable" |}.

(** ** Events and capacity: the contracts of the node *)
Definition sample_paused : Deployment :=
  MkDeployment 0 2 20 "" "" "" [sample_workload "vm" "zmachine" "" "paused"].

#[export] Instance sample_events : EventsEnv unit := {|
  evCapacity s := (Val [sample_deployment; sample_paused], s);
  evNodeContracts _ s := (Val [20%Z], s);
  evGetContract id s := ((MkContract true (MkNodeContract 7 "") false, no_error), s);
  evDeprovision _ _ _ s := (None, s);
  evPause _ _ s := (None, s);
  evResume _ _ s := (None, s);
  evContractCancelled s := (None, s);
  evContractLocked s := (None, s) |}.

#[export] Instance sample_capacity : CapacityEnv unit := {|
  cStorageGet _ _ s := (Val sample_deployment, s);
  cSetContractConsumption _ s := (None, s) |}.

(** ** Reports: the state is the queue *)
#[export] Instance sample_overflow : FloatOverflow := {|
  uint64_overflow _ := 0%Z; int64_overflow _ := 0%Z |}.

Definition sample_counters : gmap string spec_float :=
  {["1-10-vm" := float64_of_int 5; lastReportedKey := float64_of_int 1000]}.

#[export] Instance sample_reporter : ReporterEnv (list Report) := {|
  rrdOpen s := (None, s);
  rrdSlot s := (None, s);
  rrdCounter _ _ s := (None, s);
  rrdLast _ s := (Val (float64_of_int 1000, true), s);
  rrdCounters _ s := (Val sample_counters, s);
  rrdClose s := (None, s);
  identityFromKey s := (None, s);
  queueOpen s := (None, s);
  queueRemove s := (tt, s);
  queueEnqueue r s := (None, s ++ [r]);
  queuePeekBlock s := (match s with [] => Err (Fresh "empty") | r :: _ => Val r end, s);
  queueDequeue s := (None, tail s);
  queueClose s := (tt, s);
  gwReport _ s := (None, s);
  vmMetrics s := (Val ∅, s);
  time_now s := ((4600 * 10 ^ 9)%Z, s) |}.

(** ** Migration: the state is the old storage *)
#[export] Instance sample_migration : MigrationEnv (gmap (Z * Z) Deployment) := {|
  fsTwins s := (Val [1%Z], s);
  fsByTwin t s := (Val [2%Z; 1%Z], s);
  fsGet t d s := (match s !! (t, d) with Some d => Val d | None => Err not_exists end, s);
  migrate _ s := (None, s);
  fsDelete d s := (None, delete (GridTypes.TwinID d, ContractID d) s);
  Migration.osStat _ s := (None, s);
  Migration.osMkdirAll _ s := (None, s);
  Migration.osSymlink _ _ s := (None, s);
  IsNotExist _ := false;
  NetworkID _ name := "n-" +:+ name |}.

(** ** Files and upgrades: the state maps paths to contents *)
Definition no_file : error := Fresh "file does not exist".

#[export] Instance sample_files : FileEnv (gmap string string) := {|
  UpgradeFiles.osStat p s := (if s !! p then None else Some no_file, s);
  osIsNotExist err := bool_decide (err = no_file);
  osRename a b s := match s !! a with
                    | Some x => (None, <[b := x]> (delete a s)) | None => (Some no_file, s) end;
  osRemove p s := match s !! p with Some _ => (None, delete p s) | None => (Some no_file, s) end;
  osRemoveAll _ s := (tt, s);
  osOpenFile p _ s := (None, <[p := ""]> s);
  UpgradeFiles.osMkdirAll _ _ s := (None, s);
  UpgradeFiles.osSymlink _ _ s := (None, s);
  CheckAndGet _ m s := (if bool_decide (m_Blob m = "gone") then Err (Fresh "no blob")
                        else Val ("blob " +:+ m_Blob m), s);
  ioCopy p x s := if bool_decide (x = "blob torn") then (Some (Fresh "torn"), <[p := "bl"]> s)
                  else (None, <[p := x]> s) |}.

#[export] Instance sample_file_view : FileView (gmap string string) := fun s => s.

#[export] Instance sample_file_laws : FileLaws (S := gmap string string).
Proof.
  split; unfold files, sample_file_view; simpl; try done.
  - intros p s err. by destruct (s !! p) eqn:E.
  - intros a b s. destruct (s !! a) eqn:E; simpl; [|done]. intros _. by eexists.
  - intros a b s e. destruct (s !! a); simpl; done.
  - intros p s. by destruct (s !! p).
  - intros p x s. by case_bool_decide.
  - intros p x s e. case_bool_decide; simpl; [|done]. intros _. by eexists.
Qed.

Definition noded_file : Meta := MkMeta "noded" false 493 RegularType "" "noded".
Definition noded_service : Meta := MkMeta "noded.yaml" false 420 RegularType "" "service".
Definition sample_store : Store := MkStore (fun root =>
  if bool_decide (root = "/etc/zinit") then Val [("/etc/zinit/noded.yaml", noded_service)]
  else Val [("/bin/noded", noded_file); ("/etc/zinit/noded.yaml", noded_service)]).

#[export] Instance sample_upgrade : UpgradeEnv (gmap string string) := {|
  bootOther s := (false, s);
  bootCurrent s := ((MkTagLink "tf-zos/v1.0.0", None), s);
  bootSet _ s := (None, s);
  bootRunMode := "production";
  kernelIsLight := false;
  kernelIsV4 := true;
  kernelVersion := "v4";
  IsFirstBoot s := (true, s);
  MarkBooted s := (None, s);
  hubFind _ name s := (Val [name], s);
  NewTagLink _ := MkTagLink "tf-zos/v1.1.0";
  hubListTag _ tag s :=
    (Val (if bool_decide (tag = "v1.1.0")
          then [MkPackage "zos.flist" "zos:v1.1.0.flist"; MkPackage "noded.flist" "noded:2.flist";
                MkPackage "redis.flist" "redis:1.flist"]
          else [MkPackage "redis.flist" "redis:1.flist"]), s);
  hubDownload _ _ name s := (Val name, s);
  NewStore _ s := (Val (Some sample_store), s);
  Destination l := Val ("tf-zos", after_slash (Target l));
  PackageDestination p repo := ((repo, pkg_Target p), None);
  Upgrade.RunningDev := false;
  EnvFarmID := 1;
  envConfig s := (Val [1%Z], s);
  gwGetZosVersion s := (Val (MkZosVersion "v1.1.0" false), s);
  zinitStopMultiple _ s := (None, s);
  zinitForget _ s := (None, s);
  zinitMonitor _ s := (None, s);
  zinitStart _ s := (None, s);
  IsReadOnly _ := false;
  randIntn _ s := (3%Z, s);
  newStorage _ s := (Val "storage", s);
  ctxDone s := (true, s) |}.

Definition sample_upgrader : Upgrader := MkUpgrader "/tmp/root" false None None None.

(** ** Registration *)
#[export] Instance sample_registrar : RegistrarEnv unit := {|
  limitedCache s := (false, s);
  statKvm s := (None, s);
  geoipFetch s := (Val (MkLocation "4.4" "51.0" "Belgium" "Ghent"), s);
  netInterfaces s := (Val {["zos" := MkInterface "zos" "cc:dd" ["10.0.0.2"]]}, s);
  regEnsureAccount s := (Val (MkAccount 3 "key"), s);
  regGetNodeByTwinID _ s := ((sample_node, Some (Fresh "error: node not found")), s);
  regCreateNode _ s := (Val 7%Z, s);
  regGetNode _ s := (Val sample_node, s);
  regUpdateNode _ s := (None, s);
  ZOSAddresses s := (None, s);
  regCtxDone s := (false, s);
  envFarmID := 1;
  ErrorNodeNotFound := "node not found";
  zero_Node := MkNode 0 0 0 (MkLocation "" "" "" "") (MkNodeResources 0 0 0 0) [] "" false false;
  DeepEqual _ _ := false |}.

Definition sample_info : RegistrationInfo :=
  MkInfo zero_capacity (MkLocation "" "" "" "") true true "serial" ∅.

(** ** Keys: the state is the cache *)
#[export] Instance sample_auth : AuthEnv (gmap Z string) := {|
  lruGet id s := (s !! id, s);
  lruAdd id k s := (tt, <[id := k]> s);
  auGetTwin id s := (Val (MkAccount id "aGVsbG8="), s);
  auGetFarm id s := (Val (MkFarm id "farm" 3), s) |}.
#[export] Instance sample_cache_view : CacheView (gmap Z string) := fun s => s.
#[export] Instance sample_cache_laws : CacheLaws (S := gmap Z string).
Proof.
  split; unfold cached, sample_cache_view; simpl; try done.
  - intros id k s. by rewrite lookup_insert_eq.
  - intros id k s id' k' H Hne. by rewrite lookup_insert_ne in H.
Qed.

(** ** Identity: the state is the stored key *)
#[export] Instance sample_identity : IdentityEnv (option string) := {|
  newStore _ _ s := (None, s);
  storeKind s := ("file", s);
  storeGet s := (match s with Some k => Val k
                 | None => Err (Sentinel ErrKeyDoesNotExist_id "no key") end, s);
  storeSet k _ := (None, Some k);
  storeAnnihilate _ := (None, None);
  GenerateKeyPair s := (Val (MkKeyPair "secret" "public"), s);
  KeyPairFromKey k := MkKeyPair k "public";
  KeyIdentity k := PublicKey_ k;
  environmentGet s := (Val (MkEnvironment 1 "" "url" RunningMain), s);
  registrarURL u := Val u;
  idNewClient _ s := (None, s);
  idGetFarm _ s := ((MkFarm 1 "farm" 3, None), s);
  cryptoSign _ m := Val m;
  cryptoVerify _ _ _ := None;
  cryptoEncrypt m _ := Val m;
  cryptoDecrypt m _ := Val m;
  cryptoEncryptECDH m _ _ := Val m;
  cryptoDecryptECDH m _ _ := Val m |}.
#[export] Instance sample_store_view : StoreView (option string) := fun s => s.
#[export] Instance sample_store_laws : StoreLaws (S := option string).
Proof.
  split; unfold stored, sample_store_view; simpl; try done; intros; by destruct s; simplify_eq/=.
Qed.

(** ** Links of the release worker *)
#[export] Instance sample_worker_env : WorkerEnv (gmap string string) := {|
  wAbs p s := (Val p, s);
  newClient url s := (Val url, s);
  wGetZosVersion _ s := (Val "v1.1.0", s);
  wLstat _ s := (None, s);
  wReadlink p s := (match s !! p with Some t => Val t | None => Err no_file end, s);
  wSymlink t p s := (None, <[p := t]> s);
  wRemove p s := (None, delete p s);
  wIsNotExist err := bool_decide (err = no_file);
  wStop s := (false, s) |}.
#[export] Instance sample_link_view : LinkView (gmap string string) := fun s => s.
#[export] Instance sample_link_laws : LinkLaws (S := gmap string string).
Proof.
  split; unfold links, sample_link_view; simpl; try done.
  intros p s t. by destruct (s !! p) eqn:E; intros; simplify_eq.
Qed.
Definition sample_worker : Worker := MkWorker "/srv/tf-autobuilder" "/srv/tf-zos" {["qa-v4" := "url"]}.
