(* ===== verification/SwaggerUi.v ===== *)
(** * Helpers of the API pages (cmds/modules/provisiond/swagger)

    The provision daemon serves the swagger user interface to document its API.
    The bundles are vendored and minified, each one line of code; modelled here
    are pure functions of them that check what a user enters and what is put
    into a link.  Strings are those of ASCII characters, on which the length of a
    JavaScript string and the white space of [trim] and of [\s] are the ones
    below. *)

From S2P Require Import Prelude.
From stdpp Require Import pretty.
From Stdlib Require Import Ascii.

(** ** Characters *)
Definition code (c : ascii) : nat := nat_of_ascii c.
Definition is_space (c : ascii) : bool :=
  ((9 <=? code c) && (code c <=? 13)) || (code c =? 32).
Definition is_digit (c : ascii) : bool := (48 <=? code c) && (code c <=? 57).
Definition to_lower (c : ascii) : ascii :=
  if (65 <=? code c) && (code c <=? 90) then ascii_of_nat (code c + 32) else c.

Fixpoint trim_start (s : string) : string :=
  match s with
  | String c s' => if is_space c then trim_start s' else s
  | EmptyString => s
  end.
Fixpoint trim_end (s : string) : string :=
  match s with
  | EmptyString => s
  | String c s' =>
      match trim_end s' with
      | EmptyString => if is_space c then EmptyString else String c EmptyString
      | s'' => String c s''
      end
  end.
Definition trim (s : string) : string := trim_end (trim_start s).

Fixpoint lower (s : string) : string :=
  match s with EmptyString => EmptyString | String c s => String (to_lower c) (lower s) end.

(** ** swagger-ui.js: which definitions the online validator is asked about *)
Definition requiresValidationURL (uri : option string) : bool :=
  match uri with
  | None => false
  | Some uri =>
      negb (bool_decide (uri = "") || bool_decide (String.index 0 "localhost" uri <> None)
            || bool_decide (String.index 0 "127.0.0.1" uri <> None) || bool_decide (uri = "none"))
  end.

(** ** swagger-ui-bundle.js: the lengths a parameter may have *)
Definition validateMaxLength (value : string) (max : Z) : option string :=
  if (max <? Z.of_nat (String.length value))%Z
  then Some ("Value must be no longer than " +:+ pretty max +:+ " character" +:+
             (if (max =? 1)%Z then "" else "s"))
  else None.

(** ** swagger-ui-es-bundle.js: [/^-?\d+$/] *)
Fixpoint all_digits (s : string) : bool :=
  match s with EmptyString => true | String c s => is_digit c && all_digits s end.
Definition digits (s : string) : bool := negb (bool_decide (s = "")) && all_digits s.
Definition validateInteger (value : string) : option string :=
  let ok := match value with
            | String "-" s => digits s
            | s => digits s
            end in
  if ok then None else Some "Value must be an integer".

(** ** swagger-ui-es-bundle-core.js: the fragment a deep link is made of *)
Fixpoint escape_spaces (s : string) : string :=
  match s with
  | EmptyString => EmptyString
  | String c s => if is_space c then "%20" +:+ escape_spaces s else String c (escape_spaces s)
  end.
Definition createDeepLinkPath (str : string) : string := escape_spaces (trim str).

(** ** swagger-ui-standalone-preset.js: what may be put into a link *)

(** [/[^\x20-\x7E...]/g] removed. *)
Fixpoint printable (s : string) : string :=
  match s with
  | EmptyString => EmptyString
  | String c s => if (32 <=? code c) && (code c <=? 126) then String c (printable s) else printable s
  end.

(** The match of [/^([^:]+):/] at the start of a line, the only one the printable
    characters leave. *)
Fixpoint up_to_colon (s : string) : option string :=
  match s with
  | EmptyString => None
  | String c s => if bool_decide (c = ":"%char) then Some ":"
                  else String c <$> up_to_colon s
  end.
Definition scheme (s : string) : option string :=
  match s with
  | String ":" _ => None
  | s => up_to_colon s
  end.

(** [/^(%20|\s)*(javascript|data|vbscript)/i] *)
Fixpoint skip_blanks (s : string) : string :=
  match s with
  | String "%" (String "2" (String "0" s)) => skip_blanks s
  | String c s' => if is_space c then skip_blanks s' else s
  | EmptyString => s
  end.
Definition invalid_protocol (s : string) : bool :=
  let s := lower (skip_blanks s) in
  String.prefix "javascript" s || String.prefix "data" s || String.prefix "vbscript" s.

(** [isRelativeUrlWithoutProtocol] *)
Definition is_relative (url : string) : bool :=
  match url with
  | String c _ => bool_decide (c = "."%char) || bool_decide (c = "/"%char)
  | EmptyString => false
  end.

Definition sanitizeUrl (url : string) : string :=
  if bool_decide (url = "") then "about:blank"
  else
    let url := trim (printable url) in
    if is_relative url then url
    else
      match scheme url with
      | None => url
      | Some s => if invalid_protocol s then "about:blank" else url
      end.

(** ** What gets into a link *)
Lemma to_lower_colon c : to_lower c = ":"%char <-> c = ":"%char.
Proof. split; [|by intros ->]. destruct c as [[] [] [] [] [] [] [] []]; vm_compute; congruence. Qed.

Lemma prefix_cons a p c s :
  String.prefix (String a p) (String c s) = true <-> a = c /\ String.prefix p s = true.
Proof. simpl. destruct (ascii_dec a c); naive_solver. Qed.

Lemma up_to_colon_prefix p e :
  (forall c s s', p = s +:+ String c s' -> c <> ":"%char) ->
  String.prefix (p +:+ ":") (lower e) = true ->
  exists x, up_to_colon e = Some x /\ lower x = p +:+ ":".
Proof.
  revert e. induction p as [|a p IH]; intros [|c e] Hp; try done; simpl lower;
    intros [Ha He]%prefix_cons; simpl.
  - symmetry in Ha. apply to_lower_colon in Ha as ->. by exists ":".
  - destruct (IH e) as (x & -> & Hx); [|done|].
    { intros c' s s' ->. by apply (Hp c' (String a s) s'). }
    assert (Hc : c <> ":"%char).
    { intros ->. by apply (Hp a "" p eq_refl). }
    rewrite bool_decide_eq_false_2 by done. exists (String c x). simpl. by rewrite Hx, <- Ha.
Qed.

(** The schemes a link must not have, as a browser reads them. *)
Definition script_schemes : list string := ["javascript"; "data"; "vbscript"].

Lemma script_scheme_invalid p e :
  p ∈ script_schemes -> String.prefix (p +:+ ":") (lower e) = true ->
  exists x, scheme e = Some x /\ invalid_protocol x = true.
Proof.
  intros Hp He. destruct (up_to_colon_prefix p e) as (x & Hx & Hl); [|done|].
  { intros c s s' Heq ->. unfold script_schemes in Hp. rewrite !elem_of_cons in Hp.
    destruct_or! Hp; [| | |by apply elem_of_nil in Hp]; subst p;
      repeat (destruct s as [|? s]; simplify_eq/=). }
  exists x. destruct e as [|c e]; [done|]. destruct x as [|d x].
  { by destruct p. }
  assert (Hd : to_lower d <> ":"%char /\ skip_blanks (String d x) = String d x).
  { unfold script_schemes in Hp. rewrite !elem_of_cons in Hp.
    destruct_or! Hp; [| | |by apply elem_of_nil in Hp]; subst p; injection Hl as Hd _;
      destruct d as [[] [] [] [] [] [] [] []]; vm_compute in Hd; try discriminate Hd;
      split; (discriminate || reflexivity). }
  destruct Hd as [Hd Hs]. split.
  - simpl in Hx. destruct (bool_decide_reflect (c = ":"%char)) as [->|Hc].
    { injection Hx as <- <-. by destruct Hd. }
    assert (Hsch : scheme (String c e) = up_to_colon (String c e)).
    { destruct c as [[] [] [] [] [] [] [] []]; try reflexivity. done. }
    rewrite Hsch. simpl. by rewrite bool_decide_eq_false_2.
  - unfold invalid_protocol. rewrite Hs, Hl. unfold script_schemes in Hp. rewrite !elem_of_cons in Hp.
    destruct_or! Hp; [| | |by apply elem_of_nil in Hp]; subst p; reflexivity.
Qed.

(** Whatever is passed to [sanitizeUrl], what it answers is not read by a browser
    as a script or a data url, in any mix of cases. *)
Theorem sanitizeUrl_safe url p :
  p ∈ script_schemes -> String.prefix (p +:+ ":") (lower (sanitizeUrl url)) = false.
Proof.
  intros Hp. apply not_true_is_false. intros Hpre.
  destruct (script_scheme_invalid _ _ Hp Hpre) as (x & Hs & Hi). revert Hpre Hs.
  assert (Hblank : scheme "about:blank" = Some x -> False) by (by intros [= <-]).
  unfold sanitizeUrl. destruct (bool_decide (url = "")); [done|].
  generalize (trim (printable url)) as u. intros u.
  destruct (is_relative u) eqn:Hrel.
  - intros Hpre _. destruct u as [|c u]; [done|]. simpl in Hrel.
    assert (Hc : c = "."%char \/ c = "/"%char).
    { destruct (bool_decide_reflect (c = "."%char)); [by left|].
      destruct (bool_decide_reflect (c = "/"%char)); [by right|done]. }
    unfold script_schemes in Hp. rewrite !elem_of_cons in Hp.
    destruct_or! Hp; [| | |by apply elem_of_nil in Hp]; subst p; by destruct Hc as [->| ->].
  - destruct (scheme u) as [y|] eqn:Hy; [|congruence].
    destruct (invalid_protocol y) eqn:Hiy; congruence.
Qed.

(** A deep link holds no white space, whatever the tag or operation is called. *)
Fixpoint no_space (s : string) : bool :=
  match s with EmptyString => true | String c s => negb (is_space c) && no_space s end.

Theorem createDeepLinkPath_no_space str : no_space (createDeepLinkPath str) = true.
Proof.
  unfold createDeepLinkPath. induction (trim str) as [|c s IH]; simpl; [done|].
  destruct (is_space c) eqn:Hc; simpl; [done|]. by rewrite Hc.
Qed.

(** An integer is an optional sign and at least one digit. *)
Theorem validateInteger_spec value :
  validateInteger value = None <->
  exists sign ds, value = sign +:+ ds /\ (sign = "" \/ sign = "-") /\ ds <> "" /\ all_digits ds = true.
Proof.
  assert (Hd : forall s, digits s = true <-> s <> "" /\ all_digits s = true).
  { intros s. unfold digits. rewrite andb_true_iff, negb_true_iff, bool_decide_eq_false. done. }
  assert (Hv : validateInteger value = None <->
    exists sign ds, value = sign +:+ ds /\ (sign = "" \/ sign = "-") /\ digits ds = true).
  { assert (Hnone : forall b : bool, (if b then None else Some "Value must be an integer") = None <-> b = true)
      by (by intros []).
    unfold validateInteger. rewrite Hnone. split.
    - destruct value as [|c s]; [done|].
      destruct (bool_decide_reflect (c = "-"%char)) as [->|Hc].
      + intros Hs. exists "-", s. auto.
      + intros Hs. exists "", (String c s). split; [done|]. split; [by left|].
        destruct c as [[] [] [] [] [] [] [] []]; try exact Hs. done.
    - intros (sign & ds & -> & [->| ->] & Hs); [|done]. simpl.
      destruct ds as [|c s]; [done|].
      destruct c as [[] [] [] [] [] [] [] []]; try exact Hs. by vm_compute in Hs. }
  rewrite Hv. by setoid_rewrite Hd.
Qed.

Example sanitizeUrl_script : sanitizeUrl " JavaScript:alert(1)" = "about:blank".
Proof. reflexivity. Qed.
Example sanitizeUrl_link : sanitizeUrl "https://threefold.io" = "https://threefold.io".
Proof. reflexivity. Qed.
Example validateMaxLength_one :
  validateMaxLength "abc" 1 = Some "Value must be no longer than 1 character".
Proof. vm_compute. reflexivity. Qed.
Example requiresValidationURL_local : requiresValidationURL (Some "http://localhost:8080/api") = false.
Proof. vm_compute. reflexivity. Qed.
