(* ===== verification/SwaggerCurl.v ===== *)
(** * The curl commands of the API pages (swagger-ui.js)

    The pages show, for a request, a curl command for a POSIX shell, for
    PowerShell and for cmd.exe.  One builder [curlify] (the minified function [T])
    writes the command with the [escape] function, the continuation of a line and
    the file name extension of the shell.  A request is the immutable map the
    builder reads: its method, url, headers, body and further options for curl.

    [sh_read] says how a POSIX shell splits a command into words; it is written
    after the quoting rules of the shell, refuses what is not one simple command,
    and is what the command for bash is measured against. *)

From S2P Require Import Prelude SwaggerUi JsStrings.
From Stdlib Require Import Ascii.

Definition quote : ascii := "'"%char.
Definition backslash : ascii := "\"%char.
Definition newline : ascii := "010"%char.
Definition dquote : ascii := "034"%char.

(** ** Escaping an argument *)

(** [/^[_\/-]/g.test(e)] *)
Definition bare (e : string) : bool :=
  match e with
  | EmptyString => false
  | String c _ => bool_decide (c = "_"%char) || bool_decide (c = "/"%char) || bool_decide (c = "-"%char)
  end.

(** [A]: ["-d "===e||/^[_\/-]/g.test(e)?e:"'"+e.replace(/'/g,"'\\''")+"'"] *)
Definition escape_bash (e : string) : string :=
  if bool_decide (e = "-d ") || bare e then e
  else "'" +:+ replace_char quote "'\''" e +:+ "'".

(** [e.replace(/\\"/g,'\\\\"')]: a backslash before a double quote is doubled. *)
Fixpoint double_escapes (s : string) : string :=
  match s with
  | String c s' =>
      match s' with
      | String d s'' =>
          if bool_decide (c = backslash) && bool_decide (d = dquote)
          then String backslash (String backslash (String dquote (double_escapes s'')))
          else String c (double_escapes s')
      | EmptyString => s
      end
  | EmptyString => EmptyString
  end.

(** [k] *)
Definition escape_cmd (e : string) : string :=
  let e := replace_char "^" "^^" e in
  let e := double_escapes e in
  let e := replace_char dquote (String dquote (chr dquote)) e in
  let e := replace_char newline ("^" +:+ chr newline) e in
  if bool_decide (e = "-d ") then "-d ^" +:+ chr newline
  else if bare e then e
  else chr dquote +:+ e +:+ chr dquote.

(** [I] *)
Definition escape_powershell (e : string) : string :=
  if bool_decide (e = "-d ") then e
  else if has_char newline e then
    "@" +:+ chr dquote +:+ chr newline +:+
    replace_first "$" "`$" (replace_char "`" "``" (replace_char dquote (String backslash (chr dquote)) e))
    +:+ chr newline +:+ chr dquote +:+ "@"
  else if bare e then e
  else "'" +:+ replace_char quote "''" (replace_char dquote (String dquote (chr dquote)) e) +:+ "'".

(** ** The request *)
Inductive form_value :=
| FvFile (name type : string)
| FvText (text : string).

(** The body when it is truthy: a string, a map of form fields, or another value,
    a number or true, given by its JSON text. *)
Inductive body :=
| BodyText (text : string)
| BodyMap (fields : list (string * form_value))
| BodyOther (json : string).

Record request := MkRequest {
  rq_method : string;
  rq_url : string;
  rq_headers : list (string * string);
  rq_body : option body;
  rq_curlOptions : option (list string) }.

(** [e.get("body")] as a condition: the empty string is falsy. *)
Definition get_body (r : request) : option body :=
  match rq_body r with
  | Some (BodyText "") => None
  | b => b
  end.

(** [_]: the part of a key before ["_**[]"], trimmed. *)
Definition extractKey (e : string) : string :=
  match String.index 0 "_**[]" e with
  | None => e
  | Some i => trim (String.substring 0 i e)
  end.

(** [JSON.stringify] on a string. *)
Definition hex_digit (n : nat) : ascii :=
  ascii_of_nat (if n <? 10 then 48 + n else 87 + n).
Definition json_char (c : ascii) : string :=
  if bool_decide (c = dquote) then String backslash (chr dquote)
  else if bool_decide (c = backslash) then String backslash (chr backslash)
  else if (code c =? 8) then String backslash "b"
  else if (code c =? 9) then String backslash "t"
  else if (code c =? 10) then String backslash "n"
  else if (code c =? 12) then String backslash "f"
  else if (code c =? 13) then String backslash "r"
  else if (code c <? 32)
  then String backslash ("u00" +:+ String (hex_digit (code c / 16)) (chr (hex_digit (code c mod 16))))
  else chr c.
Fixpoint json_chars (s : string) : string :=
  match s with EmptyString => "" | String c s => json_char c +:+ json_chars s end.
Definition json_string (s : string) : string := chr dquote +:+ json_chars s +:+ chr dquote.

(** [s.replace(/(\r\n|\r|\n)/g,"\n  ")] *)
Fixpoint indent_lines (s : string) : string :=
  match s with
  | EmptyString => EmptyString
  | String c s' =>
      if (code c =? 13) then
        match s' with
        | String d s'' => if code d =? 10 then String newline ("  " +:+ indent_lines s'')
                          else String newline ("  " +:+ indent_lines s')
        | EmptyString => String newline "  "
        end
      else if (code c =? 10) then String newline ("  " +:+ indent_lines s')
      else String c (indent_lines s')
  end.

Definition q (s : string) : string := chr dquote +:+ s +:+ chr dquote.

(** [P]: the form fields as the text of a JSON object. *)
Definition json_field (p : string * form_value) : string :=
  let key := "  " +:+ q (extractKey p.1) +:+ ": " in
  match p.2 with
  | FvFile name type =>
      key +:+ "{" +:+ chr newline +:+ "    " +:+ q "name" +:+ ": " +:+ q name +:+
      (if bool_decide (type = "") then ""
       else "," +:+ chr newline +:+ "    " +:+ q "type" +:+ ": " +:+ q type) +:+
      chr newline +:+ "  }"
  | FvText text => key +:+ indent_lines (json_string text)
  end.
Definition getStringBodyOfMap (fields : list (string * form_value)) : string :=
  "{" +:+ chr newline +:+ join ("," +:+ chr newline) (map json_field fields) +:+ chr newline +:+ "}".

(** ** The builder *)

Definition form_arg (p : string * form_value) : string :=
  match p.2 with
  | FvFile name type =>
      extractKey p.1 +:+ "=@" +:+ name +:+
      (if bool_decide (type = "") then "" else ";type=" +:+ type)
  | FvText text => extractKey p.1 +:+ "=" +:+ text
  end.

Definition is_multipart (headers : list (string * string)) : bool :=
  existsb (fun h => bool_decide (lower h.1 = "content-type") &&
                    bool_decide (lower h.2 = "multipart/form-data")) headers.

Section builder.
Variable escape : string -> string.
Variables newLine ext : string.

(** [l] and [p] *)
Definition addWordsWithoutLeadingSpace (args : list string) : string := join " " (map escape args).
Definition addWords (args : list string) : string := " " +:+ addWordsWithoutLeadingSpace args.
(** [f(),d()]: the continuation of the line and one level of indentation. *)
Definition next_line : string := " " +:+ newLine +:+ "  ".

Definition header_part (h : string * string) : string :=
  next_line +:+ addWordsWithoutLeadingSpace ["-H"; h.1 +:+ ": " +:+ h.2].

Definition form_part (p : string * form_value) : string :=
  next_line +:+ addWordsWithoutLeadingSpace ["-F"] +:+ addWords [form_arg p].

Definition data_part (z : string) : string :=
  next_line +:+ addWordsWithoutLeadingSpace ["-d "] +:+ addWordsWithoutLeadingSpace [z].

Fixpoint cat (l : list string) : string :=
  match l with [] => "" | s :: l => s +:+ cat l end.

(** The text for the body; [None]: the body has no [entrySeq], a TypeError. *)
Definition body_part (r : request) : option string :=
  match get_body r with
  | Some b =>
      if is_multipart (rq_headers r) && bool_decide (rq_method r ∈ ["POST"; "PUT"; "PATCH"]) then
        match b with
        | BodyMap fields => Some (cat (map form_part fields))
        | _ => None
        end
      else
        Some (data_part match b with
                        | BodyMap fields => getStringBodyOfMap fields
                        | BodyText text => text
                        | BodyOther json => json
                        end)
  | None =>
      if bool_decide (rq_method r = "POST")
      then Some (next_line +:+ addWordsWithoutLeadingSpace ["-d ''"]) else Some ""
  end.

(** [T] *)
Definition curlify (r : request) : option string :=
  b ← body_part r;
  Some ("curl" +:+ ext +:+
        match rq_curlOptions r with Some opts => addWords opts | None => "" end +:+
        addWords ["-X"; rq_method r] +:+ next_line +:+
        addWordsWithoutLeadingSpace [rq_url r] +:+
        cat (map header_part (rq_headers r)) +:+ b).
End builder.

Definition requestSnippetGenerator_curl_bash : request -> option string :=
  curlify escape_bash (String backslash (chr newline)) "".
Definition requestSnippetGenerator_curl_powershell : request -> option string :=
  curlify escape_powershell ("`" +:+ chr newline) ".exe".
Definition requestSnippetGenerator_curl_cmd : request -> option string :=
  curlify escape_cmd ("^" +:+ chr newline) "".

(** ** How a POSIX shell reads a command *)

(** Characters that end or open something when they are not quoted. *)
Definition sh_special (c : ascii) : bool :=
  bool_decide (c ∈ ["|"; "&"; ";"; "<"; ">"; "("; ")"; "$"; "`"; "*"; "?"; "["; "#"; "~"; "!";
                    "{"; "}"]%char) || bool_decide (c = dquote) || bool_decide (c = newline).
Definition sh_blank (c : ascii) : bool := bool_decide (c = " "%char) || (code c =? 9).

Definition snoc (w : option string) (c : ascii) : option string := Some (default "" w +:+ chr c).
Definition end_word (w : option string) (l : list string) : list string :=
  match w with Some w => w :: l | None => l end.

(** [quoted]: within single quotes; [w]: the word read so far. *)
Fixpoint sh_read (quoted : bool) (w : option string) (s : string) : option (list string) :=
  match s with
  | EmptyString => if quoted then None else Some (end_word w [])
  | String c s =>
      if quoted then
        if bool_decide (c = quote) then sh_read false w s else sh_read true (snoc w c) s
      else if bool_decide (c = quote) then sh_read true (Some (default "" w)) s
      else if bool_decide (c = backslash) then
        match s with
        | EmptyString => None
        | String d s => if bool_decide (d = newline) then sh_read false w s
                        else sh_read false (snoc w d) s
        end
      else if sh_blank c then end_word w <$> sh_read false None s
      else if sh_special c then None
      else sh_read false (snoc w c) s
  end.
Definition sh_words (s : string) : option (list string) := sh_read false None s.

(** The arguments a request owes to curl. *)
Definition body_argv (r : request) : list string :=
  match get_body r with
  | Some b =>
      if is_multipart (rq_headers r) && bool_decide (rq_method r ∈ ["POST"; "PUT"; "PATCH"]) then
        match b with BodyMap fields => fields ≫= (fun p => ["-F"; form_arg p]) | _ => [] end
      else ["-d"; match b with
                  | BodyMap fields => getStringBodyOfMap fields
                  | BodyText text => text
                  | BodyOther json => json
                  end]
  | None => if bool_decide (rq_method r = "POST") then ["-d"; ""] else []
  end.
Definition curl_argv (r : request) : list string :=
  "curl" :: default [] (rq_curlOptions r) ++ ["-X"; rq_method r; rq_url r] ++
  (rq_headers r ≫= (fun h => ["-H"; h.1 +:+ ": " +:+ h.2])) ++ body_argv r.

(** ** What the shell reads is what was meant *)

(** A character that means itself to the shell. *)
Definition sh_plain (c : ascii) : bool :=
  negb (bool_decide (c = quote) || bool_decide (c = backslash) || sh_blank c || sh_special c).
(** An argument that is quoted, or that needs no quotes. *)
Definition readable (e : string) : bool := negb (bare e) || all_chars sh_plain e.

Lemma sh_read_plain e w rest : all_chars sh_plain e = true -> e <> "" ->
  sh_read false w (e +:+ rest) = sh_read false (Some (default "" w +:+ e)) rest.
Proof.
  revert w. induction e as [|c e IH]; intros w; [done|].
  rewrite app_cons_s. cbn [all_chars]. rewrite andb_true_iff. intros [Hc He] _.
  unfold sh_plain in Hc. rewrite negb_true_iff, !orb_false_iff in Hc.
  destruct Hc as [[[Hq Hb] Hs] Hx]. cbn [sh_read]. rewrite Hq, Hb, Hs, Hx.
  destruct e as [|c' e]; [done|]. rewrite IH; [|exact He|discriminate].
  unfold snoc. change (default "" (Some ?x)) with x. by rewrite app_assoc_s.
Qed.

Lemma sh_read_quoted e w rest :
  sh_read true (Some w) (replace_char quote "'\''" e +:+ String quote rest) =
  sh_read false (Some (w +:+ e)) rest.
Proof.
  revert w. induction e as [|c e IH]; intros w; cbn [replace_char].
  - rewrite app_nil_s, app_nil. cbn [sh_read]. by rewrite bool_decide_eq_true_2.
  - assert (Hsnoc : (w +:+ chr c) +:+ e = w +:+ String c e) by (by rewrite app_assoc_s).
    rewrite <- Hsnoc, <- IH. case_bool_decide as Hc.
    + subst c. by rewrite app_assoc_s.
    + unfold chr. rewrite !app_cons_s, app_nil_s. cbn [sh_read]. by rewrite bool_decide_eq_false_2.
Qed.

Lemma sh_read_escape e w rest : readable e = true -> e <> "-d " ->
  sh_read false w (escape_bash e +:+ rest) = sh_read false (Some (default "" w +:+ e)) rest.
Proof.
  unfold readable, escape_bash. intros He Hd. rewrite (bool_decide_eq_false_2 (e = "-d ")) by done.
  cbn [orb]. destruct (bare e) eqn:Eb.
  - apply sh_read_plain; [done|]. by intros ->.
  - rewrite !app_assoc_s. change ("'" +:+ ?t) with (String quote t).
    rewrite app_cons_s, app_nil_s. apply sh_read_quoted.
Qed.

(** A word followed by a blank or a continued line. *)
Lemma sh_read_space w rest :
  sh_read false (Some w) (" " +:+ rest) = (cons w) <$> sh_read false None rest.
Proof. done. Qed.
Lemma sh_read_blank rest : sh_read false None (" " +:+ rest) = sh_read false None rest.
Proof.
  change (sh_read false None (" " +:+ rest)) with (end_word None <$> sh_read false None rest).
  by destruct (sh_read false None rest).
Qed.
Lemma sh_read_next w rest :
  sh_read false (Some w) (next_line (String backslash (chr newline)) +:+ rest) =
  (cons w) <$> sh_read false None rest.
Proof. by rewrite <- (sh_read_blank rest), <- (sh_read_blank (" " +:+ rest)). Qed.

Definition arg_ok (e : string) : Prop := readable e = true /\ e <> "-d ".

Lemma sh_read_word e rest : arg_ok e ->
  sh_read false None (escape_bash e +:+ rest) = sh_read false (Some e) rest.
Proof. intros [He Hd]. by rewrite sh_read_escape. Qed.

(** A command as separators and arguments. *)
Definition separates (sep : string) : Prop := forall w rest,
  sh_read false (Some w) (sep +:+ rest) = cons w <$> sh_read false None rest.
Definition piece_text (p : string * string) : string := p.1 +:+ escape_bash p.2.

Lemma sh_read_pieces w l :
  Forall (fun p => separates p.1) l -> Forall arg_ok (map snd l) ->
  sh_read false (Some w) (cat (map piece_text l)) = Some (w :: map snd l).
Proof.
  intros Hs. revert w. induction Hs as [|[sep a] l Hsep Hl IH]; intros w Ha; [done|].
  apply Forall_cons in Ha as [Ha Hargs]. cbn [map cat]. unfold piece_text at 1. cbn [fst snd].
  by rewrite app_assoc_s, Hsep, sh_read_word, IH.
Qed.

Definition nl_sep : string := next_line (String backslash (chr newline)).

Lemma space_separates : separates " ".
Proof. intros w rest. apply sh_read_space. Qed.
Lemma spaces_separate : separates "  ".
Proof. intros w rest. by rewrite <- (sh_read_blank rest). Qed.
Lemma nl_separates : separates nl_sep.
Proof. intros w rest. apply sh_read_next. Qed.

Definition data_pieces (z : string) : list (string * string) := [(nl_sep, "-d"); (" ", z)].
Definition body_pieces (r : request) : list (string * string) :=
  match get_body r with
  | Some b =>
      if is_multipart (rq_headers r) && bool_decide (rq_method r ∈ ["POST"; "PUT"; "PATCH"]) then
        match b with
        | BodyMap fields => fields ≫= (fun p => [(nl_sep, "-F"); (" ", form_arg p)])
        | _ => []
        end
      else data_pieces match b with
                       | BodyMap fields => getStringBodyOfMap fields
                       | BodyText text => text
                       | BodyOther json => json
                       end
  | None => if bool_decide (rq_method r = "POST") then data_pieces "" else []
  end.
Definition pieces (r : request) : list (string * string) :=
  map (fun a => (" ", a)) (default [] (rq_curlOptions r)) ++
  [((if bool_decide (rq_curlOptions r = Some []) then "  " else " "), "-X");
   (" ", rq_method r); (nl_sep, rq_url r)] ++
  (rq_headers r ≫= (fun h => [(nl_sep, "-H"); (" ", h.1 +:+ ": " +:+ h.2)])) ++ body_pieces r.

Lemma cat_app l k : cat (l ++ k) = cat l +:+ cat k.
Proof. induction l as [|s l IH]; [done|]. simpl. by rewrite IH, app_assoc_s. Qed.
Lemma cat_bind {A} (f : A -> list (string * string)) (g : A -> string) l :
  (forall x, g x = cat (map piece_text (f x))) ->
  cat (map piece_text (l ≫= f)) = cat (map g l).
Proof.
  intros Hg. induction l as [|x l IH]; [done|]. cbn [mbind list_bind map cat].
  by rewrite map_app, cat_app, IH, Hg.
Qed.
Lemma addWords_pieces args : args <> [] ->
  addWords escape_bash args = cat (map piece_text (map (fun a => (" ", a)) args)).
Proof.
  unfold addWords, addWordsWithoutLeadingSpace. induction args as [|a [|b args] IH]; [done| |].
  - intros _. cbn. by rewrite app_nil.
  - intros _. cbn [map join cat] in *. unfold piece_text at 1. cbn [fst snd].
    by rewrite <- IH, app_assoc_s.
Qed.

Lemma data_part_pieces z : cat (map piece_text (data_pieces z)) =
  data_part escape_bash (String backslash (chr newline)) z.
Proof. cbn [data_pieces map cat]. by rewrite app_nil. Qed.
Lemma header_part_pieces h :
  header_part escape_bash (String backslash (chr newline)) h =
  cat (map piece_text [(nl_sep, "-H"); (" ", h.1 +:+ ": " +:+ h.2)]).
Proof. cbn [map cat]. by rewrite app_nil. Qed.
Lemma form_part_pieces p :
  form_part escape_bash (String backslash (chr newline)) p =
  cat (map piece_text [(nl_sep, "-F"); (" ", form_arg p)]).
Proof. cbn [map cat]. by rewrite app_nil. Qed.

Lemma body_part_pieces r b : body_part escape_bash (String backslash (chr newline)) r = Some b ->
  b = cat (map piece_text (body_pieces r)).
Proof.
  unfold body_part, body_pieces.
  destruct (get_body r) as [bd|]; [destruct (is_multipart _ && _)|]; cbn [andb].
  - destruct bd as [|fields|]; intros [= <-]. symmetry. apply cat_bind, form_part_pieces.
  - intros [= <-]. by rewrite data_part_pieces.
  - case_bool_decide; intros [= <-]; [|done]. by rewrite data_part_pieces.
Qed.

Lemma curlify_pieces r cmd : requestSnippetGenerator_curl_bash r = Some cmd ->
  cmd = "curl" +:+ cat (map piece_text (pieces r)).
Proof.
  unfold requestSnippetGenerator_curl_bash, curlify. rewrite bind_Some.
  intros (b & Hb%body_part_pieces & [= <-]). subst b. f_equal. rewrite app_nil_s.
  unfold pieces. rewrite !map_app, !cat_app.
  rewrite (cat_bind _ _ (rq_headers r) header_part_pieces).
  cbn [map cat]. rewrite app_nil, ?app_assoc_s.
  destruct (rq_curlOptions r) as [[|o opts]|]; [done| |done].
  rewrite bool_decide_eq_false_2 by done. cbn [default from_option].
  by rewrite (addWords_pieces (o :: opts)).
Qed.

Lemma pieces_separate r : Forall (fun p => separates p.1) (pieces r).
Proof.
  pose proof space_separates. pose proof nl_separates. unfold pieces, body_pieces, data_pieces.
  rewrite !Forall_app. split_and!.
  - apply Forall_map, Forall_true. auto.
  - repeat constructor; cbn; auto. case_bool_decide; [apply spaces_separate|done].
  - apply Forall_bind, Forall_true. intros h. repeat constructor; auto.
  - repeat case_match; repeat constructor; auto.
    apply Forall_bind, Forall_true. intros h. repeat constructor; auto.
Qed.

Lemma pieces_argv r : "curl" :: map snd (pieces r) = curl_argv r.
Proof.
  unfold pieces, curl_argv, body_pieces, body_argv, data_pieces. f_equal.
  rewrite !map_app, map_map. apply (f_equal2 app); [by rewrite map_id|].
  apply (f_equal2 app); [done|]. apply (f_equal2 app).
  { induction (rq_headers r) as [|h l IH]; [done|]. cbn in *. by rewrite IH. }
  destruct (get_body r) as [bd|]; [destruct (is_multipart _ && _)|].
  - destruct bd as [|fields|]; [done| |done].
    induction fields as [|p l IH]; [done|]. cbn in *. by rewrite IH.
  - done.
  - by case_bool_decide.
Qed.

(** C40: The curl command for bash, read by a POSIX shell, is one simple command whose words
    are exactly the arguments the request owes to curl, quotes, newlines and separators in
    them included, as long as each argument that starts with an underscore, a slash or a
    dash holds no character special to the shell; no command is built only for a multipart
    body that has no fields to walk. *)
Theorem curl_bash_words r : Forall arg_ok (curl_argv r) ->
  match requestSnippetGenerator_curl_bash r with
  | Some cmd => sh_words cmd = Some (curl_argv r)
  | None => is_multipart (rq_headers r) = true /\ rq_method r ∈ ["POST"; "PUT"; "PATCH"] /\
            exists b, get_body r = Some b /\ forall fields, b <> BodyMap fields
  end.
Proof.
  intros Ha. destruct (requestSnippetGenerator_curl_bash r) as [cmd|] eqn:Ec.
  - rewrite (curlify_pieces r cmd Ec), <- pieces_argv. unfold sh_words.
    rewrite sh_read_plain by done. apply sh_read_pieces; [apply pieces_separate|].
    rewrite <- pieces_argv in Ha. by inversion Ha.
  - unfold requestSnippetGenerator_curl_bash, curlify in Ec. rewrite bind_None in Ec.
    destruct Ec as [Ec|(? & _ & ?)]; [|done]. unfold body_part in Ec.
    destruct (get_body r) as [b|]; [|by case_bool_decide].
    destruct (is_multipart _); [|done]. simpl in Ec.
    case_bool_decide as Hm; [|done]. split; [done|split; [done|]]. exists b. split; [done|].
    intros fields ->. discriminate Ec.
Qed.

(** An argument left without quotes although the shell gives one of its characters a
    meaning. *)
Definition unquoted (e : string) : Prop := bare e = true /\ exists pre c post,
  e = pre +:+ String c post /\ all_chars sh_plain pre = true /\ sh_special c = true.

Lemma special_not c : sh_special c = true ->
  bool_decide (c = quote) = false /\ bool_decide (c = backslash) = false /\ sh_blank c = false.
Proof. destruct c as [[] [] [] [] [] [] [] []]; vm_compute; intros; done. Qed.

Lemma sh_read_special pre c post rest w :
  all_chars sh_plain pre = true -> sh_special c = true ->
  sh_read false w ((pre +:+ String c post) +:+ rest) = None.
Proof.
  intros Hpre Hc. rewrite app_assoc_s. destruct (special_not c Hc) as (Hq & Hb & Hs).
  assert (Hnone : forall w, sh_read false w (String c post +:+ rest) = None).
  { intros w'. rewrite app_cons_s. cbn [sh_read]. by rewrite Hq, Hb, Hs, Hc. }
  destruct pre as [|c' pre]; [apply Hnone|].
  rewrite sh_read_plain; [apply Hnone|done|discriminate].
Qed.

Lemma sh_read_unquoted e rest w : unquoted e ->
  sh_read false w (escape_bash e +:+ rest) = None.
Proof.
  intros [Hb (pre & c & post & -> & Hpre & Hc)]. unfold escape_bash. rewrite Hb, orb_true_r.
  by apply sh_read_special.
Qed.

Lemma sh_read_pieces_unquoted w l p rest :
  Forall (fun p => separates p.1) (l ++ p :: rest) -> Forall arg_ok (map snd l) -> unquoted p.2 ->
  sh_read false (Some w) (cat (map piece_text (l ++ p :: rest))) = None.
Proof.
  intros Hs Hl Hp. revert w. induction l as [|[sep a] l IH]; intros w; simpl in *;
    apply Forall_cons in Hs as [Hsep Hs]; unfold piece_text at 1; rewrite app_assoc_s, Hsep.
  - by rewrite sh_read_unquoted.
  - apply Forall_cons in Hl as [Ha Hl]. simpl. rewrite sh_read_word by done. by rewrite IH.
Qed.

(** An argument that starts with an underscore, a slash or a dash is put into the bash
    command as it is, so that with a separator such as [&] or [;] in it, a relative url with
    a query for one, the command is not read as one simple command. *)
Theorem curl_bash_unquoted r cmd ok e rest :
  requestSnippetGenerator_curl_bash r = Some cmd ->
  curl_argv r = ok ++ e :: rest -> Forall arg_ok ok -> unquoted e ->
  sh_words cmd = None.
Proof.
  intros Ec Hargv Hok He. rewrite (curlify_pieces r cmd Ec). unfold sh_words.
  rewrite sh_read_plain by done. rewrite <- pieces_argv in Hargv.
  destruct ok as [|a ok]; simplify_eq/=; [by destruct He as [? _]|].
  apply map_eq_app in H0 as (l & l' & Hp & <- & Hl').
  apply map_eq_cons in Hl' as (p & k & -> & <- & _).
  pose proof (pieces_separate r) as Hs. rewrite Hp in Hs |- *.
  apply sh_read_pieces_unquoted; [done| |done]. by apply Forall_cons in Hok as [_ Hok].
Qed.
