(* ===== verification/SwaggerBase64.v ===== *)
(** * Base64 and the PKCE code verifier (swagger-ui-bundle.js)

    The bundle's [fromByteArray] and [toByteArray], on arrays of bytes as lists of
    [Z] and strings of ASCII characters, with the shifts and masks of the code,
    and the functions that make the code verifier of an OAuth2 authorization from
    32 random bytes.  An index outside an array or a table reads [undefined],
    which the bit operations take for 0.  [toByteArray] answers [None] where the
    code throws. *)

From S2P Require Import Prelude SwaggerUi JsStrings.
From Stdlib Require Import Ascii ZifyNat.

(** ** The tables *)
Definition alphabet : string := "ABCDEFGHIJKLMNOPQRSTUVWXYZabcdefghijklmnopqrstuvwxyz0123456789+/".

(** [r]; an undefined entry is written as a string. *)
Definition r (i : Z) : string :=
  match String.get (Z.to_nat i) alphabet with Some c => chr c | None => "undefined" end.

(** The position of a character in a string, [s.indexOf(c)]. *)
Fixpoint index_char (c : ascii) (s : string) : option nat :=
  match s with
  | EmptyString => None
  | String c' s => if bool_decide (c' = c) then Some 0 else Datatypes.S <$> index_char c s
  end.

(** [o] *)
Definition o (c : ascii) : Z :=
  if bool_decide (c = "-"%char) then 62
  else if bool_decide (c = "_"%char) then 63
  else match index_char c alphabet with Some i => Z.of_nat i | None => 0 end.
(** [o[e.charCodeAt(n)]] *)
Definition o_at (s : string) (n : nat) : Z :=
  match String.get n s with Some c => o c | None => 0 end.

Local Open Scope Z_scope.

Definition byte_at (e : list Z) (i : nat) : Z := nth i e 0.

(** ** Encoding *)
Definition tripletToBase64 (a : Z) : string :=
  r (Z.land (Z.shiftr a 18) 63) +:+ r (Z.land (Z.shiftr a 12) 63) +:+
  r (Z.land (Z.shiftr a 6) 63) +:+ r (Z.land 63 a).

Definition triplet (e : list Z) (s : nat) : Z :=
  Z.land (Z.shiftl (byte_at e s) 16) 16711680 +
  Z.land (Z.shiftl (byte_at e (s + 1)) 8) 65280 + Z.land 255 (byte_at e (s + 2)).

(** [l(e,t,n)]: [for(s=t;s<n;s+=3)] *)
Fixpoint encodeChunk (fuel : nat) (e : list Z) (s n : nat) : string :=
  match fuel with
  | O => ""
  | Datatypes.S fuel =>
      if (s <? n)%nat then tripletToBase64 (triplet e s) +:+ encodeChunk fuel e (s + 3) n else ""
  end.

Definition maxChunkLength : nat := Z.to_nat 16383.

(** [for(s=0,u=n-o;s<u;s+=i)a.push(l(e,s,s+i>u?u:s+i))] *)
Fixpoint encodeChunks (fuel : nat) (e : list Z) (s u : nat) : list string :=
  match fuel with
  | O => []
  | Datatypes.S fuel =>
      if (s <? u)%nat then
        encodeChunk (length e) e s
          (if (u <? s + maxChunkLength)%nat then u else (s + maxChunkLength)%nat)
        :: encodeChunks fuel e (s + maxChunkLength) u
      else []
  end.

Definition fromByteArray (e : list Z) : string :=
  let n := length e in
  let extraBytes := (n mod 3)%nat in
  join "" (encodeChunks n e 0 (n - extraBytes) ++
    (if (extraBytes =? 1)%nat then
       let t := byte_at e (n - 1) in
       [r (Z.shiftr t 2) +:+ r (Z.land (Z.shiftl t 4) 63) +:+ "=="]
     else if (extraBytes =? 2)%nat then
       let t := Z.shiftl (byte_at e (n - 2)) 8 + byte_at e (n - 1) in
       [r (Z.shiftr t 10) +:+ r (Z.land (Z.shiftr t 4) 63) +:+
        r (Z.land (Z.shiftl t 2) 63) +:+ "="]
     else [])).

(** ** Decoding *)

(** [c(e)]: the number of characters before the padding, and of the padding. *)
Definition getLens (s : string) : option (nat * nat) :=
  let len := String.length s in
  if (0 <? len mod 4)%nat then None
  else
    let n := match index_char "=" s with Some n => n | None => len end in
    Some (n, if (n =? len)%nat then 0%nat else (4 - n mod 4)%nat).

Definition byteLength (s : string) : option Z :=
  (fun '(n, r) => 3 * (Z.of_nat n + Z.of_nat r) / 4 - Z.of_nat r) <$> getLens s.

(** The groups of four characters from position [n]. *)
Definition group (s : string) (n : nat) : Z :=
  Z.lor (Z.lor (Z.lor (Z.shiftl (o_at s n) 18) (Z.shiftl (o_at s (n + 1)) 12))
               (Z.shiftl (o_at s (n + 2)) 6)) (o_at s (n + 3)).
Fixpoint decode_groups (k : nat) (s : string) (n : nat) : list Z :=
  match k with
  | O => []
  | Datatypes.S k =>
      let t := group s n in
      Z.land (Z.shiftr t 16) 255 :: Z.land (Z.shiftr t 8) 255 :: Z.land 255 t ::
      decode_groups k s (n + 4)
  end.

(** The rest of the last group, after [n] has passed the whole groups. *)
Definition decode_rest (s : string) (n placeHolders : nat) : list Z :=
  if (placeHolders =? 2)%nat then
    let t := Z.lor (Z.shiftl (o_at s n) 2) (Z.shiftr (o_at s (n + 1)) 4) in [Z.land 255 t]
  else if (placeHolders =? 1)%nat then
    let t := Z.lor (Z.lor (Z.shiftl (o_at s n) 10) (Z.shiftl (o_at s (n + 1)) 4))
                   (Z.shiftr (o_at s (n + 2)) 2) in
    [Z.land (Z.shiftr t 8) 255; Z.land 255 t]
  else [].

(** The bytes go into a [Uint8Array] of [size] bytes, all zero at first, which
    ignores writes past its end; a negative [size] is a RangeError. *)
Definition toByteArray (s : string) : option (list Z) :=
  lens ← getLens s;
  let '(i, placeHolders) := lens in
  let size := 3 * (Z.of_nat i + Z.of_nat placeHolders) / 4 - Z.of_nat placeHolders in
  if size <? 0 then None
  else
    let len := if (0 <? placeHolders)%nat then Z.of_nat i - 4 else Z.of_nat i in
    let k := Z.to_nat ((len + 3) / 4) in
    let bytes := decode_groups k s 0 ++ decode_rest s (4 * k) placeHolders in
    let size := Z.to_nat size in
    Some (take size (bytes ++ replicate size 0)).

(** ** The code verifier *)

(** [st] *)
Definition b64toB64UrlEncoded (s : string) : string :=
  replace_char "=" "" (replace_char "/" "_" (replace_char "+" "-" s)).

(** [at], over the bytes that [randombytes(32)] answered: [toString("base64")] of
    a buffer is [fromByteArray] of its bytes. *)
Definition generateCodeVerifier (random : list Z) : string :=
  b64toB64UrlEncoded (fromByteArray random).

(** ** The reference encoding *)

(** Linear arithmetic with quotients and remainders. *)
Ltac divlia := zify; Z.to_euclidean_division_equations; lia.

(** Three bytes at a time, the last one or two padded with zero bits. *)
Fixpoint base64 (e : list Z) : string :=
  match e with
  | a :: b :: c :: e => tripletToBase64 (a * 65536 + b * 256 + c) +:+ base64 e
  | [a; b] => r (Z.shiftr (a * 256 + b) 10) +:+ r (Z.land (Z.shiftr (a * 256 + b) 4) 63) +:+
              r (Z.land (Z.shiftl (a * 256 + b) 2) 63) +:+ "="
  | [a] => r (Z.shiftr a 2) +:+ r (Z.land (Z.shiftl a 4) 63) +:+ "=="
  | [] => ""
  end.

Definition is_byte (x : Z) : Prop := 0 <= x < 256.

(** An induction three elements at a time. *)
Lemma list_ind3 {A} (P : list A -> Prop) :
  P [] -> (forall a, P [a]) -> (forall a b, P [a; b]) ->
  (forall a b c l, P l -> P (a :: b :: c :: l)) -> forall l, P l.
Proof.
  intros H0 H1 H2 H3. fix go 1. intros [|a [|b [|c l]]]; [apply H0|apply H1|apply H2|].
  apply H3, go.
Qed.

Lemma land_255_byte x : is_byte x -> Z.land 255 x = x.
Proof.
  intros Hx. rewrite Z.land_comm. change 255 with (Z.ones 8).
  rewrite Z.land_ones by lia. apply Z.mod_small. exact Hx.
Qed.
Lemma mask_byte x k m : 0 <= k -> is_byte x -> m = Z.shiftl 255 k ->
  Z.land (Z.shiftl x k) m = x * 2 ^ k.
Proof.
  intros Hk Hx ->. rewrite <- Z.shiftl_land, (Z.land_comm x), land_255_byte by done.
  by rewrite Z.shiftl_mul_pow2.
Qed.

Lemma nth_byte e i : Forall is_byte e -> is_byte (byte_at e i).
Proof.
  intros He. unfold byte_at. destruct (decide (i < length e)%nat) as [Hi|Hi].
  - apply (Forall_forall is_byte e); [done|]. apply list_elem_of_In, nth_In, Hi.
  - rewrite nth_overflow by lia. unfold is_byte. lia.
Qed.

Lemma triplet_value e s : Forall is_byte e ->
  triplet e s = byte_at e s * 65536 + byte_at e (s + 1) * 256 + byte_at e (s + 2).
Proof.
  intros He. unfold triplet.
  rewrite (mask_byte _ 16), (mask_byte _ 8), land_255_byte; auto using nth_byte; lia.
Qed.

Lemma byte_at_app l e i : byte_at (l ++ e) (length l + i) = byte_at e i.
Proof. unfold byte_at. apply app_nth2_plus. Qed.
Lemma byte_at_app_0 l e : byte_at (l ++ e) (length l) = byte_at e 0.
Proof. rewrite <- (Nat.add_0_r (length l)). apply byte_at_app. Qed.

(** The whole triplets of a list, encoded. *)
Lemma encodeChunk_triplets fuel pre e post : Forall is_byte (pre ++ e ++ post) ->
  (length e <= fuel)%nat -> (length e mod 3 = 0)%nat ->
  encodeChunk fuel (pre ++ e ++ post) (length pre) (length pre + length e) = base64 e.
Proof.
  revert pre fuel. induction e as [|a|a b|a b c e IH] using list_ind3; intros pre fuel Hb Hf Hm.
  - destruct fuel; simpl; [done|]. by rewrite (proj2 (Nat.ltb_ge _ _)) by lia.
  - discriminate Hm.
  - discriminate Hm.
  - destruct fuel as [|fuel]; [simpl in Hf; lia|]. cbn [encodeChunk].
    rewrite (proj2 (Nat.ltb_lt _ _)) by (simpl; lia). rewrite triplet_value by done.
    rewrite !byte_at_app, byte_at_app_0.
    cbn [base64]. f_equal.
    replace (pre ++ (a :: b :: c :: e) ++ post) with ((pre ++ [a; b; c]) ++ e ++ post) in *
      by (by rewrite <- app_assoc).
    replace (length pre + 3)%nat with (length (pre ++ [a; b; c])) by (rewrite length_app; simpl; lia).
    replace (length pre + length (a :: b :: c :: e))%nat with (length (pre ++ [a; b; c]) + length e)%nat
      by (rewrite length_app; simpl; lia).
    apply IH; [done|simpl in Hf; lia|].
    change (length (a :: b :: c :: e)) with (3 + length e)%nat in Hm. divlia.
Qed.

Lemma join_cons s l : join "" (s :: l) = s +:+ join "" l.
Proof. destruct l; [by rewrite app_nil|done]. Qed.
Lemma join_app l k : join "" (l ++ k) = join "" l +:+ join "" k.
Proof.
  induction l as [|s l IH]; [done|]. rewrite <- app_comm_cons, !join_cons, IH.
  by rewrite app_assoc_s.
Qed.

Lemma base64_app f e : (length f mod 3 = 0)%nat -> base64 (f ++ e) = base64 f +:+ base64 e.
Proof.
  induction f as [|a|a b|a b c f IH] using list_ind3; intros Hf; [done|discriminate Hf..|].
  cbn [app base64]. rewrite IH, app_assoc_s; [done|].
  change (length (a :: b :: c :: f)) with (3 + length f)%nat in Hf. divlia.
Qed.

Lemma maxChunkLength_3 : (maxChunkLength mod 3 = 0 /\ 0 < maxChunkLength)%nat.
Proof. unfold maxChunkLength. divlia. Qed.
#[local] Opaque maxChunkLength.

Lemma encodeChunks_base64 fuel pre e post : Forall is_byte (pre ++ e ++ post) ->
  (length e <= fuel)%nat -> (length e mod 3 = 0)%nat ->
  join "" (encodeChunks fuel (pre ++ e ++ post) (length pre) (length pre + length e)) = base64 e.
Proof.
  destruct maxChunkLength_3 as [Hm3 Hm0]. revert pre e.
  induction fuel as [|fuel IH]; intros pre e Hb Hf Hm; cbn [encodeChunks].
  { by apply Nat.le_0_r, length_zero_iff_nil in Hf as ->. }
  destruct (Nat.ltb_spec (length pre) (length pre + length e)) as [Hlt|Hge].
  2:{ assert (length e = 0)%nat as ->%length_zero_iff_nil by (clear -Hge; lia). done. }
  rewrite join_cons. destruct (Nat.ltb_spec (length pre + length e) (length pre + maxChunkLength)) as [Hle|Hgt].
  - rewrite encodeChunk_triplets; [|done|rewrite !length_app; lia|done].
    destruct fuel; cbn [encodeChunks]; [by rewrite app_nil|].
    rewrite (proj2 (Nat.ltb_ge _ _)) by lia. by rewrite app_nil.
  - set (f := take maxChunkLength e). set (g := drop maxChunkLength e).
    assert (He : e = f ++ g) by (symmetry; apply take_drop).
    assert (Hlf : length f = maxChunkLength) by (unfold f; rewrite length_take; lia).
    clearbody f g. subst e. rewrite length_app in *. rewrite <- app_assoc in *.
    rewrite <- Hlf at 1. rewrite encodeChunk_triplets; [|done|rewrite !length_app; lia|by rewrite Hlf].
    replace (length pre + maxChunkLength)%nat with (length (pre ++ f)) by (rewrite length_app; lia).
    replace (length pre + length (f ++ g))%nat with (length (pre ++ f) + length g)%nat
      by (rewrite !length_app; lia).
    rewrite app_assoc in Hb |- *.
    rewrite IH; [|done|lia|divlia]. rewrite base64_app; [done|by rewrite Hlf].
Qed.

Lemma fromByteArray_base64 e : Forall is_byte e -> fromByteArray e = base64 e.
Proof.
  intros Hb. set (k := (length e - length e mod 3)%nat).
  set (f := take k e). set (t := drop k e).
  assert (He : e = f ++ t) by (symmetry; apply take_drop).
  assert (Hf : length f = k) by (unfold f; rewrite length_take; unfold k; divlia).
  assert (Ht : length t = (length e mod 3)%nat)
    by (unfold t; rewrite length_drop; unfold k; divlia).
  assert (Hk : (k mod 3 = 0)%nat) by (unfold k; divlia).
  unfold fromByteArray. fold k. rewrite join_app, <- Ht.
  assert (Hn : length e = (length f + length t)%nat) by (rewrite He at 1; apply length_app).
  assert (Ht3 : (length t < 3)%nat) by (rewrite Ht; divlia).
  clearbody f t k. subst e. rewrite base64_app by (by rewrite Hf). rewrite <- Hf.
  pose proof (encodeChunks_base64 (length (f ++ t)) [] f t Hb) as Hc. simpl in Hc.
  rewrite Hc; [f_equal|rewrite length_app; lia|rewrite Hf; exact Hk]. clear Hc. rewrite length_app.
  destruct t as [|a [|b [|c t]]]; [done| | |simpl in Ht3; lia]; cbn [length Nat.eqb].
  - replace (length f + 1 - 1)%nat with (length f) by lia. by rewrite byte_at_app_0.
  - replace (length f + 2 - 1)%nat with (length f + 1)%nat by lia.
    replace (length f + 2 - 2)%nat with (length f) by lia.
    rewrite byte_at_app_0, byte_at_app. unfold byte_at. cbn [nth].
    by rewrite Z.shiftl_mul_pow2.
Qed.

(** ** Bits *)
Lemma lor_shiftl x y k : 0 <= k -> 0 <= y < 2 ^ k -> Z.lor (Z.shiftl x k) y = x * 2 ^ k + y.
Proof.
  intros Hk Hy. rewrite <- Z.shiftl_mul_pow2 by done.
  assert (Hl : Z.land (Z.shiftl x k) y = 0).
  { rewrite <- (Z.mod_small y (2 ^ k)), <- Z.land_ones by done.
    rewrite (Z.land_comm y), Z.land_assoc, Z.land_ones, Z.shiftl_mul_pow2, Z_mod_mult by done.
    apply Z.land_0_l. }
  pose proof (Z.add_lor_land (Z.shiftl x k) y). lia.
Qed.

Lemma land_63 x : Z.land x 63 = x mod 64.
Proof. change 63 with (Z.ones 6). by rewrite Z.land_ones. Qed.
Lemma land_255 x : Z.land 255 x = x mod 256.
Proof. change 255 with (Z.ones 8). by rewrite Z.land_comm, Z.land_ones. Qed.

(** The four characters of three bytes give the bytes back. *)
Lemma sextets_24 n : 0 <= n < 2 ^ 24 ->
  Z.lor (Z.lor (Z.lor (Z.shiftl (Z.land (Z.shiftr n 18) 63) 18)
                      (Z.shiftl (Z.land (Z.shiftr n 12) 63) 12))
               (Z.shiftl (Z.land (Z.shiftr n 6) 63) 6)) (Z.land 63 n) = n.
Proof.
  intros Hn. rewrite (Z.land_comm 63), !land_63, !Z.shiftr_div_pow2 by done.
  rewrite <- !Z.lor_assoc. rewrite (lor_shiftl _ (n mod 64) 6) by divlia.
  rewrite (lor_shiftl _ _ 12) by divlia. rewrite lor_shiftl by divlia. divlia.
Qed.
Lemma sextets_16 n : 0 <= n < 2 ^ 16 ->
  Z.lor (Z.lor (Z.shiftl (Z.shiftr n 10) 10) (Z.shiftl (Z.land (Z.shiftr n 4) 63) 4))
        (Z.shiftr (Z.land (Z.shiftl n 2) 63) 2) = n.
Proof.
  intros Hn. rewrite !land_63, (Z.shiftl_mul_pow2 n 2), !Z.shiftr_div_pow2 by done.
  rewrite <- Z.lor_assoc, (lor_shiftl _ _ 4) by divlia. rewrite lor_shiftl by divlia. divlia.
Qed.
Lemma sextets_8 n : 0 <= n < 2 ^ 8 ->
  Z.lor (Z.shiftl (Z.shiftr n 2) 2) (Z.shiftr (Z.land (Z.shiftl n 4) 63) 4) = n.
Proof.
  intros Hn. rewrite !land_63, (Z.shiftl_mul_pow2 n 4), !Z.shiftr_div_pow2 by done.
  rewrite lor_shiftl by divlia. divlia.
Qed.

Lemma byte_fields a b c : is_byte a -> is_byte b -> is_byte c ->
  let n := a * 65536 + b * 256 + c in
  0 <= n < 2 ^ 24 /\ Z.land (Z.shiftr n 16) 255 = a /\ Z.land (Z.shiftr n 8) 255 = b /\
  Z.land 255 n = c.
Proof.
  intros Ha Hb Hc n. unfold is_byte in *.
  rewrite !(Z.land_comm _ 255), !land_255, !Z.shiftr_div_pow2 by done. subst n. divlia.
Qed.

(** ** Decoding what was encoded *)

(** Entry [x] of the table: a character of its own, which the reverse table maps
    back, and which is not the padding. *)
Definition table_ok (x : nat) : bool :=
  match String.get x alphabet with
  | Some c => (o c =? Z.of_nat x) && negb (bool_decide (c = "="%char))
  | None => false
  end.
Lemma table : forallb table_ok (seq 0 64) = true.
Proof. vm_compute. reflexivity. Qed.

Lemma r_char x : 0 <= x < 64 -> exists c, r x = chr c /\ o c = x /\ c <> "="%char.
Proof.
  intros Hx. pose proof table as Ht. rewrite forallb_forall in Ht.
  specialize (Ht (Z.to_nat x)). rewrite in_seq in Ht. specialize (Ht ltac:(lia)).
  unfold table_ok in Ht. unfold r. destruct (String.get _ alphabet) as [c|]; [|done].
  apply andb_true_iff in Ht as [Ho Hc]. apply Z.eqb_eq in Ho. exists c.
  split; [done|]. split; [lia|]. intros ->. by rewrite bool_decide_eq_true_2 in Hc.
Qed.

Lemma sextet_bound n : 0 <= Z.land n 63 < 64.
Proof. rewrite land_63. apply Z.mod_pos_bound. lia. Qed.

Lemma tripletToBase64_chars a : exists c1 c2 c3 c4,
  tripletToBase64 a = String c1 (String c2 (String c3 (chr c4))) /\
  o c1 = Z.land (Z.shiftr a 18) 63 /\ o c2 = Z.land (Z.shiftr a 12) 63 /\
  o c3 = Z.land (Z.shiftr a 6) 63 /\ o c4 = Z.land 63 a /\
  c1 <> "="%char /\ c2 <> "="%char /\ c3 <> "="%char /\ c4 <> "="%char.
Proof.
  unfold tripletToBase64. rewrite (Z.land_comm 63).
  destruct (r_char _ (sextet_bound (Z.shiftr a 18))) as (c1 & -> & ? & ?).
  destruct (r_char _ (sextet_bound (Z.shiftr a 12))) as (c2 & -> & ? & ?).
  destruct (r_char _ (sextet_bound (Z.shiftr a 6))) as (c3 & -> & ? & ?).
  destruct (r_char _ (sextet_bound a)) as (c4 & -> & ? & ?).
  by exists c1, c2, c3, c4.
Qed.

Lemma decode_groups_shift k c1 c2 c3 c4 s n :
  decode_groups k (String c1 (String c2 (String c3 (String c4 s)))) (4 + n) = decode_groups k s n.
Proof. revert n. induction k as [|k IH]; intros n; [done|]. cbn [decode_groups]. f_equal.
  f_equal. f_equal. apply (IH (n + 4)%nat). Qed.

(** The string of whole triplets: its length, no padding, and its groups. *)
Lemma base64_whole f : Forall is_byte f -> (length f mod 3 = 0)%nat ->
  exists k, length f = (3 * k)%nat /\ String.length (base64 f) = (4 * k)%nat /\
    has_char "=" (base64 f) = false /\
    forall rest, decode_groups k (base64 f +:+ rest) 0 = f.
Proof.
  induction f as [|a|a b|a b c f IH] using list_ind3; intros Hf Hm; [|discriminate Hm..|].
  { by exists 0%nat. }
  change (length (a :: b :: c :: f)) with (3 + length f)%nat in Hm.
  rewrite !Forall_cons in Hf. destruct Hf as (Ha & Hb & Hc & Hf).
  destruct IH as (k & Hk & Hl & Hp & Hd); [done|divlia|]. exists (Datatypes.S k).
  cbn [base64]. destruct (byte_fields a b c Ha Hb Hc) as (Hn & Hn1 & Hn2 & Hn3).
  set (n := a * 65536 + b * 256 + c) in *. clearbody n.
  destruct (tripletToBase64_chars n) as (c1 & c2 & c3 & c4 & -> & Ho1 & Ho2 & Ho3 & Ho4 & Hc1 & Hc2 & Hc3 & Hc4).
  split; [simpl; lia|]. split; [rewrite app_length_s, Hl; simpl; lia|]. split.
  - unfold chr. rewrite has_char_app, Hp, !has_char_cons, orb_false_r.
    by rewrite !bool_decide_eq_false_2.
  - intros rest. rewrite app_assoc_s. unfold chr. rewrite !app_cons_s, app_nil_s.
    cbn [decode_groups]. unfold group, o_at. cbn [String.get Nat.add]. rewrite Ho1, Ho2, Ho3, Ho4.
    rewrite sextets_24 by done. rewrite Hn1, Hn2, Hn3. do 3 f_equal.
    etrans; [apply (decode_groups_shift k c1 c2 c3 c4 _ 0)|apply Hd].
Qed.

Lemma index_char_app c s t : has_char c s = false ->
  index_char c (s +:+ t) = Nat.add (String.length s) <$> index_char c t.
Proof.
  induction s as [|c' s IH]; intros Hs.
  - rewrite app_nil_s. by destruct (index_char c t).
  - rewrite has_char_cons, orb_false_iff in Hs. destruct Hs as [Hc Hs].
    rewrite app_cons_s. cbn [index_char]. rewrite Hc, IH by done.
    by destruct (index_char c t).
Qed.
Lemma o_at_app s t i : o_at (s +:+ t) (String.length s + i) = o_at t i.
Proof. unfold o_at. by rewrite Nat.add_comm, <- String.append_correct2. Qed.
Lemma o_at_app_0 s t : o_at (s +:+ t) (String.length s) = o_at t 0.
Proof. rewrite <- (Nat.add_0_r (String.length s)). apply o_at_app. Qed.

(** The lengths of a string of [k] groups followed by [t]. *)
Lemma getLens_app s t k : String.length s = (4 * k)%nat -> has_char "=" s = false ->
  (String.length t mod 4 = 0)%nat ->
  getLens (s +:+ t) =
  Some (match index_char "=" t with
        | Some i => (4 * k + i, 4 - i mod 4)%nat
        | None => (4 * k + String.length t, 0)%nat end).
Proof.
  intros Hs Hp Ht. unfold getLens. rewrite app_length_s, Hs.
  replace ((4 * k + String.length t) mod 4)%nat with 0%nat by divlia.
  rewrite index_char_app, Hs by done. cbn [Nat.ltb Nat.leb].
  destruct (index_char "=" t) as [i|] eqn:Ei; cbn [fmap option_fmap option_map].
  - assert (Hi : (i < String.length t)%nat).
    { clear -Ei. revert i Ei. induction t as [|c t IH]; intros i; cbn; [done|].
      case_bool_decide; [intros [= <-]; lia|]. destruct (index_char _ t) as [j|]; [|done].
      intros [= <-]. specialize (IH j eq_refl). simpl. lia. }
    rewrite (proj2 (Nat.eqb_neq _ _)) by lia. do 3 f_equal. divlia.
  - by rewrite Nat.eqb_refl.
Qed.

(** A list is whole triplets and a rest. *)
Lemma split_triplets {A} (e : list A) : exists f t,
  e = f ++ t /\ (length f mod 3 = 0)%nat /\ (length t < 3)%nat.
Proof.
  set (k := (length e - length e mod 3)%nat). exists (take k e), (drop k e).
  split; [by rewrite take_drop|]. rewrite length_take, length_drop. unfold k. split; divlia.
Qed.

(** Decoding [k] groups and a rest [t] of the shape the lengths announce. *)
Lemma toByteArray_app s t k i pl f bytes : String.length s = (4 * k)%nat -> has_char "=" s = false ->
  (String.length t mod 4 = 0)%nat -> decode_groups k (s +:+ t) 0 = f -> length f = (3 * k)%nat ->
  getLens (s +:+ t) = Some (i, pl) ->
  decode_rest (s +:+ t) (4 * k) pl = bytes ->
  (i = 4 * k + match pl with O => O | Datatypes.S _ => 4 - pl end)%nat ->
  (pl = 0 /\ length bytes = 0 \/ 0 < pl < 3 /\ length bytes = 3 - pl)%nat ->
  toByteArray (s +:+ t) = Some (f ++ bytes).
Proof.
  intros Hs Hp Ht Hf Hlf Hl Hb Hi Hpl. unfold toByteArray. rewrite Hl.
  cbn [mbind option_bind]. set (size := 3 * _ / 4 - _).
  assert (Hsz : size = Z.of_nat (length (f ++ bytes))).
  { unfold size. rewrite length_app. destruct pl; divlia. }
  rewrite (proj2 (Z.ltb_ge _ _)) by lia.
  assert (Hk : Z.to_nat (((if (0 <? pl)%nat then Z.of_nat i - 4 else Z.of_nat i) + 3) / 4) = k).
  { clear Hsz. destruct Hpl as [[-> _]|[Hpl _]].
    - cbn [Nat.ltb Nat.leb]. divlia.
    - rewrite (proj2 (Nat.ltb_lt _ _)) by lia. destruct pl; [lia|divlia]. }
  rewrite Hk, Hf, Hb, Hsz, Nat2Z.id, take_app_length. done.
Qed.

Lemma decode_encode e : Forall is_byte e -> toByteArray (base64 e) = Some e.
Proof.
  intros He. destruct (split_triplets e) as (f & t & -> & Hm & Ht).
  apply Forall_app in He as [Hf Hbt]. rewrite base64_app by done.
  destruct (base64_whole f Hf Hm) as (k & Hk & Hl & Hp & Hd).
  pose proof (getLens_app (base64 f) (base64 t) k Hl Hp) as Hg.
  destruct t as [|a [|b [|]]]; [| | |simpl in Ht; lia]; rewrite ?Forall_cons in Hbt.
  - apply (toByteArray_app _ "" k (4 * k + 0) 0 f [] Hl Hp eq_refl (Hd _) Hk (Hg eq_refl)); [done|lia|by left].
  - destruct Hbt as [Ha _]. cbn [base64] in *.
    assert (H1 : 0 <= Z.shiftr a 2 < 64)
      by (rewrite Z.shiftr_div_pow2 by done; unfold is_byte in Ha; divlia).
    destruct (r_char _ H1) as (c1 & Hr1 & Ho1 & Hc1).
    destruct (r_char _ (sextet_bound (Z.shiftl a 4))) as (c2 & Hr2 & Ho2 & Hc2).
    rewrite Hr1, Hr2 in *. unfold chr in *. rewrite !app_cons_s, !app_nil_s in *.
    specialize (Hg eq_refl). cbn [index_char] in Hg.
    rewrite !(bool_decide_eq_false_2 (_ = _)) in Hg by done.
    rewrite bool_decide_eq_true_2 in Hg by done. cbn [fmap option_fmap option_map] in Hg.
    apply (toByteArray_app _ _ k (4 * k + 2) 2 f [a] Hl Hp);
      [done|apply Hd|done|exact Hg| |lia|right; simpl; lia].
    unfold decode_rest. cbn [Nat.eqb]. rewrite <- Hl.
    rewrite !o_at_app, o_at_app_0. unfold o_at. cbn [String.get]. rewrite Ho1, Ho2.
    by rewrite sextets_8, land_255_byte.
  - destruct Hbt as (Ha & Hb & _). cbn [base64] in *. unfold is_byte in Ha, Hb.
    set (n := a * 256 + b) in *. assert (Hn : 0 <= n < 2 ^ 16) by (unfold n; lia).
    assert (H1 : 0 <= Z.shiftr n 10 < 64) by (rewrite Z.shiftr_div_pow2 by done; divlia).
    destruct (r_char _ H1) as (c1 & Hr1 & Ho1 & Hc1).
    destruct (r_char _ (sextet_bound (Z.shiftr n 4))) as (c2 & Hr2 & Ho2 & Hc2).
    destruct (r_char _ (sextet_bound (Z.shiftl n 2))) as (c3 & Hr3 & Ho3 & Hc3).
    rewrite Hr1, Hr2, Hr3 in *. unfold chr in *. rewrite !app_cons_s, !app_nil_s in *.
    specialize (Hg eq_refl). cbn [index_char] in Hg.
    rewrite !(bool_decide_eq_false_2 (_ = _)) in Hg by done.
    rewrite bool_decide_eq_true_2 in Hg by done. cbn [fmap option_fmap option_map] in Hg.
    apply (toByteArray_app _ _ k (4 * k + 3) 1 f [a; b] Hl Hp);
      [done|apply Hd|done|exact Hg| |lia|right; simpl; lia].
    unfold decode_rest. cbn [Nat.eqb]. rewrite <- Hl.
    rewrite !o_at_app, o_at_app_0. unfold o_at. cbn [String.get]. rewrite Ho1, Ho2, Ho3.
    rewrite sextets_16 by done. rewrite Z.land_comm, !land_255, Z.shiftr_div_pow2 by done.
    unfold n. f_equal; [|f_equal]; divlia.
Qed.

(** ** The url-safe form *)

(** The unreserved characters of a url (RFC 3986), the ones a verifier may have. *)
Definition unreserved (c : ascii) : bool :=
  ((65 <=? code c) && (code c <=? 90) || (97 <=? code c) && (code c <=? 122) ||
   (48 <=? code c) && (code c <=? 57))%nat || bool_decide (c ∈ ["-"; "."; "_"; "~"]%char).

Definition urlchar (c : ascii) : ascii :=
  if bool_decide (c = "+"%char) then "-" else if bool_decide (c = "/"%char) then "_" else c.
Fixpoint smap (f : ascii -> ascii) (s : string) : string :=
  match s with EmptyString => "" | String c s => String (f c) (smap f s) end.

Definition b64_char (c : ascii) : bool :=
  negb (bool_decide (c = "="%char)) && unreserved (urlchar c).

Lemma smap_app f s t : smap f (s +:+ t) = smap f s +:+ smap f t.
Proof.
  induction s as [|c s IH]; [done|]. rewrite app_cons_s. cbn [smap]. by rewrite IH, app_cons_s.
Qed.
Lemma smap_length f s : String.length (smap f s) = String.length s.
Proof. induction s as [|c s IH]; [done|]. simpl. by rewrite IH. Qed.

Lemma urlEncoded_smap s : b64toB64UrlEncoded s = replace_char "=" "" (smap urlchar s).
Proof.
  unfold b64toB64UrlEncoded. f_equal. induction s as [|c s IH]; [done|].
  cbn [replace_char smap]. unfold urlchar at 1. destruct (bool_decide (c = "+"%char)).
  - rewrite !app_cons_s, app_nil_s. cbn [replace_char]. by rewrite IH.
  - unfold chr. rewrite !app_cons_s, app_nil_s. cbn [replace_char]. rewrite IH.
    by destruct (bool_decide (c = "/"%char)).
Qed.

Lemma urlchar_pad c : bool_decide (urlchar c = "="%char) = bool_decide (c = "="%char).
Proof. destruct c as [[] [] [] [] [] [] [] []]; reflexivity. Qed.
Lemma urlchar_o c : o (urlchar c) = o c.
Proof.
  unfold urlchar. repeat case_bool_decide; subst; reflexivity.
Qed.

Lemma replace_none c by_ s : has_char c s = false -> replace_char c by_ s = s.
Proof.
  induction s as [|c' s IH]; [done|]. rewrite has_char_cons, orb_false_iff. intros [Hc Hs].
  cbn [replace_char]. rewrite Hc, IH by done. done.
Qed.
Lemma replace_char_app c by_ s t :
  replace_char c by_ (s +:+ t) = replace_char c by_ s +:+ replace_char c by_ t.
Proof.
  induction s as [|c' s IH]; [done|]. rewrite app_cons_s. cbn [replace_char].
  by rewrite IH, app_assoc_s.
Qed.

(** Decoding reads a string only through its length, its padding and the table. *)
Lemma toByteArray_smap s : toByteArray (smap urlchar s) = toByteArray s.
Proof.
  assert (Ho : forall n, o_at (smap urlchar s) n = o_at s n).
  { unfold o_at. induction s as [|c s IH]; intros n; [done|]. destruct n as [|n]; cbn [smap String.get].
    - apply urlchar_o.
    - apply IH. }
  assert (Hi : index_char "=" (smap urlchar s) = index_char "=" s).
  { clear Ho. induction s as [|c s IH]; [done|]. cbn [smap index_char].
    by rewrite urlchar_pad, IH. }
  assert (Hg : forall k n, decode_groups k (smap urlchar s) n = decode_groups k s n).
  { induction k as [|k IH]; intros n; [done|]. cbn [decode_groups]. unfold group.
    by rewrite !Ho, IH. }
  unfold toByteArray, getLens. rewrite smap_length, Hi.
  destruct (0 <? String.length s mod 4)%nat; [done|]. cbn [mbind option_bind].
  rewrite Hg. unfold decode_rest. by rewrite !Ho.
Qed.

Lemma r_b64 x : 0 <= x < 64 -> all_chars b64_char (r x) = true /\ String.length (r x) = 1%nat.
Proof.
  assert (Ht : forallb (fun i => all_chars b64_char (r (Z.of_nat i)) &&
    (String.length (r (Z.of_nat i)) =? 1)%nat) (seq 0 64) = true) by reflexivity.
  intros Hx. rewrite forallb_forall in Ht. specialize (Ht (Z.to_nat x)).
  rewrite in_seq in Ht. specialize (Ht ltac:(lia)). rewrite Z2Nat.id in Ht by lia.
  apply andb_true_iff in Ht as [Hc Hl]. split; [done|]. by apply Nat.eqb_eq.
Qed.

(** The characters before the padding, and the padding. *)
Lemma base64_body e : Forall is_byte e -> exists body,
  base64 e = body +:+ (match (length e mod 3)%nat with 1%nat => "==" | 2%nat => "=" | _ => "" end) /\
  all_chars b64_char body = true /\ (String.length body = (4 * length e + 2) / 3)%nat.
Proof.
  induction e as [|a|a b|a b c e IH] using list_ind3; intros He.
  - by exists "".
  - apply Forall_cons in He as [Ha _]. unfold is_byte in Ha.
    destruct (r_b64 (Z.shiftr a 2)) as [H1 L1]; [rewrite Z.shiftr_div_pow2 by done; divlia|].
    destruct (r_b64 _ (sextet_bound (Z.shiftl a 4))) as [H2 L2].
    exists (r (Z.shiftr a 2) +:+ r (Z.land (Z.shiftl a 4) 63)). cbn [base64].
    rewrite app_assoc_s. split; [done|].
    by rewrite all_chars_app, app_length_s, H1, H2, L1, L2.
  - rewrite !Forall_cons in He. destruct He as (Ha & Hb & _). unfold is_byte in Ha, Hb.
    cbn [base64]. set (n := a * 256 + b). assert (Hn : 0 <= n < 2 ^ 16) by (unfold n; lia).
    destruct (r_b64 (Z.shiftr n 10)) as [H1 L1]; [rewrite Z.shiftr_div_pow2 by done; divlia|].
    destruct (r_b64 _ (sextet_bound (Z.shiftr n 4))) as [H2 L2].
    destruct (r_b64 _ (sextet_bound (Z.shiftl n 2))) as [H3 L3].
    exists (r (Z.shiftr n 10) +:+ r (Z.land (Z.shiftr n 4) 63) +:+ r (Z.land (Z.shiftl n 2) 63)).
    rewrite !app_assoc_s. split; [done|].
    by rewrite !all_chars_app, !app_length_s, H1, H2, H3, L1, L2, L3.
  - rewrite !Forall_cons in He. destruct He as (_ & _ & _ & He).
    destruct (IH He) as (body & Hb & Hc & Hl). cbn [base64]. rewrite Hb.
    set (n := a * 65536 + b * 256 + c). exists (tripletToBase64 n +:+ body).
    change (length (a :: b :: c :: e)) with (3 + length e)%nat.
    replace ((3 + length e) mod 3)%nat with (length e mod 3)%nat by divlia.
    rewrite app_assoc_s. split; [done|].
    unfold tripletToBase64. rewrite !app_length_s, !all_chars_app, Hl, Hc, (Z.land_comm 63).
    destruct (r_b64 _ (sextet_bound (Z.shiftr n 18))) as [-> ->].
    destruct (r_b64 _ (sextet_bound (Z.shiftr n 12))) as [-> ->].
    destruct (r_b64 _ (sextet_bound (Z.shiftr n 6))) as [-> ->].
    destruct (r_b64 _ (sextet_bound n)) as [-> ->]. split; [done|divlia].
Qed.

(** ** What is promised *)

(** The chunked encoder of the bundle, with its shifts and masks, is the base64 encoding of
    three bytes at a time, for byte arrays of every length. *)
Theorem fromByteArray_spec e : Forall is_byte e -> fromByteArray e = base64 e.
Proof. apply fromByteArray_base64. Qed.

(** C36: Decoding what was encoded gives the bytes back, for every byte array, and the
    length announced for the decoded array is the number of bytes. *)
Theorem base64_roundtrip e : Forall is_byte e ->
  toByteArray (fromByteArray e) = Some e /\
  byteLength (fromByteArray e) = Some (Z.of_nat (length e)).
Proof.
  intros He. rewrite fromByteArray_base64 by done. split; [by apply decode_encode|].
  destruct (base64_body e He) as (body & Hb & Hc & Hl).
  assert (Hp : has_char "=" body = false).
  { unfold has_char. rewrite (all_chars_impl b64_char); [done| |done].
    unfold b64_char. intros c Hcc. by apply andb_true_iff in Hcc as [? _]. }
  unfold byteLength, getLens. rewrite Hb, index_char_app, app_length_s, Hl by done.
  destruct (length e mod 3)%nat as [|[|[|]]] eqn:Em; cbn [String.length index_char].
  4:{ exfalso. revert Em. clear. intros Em. divlia. }
  all: rewrite ?bool_decide_eq_true_2 by done; cbn [fmap option_fmap option_map].
  all: match goal with |- context [(0 <? ?m mod 4)%nat] =>
    replace (m mod 4)%nat with 0%nat by divlia end; cbn [Nat.ltb Nat.leb].
  all: destruct (_ =? _)%nat eqn:En; [apply Nat.eqb_eq in En|apply Nat.eqb_neq in En];
    try (exfalso; lia); cbn [fmap option_fmap option_map]; f_equal; divlia.
Qed.

(** A code verifier made from 32 random bytes is 43 unreserved characters, the least length
    the PKCE standard allows, and determines the bytes: with its padding put back it decodes
    to them. *)
Theorem generateCodeVerifier_bounds random : Forall is_byte random -> length random = 32%nat ->
  let v := generateCodeVerifier random in
  String.length v = 43%nat /\ all_chars unreserved v = true /\
  toByteArray (v +:+ "=") = Some random.
Proof.
  intros Hb Hl v. destruct (base64_body random Hb) as (body & He & Hc & Hlen).
  rewrite Hl in He, Hlen. change (_ mod 3)%nat with 2%nat in He. cbn iota in He.
  assert (Hp : has_char "=" (smap urlchar body) = false).
  { clear -Hc. induction body as [|c body IH]; [done|]. cbn [smap all_chars] in *.
    apply andb_true_iff in Hc as [Hc Hbody]. rewrite has_char_cons, urlchar_pad, IH by done.
    unfold b64_char in Hc. by destruct (bool_decide _). }
  assert (Hv : v = smap urlchar body).
  { unfold v, generateCodeVerifier. rewrite fromByteArray_base64, He, urlEncoded_smap, smap_app by done.
    rewrite replace_char_app, (replace_none _ _ (smap urlchar body)) by done. apply app_nil. }
  rewrite Hv. split_and!.
  - by rewrite smap_length, Hlen.
  - clear -Hc. induction body as [|c body IH]; [done|]. cbn [smap all_chars] in *.
    apply andb_true_iff in Hc as [Hc Hbody]. unfold b64_char in Hc.
    apply andb_true_iff in Hc as [_ ->]. by apply IH.
  - change "=" with (smap urlchar "="). rewrite <- smap_app, toByteArray_smap, <- He.
    by apply decode_encode.
Qed.
