(* ===== verification/SwaggerSearch.v ===== *)
(** * The query of the page's address (swagger-ui-es-bundle.js)

    [serializeSearch] (the minified [He]) writes settings of the page into the
    query of its address and [parseSearch] ([ze]) reads them back.  Strings are
    ASCII; an escape of a character that is not, like a malformed one, makes
    [decodeURIComponent] answer [None], an exception. *)

From S2P Require Import Prelude SwaggerUi JsStrings.
From Stdlib Require Import Ascii.

(** ** encodeURIComponent and decodeURIComponent *)

(** The characters that are not escaped. *)
Definition uri_plain (c : ascii) : bool :=
  (65 <=? code c) && (code c <=? 90) || (97 <=? code c) && (code c <=? 122) || is_digit c ||
  bool_decide (c ∈ ["-"; "_"; "."; "!"; "~"; "*"; "'"; "("; ")"]%char).

Definition hex_upper (n : nat) : ascii := ascii_of_nat (if n <? 10 then 48 + n else 55 + n).
Definition encode_char (c : ascii) : string :=
  if uri_plain c then chr c
  else String "%" (String (hex_upper (code c / 16)) (chr (hex_upper (code c mod 16)))).
Fixpoint encodeURIComponent (s : string) : string :=
  match s with EmptyString => "" | String c s => encode_char c +:+ encodeURIComponent s end.

Definition hex_value (c : ascii) : option nat :=
  if is_digit c then Some (code c - 48)
  else if (65 <=? code c) && (code c <=? 70) then Some (code c - 55)
  else if (97 <=? code c) && (code c <=? 102) then Some (code c - 87)
  else None.
Fixpoint decodeURIComponent (s : string) : option string :=
  match s with
  | EmptyString => Some ""
  | String c s =>
      if bool_decide (c = "%"%char) then
        match s with
        | String h (String l s) =>
            h ← hex_value h; l ← hex_value l;
            if 16 * h + l <? 128 then String (ascii_of_nat (16 * h + l)) <$> decodeURIComponent s
            else None
        | _ => None
        end
      else String c <$> decodeURIComponent s
  end.

(** [s.replace(/%20/g,"+")] *)
Fixpoint spaces_to_plus (s : string) : string :=
  match s with
  | String "%" (String "2" (String "0" s)) => String "+" (spaces_to_plus s)
  | String c s => String c (spaces_to_plus s)
  | EmptyString => EmptyString
  end.

(** ** Writing and reading *)

(** The entries of the object, in the order of [for..in]; [None] is undefined. *)
Definition kept (e : list (string * option string)) : list (string * string) :=
  omap (fun '(n, r) => match r with
                       | Some r => if bool_decide (r = "") then None else Some (n, r)
                       | None => None end) e.
Definition pair_text (p : string * string) : string :=
  p.1 +:+ "=" +:+ spaces_to_plus (encodeURIComponent p.2).
Definition serializeSearch (e : list (string * option string)) : string :=
  join "&" (map pair_text (kept e)).

(** One [key=value]; [None] is an exception. *)
Definition parse_pair (s : string) : option (string * string) :=
  match split_char "=" s with
  | [] => None
  | key :: r =>
      k ← decodeURIComponent key;
      v ← match r with
          | [] | "" :: _ => Some ""
          | v :: _ => decodeURIComponent v
          end;
      Some (k, v)
  end.
Fixpoint parse_pairs (l : list string) (e : gmap string string) : option (gmap string string) :=
  match l with
  | [] => Some e
  | s :: l => p ← parse_pair s; parse_pairs l (<[p.1 := p.2]> e)
  end.
(** [t] is [location.search]: empty, or a question mark and the query. *)
Definition parseSearch (t : string) : option (gmap string string) :=
  match t with
  | EmptyString => Some ∅
  | String _ query => parse_pairs (split_char "&" query) ∅
  end.

(** ** Reading what was written *)
Definition ascii7 (c : ascii) : bool := code c <? 128.

(** What a character is written as, and what it is read back as. *)
Definition plus_char (c : ascii) : ascii := if bool_decide (c = " "%char) then "+"%char else c.
Definition encoded_plus (c : ascii) : string :=
  if bool_decide (c = " "%char) then "+" else encode_char c.

Lemma spaces_encode_app c t : ascii7 c = true ->
  spaces_to_plus (encode_char c +:+ t) = encoded_plus c +:+ spaces_to_plus t.
Proof.
  destruct c as [[] [] [] [] [] [] [] []]; vm_compute; intros; done.
Qed.

Lemma decode_encode_app c t : ascii7 c = true ->
  decodeURIComponent (encoded_plus c +:+ t) = String (plus_char c) <$> decodeURIComponent t.
Proof. destruct c as [[] [] [] [] [] [] [] []]; intros; try done; reflexivity. Qed.

Lemma encoded_plus_separators c : ascii7 c = true ->
  has_char "&" (encoded_plus c) = false /\ has_char "=" (encoded_plus c) = false.
Proof. destruct c as [[] [] [] [] [] [] [] []]; vm_compute; intros; done. Qed.

Lemma decode_written v : all_chars ascii7 v = true ->
  decodeURIComponent (spaces_to_plus (encodeURIComponent v)) = Some (replace_char " " "+" v).
Proof.
  induction v as [|c v IH]; [done|]. cbn [all_chars]. rewrite andb_true_iff. intros [Hc Hv].
  cbn [encodeURIComponent]. rewrite spaces_encode_app, decode_encode_app, IH by done.
  cbn [replace_char fmap option_fmap option_map]. f_equal. unfold plus_char. by case_bool_decide.
Qed.
Lemma written_separators v : all_chars ascii7 v = true ->
  has_char "&" (spaces_to_plus (encodeURIComponent v)) = false /\
  has_char "=" (spaces_to_plus (encodeURIComponent v)) = false.
Proof.
  induction v as [|c v IH]; [done|]. cbn [all_chars]. rewrite andb_true_iff. intros [Hc Hv].
  cbn [encodeURIComponent]. rewrite spaces_encode_app, !has_char_app by done.
  destruct (encoded_plus_separators c Hc) as [-> ->]. by apply IH.
Qed.
Lemma written_nonempty c v : ascii7 c = true ->
  spaces_to_plus (encodeURIComponent (String c v)) <> "".
Proof.
  intros Hc. cbn [encodeURIComponent]. rewrite spaces_encode_app by done.
  destruct c as [[] [] [] [] [] [] [] []]; try done; discriminate.
Qed.

(** A key that is written as it is and read as it is. *)
Definition plain_key (k : string) : bool :=
  all_chars (fun c => negb (bool_decide (c ∈ ["&"; "="; "%"]%char))) k.

Lemma plain_key_spec k : plain_key k = true ->
  has_char "&" k = false /\ has_char "=" k = false /\ decodeURIComponent k = Some k.
Proof.
  unfold plain_key. induction k as [|c k IH]; [done|]. cbn [all_chars].
  rewrite andb_true_iff, negb_true_iff, bool_decide_eq_false. intros [Hc Hk].
  destruct (IH Hk) as (Ha & He & Hd). rewrite !has_char_cons, Ha, He, !orb_false_r.
  rewrite !bool_decide_eq_false_2 by set_solver. cbn [decodeURIComponent].
  by rewrite bool_decide_eq_false_2, Hd by set_solver.
Qed.

Lemma parse_pair_text k v : plain_key k = true -> all_chars ascii7 v = true -> v <> "" ->
  parse_pair (pair_text (k, v)) = Some (k, replace_char " " "+" v).
Proof.
  intros Hk Hv Hne. destruct (plain_key_spec k Hk) as (_ & He & Hd).
  destruct (written_separators v Hv) as [_ Hs]. pose proof (decode_written v Hv) as Hdec.
  assert (Hw : spaces_to_plus (encodeURIComponent v) <> "").
  { destruct v as [|c v]; [done|]. apply written_nonempty. by apply andb_true_iff in Hv as [Hc _]. }
  unfold parse_pair, pair_text. cbn [fst snd].
  generalize dependent (spaces_to_plus (encodeURIComponent v)). intros w Hs Hdec Hw.
  change ("=" +:+ w) with (String "=" w). rewrite split_char_app, split_char_none, Hd by done.
  cbn [mbind option_bind]. destruct w; [done|]. by rewrite Hdec.
Qed.

Lemma parse_pairs_text l e :
  Forall (fun p => plain_key p.1 = true /\ all_chars ascii7 p.2 = true /\ p.2 <> "") l ->
  parse_pairs (map pair_text l) e =
  Some (foldl (fun e p => <[p.1 := replace_char " " "+" p.2]> e) e l).
Proof.
  intros Hl. revert e. induction Hl as [|[k v] l (Hk & Hv & Hne) Hl IH]; intros e; [done|].
  cbn [map parse_pairs]. rewrite parse_pair_text by done. simpl. apply IH.
Qed.

Lemma foldl_insert_lookup (l : list (string * string)) (e : gmap string string) f k v :
  NoDup l.*1 -> (k, v) ∈ l ->
  foldl (fun e p => <[p.1 := f p.2]> e) e l !! k = Some (f v).
Proof.
  revert e. induction l as [|[k' v'] l IH]; intros e Hd Hin; [by apply elem_of_nil in Hin|].
  apply NoDup_cons in Hd as [Hk' Hd]. cbn [foldl fst snd].
  apply elem_of_cons in Hin as [[= <- <-]|Hin]; [|by apply IH].
  assert (Hother : forall e : gmap string string, k ∉ l.*1 -> foldl (fun e p => <[p.1 := f p.2]> e) e l !! k = e !! k).
  { clear. induction l as [|[k' v'] l IH]; intros e Hk; [done|]. cbn [foldl fst snd].
    rewrite IH by set_solver. rewrite lookup_insert_ne; [done|]. set_solver. }
  rewrite Hother by done. apply lookup_insert_eq.
Qed.

(** Settings written into the address are read back: the query parses, and every entry with
    a value other than undefined and the empty string is found under its key, with each
    space of the value turned into a plus; without spaces that is the value itself. *)
Theorem search_roundtrip e k v :
  kept e <> [] -> NoDup (kept e).*1 ->
  Forall (fun p => plain_key p.1 = true /\ all_chars ascii7 p.2 = true) (kept e) ->
  (k, Some v) ∈ e -> v <> "" ->
  exists m, parseSearch ("?" +:+ serializeSearch e) = Some m /\
    m !! k = Some (replace_char " " "+" v) /\
    (has_char " " v = false -> m !! k = Some v).
Proof.
  intros Hne Hd Hok Hin Hv.
  assert (Hk : (k, v) ∈ kept e).
  { apply list_elem_of_omap. exists (k, Some v). split; [done|]. by rewrite bool_decide_eq_false_2. }
  assert (Hl : Forall (fun p => plain_key p.1 = true /\ all_chars ascii7 p.2 = true /\ p.2 <> "") (kept e)).
  { rewrite Forall_forall in Hok |- *. intros p Hp. destruct (Hok p Hp). split_and!; [done..|].
    apply list_elem_of_omap in Hp as ([n [r|]] & _ & Hr); [|done]. by case_bool_decide; simplify_eq. }
  unfold parseSearch, serializeSearch. change ("?" +:+ ?x) with (String "?" x). cbn iota.
  change "&" with (chr "&"%char) at 1. rewrite split_char_join.
  - rewrite parse_pairs_text by done. eexists. split; [done|].
    assert (Hm := foldl_insert_lookup (kept e) ∅ (replace_char " " "+") k v Hd Hk).
    split; [exact Hm|]. intros Hs. rewrite Hm. f_equal. clear -Hs.
    induction v as [|c v IH]; [done|]. rewrite has_char_cons, orb_false_iff in Hs.
    destruct Hs as [Hc Hs]. cbn [replace_char]. rewrite Hc, IH by done. done.
  - by destruct (kept e).
  - apply Forall_map, (Forall_impl _ _ _ Hok). intros p [Hp1 Hp2]. unfold pair_text.
    destruct (plain_key_spec _ Hp1) as (Ha & _). destruct (written_separators _ Hp2) as [Hs _].
    by rewrite !has_char_app, Ha, Hs.
Qed.
