(* ===== verification/SwaggerOauth.v ===== *)
(** * The OAuth 2 login of the API pages (swagger-ui.js, oauth2-redirect.html)

    The login form of a security scheme opens the page of the authorization server,
    which leads the browser to the redirect page; that page hands what it was given to
    the form's callback, which asks for a token.  The form, the window of the server
    and the request for a token hold the same object, the form's React state: it is a
    location of [heap], and a [setState] is a new object the form holds instead.

    The minified names are [y()(ge()(a),"authorize", ...)] with the functions of the
    auth actions [C], [k], [I], [P], [T] and [R], the auth reducer, and the handlers of
    the form.  The clock, the random bytes and the answers of servers are arguments of
    the steps; sha.js and url-parse are parameters.  Strings are ASCII. *)

From S2P Require Import Prelude SwaggerUi JsStrings SwaggerSearch SwaggerBase64.
From Stdlib Require Import Ascii.

(** ** Helpers of the page *)

(** [Fe]: base64 of the bytes of a text. *)
Definition text_bytes (s : string) : list Z :=
  map (fun c => Z.of_nat (code c)) (String.list_ascii_of_string s).
Definition btoa (s : string) : string := fromByteArray (text_bytes s).

(** [We], the same function as [serializeSearch] of the other bundle. *)
Definition buildFormData (e : list (string * option string)) : string := serializeSearch e.

(** [$e]. *)
Definition sanitize (url : string) : string := if bool_decide (url = "") then "" else sanitizeUrl url.

(** An undefined value in a condition and in a concatenation. *)
Definition truthy (o : option string) : bool :=
  match o with Some s => bool_decide (s <> "") | None => false end.
Definition js_text (o : option string) : string := default "undefined" o.

(** ** The data *)
Notation token := (gmap string string) (only parsing).

(** The state of a form, the object [auth] of the actions; [schema] is its three parts. *)
Record AuthState := MkAuth {
  a_name : string; a_flow : string; a_authorizationUrl : string; a_tokenUrl : string;
  a_scopes : list string; a_clientId : option string; a_clientSecret : option string;
  a_username : string; a_password : string; a_passwordType : string;
  a_codeVerifier : option string; a_code : option string; a_token : option token }.

Record OauthConfig := MkConfig {
  oauth2RedirectUrl : option string; scopeSeparator : option string; realm : option string;
  usePkceWithAuthorizationCodeGrant : bool; useBasicAuthenticationWithAccessCodeGrant : bool;
  additionalQueryStringParams : list (string * option string); (* in the order of for..in *)
  currentServer : option string }.

Inductive callback := PreAuthorizeImplicit | WithBasicAuthentication | WithFormParams.

(** [swaggerUIRedirectOauth2]. *)
Record Pending := MkPending {
  p_auth : nat; p_state : option string; p_redirectUrl : string; p_callback : callback }.

(** [cur] is the object the form holds, [authorized] the store of the auth reducer. *)
Record Page := MkPage {
  heap : nat -> AuthState; next : nat; cur : nat; pending : option Pending;
  authorized : gmap string AuthState }.

Inductive message := Text (s : string) | Stringified (t : token).
Inductive oevent :=
| Cleared
| AuthErr (level : string) (m : message)
| Open (url : string)
| Fetch (auth : nat) (url : string) (headers : list (string * string)) (body : string)
| Threw
| Closed.

Class OauthEnv := {
  sha256 : string -> list Z; (* sha.js, the digest of a text *)
  url_resolve : string -> string -> string; (* url-parse against a base, as a text *)
  spec_url : string; (* the server or the definition the token url is relative to *)
  url_with_query : string -> list (string * option string) -> string;
  (* what JSON.parse makes of a query with a quote or a backslash in it *)
  odd_query : string -> option (list (string * string)) }.

(** [f], then [k] on the page it leaves, with the events of both. *)
Definition andThen (r : Page * list oevent) (k : Page -> Page * list oevent) : Page * list oevent :=
  let '(p, l) := r in let '(p', l') := k p in (p', l ++ l').

Definition upd (h : nat -> AuthState) (l : nat) (a : AuthState) : nat -> AuthState :=
  fun l' => if decide (l' = l) then a else h l'.
Definition set_heap (p : Page) (l : nat) (a : AuthState) : Page :=
  MkPage (upd (heap p) l a) (next p) (cur p) (pending p) (authorized p).
Definition set_pending (p : Page) (o : option Pending) : Page :=
  MkPage (heap p) (next p) (cur p) o (authorized p).
Definition set_authorized (p : Page) (m : gmap string AuthState) : Page :=
  MkPage (heap p) (next p) (cur p) (pending p) m.
(** React's [setState]: the form holds a new object. *)
Definition setState (f : AuthState -> AuthState) (p : Page) : Page :=
  MkPage (upd (heap p) (next p) (f (heap p (cur p)))) (S (next p)) (next p) (pending p) (authorized p).

Definition with_scopes (l : list string) (a : AuthState) : AuthState :=
  MkAuth (a_name a) (a_flow a) (a_authorizationUrl a) (a_tokenUrl a) l (a_clientId a) (a_clientSecret a)
    (a_username a) (a_password a) (a_passwordType a) (a_codeVerifier a) (a_code a) (a_token a).
Definition with_verifier (v : string) (a : AuthState) : AuthState :=
  MkAuth (a_name a) (a_flow a) (a_authorizationUrl a) (a_tokenUrl a) (a_scopes a) (a_clientId a)
    (a_clientSecret a) (a_username a) (a_password a) (a_passwordType a) (Some v) (a_code a) (a_token a).
Definition with_code (c : string) (a : AuthState) : AuthState :=
  MkAuth (a_name a) (a_flow a) (a_authorizationUrl a) (a_tokenUrl a) (a_scopes a) (a_clientId a)
    (a_clientSecret a) (a_username a) (a_password a) (a_passwordType a) (a_codeVerifier a) (Some c) (a_token a).
Definition with_token (t : token) (a : AuthState) : AuthState :=
  MkAuth (a_name a) (a_flow a) (a_authorizationUrl a) (a_tokenUrl a) (a_scopes a) (a_clientId a)
    (a_clientSecret a) (a_username a) (a_password a) (a_passwordType a) (a_codeVerifier a) (a_code a) (Some t).

Inductive field := FUsername | FPassword | FPasswordType | FClientId | FClientSecret.
Definition with_credentials (user pass ty : string) (id secret : option string) (a : AuthState) : AuthState :=
  MkAuth (a_name a) (a_flow a) (a_authorizationUrl a) (a_tokenUrl a) (a_scopes a) id secret user pass ty
    (a_codeVerifier a) (a_code a) (a_token a).
Definition with_field (f : field) (v : string) (a : AuthState) : AuthState :=
  let '(user, pass, ty) := (a_username a, a_password a, a_passwordType a) in
  let '(id, secret) := (a_clientId a, a_clientSecret a) in
  match f with
  | FUsername => with_credentials v pass ty id secret a
  | FPassword => with_credentials user v ty id secret a
  | FPasswordType => with_credentials user pass v id secret a
  | FClientId => with_credentials user pass ty (Some v) secret a
  | FClientSecret => with_credentials user pass ty id (Some v) a
  end.

(** ** The form *)
Definition onInputChange (f : field) (v : string) (p : Page) : Page * list oevent :=
  (setState (with_field f v) p, []).
Definition onScopeChange (checked : bool) (value : string) (p : Page) : Page * list oevent :=
  let scopes := a_scopes (heap p (cur p)) in
  if checked && negb (bool_decide (value ∈ scopes)) then (setState (with_scopes (scopes ++ [value])) p, [])
  else if negb checked && bool_decide (value ∈ scopes)
       then (setState (with_scopes (filter (fun e => e <> value) scopes)) p, [])
  else (p, []).
(** All scopes of the scheme, or none. *)
Definition selectScopes (scopes : list string) (p : Page) : Page * list oevent :=
  (setState (with_scopes scopes) p, []).
(** [LOGOUT] forgets the entry; the form keeps its state. *)
Definition logout (p : Page) : Page * list oevent :=
  (set_authorized p (delete (a_name (heap p (cur p))) (authorized p)), [Cleared]).

(** ** The actions *)
Section oauth.
Context `{!OauthEnv} (config : OauthConfig).

Definition base_headers : list (string * string) :=
  [("Accept", "application/json, text/plain, */*"); ("Content-Type", "application/x-www-form-urlencoded");
   ("X-Requested-With", "XMLHttpRequest")].

(** [R], up to the request; its answer is [answered] below. *)
Definition authorizeRequest (l : nat) (url : string) (headers : list (string * string))
    (body : list (string * option string)) (p : Page) : Page * list oevent :=
  (p, [Fetch l (url_with_query (url_resolve url spec_url) (additionalQueryStringParams config))
         (base_headers ++ headers) (buildFormData body)]).

Definition basic_header (a : AuthState) : string * string :=
  ("Authorization", "Basic " +:+ btoa (js_text (a_clientId a) +:+ ":" +:+ js_text (a_clientSecret a))).

(** [k] *)
Definition authorizePassword (l : nat) (p : Page) : Page * list oevent :=
  let a := heap p l in
  let form := [("grant_type", Some "password"); ("scope", Some (join " " (a_scopes a)));
               ("username", Some (a_username a)); ("password", Some (a_password a))] in
  let client := (if truthy (a_clientId a) then [("client_id", a_clientId a)] else []) ++
                (if truthy (a_clientSecret a) then [("client_secret", a_clientSecret a)] else []) in
  if bool_decide (a_passwordType a = "request-body")
  then authorizeRequest l (a_tokenUrl a) [] (form ++ client) p
  else if bool_decide (a_passwordType a = "basic")
  then authorizeRequest l (a_tokenUrl a) [basic_header a] form p
  else authorizeRequest l (a_tokenUrl a) [] form p.

(** [I] *)
Definition authorizeApplication (l : nat) (p : Page) : Page * list oevent :=
  let a := heap p l in
  authorizeRequest l (a_tokenUrl a) [basic_header a]
    [("grant_type", Some "client_credentials"); ("scope", Some (join " " (a_scopes a)))] p.

(** [P] *)
Definition authorizeAccessCodeWithFormParams (l : nat) (redirectUrl : string) (p : Page) : Page * list oevent :=
  let a := heap p l in
  authorizeRequest l (a_tokenUrl a) []
    [("grant_type", Some "authorization_code"); ("code", a_code a); ("client_id", a_clientId a);
     ("client_secret", a_clientSecret a); ("redirect_uri", Some redirectUrl);
     ("code_verifier", a_codeVerifier a)] p.

(** [T] *)
Definition authorizeAccessCodeWithBasicAuthentication (l : nat) (redirectUrl : string) (p : Page)
    : Page * list oevent :=
  let a := heap p l in
  authorizeRequest l (a_tokenUrl a) [basic_header a]
    [("grant_type", Some "authorization_code"); ("code", a_code a); ("client_id", a_clientId a);
     ("redirect_uri", Some redirectUrl); ("code_verifier", a_codeVerifier a)] p.

(** [AUTHORIZE_OAUTH2] of the reducer, which also writes the object of the form. *)
Definition authorizeOauth2 (l : nat) (t : token) (p : Page) : Page * list oevent :=
  let a := with_token t (heap p l) in
  (set_authorized (set_heap p l a) (<[a_name a := a]> (authorized p)), []).

Definition warning : oevent :=
  AuthErr "warning" (Text "Authorization may be unsafe, passed state was changed in server Passed state wasn't returned from auth server").

(** [C] *)
Definition preAuthorizeImplicit (l : nat) (t : token) (isValid : bool) (p : Page) : Page * list oevent :=
  let flow := a_flow (heap p l) in
  let p := set_pending p None in
  let warn := if bool_decide (flow = "accessCode") || isValid then [] else [warning] in
  andThen (p, warn) (fun p =>
    if truthy (t !! "error") then (p, [AuthErr "error" (Stringified t)]) else authorizeOauth2 l t p).

Definition call_back (cb : callback) (l : nat) (t : token) (isValid : bool) (redirectUrl : string)
    (p : Page) : Page * list oevent :=
  match cb with
  | PreAuthorizeImplicit => preAuthorizeImplicit l t isValid p
  | WithBasicAuthentication => authorizeAccessCodeWithBasicAuthentication l redirectUrl p
  | WithFormParams => authorizeAccessCodeWithFormParams l redirectUrl p
  end.

(** What the server answers a request for a token: a response, with its JSON unless the
    body is none, or a failure with its message. *)
Inductive answer :=
| Response (ok : bool) (statusText : string) (body : token)
| Failed (text : string).
Definition answered (l : nat) (r : answer) (p : Page) : Page * list oevent :=
  match r with
  | Response true _ t =>
      if truthy (t !! "error") || truthy (t !! "parseError")
      then (p, [AuthErr "error" (Stringified t)]) else authorizeOauth2 l t p
  | Response false statusText _ => (p, [AuthErr "error" (Text statusText)])
  | Failed text => (p, [AuthErr "error" (Text text)])
  end.

(** ** The authorization request *)
Inductive grant := GPassword | GApplication | GCode | GToken | GNone.
Definition grant_of (flow : string) : grant :=
  if bool_decide (flow = "password") then GPassword
  else if bool_decide (flow ∈ ["application"; "clientCredentials"; "client_credentials"]) then GApplication
  else if bool_decide (flow ∈ ["accessCode"; "authorizationCode"; "authorization_code"]) then GCode
  else if bool_decide (flow = "implicit") then GToken
  else GNone.
Definition code_flow (flow : string) : bool :=
  bool_decide (flow ∈ ["accessCode"; "authorizationCode"; "authorization_code"]).

(** The parameters of the query, with their values before [encodeURIComponent]; only the
    challenge is not encoded.  [state] is the time of the click in base64. *)
Definition param (k : string) (v : option string) : list (string * string) :=
  match v with Some v => [(k, v)] | None => [] end.
Definition grant_params (flow : string) : list (string * string) :=
  match grant_of flow with
  | GCode => [("response_type", "code")]
  | GToken => [("response_type", "token")]
  | _ => []
  end.
Definition first_params (a : AuthState) (redirectUrl state : string) : list (string * string) :=
  param "client_id" (a_clientId a) ++ [("redirect_uri", redirectUrl)] ++
  (if bool_decide (a_scopes a = []) then []
   else [("scope", join (if truthy (scopeSeparator config) then default " " (scopeSeparator config) else " ")
                     (a_scopes a))]) ++
  [("state", state)] ++ param "realm" (realm config).
Definition uses_pkce (flow : string) : bool :=
  code_flow flow && usePkceWithAuthorizationCodeGrant config.
Definition createCodeChallenge (verifier : string) : string :=
  b64toB64UrlEncoded (fromByteArray (sha256 verifier)).
Definition pkce_params (verifier : string) : list (string * string) :=
  [("code_challenge", createCodeChallenge verifier); ("code_challenge_method", "S256")].
Definition extra_params : list (string * string) :=
  omap (fun '(k, v) => match v with Some v => Some (k, v) | None => None end)
    (additionalQueryStringParams config).

Definition written (p : string * string) : string := p.1 +:+ "=" +:+ encodeURIComponent p.2.
Definition written_pair (p : string * string) : string :=
  encodeURIComponent p.1 +:+ "=" +:+ encodeURIComponent p.2.
Definition query_pieces (a : AuthState) (redirectUrl state verifier : string) : list string :=
  map (fun p => p.1 +:+ "=" +:+ p.2) (grant_params (a_flow a)) ++
  map written (first_params a redirectUrl state) ++
  (if uses_pkce (a_flow a) then map (fun p => p.1 +:+ "=" +:+ p.2) (pkce_params verifier) else []) ++
  map written_pair extra_params.

Definition authorization_base (a : AuthState) : string :=
  let url := a_authorizationUrl a in
  match currentServer config with
  | Some s => if bool_decide (s = "") then sanitize url else url_resolve (sanitize url) s
  | None => sanitize url
  end.
Definition separator (a : AuthState) : string :=
  if bool_decide (String.index 0 "?" (a_authorizationUrl a) = None) then "?" else "&".
Definition callback_of (flow : string) : callback :=
  if bool_decide (flow = "implicit") then PreAuthorizeImplicit
  else if useBasicAuthenticationWithAccessCodeGrant config then WithBasicAuthentication
  else WithFormParams.

(** The click on Authorize, at the time [now] and with the random bytes of a verifier. *)
Definition authorize_form (now : string) (random : list Z) (p : Page) : Page * list oevent :=
  let l := cur p in
  let a := heap p l in
  match grant_of (a_flow a) with
  | GPassword => authorizePassword l p
  | GApplication => authorizeApplication l p
  | _ =>
      match oauth2RedirectUrl config with
      | None =>
          (p, [AuthErr "error" (Text "oauth2RedirectUrl configuration is not passed. Oauth2 authorization cannot be performed.")])
      | Some h =>
          let state := btoa now in
          let verifier := generateCodeVerifier random in
          let p := if uses_pkce (a_flow a) then set_heap p l (with_verifier verifier a) else p in
          (set_pending p (Some (MkPending l (Some state) h (callback_of (a_flow a)))),
           [Open (authorization_base a +:+ separator a +:+ join "&" (query_pieces a h state verifier))])
      end
  end.
Definition authorize (now : string) (random : list Z) (p : Page) : Page * list oevent :=
  andThen (p, [Cleared]) (authorize_form now random).

(** ** The redirect page *)
Definition control (c : ascii) : bool := code c <? 32.
Definition odd_char (c : ascii) : bool := bool_decide (c = "034"%char) || bool_decide (c = "092"%char).

(** One piece: the first equals sign ends the key, which is not decoded; without one the
    text is no JSON.  The value of the empty key is left as it is by the reviver. *)
Fixpoint split_first (c : ascii) (s : string) : option (string * string) :=
  match s with
  | EmptyString => None
  | String c' s =>
      if bool_decide (c' = c) then Some ("", s)
      else p ← split_first c s; Some (String c' p.1, p.2)
  end.
Definition qp_piece (v : string) : option (string * string) :=
  p ← split_first "=" v;
  value ← (if bool_decide (p.1 = "") then Some p.2 else decodeURIComponent p.2);
  Some (p.1, value).
Definition qp_entries (qp : string) : option (list (string * string)) :=
  if bool_decide (qp = "") then Some []
  else if all_chars (fun c => negb (odd_char c)) qp then
    if all_chars (fun c => negb (control c)) qp then mapM qp_piece (split_char "&" qp) else None
  else odd_query qp.
(** The object; of two entries with one key the last one counts. *)
Definition parse_qp (qp : string) : option token := list_to_map ∘ reverse <$> qp_entries qp.

Definition contains (sub s : string) : bool := negb (bool_decide (String.index 0 sub s = None)).
Definition chop (s : string) : string := match s with String _ s => s | EmptyString => "" end.
Definition qp_text (hash search : string) : string :=
  if contains "code" hash || contains "token" hash || contains "error" hash then chop hash else chop search.

Definition qp_error (qp : token) : string :=
  match qp !! "error" with
  | Some e =>
      if bool_decide (e = "") then "[Authorization failed]: no accessCode received from the server"
      else "[" +:+ e +:+ "]: " +:+
           (if truthy (qp !! "error_description") then js_text (qp !! "error_description") +:+ ". "
            else "no accessCode received from the server. ") +:+
           (if truthy (qp !! "error_uri") then "More info: " +:+ js_text (qp !! "error_uri") else "")
  | None => "[Authorization failed]: no accessCode received from the server"
  end.

(** [run] *)
Definition redirected (hash search : string) (p : Page) : Page * list oevent :=
  match pending p with
  | None => (p, [Threw])
  | Some o =>
      match parse_qp (qp_text hash search) with
      | None => (p, [Threw])
      | Some qp =>
          let l := p_auth o in
          let a := heap p l in
          let isValid := bool_decide (qp !! "state" = p_state o) in
          let r :=
            if code_flow (a_flow a) && negb (truthy (a_code a)) then
              andThen (p, if isValid then [] else [warning]) (fun p =>
                match qp !! "code" with
                | Some c =>
                    if bool_decide (c = "") then (p, [AuthErr "error" (Text (qp_error qp))])
                    else
                      let p := set_pending p (Some (MkPending l None (p_redirectUrl o) (p_callback o))) in
                      call_back (p_callback o) l ∅ false (p_redirectUrl o) (set_heap p l (with_code c a))
                | None => (p, [AuthErr "error" (Text (qp_error qp))])
                end)
            else call_back (p_callback o) l qp isValid (p_redirectUrl o) p in
          andThen r (fun p => (p, [Closed]))
      end
  end.

(** ** Runs of the page *)
Inductive action :=
| Edit (f : field) (v : string)
| Scope (checked : bool) (value : string)
| SelectScopes (scopes : list string)
| Click (now : string) (random : list Z)
| Redirect (hash search : string)
| Answer (l : nat) (r : answer)
| Logout.
Definition do_action (x : action) (p : Page) : Page * list oevent :=
  match x with
  | Edit f v => onInputChange f v p
  | Scope checked value => onScopeChange checked value p
  | SelectScopes scopes => selectScopes scopes p
  | Click now random => authorize now random p
  | Redirect hash search => redirected hash search p
  | Answer l r => answered l r p
  | Logout => logout p
  end.
Fixpoint run_actions (xs : list action) (p : Page) : Page * list oevent :=
  match xs with
  | [] => (p, [])
  | x :: xs => andThen (do_action x p) (run_actions xs)
  end.

Lemma andThen_fst r k : (andThen r k).1 = (k r.1).1.
Proof. destruct r as [p l]. simpl. by destruct (k p). Qed.
Lemma andThen_snd r k : (andThen r k).2 = r.2 ++ (k r.1).2.
Proof. destruct r as [p l]. simpl. by destruct (k p). Qed.

Lemma run_actions_app xs ys p :
  run_actions (xs ++ ys) p = andThen (run_actions xs p) (run_actions ys).
Proof.
  revert p. induction xs as [|x xs IH]; intros p; simpl; [by destruct (run_actions ys p)|].
  destruct (do_action x p) as [p1 l1]. simpl. rewrite IH. destruct (run_actions xs p1) as [p2 l2]. simpl.
  destruct (run_actions ys p2). by rewrite app_assoc.
Qed.

(** ** What a run keeps

    Every object keeps its flow, and a code once it has one; so does the object of the
    form, whichever it is. *)
Definition wf (p : Page) : Prop :=
  cur p < next p /\ match pending p with Some o => p_auth o < next p | None => True end.
Definition kept_code (a b : AuthState) : Prop :=
  a_flow b = a_flow a /\ (truthy (a_code a) = true -> a_code b = a_code a).
Definition keeps (p p' : Page) : Prop :=
  wf p -> wf p' /\ next p <= next p' /\ (forall l, l < next p -> kept_code (heap p l) (heap p' l)) /\
  kept_code (heap p (cur p)) (heap p' (cur p')).

#[export] Instance kept_code_preorder : PreOrder kept_code.
Proof.
  split; [by intros a|]. intros a b c [Hf Hc] [Hf' Hc']. split; [congruence|]. intros Ht.
  rewrite <- (Hc Ht). apply Hc'. by rewrite (Hc Ht).
Qed.
#[export] Instance keeps_preorder : PreOrder keeps.
Proof.
  split; [by intros p Hw|]. intros p q r Hpq Hqr Hw. destruct (Hpq Hw) as (Hq & Hn & Hl & Hc).
  destruct (Hqr Hq) as (Hr & Hn' & Hl' & Hc'). split_and!; [done|lia| |by etrans].
  intros l Hlt. etrans; [by apply Hl|apply Hl'; lia].
Qed.

Lemma upd_eq h l a : upd h l a l = a.
Proof. unfold upd. by rewrite decide_True. Qed.
Lemma upd_ne h l a l' : l' <> l -> upd h l a l' = h l'.
Proof. intros. unfold upd. by rewrite decide_False. Qed.

Lemma keeps_set_heap p l a : kept_code (heap p l) a -> keeps p (set_heap p l a).
Proof.
  intros Ha [Hc Hp]. split_and!; [done|done|intros l' _|]; simpl; unfold upd; case_decide; by subst.
Qed.
Lemma keeps_new_state p f : (forall a, kept_code a (f a)) -> keeps p (setState f p).
Proof.
  intros Hf [Hc Hp]. unfold setState. split_and!; simpl.
  - split; simpl; [lia|]. destruct (pending p); [lia|done].
  - lia.
  - intros l Hl. by rewrite upd_ne by lia.
  - rewrite upd_eq. apply Hf.
Qed.
Lemma keeps_set_pending p o :
  (wf p -> match o with Some o => p_auth o < next p | None => True end) -> keeps p (set_pending p o).
Proof. intros Ho Hw. split_and!; [split; [apply Hw|by apply Ho]|done|done|done]. Qed.
Lemma keeps_set_authorized p m : keeps p (set_authorized p m).
Proof. intros Hw. by split_and!. Qed.

Lemma keeps_authorizeOauth2 l t p : keeps p (authorizeOauth2 l t p).1.
Proof.
  unfold authorizeOauth2. simpl. etrans; [|apply keeps_set_authorized]. by apply keeps_set_heap.
Qed.
Lemma keeps_call_back cb l t v url p : keeps p (call_back cb l t v url p).1.
Proof.
  destruct cb; [|done..]. unfold call_back, preAuthorizeImplicit. rewrite andThen_fst. cbn [fst].
  etrans; [by apply (keeps_set_pending p None)|].
  destruct (truthy _); [done|apply keeps_authorizeOauth2].
Qed.

Lemma keeps_authorize now random p : keeps p (authorize now random p).1.
Proof.
  unfold authorize, authorize_form. rewrite andThen_fst. cbn [fst].
  assert (keeps p (match oauth2RedirectUrl config with
    | None => (p, [AuthErr "error" (Text "oauth2RedirectUrl configuration is not passed. Oauth2 authorization cannot be performed.")])
    | Some h =>
        let a := heap p (cur p) in
        let p' := if uses_pkce (a_flow a) then set_heap p (cur p) (with_verifier (generateCodeVerifier random) a) else p in
        (set_pending p' (Some (MkPending (cur p) (Some (btoa now)) h (callback_of (a_flow a)))),
         [Open (authorization_base a +:+ separator a +:+
            join "&" (query_pieces a h (btoa now) (generateCodeVerifier random)))])
    end).1) as Hk.
  { destruct (oauth2RedirectUrl config) as [h|]; [|done]. cbv zeta. simpl.
    etrans; [|apply keeps_set_pending; by destruct (uses_pkce _); intros [Hc _]].
    destruct (uses_pkce _); [|done]. by apply keeps_set_heap. }
  destruct (grant_of _); [| |exact Hk..]; [|done].
  unfold authorizePassword. by repeat case_bool_decide.
Qed.

Lemma keeps_redirected hash search p : keeps p (redirected hash search p).1.
Proof.
  unfold redirected. destruct (pending p) as [o|] eqn:Ho; [|done].
  destruct (parse_qp _) as [qp|]; [|done]. rewrite andThen_fst. cbn [fst]. cbv zeta.
  destruct (code_flow _ && _) eqn:Hc; [|apply keeps_call_back]. rewrite andThen_fst. cbn [fst].
  apply andb_true_iff in Hc as [_ Hc]. apply negb_true_iff in Hc.
  destruct (qp !! "code") as [c|]; [|done]. case_bool_decide; [done|].
  etrans; [|apply keeps_call_back]. etrans; [apply (keeps_set_heap p (p_auth o) (with_code c (heap p (p_auth o))))|].
  { split; [done|]. by rewrite Hc. }
  apply (keeps_set_pending (set_heap p _ _)). intros [_ Hp]. simpl in *. by rewrite Ho in Hp.
Qed.

Lemma keeps_do_action x p : keeps p (do_action x p).1.
Proof.
  destruct x; simpl.
  - apply keeps_new_state. intros a. by destruct f.
  - unfold onScopeChange. repeat case_match; try done; by apply keeps_new_state.
  - by apply keeps_new_state.
  - apply keeps_authorize.
  - apply keeps_redirected.
  - unfold answered. destruct r as [[] ? t|]; try done. destruct (_ || _); [done|apply keeps_authorizeOauth2].
  - apply keeps_set_authorized.
Qed.
Lemma keeps_run xs p : keeps p (run_actions xs p).1.
Proof.
  revert p. induction xs as [|x xs IH]; intros p; [done|]. simpl. rewrite andThen_fst.
  etrans; [apply keeps_do_action|apply IH].
Qed.

(** ** One login *)
(** A form that asks for a token in exchange for a code. *)
Definition exchanges (code verifier : option string) (redirectUrl : string)
    (form : list (string * option string)) : Prop :=
  (forall v, ("code", v) ∈ form <-> v = code) /\
  (forall v, ("code_verifier", v) ∈ form <-> v = verifier) /\
  (forall v, ("redirect_uri", v) ∈ form <-> v = Some redirectUrl).

Lemma call_back_code cb l t v r p :
  cb <> PreAuthorizeImplicit ->
  exists url headers form,
    call_back cb l t v r p = (p, [Fetch l url headers (buildFormData form)]) /\
    exchanges (a_code (heap p l)) (a_codeVerifier (heap p l)) r form.
Proof.
  intros Hcb. destruct cb; [done| |]; do 3 eexists; (split; [reflexivity|]); split_and!; intros x;
    rewrite !elem_of_cons, elem_of_nil; naive_solver.
Qed.

Lemma code_flow_grant flow : code_flow flow = true -> grant_of flow = GCode.
Proof.
  unfold code_flow, grant_of. rewrite bool_decide_eq_true. intros Hf.
  rewrite !elem_of_cons, elem_of_nil in Hf. by destruct_or!; subst.
Qed.
Lemma code_flow_callback flow : code_flow flow = true -> callback_of flow <> PreAuthorizeImplicit.
Proof.
  unfold code_flow, callback_of. rewrite bool_decide_eq_true. intros Hf.
  rewrite !elem_of_cons, elem_of_nil in Hf.
  destruct_or!; subst; try done; by destruct (useBasicAuthenticationWithAccessCodeGrant config).
Qed.

(** What a click leaves when the flow is one with a code. *)
Definition clicked (now : string) (random : list Z) (h : string) (p : Page) : Page :=
  let a := heap p (cur p) in
  set_pending (if uses_pkce (a_flow a) then set_heap p (cur p) (with_verifier (generateCodeVerifier random) a) else p)
    (Some (MkPending (cur p) (Some (btoa now)) h (callback_of (a_flow a)))).
Lemma authorize_code now random p h :
  let a := heap p (cur p) in
  grant_of (a_flow a) <> GPassword -> grant_of (a_flow a) <> GApplication -> oauth2RedirectUrl config = Some h ->
  authorize now random p =
  (clicked now random h p,
   [Cleared; Open (authorization_base a +:+ separator a +:+
      join "&" (query_pieces a h (btoa now) (generateCodeVerifier random)))]).
Proof.
  intros a Hp Ha Hh. unfold authorize, andThen.
  replace (authorize_form now random p) with (clicked now random h p,
    [Open (authorization_base a +:+ separator a +:+
       join "&" (query_pieces a h (btoa now) (generateCodeVerifier random)))]); [done|].
  unfold authorize_form. fold a. rewrite Hh. revert Hp Ha. by destruct (grant_of (a_flow a)).
Qed.

Lemma clicked_auth now random h p :
  let a := heap p (cur p) in
  let b := heap (clicked now random h p) (cur p) in
  a_flow b = a_flow a /\ a_code b = a_code a /\
  a_codeVerifier b = (if uses_pkce (a_flow a) then Some (generateCodeVerifier random) else a_codeVerifier a).
Proof.
  intros a b. unfold b, clicked. fold a. destruct (uses_pkce (a_flow a)); simpl; [|done].
  by rewrite upd_eq.
Qed.

(** What the redirect page does with a login whose object has no code yet. *)
Lemma redirected_code hash search p o qp c :
  let a := heap p (p_auth o) in
  pending p = Some o -> parse_qp (qp_text hash search) = Some qp -> qp !! "code" = Some c -> c <> "" ->
  code_flow (a_flow a) = true -> truthy (a_code a) = false -> p_callback o <> PreAuthorizeImplicit ->
  exists url headers form,
    (redirected hash search p).2 =
      (if bool_decide (qp !! "state" = p_state o) then [] else [warning]) ++
      [Fetch (p_auth o) url headers (buildFormData form); Closed] /\
    exchanges (Some c) (a_codeVerifier a) (p_redirectUrl o) form.
Proof.
  intros a Ho Hqp Hc Hne Hf Hn Hcb. unfold redirected. rewrite Ho, Hqp. cbv zeta. fold a.
  rewrite Hf, Hn, Hc, (bool_decide_eq_false_2 (c = "")) by done. cbn [andb negb].
  set (p2 := set_pending p (Some (MkPending (p_auth o) None (p_redirectUrl o) (p_callback o)))).
  destruct (call_back_code (p_callback o) (p_auth o) ∅ false (p_redirectUrl o)
    (set_heap p2 (p_auth o) (with_code c a)) Hcb) as (url & headers & form & Heq & Hform).
  exists url, headers, form. rewrite !andThen_snd, !andThen_fst. cbn [fst snd]. fold p2. rewrite Heq.
  split; [by rewrite <- app_assoc|].
  simpl in Hform. rewrite upd_eq in Hform. exact Hform.
Qed.

(** What is done while the server's window is open, short of another login. *)
Definition quiet (x : action) : Prop := match x with Click _ _ | Redirect _ _ => False | _ => True end.
Definition is_fetch (e : oevent) : Prop := match e with Fetch _ _ _ _ => True | _ => False end.
#[export] Instance is_fetch_dec e : Decision (is_fetch e).
Proof. destruct e; apply _. Defined.

(** The login that waits is not touched. *)
Definition same_login (l : nat) (p p' : Page) : Prop :=
  l < next p -> l < next p' /\ pending p' = pending p /\ a_flow (heap p' l) = a_flow (heap p l) /\
  a_code (heap p' l) = a_code (heap p l) /\ a_codeVerifier (heap p' l) = a_codeVerifier (heap p l).

Lemma same_login_setState l f p : same_login l p (setState f p).
Proof. intros Hl. unfold setState. simpl. rewrite upd_ne by lia. by split_and!; try lia. Qed.
Lemma same_login_authorizeOauth2 l l' t p : same_login l p (authorizeOauth2 l' t p).1.
Proof.
  intros Hl. unfold authorizeOauth2. simpl. unfold upd. case_decide; subst; by split_and!.
Qed.
Lemma quiet_action l x p : quiet x ->
  same_login l p (do_action x p).1 /\ Forall (fun e => ~ is_fetch e) (do_action x p).2.
Proof.
  intros Hx. destruct x; try done; simpl.
  - split; [apply same_login_setState|constructor].
  - unfold onScopeChange. repeat case_match; (split; [first [apply same_login_setState|by intros ?]|constructor]).
  - split; [apply same_login_setState|constructor].
  - unfold answered. destruct r as [[] ? t|]; [| |].
    + destruct (_ || _); [split; [by intros ?|by repeat constructor; intros []]|].
      split; [apply same_login_authorizeOauth2|constructor].
    + split; [by intros ?|by repeat constructor; intros []].
    + split; [by intros ?|by repeat constructor; intros []].
  - split; [by intros ?|by repeat constructor; intros []].
Qed.
Lemma quiet_run l xs p : Forall quiet xs ->
  same_login l p (run_actions xs p).1 /\ Forall (fun e => ~ is_fetch e) (run_actions xs p).2.
Proof.
  intros Hxs. revert p. induction Hxs as [|x xs Hx _ IH]; intros p; [by split; [intros ?|constructor]|].
  simpl. rewrite andThen_fst, andThen_snd. destruct (quiet_action l x p Hx) as [Hs Hf].
  destruct (IH (do_action x p).1) as [Hs' Hf']. split; [|by apply Forall_app].
  intros Hl. destruct (Hs Hl) as (H1 & H2 & H3 & H4 & H5). destruct (Hs' H1) as (H1' & H2' & H3' & H4' & H5').
  split_and!; congruence || done.
Qed.

(** C37: A login with PKCE, whatever is edited in the form, answered or logged out while the
    window of the server is open: the page asks for a token once, with the code the server
    gave, the redirect url of the authorization request, and the verifier whose SHA-256
    digest that request announced; a state other than the one sent brings a warning and
    nothing more. *)
Theorem pkce_bound p now random h xs hash search qp c :
  let a := heap p (cur p) in
  let verifier := generateCodeVerifier random in
  let r := run_actions (Click now random :: xs ++ [Redirect hash search]) p in
  wf p -> code_flow (a_flow a) = true -> truthy (a_code a) = false ->
  oauth2RedirectUrl config = Some h -> usePkceWithAuthorizationCodeGrant config = true ->
  Forall quiet xs -> parse_qp (qp_text hash search) = Some qp -> qp !! "code" = Some c -> c <> "" ->
  exists url headers form,
    Open (authorization_base a +:+ separator a +:+ join "&" (query_pieces a h (btoa now) verifier)) ∈ r.2 /\
    ("code_challenge=" +:+ b64toB64UrlEncoded (fromByteArray (sha256 verifier))) ∈
      query_pieces a h (btoa now) verifier /\
    filter is_fetch r.2 = [Fetch (cur p) url headers (buildFormData form)] /\
    exchanges (Some c) (Some verifier) h form /\
    (warning ∈ (do_action (Redirect hash search) (run_actions (Click now random :: xs) p).1).2 <->
       qp !! "state" <> Some (btoa now)).
Proof.
  intros a verifier r Hw Hf Hn Hh Hpk Hxs Hqp Hc Hne.
  assert (uses_pkce (a_flow a) = true) as Hu by (unfold uses_pkce; by rewrite Hf, Hpk).
  pose proof (code_flow_grant _ Hf) as Hg.
  pose proof (authorize_code now random p h) as Hauth. cbv zeta in Hauth. fold a verifier in Hauth.
  rewrite Hg in Hauth. specialize (Hauth ltac:(done) ltac:(done) Hh).
  destruct (clicked_auth now random h p) as (Hcf & Hcc & Hcv). fold a in Hcf, Hcc, Hcv. rewrite Hu in Hcv.
  set (p1 := clicked now random h p) in *.
  destruct (quiet_run (cur p) xs p1 Hxs) as [Hs Hnf].
  assert (cur p < next p1) as Hlt by (unfold p1, clicked; fold a; rewrite Hu; simpl; apply Hw).
  destruct (Hs Hlt) as (_ & Hpend & Hsf & Hsc & Hsv). set (p2 := (run_actions xs p1).1) in *.
  set (o := MkPending (cur p) (Some (btoa now)) h (callback_of (a_flow a))).
  assert (pending p2 = Some o) as Ho by (rewrite Hpend; done).
  destruct (redirected_code hash search p2 o qp c) as (url & headers & form & Hev & Hform); simpl;
    [done|done|done|done|by rewrite Hsf, Hcf|by rewrite Hsc, Hcc|by apply code_flow_callback|].
  change (p_auth o) with (cur p) in Hform, Hev. change (p_redirectUrl o) with h in Hform.
  change (p_state o) with (Some (btoa now)) in Hev.
  rewrite Hsv, Hcv in Hform. exists url, headers, form.
  assert (r.2 = [Cleared; Open (authorization_base a +:+ separator a +:+
    join "&" (query_pieces a h (btoa now) verifier))] ++ (run_actions xs p1).2 ++
    (redirected hash search p2).2) as Hr.
  { unfold r. change (run_actions (Click now random :: xs ++ [Redirect hash search]) p)
      with (andThen (authorize now random p) (run_actions (xs ++ [Redirect hash search]))).
    rewrite Hauth, andThen_snd. cbn [fst snd]. f_equal. rewrite run_actions_app, andThen_snd. f_equal.
    fold p2. simpl. rewrite andThen_snd. simpl. by rewrite app_nil_r. }
  split; [rewrite Hr; set_solver|]. split.
  { unfold query_pieces. rewrite Hu. rewrite !elem_of_app. right. right. left. left. }
  split.
  { rewrite Hr, Hev, !filter_app. replace (filter is_fetch (run_actions xs p1).2) with (@nil oevent).
    - cbn. by case_bool_decide.
    - symmetry. clear -Hnf. induction Hnf as [|e l He _ IH]; [done|]. by rewrite filter_cons_False. }
  split; [exact Hform|].
  change (run_actions (Click now random :: xs) p).1 with (andThen (authorize now random p) (run_actions xs)).1.
  rewrite andThen_fst, Hauth. cbn [fst]. fold p2. simpl. rewrite Hev.
  case_bool_decide as Hst; split; intros Hx; try done.
  - exfalso. revert Hx. rewrite app_nil_l, !elem_of_cons, elem_of_nil. intros Hx. by destruct_or!.
  - set_solver.
Qed.

(** C38: A form that once got a code keeps it over every run of edits, logins, answers and
    logouts: the next login exchanges the old code for a token, with the new verifier,
    whatever the server gave. *)
Theorem old_code_sent p c xs now random hash search qp h :
  let r1 := run_actions xs p in
  let r2 := do_action (Click now random) r1.1 in
  wf p -> code_flow (a_flow (heap p (cur p))) = true -> a_code (heap p (cur p)) = Some c -> c <> "" ->
  oauth2RedirectUrl config = Some h -> parse_qp (qp_text hash search) = Some qp ->
  exists url headers form verifier,
    (do_action (Redirect hash search) r2.1).2 =
      [Fetch (cur r1.1) url headers (buildFormData form); Closed] /\
    exchanges (Some c) verifier h form /\
    (usePkceWithAuthorizationCodeGrant config = true -> verifier = Some (generateCodeVerifier random)).
Proof.
  intros r1 r2 Hw Hf Hc Hne Hh Hqp. set (p1 := r1.1) in *.
  destruct (keeps_run xs p Hw) as (Hw1 & _ & _ & [Hf1 Hc1]). fold r1 p1 in Hw1, Hf1, Hc1.
  rewrite Hc in Hc1. specialize (Hc1 ltac:(by apply bool_decide_eq_true)).
  assert (code_flow (a_flow (heap p1 (cur p1))) = true) as Hf1' by (by rewrite Hf1).
  pose proof (code_flow_grant _ Hf1') as Hg.
  pose proof (authorize_code now random p1 h) as Hauth. cbv zeta in Hauth. rewrite Hg in Hauth.
  specialize (Hauth ltac:(done) ltac:(done) Hh). unfold r2. simpl. rewrite Hauth. cbn [fst].
  destruct (clicked_auth now random h p1) as (Hcf & Hcc & Hcv). set (p2 := clicked now random h p1) in *.
  set (o := MkPending (cur p1) (Some (btoa now)) h (callback_of (a_flow (heap p1 (cur p1))))).
  assert (pending p2 = Some o) as Ho by done.
  unfold redirected. rewrite Ho, Hqp. cbv zeta. cbn [p_auth o].
  replace (truthy (a_code (heap p2 (cur p1)))) with true
    by (rewrite Hcc, Hc1; symmetry; by apply bool_decide_eq_true).
  rewrite andb_false_r.
  destruct (call_back_code (callback_of (a_flow (heap p1 (cur p1)))) (cur p1) qp
    (bool_decide (qp !! "state" = Some (btoa now))) h p2) as (url & headers & form & Heq & Hform);
    [by apply code_flow_callback|].
  rewrite Hcc, Hc1 in Hform. exists url, headers, form, (a_codeVerifier (heap p2 (cur p1))).
  cbn [p_callback p_state p_redirectUrl o]. rewrite Heq, andThen_snd. split; [done|]. split; [exact Hform|].
  intros Hpk. rewrite Hcv. unfold uses_pkce. by rewrite Hf1', Hpk.
Qed.

(** ** The query of the authorization request *)
Definition query_params (a : AuthState) (redirectUrl state verifier : string) : list (string * string) :=
  grant_params (a_flow a) ++ first_params a redirectUrl state ++
  (if uses_pkce (a_flow a) then pkce_params verifier else []) ++ extra_params.
Definition ascii_pair (p : string * string) : Prop :=
  all_chars ascii7 p.1 = true /\ all_chars ascii7 p.2 = true.
(** A piece of a query that is read as the parameter [p]. *)
Definition reads_as (s : string) (p : string * string) : Prop :=
  parse_pair s = Some p /\ has_char "&" s = false.

Lemma encode_char_spec c t : ascii7 c = true ->
  decodeURIComponent (encode_char c +:+ t) = String c <$> decodeURIComponent t /\
  has_char "&" (encode_char c) = false /\ has_char "=" (encode_char c) = false.
Proof. destruct c as [[] [] [] [] [] [] [] []]; intros; try done; split_and!; reflexivity. Qed.
Lemma encode_spec v : all_chars ascii7 v = true ->
  decodeURIComponent (encodeURIComponent v) = Some v /\
  has_char "&" (encodeURIComponent v) = false /\ has_char "=" (encodeURIComponent v) = false.
Proof.
  induction v as [|c v IH]; [done|]. cbn [all_chars]. rewrite andb_true_iff. intros [Hc Hv].
  cbn [encodeURIComponent]. destruct (encode_char_spec c (encodeURIComponent v) Hc) as (-> & Ha & He).
  rewrite !has_char_app, Ha, He. destruct (IH Hv) as (-> & -> & ->). done.
Qed.

Lemma reads_as_pair ek ev k v :
  decodeURIComponent ek = Some k -> has_char "&" ek = false -> has_char "=" ek = false ->
  decodeURIComponent ev = Some v -> has_char "&" ev = false -> has_char "=" ev = false ->
  reads_as (ek +:+ "=" +:+ ev) (k, v).
Proof.
  intros Hk Hka Hke Hv Hva Hve. split; [|by rewrite !has_char_app, Hka, Hva].
  unfold parse_pair. change ("=" +:+ ev) with (String "=" ev).
  rewrite split_char_app, split_char_none, Hk by done. cbn [mbind option_bind].
  destruct ev; [simpl in *; by simplify_eq|by rewrite Hv].
Qed.
Lemma reads_as_plain k v : plain_key k = true -> plain_key v = true -> reads_as (k +:+ "=" +:+ v) (k, v).
Proof.
  intros (Ha & He & Hd)%plain_key_spec (Ha' & He' & Hd')%plain_key_spec. by apply reads_as_pair.
Qed.
Lemma reads_as_written p : plain_key p.1 = true -> all_chars ascii7 p.2 = true -> reads_as (written p) p.
Proof.
  intros (Ha & He & Hd)%plain_key_spec (Hd' & Ha' & He')%encode_spec. destruct p. by apply reads_as_pair.
Qed.
Lemma reads_as_written_pair p : ascii_pair p -> reads_as (written_pair p) p.
Proof.
  intros [(Hd & Ha & He)%encode_spec (Hd' & Ha' & He')%encode_spec]. destruct p. by apply reads_as_pair.
Qed.

Lemma challenge_plain v : Forall is_byte (sha256 v) -> plain_key (createCodeChallenge v) = true.
Proof.
  intros Hb. unfold createCodeChallenge. rewrite fromByteArray_base64, urlEncoded_smap by done.
  destruct (base64_body _ Hb) as (body & -> & Hc & _). rewrite smap_app, replace_char_app.
  assert (forall x, all_chars b64_char x = true ->
    plain_key (replace_char "=" "" (smap urlchar x)) = true) as Hx.
  { unfold plain_key. induction x as [|c x IH]; [done|]. cbn [all_chars smap replace_char].
    rewrite andb_true_iff. intros [Hcc Hcx]. rewrite all_chars_app, IH by done. rewrite andb_true_r.
    revert Hcc. clear. destruct c as [[] [] [] [] [] [] [] []]; vm_compute; intros; done. }
  specialize (Hx body Hc). unfold plain_key in *. rewrite all_chars_app, Hx.
  by destruct (length (sha256 v) mod 3) as [|[|[|]]].
Qed.

Lemma query_reads a h state v :
  Forall is_byte (sha256 v) -> Forall ascii_pair (first_params a h state) -> Forall ascii_pair extra_params ->
  Forall2 reads_as (query_pieces a h state v) (query_params a h state v).
Proof.
  intros Hsha Hfirst Hextra. unfold query_pieces, query_params. repeat apply Forall2_app.
  - unfold grant_params. destruct (grant_of _); repeat constructor; by apply reads_as_plain.
  - assert (Forall (fun p => plain_key p.1 = true) (first_params a h state)) as Hk.
    { unfold first_params, param. repeat case_match; repeat constructor. }
    apply Forall2_fmap_l, Forall_Forall2_diag. rewrite Forall_forall in *. intros p Hp.
    apply reads_as_written; [by apply Hk|by apply Hfirst].
  - destruct (uses_pkce _); [|constructor]. repeat constructor; apply reads_as_plain; try done.
    all: by apply challenge_plain.
  - apply Forall2_fmap_l, Forall_Forall2_diag. apply (Forall_impl _ _ _ Hextra).
    intros p. apply reads_as_written_pair.
Qed.

(** C39: The query of the authorization request, split and decoded, is exactly the list of
    parameters that were meant, in their order: no client id, redirect url, scope, realm or
    extra parameter, whatever ASCII it holds, can add or change another one. *)
Theorem authorize_query p now random h :
  let a := heap p (cur p) in
  let verifier := generateCodeVerifier random in
  grant_of (a_flow a) <> GPassword -> grant_of (a_flow a) <> GApplication ->
  oauth2RedirectUrl config = Some h -> Forall is_byte (sha256 verifier) ->
  Forall ascii_pair (first_params a h (btoa now)) -> Forall ascii_pair extra_params ->
  exists q, (authorize now random p).2 = [Cleared; Open (authorization_base a +:+ separator a +:+ q)] /\
    mapM parse_pair (split_char "&" q) = Some (query_params a h (btoa now) verifier).
Proof.
  intros a verifier Hgp Hga Hh Hsha Hf He. exists (join "&" (query_pieces a h (btoa now) verifier)).
  pose proof (authorize_code now random p h Hgp Hga Hh) as Hauth. rewrite Hauth. split; [done|].
  pose proof (query_reads a h (btoa now) verifier Hsha Hf He) as Hr.
  change "&" with (chr "&"%char) at 1. rewrite split_char_join.
  - apply mapM_Some_2. apply (Forall2_impl _ _ _ _ Hr). by intros ? ? [? _].
  - unfold query_pieces, first_params. intros Hn. apply (f_equal length) in Hn. revert Hn.
    rewrite !length_app, !length_map, !length_app. simpl. lia.
  - apply (Forall2_Forall_l _ _ _ _ Hr). apply Forall_true. by intros ? ? [_ ?].
Qed.

(** ** What the redirect page reads *)
Lemma split_first_app c s t : has_char c s = false -> split_first c (s +:+ String c t) = Some (s, t).
Proof.
  induction s as [|c' s IH]; [rewrite app_nil_s; simpl; by rewrite bool_decide_eq_true_2|].
  rewrite has_char_cons, orb_false_iff, app_cons_s. simpl. intros [-> Hs]. by rewrite IH.
Qed.

(** Characters that need no care in JSON. *)
Definition mild (c : ascii) : bool := negb (control c) && negb (odd_char c).
Lemma encode_mild v : all_chars ascii7 v = true -> all_chars mild (encodeURIComponent v) = true.
Proof.
  induction v as [|c v IH]; [done|]. cbn [all_chars]. rewrite andb_true_iff. intros [Hc Hv].
  cbn [encodeURIComponent]. rewrite all_chars_app, IH by done. rewrite andb_true_r.
  revert Hc. clear. destruct c as [[] [] [] [] [] [] [] []]; vm_compute; intros; done.
Qed.

(** What a server writes into the query with [encodeURIComponent] the redirect page reads
    back; of two parameters with one name the last one counts. *)
Theorem redirect_reads l :
  l <> [] ->
  Forall (fun p => p.1 <> "" /\ plain_key p.1 = true /\ all_chars mild p.1 = true /\
                   all_chars ascii7 p.2 = true) l ->
  parse_qp (join "&" (map written l)) = Some (list_to_map (reverse l)).
Proof.
  intros Hne Hl. unfold parse_qp, qp_entries.
  assert (Forall2 (fun s p => qp_piece s = Some p /\ has_char "&" s = false /\ all_chars mild s = true /\ s <> "")
    (map written l) l) as Hp.
  { apply Forall2_fmap_l, Forall_Forall2_diag. apply (Forall_impl _ _ _ Hl).
    intros [k v] (Hk & (Ha & He & _)%plain_key_spec & Hm & Hv). cbn [fst snd] in *.
    assert (written (k, v) = k +:+ String "=" (encodeURIComponent v)) as Hw by done.
    destruct (encode_spec v Hv) as (Hd & Ha' & _). unfold compose. rewrite Hw. split_and!.
    - unfold qp_piece. rewrite split_first_app by done. cbn [mbind option_bind fst snd].
      by rewrite bool_decide_eq_false_2, Hd.
    - by rewrite has_char_app, has_char_cons, Ha, Ha'.
    - rewrite all_chars_app, Hm. cbn [all_chars]. by rewrite encode_mild.
    - by destruct k. }
  assert (forall l', Forall (fun s => all_chars mild s = true) l' -> all_chars mild (join "&" l') = true) as Hj.
  { induction 1 as [|s l' Hs Hl' IH]; [done|]. destruct l' as [|t l']; [done|].
    change (join "&" (s :: t :: l')) with (s +:+ "&" +:+ join "&" (t :: l')).
    rewrite !all_chars_app, Hs, IH. done. }
  assert (all_chars mild (join "&" (map written l)) = true) as Hm.
  { apply Hj. apply (Forall2_Forall_l _ _ _ _ Hp). apply Forall_true. naive_solver. }
  rewrite bool_decide_eq_false_2.
  - rewrite (all_chars_impl mild), (all_chars_impl mild); try done;
      try (intros c; unfold mild; rewrite andb_true_iff; naive_solver).
    change "&" with (chr "&"%char) at 1. rewrite split_char_join.
    + erewrite mapM_Some_2; [done|]. apply (Forall2_impl _ _ _ _ Hp). naive_solver.
    + by destruct l.
    + apply (Forall2_Forall_l _ _ _ _ Hp). apply Forall_true. naive_solver.
  - destruct l as [|[k v] l]; [done|]. apply Forall_cons in Hl as [(Hk & _) _]. cbn [fst] in Hk.
    destruct k; [done|]. by destruct l.
Qed.
End oauth.
