(* ===== verification/SwaggerParams.v ===== *)
(** * Checking a parameter against its schema (swagger-ui-bundle.js)

    [validateValueBySchema] is the minified function [Me(e,t,n,r,a)] of the bundle:
    the value the user gave, the schema, whether the parameter is required, whether
    that check is to be bypassed, and the media type of the parameter's content.
    It answers the list of errors the page shows.  What it asks of the JavaScript
    engine, conversions, regular expressions, dates and JSON, is the class [JsRuntime], with
    the order in which immutable.js reads a set; its [fromJS] and [is] are modelled.  A TypeError
    or SyntaxError that leaves the function is [None].  Numbers are finite and stand for themselves. *)

From S2P Require Import Prelude SwaggerUi JsStrings.
From stdpp Require Import pretty.
From Stdlib Require Import Ascii QArith.
Local Open Scope nat_scope.

(** ** Values and schemas *)

(** [VList] is a List of immutable.js, [VObj] a plain object with its own properties, their
    keys distinct, [VFile] a File of the browser.  A [ref] is what [===] compares of an
    array, an object or a file. *)
Inductive value :=
| VUndefined
| VNull
| VBool (b : bool)
| VNum (x : Q)
| VStr (s : string)
| VArr (ref : nat) (l : list value)
| VList (l : list value)
| VObj (ref : nat) (l : list (string * value))
| VFile (ref : nat).

(** [required] of a parameter schema is a flag, of an object schema a List. *)
Inductive requirement :=
| RFlag (b : bool)
| RList (keys : list string).

Inductive schema :=
| Schema (nullable : bool) (required : option requirement) (maximum minimum : option Q)
    (type format : option string) (maxLength minLength : option Z) (uniqueItems : bool)
    (maxItems minItems : option Z) (pattern : option string)
    (items : option schema) (properties : option (list (string * schema))).

(** A position of an array, or the key of a property. *)
Inductive index := INum (i : nat) | IKey (k : string).

(** A string, [{propKey, error}], [{index, error}] or [{needRemove: true, error}]. *)
Inductive verror :=
| EText (s : string)
| EProp (propKey : string) (error : verror)
| EIndex (i : index) (error : verror)
| ERemove (error : string).

Class JsRuntime := {
  toNumber : value -> option Q; (* [None] is NaN *)
  toString_ : value -> string;
  numString : Q -> string;
  regexpTest : string -> string -> option bool; (* [new RegExp(p).test(s)] *)
  dateParses : string -> bool; (* [!isNaN(Date.parse(s))] *)
  jsonParse : string -> option value;
  inherited : value -> string -> value; (* properties that are not own ones of an object *)
  setToArray : list index -> list index }. (* the elements of a Set, in its order *)

(** A Set is read back with its elements, in some order. *)
Class JsRuntimeLaws `{!JsRuntime} : Prop :=
  setToArray_perm l : setToArray l ≡ₚ l.

Section validator.
Context `{!JsRuntime}.

(** ** JavaScript on values *)
Definition truthy (v : value) : bool :=
  match v with
  | VUndefined | VNull => false
  | VBool b => b
  | VNum x => negb (Qeq_bool x 0)
  | VStr s => negb (bool_decide (s = ""))
  | VArr _ _ | VList _ | VObj _ _ | VFile _ => true
  end.

(** [null != e] *)
Definition present (v : value) : bool :=
  match v with VUndefined | VNull => false | _ => true end.

Fixpoint assoc (k : string) (l : list (string * value)) : option value :=
  match l with
  | [] => None
  | (k', v) :: l => if bool_decide (k' = k) then Some v else assoc k l
  end.

(** [v[k]]; [None]: a TypeError. *)
Definition get_prop (v : value) (k : string) : option value :=
  match v with
  | VUndefined | VNull => None
  | VObj _ l => Some (default (inherited v k) (assoc k l))
  | _ => Some (inherited v k)
  end.

(** [v.length], as a number; the inner [None] is undefined or no number.  The Lists of the
    immutable.js in the bundle have no [length]. *)
Definition length_of (v : value) : option (option Q) :=
  match v with
  | VUndefined | VNull => None
  | VStr s => Some (Some (inject_Z (Z.of_nat (String.length s))))
  | VArr _ l => Some (Some (inject_Z (Z.of_nat (length l))))
  | VList _ => Some None
  | VObj _ _ | VBool _ | VNum _ | VFile _ => v' ← get_prop v "length"; Some (toNumber v')
  end.

Definition elements (v : value) : list value :=
  match v with VArr _ l | VList l => l | _ => [] end.
Definition is_array (v : value) : bool := match v with VArr _ _ => true | _ => false end.
Definition is_list (v : value) : bool := match v with VList _ => true | _ => false end.
Definition is_string (v : value) : bool := match v with VStr _ => true | _ => false end.
Definition is_file (v : value) : bool := match v with VFile _ => true | _ => false end.
(** [typeof v === "object"], null excluded *)
Definition is_object (v : value) : bool :=
  match v with VArr _ _ | VList _ | VObj _ _ | VFile _ => true | _ => false end.

Definition Qlt_bool (x y : Q) : bool := negb (Qle_bool y x).
(** [x > y] and [x < y], false on NaN. *)
Definition gt (x : option Q) (y : Q) : bool := match x with Some x => Qlt_bool y x | None => false end.
Definition lt_ (x : option Q) (y : Q) : bool := match x with Some x => Qlt_bool x y | None => false end.

(** ** immutable.js *)

(** What [fromJS] makes of a value, the minified [me]: arrays become Lists and plain objects
    Maps, all the way down; a List is left as it is, with the raw arrays and objects in it. *)
Inductive imm :=
| IRaw (v : value)
| IList (l : list imm)
| IMap (l : list (string * imm)).

(** The minified [ve] on an object that inherits from [Object.prototype]. *)
Definition plain (l : list (string * value)) : bool :=
  match assoc "constructor" l with None | Some VUndefined => true | Some _ => false end.

Fixpoint as_imm (v : value) : imm :=
  match v with VList l => IList (map as_imm l) | v => IRaw v end.
Fixpoint fromJS (v : value) : imm :=
  match v with
  | VArr _ l => IList (map fromJS l)
  | VObj ref l => if plain l then IMap (map (fun '(k, x) => (k, fromJS x)) l) else IRaw (VObj ref l)
  | v => as_imm v
  end.

(** [===] on values that are no List. *)
Definition identical (v w : value) : bool :=
  match v, w with
  | VUndefined, VUndefined | VNull, VNull => true
  | VBool b, VBool c => Bool.eqb b c
  | VNum x, VNum y => Qeq_bool x y
  | VStr s, VStr t => bool_decide (s = t)
  | VArr i _, VArr j _ | VObj i _, VObj j _ | VFile i, VFile j => i =? j
  | _, _ => false
  end.

(** [is], the minified [ge] with [ye]: Lists and Maps by their parts, the rest by [===]. *)
Section all2.
Variable eq : imm -> imm -> bool.
Fixpoint all2 (l k : list imm) : bool :=
  match l, k with
  | [], [] => true
  | x :: l, y :: k => eq x y && all2 l k
  | _, _ => false
  end.
End all2.
Fixpoint is_ (v w : imm) : bool :=
  match v, w with
  | IRaw v, IRaw w => identical v w
  | IList l, IList k => all2 is_ l k
  | IMap l, IMap k =>
      (length l =? length k) &&
      forallb (fun '(key, x) => existsb (fun '(key', y) => bool_decide (key = key') && is_ x y) k) l
  | _, _ => false
  end.

(** The entries of [fromJS(e)]; [None] when it has no [toSet]. *)
Definition entries (e : value) : option (list (index * imm)) :=
  match e with
  | VArr _ l => Some (imap (fun i v => (INum i, fromJS v)) l)
  | VList l => Some (imap (fun i v => (INum i, as_imm v)) l)
  | VObj _ l => if plain l then Some (map (fun '(k, v) => (IKey k, fromJS v)) l) else None
  | _ => None
  end.

(** The size of [toSet()]. *)
Fixpoint set_size (l : list imm) : nat :=
  match l with
  | [] => 0
  | x :: l => if existsb (is_ x) l then set_size l else S (set_size l)
  end.

(** ** One check each *)

(** A check answers the message of its error, if any. *)
Definition check (b : bool) (msg : string) : list verror := if b then [EText msg] else [].

Definition plural (n : Z) (s : string) : string := if (n =? 1)%Z then "" else s.

Definition validatePattern (e : value) (p : string) : option (list verror) :=
  ok ← regexpTest p (toString_ e);
  Some (check (negb ok) ("Value must follow pattern " +:+ p)).

Definition validateMinItems (e : value) (min : Z) : option (list verror) :=
  b ← (if truthy e then n ← length_of e; Some (lt_ n (inject_Z min))
       else Some (1 <=? min)%Z);
  Some (check b ("Array must contain at least " +:+ pretty min +:+ " item" +:+ plural min "s")).

Definition validateMaxItems (e : value) (max : Z) : option (list verror) :=
  b ← (if truthy e then n ← length_of e; Some (gt n (inject_Z max)) else Some false);
  Some (if (b : bool) then
          [ERemove ("Array must not contain more then " +:+ pretty max +:+ " item" +:+ plural max "s")]
        else []).

(** The keys of the entries that equal another one. *)
Definition occurrences (l : list imm) (v : imm) : nat :=
  length (List.filter (fun w => is_ w v) l).
Definition duplicated (l : list (index * imm)) : list index :=
  map fst (List.filter (fun kv => 1 <? occurrences (map snd l) kv.2) l).

(** Whether [v.equals] can be read. *)
Definition readable (v : imm) : bool := match v with IRaw v => present v | _ => true end.

(** A TypeError when [fromJS(e)] has no [toSet], and when duplicates are looked for next to a
    null or undefined element.  They are looked for when [e.length] is larger than the set:
    never in a List, and in a plain object only when it has a [length] of its own. *)
Definition validateUniqueItems (e : value) (unique : bool) : option (list verror) :=
  if truthy e && unique then
    es ← entries e;
    n ← length_of e;
    let vs := map snd es in
    if gt n (inject_Z (Z.of_nat (set_size vs))) then
      if forallb readable vs
      then Some (map (fun i => EIndex i (EText "No duplicates allowed.")) (setToArray (duplicated es)))
      else None
    else Some []
  else Some [].

Definition validateMaxLength (e : value) (max : Z) : option (list verror) :=
  n ← length_of e;
  Some (check (gt n (inject_Z max))
    ("Value must be no longer than " +:+ pretty max +:+ " character" +:+ plural max "s")).
Definition validateMinLength (e : value) (min : Z) : option (list verror) :=
  n ← length_of e;
  Some (check (lt_ n (inject_Z min))
    ("Value must be at least " +:+ pretty min +:+ " character" +:+ plural min "s")).

Definition validateMaximum (e : value) (max : Q) : list verror :=
  check (gt (toNumber e) max) ("Value must be less than " +:+ numString max).
Definition validateMinimum (e : value) (min : Q) : list verror :=
  check (lt_ (toNumber e) min) ("Value must be greater than " +:+ numString min).

(** [/^-?\d+(\.?\d+)?$/]: digits, with a point and digits after them if any. *)
Fixpoint number_tail (s : string) : bool :=
  match s with
  | EmptyString => true
  | String c s => if bool_decide (c = "."%char) then digits s else is_digit c && number_tail s
  end.
Definition unsigned_number (s : string) : bool :=
  match s with EmptyString => false | String c s => is_digit c && number_tail s end.
Definition skip_minus (s : string) : string :=
  match s with String "-" s => s | s => s end.
Definition is_number_text (s : string) : bool := unsigned_number (skip_minus s).
Definition is_integer_text (s : string) : bool := digits (skip_minus s).

(** The guid pattern, on a string in lower case. *)
Definition is_hex (c : ascii) : bool := is_digit c || ((97 <=? code c) && (code c <=? 102)).
Fixpoint take_hex (n : nat) (s : string) : option string :=
  match n, s with
  | O, s => Some s
  | S n, String c s => if is_hex c then take_hex n s else None
  | S _, EmptyString => None
  end.
Definition dash_hex (n : nat) (s : string) : option string :=
  match s with String "-" s => take_hex n s | _ => None end.
Definition guid_end (s : string) : bool :=
  bool_decide (s = "") || bool_decide (s = ")") || bool_decide (s = "}").
Definition is_guid (s : string) : bool :=
  let s := match s with
           | String c s' => if bool_decide (c = "{"%char) || bool_decide (c = "("%char) then s' else s
           | EmptyString => s end in
  match (s ← take_hex 8 s; s ← dash_hex 4 s; s ← dash_hex 4 s; s ← dash_hex 4 s; dash_hex 12 s) with
  | Some s => guid_end s
  | None => false
  end.

(** The check of a value against its type, for the types without parts. *)
Definition validateType (type : string) (format : option string) (e : value)
    : option (list verror) :=
  if bool_decide (type = "string") then
    if bool_decide (format = Some "date-time") then
      Some (check (negb (dateParses (toString_ e))) "Value must be a DateTime")
    else if bool_decide (format = Some "uuid") then
      (* [e.toString()] *)
      if present e then Some (check (negb (is_guid (lower (toString_ e)))) "Value must be a Guid")
      else None
    else Some (check (truthy e && negb (is_string e)) "Value must be a string")
  else if bool_decide (type = "boolean") then
    Some (check (match e with
                 | VBool _ => false
                 | VStr s => negb (bool_decide (s = "true") || bool_decide (s = "false"))
                 | _ => true end) "Value must be a boolean")
  else if bool_decide (type = "number") then
    Some (check (negb (is_number_text (toString_ e))) "Value must be a number")
  else if bool_decide (type = "integer") then
    Some (check (negb (is_integer_text (toString_ e))) "Value must be an integer")
  else if bool_decide (type = "file") then
    Some (check (truthy e && negb (is_file e)) "Value must be a file")
  else Some [].

(** The list of tests one of which a provided value passes. *)
Definition provided (type : string) (e : value) : bool :=
  let of_type t := bool_decide (type = t) in
  (of_type "string" && truthy e)
  || (of_type "array" && is_array e && negb (length (elements e) =? 0))
  || (of_type "array" && is_list e && negb (length (elements e) =? 0))
  || (of_type "array" && is_string e && truthy e)
  || (of_type "file" && is_file e)
  || (of_type "boolean" && (truthy e || match e with VBool _ => true | _ => false end))
  || (of_type "number" && (truthy e || match e with VNum _ => true | _ => false end))
  || (of_type "integer" && (truthy e || match e with VNum _ => true | _ => false end))
  || (of_type "object" && is_object e)
  || (of_type "object" && is_string e && truthy e).

(** ** The whole check *)

(** [forEach] with a body that adds errors and may throw. *)
Section each.
Context {A : Type}.
Variable f : A -> option (list verror).
Fixpoint each (l : list A) : option (list verror) :=
  match l with
  | [] => Some []
  | x :: l => s ← f x; s' ← each l; Some (s ++ s')
  end.
Variable g : nat -> A -> option (list verror).
Fixpoint each_index (i : nat) (l : list A) : option (list verror) :=
  match l with
  | [] => Some []
  | x :: l => s ← g i x; s' ← each_index (S i) l; Some (s ++ s')
  end.
End each.

Definition when {A} (b : option A) (f : A -> option (list verror)) : option (list verror) :=
  match b with Some x => f x | None => Some [] end.
(** A limit that is only looked at when it is truthy. *)
Definition nonzero (n : option Z) : option Z :=
  match n with Some 0%Z => None | n => n end.
Definition only (b : bool) {A} (x : option A) : option A := if b then x else None.

(** The keys the object [M] has to have. *)
Definition missing_keys (M : value) (keys : list string) : option (list verror) :=
  each (fun k => v ← get_prop M k;
                 Some (match v with
                       | VUndefined => [EProp k (EText "Required property not found")]
                       | _ => [] end)) keys.

(** [c.forEach] when [required] is a List. *)
Definition required_keys (required : option requirement) : list string :=
  match required with Some (RList keys) => keys | _ => [] end.
Definition is_required (required : option requirement) : bool :=
  match required with Some (RFlag b) => b | Some (RList _) => true | None => false end.

Fixpoint validateValueBySchema (t : schema) (e : value) (requiredByParam bypassRequiredCheck : bool)
    (parameterContentMediaType : option string) {struct t} : option (list verror) :=
  let '(Schema nullable required maximum minimum type format maxLength minLength uniqueItems
          maxItems minItems pattern items properties) := t in
  let C := requiredByParam || is_required required in
  match type with
  | None | Some "" => Some []
  | Some type =>
      let array := bool_decide (type = "array") in
      if (nullable && match e with VNull => true | _ => false end) || negb (C || present e)
      then Some []
      else if C && negb (provided type e) && negb bypassRequiredCheck
      then Some [EText "Required field is not provided"]
      else
        (* the object branch: the object looked at, unless its text is no JSON *)
        let json := bool_decide (parameterContentMediaType = None)
                    || bool_decide (parameterContentMediaType = Some "application/json") in
        let M := match e with VStr s => jsonParse s | e => Some e end in
        match (if bool_decide (type = "object") && json then
                 match M with
                 | None => inr [EText "Parameter string value must be valid JSON"]
                 | Some M => inl (Some M)
                 end
               else inl None) with
        | inr s => Some s
        | inl M =>
            s0 ← when M (fun M =>
              s ← missing_keys M (required_keys required);
              s' ← match properties with
                   | Some ps => each (fun '(k, t') =>
                       v ← get_prop M k;
                       n ← validateValueBySchema t' v false bypassRequiredCheck parameterContentMediaType;
                       Some (map (EProp k) n)) ps
                   | None => Some []
                   end;
              Some (s ++ s'));
            s1 ← when pattern (fun p => if bool_decide (p = "") then Some [] else validatePattern e p);
            s2 ← when (only array (nonzero minItems)) (validateMinItems e);
            s3 ← when (only array (nonzero maxItems)) (validateMaxItems e);
            s4 ← (if array then validateUniqueItems e uniqueItems else Some []);
            s5 ← when maxLength (validateMaxLength e);
            s6 ← when (nonzero minLength) (validateMinLength e);
            let s7 := match maximum with Some m => validateMaximum e m | None => [] end in
            let s8 := match minimum with Some m => validateMinimum e m | None => [] end in
            s9 ← (if array then
                    match items with
                    | Some t' => each_index (fun i v =>
                        n ← validateValueBySchema t' v false bypassRequiredCheck parameterContentMediaType;
                        Some (map (EIndex (INum i)) n)) 0 (elements e)
                    | None => Some []
                    end
                  else validateType type format e);
            Some (s0 ++ s1 ++ s2 ++ s3 ++ s4 ++ s5 ++ s6 ++ s7 ++ s8 ++ s9)
        end
  end.

(** [Re]: the schema and the media type come from the parameter. *)
Definition validateParam (schema : schema) (media : option string) (required : bool) (value : value)
    (bypassRequiredCheck : bool) : option (list verror) :=
  validateValueBySchema schema value required bypassRequiredCheck media.

(** ** What a value without errors satisfies *)

Section conforms_parts.
Context {A : Type}.
Variable P : A -> Prop.
Fixpoint every (l : list A) : Prop := match l with [] => True | x :: l => P x /\ every l end.
End conforms_parts.

(** [size] lies within the limits that are not zero. *)
Definition at_least (size : option Q) (limit : option Z) : Prop :=
  forall n, nonzero limit = Some n -> lt_ size (inject_Z n) = false.
Definition at_most (size : option Q) (limit : option Z) : Prop :=
  forall n, limit = Some n -> gt size (inject_Z n) = false.

(** No two entries are equal: of an array any two of its elements; of a List nothing is
    asked; of a plain object only when the [length] it has exceeds the number of its different
    values, which must not be null then; and of anything else an exception is thrown. *)
Definition no_repeats (l : list imm) : Prop :=
  forall i j v w, i < j -> l !! i = Some v -> l !! j = Some w -> is_ v w = false.
Definition unique_ok (e : value) : Prop :=
  match e with
  | VArr _ l => no_repeats (map fromJS l)
  | VList _ => True
  | VObj _ l =>
      let vs := map (fun kv => fromJS kv.2) l in
      plain l = true /\
      (forall n, length_of e = Some n -> gt n (inject_Z (Z.of_nat (set_size vs))) = true ->
         (forall v, v ∈ vs -> readable v = true) /\ forall v, v ∈ vs -> occurrences vs v <= 1)
  | _ => False
  end.

(** The requirements of a schema on the elements of an array, on a text, and on
    the value read as a number. *)
Definition items_ok (e : value) (unique : bool) (maxItems minItems : option Z) : Prop :=
  (truthy e = true -> exists n, length_of e = Some n /\
     at_least n minItems /\ at_most n (nonzero maxItems)) /\
  (truthy e = false -> forall n, nonzero minItems = Some n -> (n < 1)%Z) /\
  (truthy e = true -> unique = true -> unique_ok e).
Definition text_ok (e : value) (pattern : option string) (maxLength minLength : option Z) : Prop :=
  (forall p, pattern = Some p -> p <> "" -> regexpTest p (toString_ e) = Some true) /\
  (maxLength = None \/ exists n, length_of e = Some n /\ at_most n maxLength) /\
  (nonzero minLength = None \/ exists n, length_of e = Some n /\ at_least n minLength).
Definition range_ok (e : value) (maximum minimum : option Q) : Prop :=
  (forall m, maximum = Some m -> gt (toNumber e) m = false) /\
  (forall m, minimum = Some m -> lt_ (toNumber e) m = false).

(** The object a value stands for: its own, or the one its text is the JSON of. *)
Definition object_of (e : value) : option value :=
  match e with VStr s => jsonParse s | e => Some e end.
Definition is_json (media : option string) : bool :=
  bool_decide (media = None) || bool_decide (media = Some "application/json").

Fixpoint conforms (t : schema) (e : value) (required : bool) (media : option string) {struct t}
    : Prop :=
  let '(Schema nullable req maximum minimum type format maxLength minLength unique
          maxItems minItems pattern items properties) := t in
  let required := required || is_required req in
  match type with
  | None | Some "" => True
  | Some type =>
      (nullable = true /\ e = VNull) \/
      (required = false /\ present e = false) \/
      (required = true -> provided type e = true) /\
      (type = "object" -> is_json media = true -> exists M, object_of e = Some M /\
         (forall k, k ∈ required_keys req -> exists v, get_prop M k = Some v /\ v <> VUndefined) /\
         match properties with
         | Some ps => every (fun '(k, t') => exists v, get_prop M k = Some v /\
                                                       conforms t' v false media) ps
         | None => True
         end) /\
      text_ok e pattern maxLength minLength /\ range_ok e maximum minimum /\
      (if bool_decide (type = "array")
       then items_ok e unique maxItems minItems /\
            match items with
            | Some t' => every (fun v => conforms t' v false media) (elements e)
            | None => True
            end
       else validateType type format e = Some [])
  end.

(** ** Induction on schemas *)
Lemma schema_ind' (P : schema -> Prop) :
  (forall nl rq mx mn ty fm xl nl' u xi ni p items props,
     match items with Some t => P t | None => True end ->
     match props with Some ps => Forall (fun kt => P kt.2) ps | None => True end ->
     P (Schema nl rq mx mn ty fm xl nl' u xi ni p items props)) ->
  forall t, P t.
Proof.
  intros Hs. fix go 1. intros [nl rq mx mn ty fm xl nl' u xi ni p items props].
  apply Hs.
  - destruct items as [t|]; [apply go|exact I].
  - destruct props as [ps|]; [|exact I].
    induction ps as [|[k t] ps IH]; constructor; [apply go|apply IH].
Qed.

Lemma value_ind' (P : value -> Prop) :
  P VUndefined -> P VNull -> (forall b, P (VBool b)) -> (forall x, P (VNum x)) ->
  (forall s, P (VStr s)) -> (forall i l, Forall P l -> P (VArr i l)) ->
  (forall l, Forall P l -> P (VList l)) ->
  (forall i l, Forall (fun kv => P kv.2) l -> P (VObj i l)) -> (forall i, P (VFile i)) ->
  forall v, P v.
Proof.
  intros Hu Hn Hb Hx Hs Ha Hl Ho Hf. fix go 1.
  intros [| |b|x|s|i l|l|i l|i]; [done..|apply Hb|apply Hx|apply Hs| | | |apply Hf].
  - apply Ha. induction l; constructor; [apply go|assumption].
  - apply Hl. induction l; constructor; [apply go|assumption].
  - apply Ho. induction l as [|[k v] l IH]; constructor; [apply go|assumption].
Qed.

(** ** No errors of a part *)
Lemma check_nil b msg : check b msg = [] <-> b = false.
Proof. by destruct b. Qed.

Lemma each_nil {A} (f : A -> option (list verror)) l :
  each f l = Some [] <-> forall x, x ∈ l -> f x = Some [].
Proof.
  induction l as [|x l IH]; simpl.
  { split; [by intros _ x ?%elem_of_nil|done]. }
  split.
  - intros (s & Hs & (s' & Hs' & [= [-> ->]%app_eq_nil])%bind_Some)%bind_Some.
    intros y [->|Hy]%elem_of_cons; [done|]. by apply IH.
  - intros Hf. rewrite (Hf x) by left. simpl. by rewrite (proj2 IH) by (intros; apply Hf; by right).
Qed.
Lemma each_index_nil {A} (g : nat -> A -> option (list verror)) i l :
  each_index g i l = Some [] <-> forall j x, l !! j = Some x -> g (i + j) x = Some [].
Proof.
  revert i. induction l as [|x l IH]; intros i; simpl; [done|]. split.
  - intros (s & Hs & (s' & Hs' & [= [-> ->]%app_eq_nil])%bind_Some)%bind_Some.
    intros [|j] y Hy; simpl in Hy; [rewrite Nat.add_0_r; by simplify_eq|].
    rewrite <- Nat.add_succ_comm. by apply (proj1 (IH (S i)) Hs' j).
  - intros Hg. specialize (Hg 0 x eq_refl) as Hx. rewrite Nat.add_0_r in Hx. rewrite Hx. simpl.
    rewrite (proj2 (IH (S i))); [done|]. intros j y Hy. rewrite Nat.add_succ_comm.
    by apply (Hg (S j)).
Qed.
Lemma when_nil {A} (b : option A) f : when b f = Some [] <-> forall x, b = Some x -> f x = Some [].
Proof. destruct b; simpl; naive_solver. Qed.

Lemma every_forall {A} (P : A -> Prop) l : every P l <-> forall x, x ∈ l -> P x.
Proof.
  induction l as [|x l IH]; simpl; [split; [by intros _ x ?%elem_of_nil|done]|].
  rewrite IH. set_solver.
Qed.

Lemma map_nil_some {A B} (f : A -> B) (m : option (list A)) :
  (s ← m; Some (map f s)) = Some [] <-> m = Some [].
Proof. destruct m as [[|]|]; naive_solver. Qed.

Lemma all_nil m0 m1 m2 m3 m4 m5 m6 (s7 s8 : list verror) m9 :
  (s0 ← m0; s1 ← m1; s2 ← m2; s3 ← m3; s4 ← m4; s5 ← m5; s6 ← m6; s9 ← m9;
   Some (s0 ++ s1 ++ s2 ++ s3 ++ s4 ++ s5 ++ s6 ++ s7 ++ s8 ++ s9)) = Some [] <->
  m0 = Some [] /\ m1 = Some [] /\ m2 = Some [] /\ m3 = Some [] /\ m4 = Some [] /\ m5 = Some [] /\
  m6 = Some [] /\ s7 = [] /\ s8 = [] /\ m9 = Some [].
Proof.
  split.
  - destruct m0, m1, m2, m3, m4, m5, m6, m9; simpl; try done. intros [= Hnil].
    repeat (apply app_eq_nil in Hnil as [-> Hnil]). by subst.
  - intros (-> & -> & -> & -> & -> & -> & -> & -> & -> & ->). done.
Qed.

Lemma length_of_present e : present e = true -> is_Some (length_of e).
Proof. destruct e; simpl; try done; by eexists. Qed.
Lemma truthy_present e : truthy e = true -> present e = true.
Proof. by destruct e. Qed.

Lemma validatePattern_nil e p :
  validatePattern e p = Some [] <-> regexpTest p (toString_ e) = Some true.
Proof. unfold validatePattern. destruct (regexpTest _ _) as [[]|]; simpl; naive_solver. Qed.

Lemma and_iff_compat (P P' Q Q' : Prop) : (P <-> P') -> (Q <-> Q') -> (P /\ Q <-> P' /\ Q').
Proof. tauto. Qed.
Lemma text_nil e pattern maxLength minLength :
  (when pattern (fun p => if bool_decide (p = "") then Some [] else validatePattern e p) = Some [] /\
   when maxLength (validateMaxLength e) = Some [] /\
   when (nonzero minLength) (validateMinLength e) = Some []) <->
  text_ok e pattern maxLength minLength.
Proof.
  unfold text_ok, at_most, at_least, validateMaxLength, validateMinLength.
  rewrite !when_nil. apply and_iff_compat; [|apply and_iff_compat].
  - split; intros Hp p Ep; specialize (Hp p Ep); case_bool_decide; try done.
    + intros _. by apply validatePattern_nil.
    + apply validatePattern_nil. by apply Hp.
  - destruct maxLength as [m|]; [|split; [by left|done]]. split.
    + intros Hm. right. specialize (Hm m eq_refl). destruct (length_of e) as [n|]; [|done].
      exists n. split; [done|]. intros m' [= <-]. simpl in Hm. by injection Hm as Hm%check_nil.
    + intros [?|(n & -> & Hn)] m' [= <-]; [done|]. simpl. f_equal. apply check_nil. by apply Hn.
  - destruct (nonzero minLength) as [m|]; [|split; [by left|done]]. split.
    + intros Hm. right. specialize (Hm m eq_refl). destruct (length_of e) as [n|]; [|done].
      exists n. split; [done|]. intros m' [= <-]. simpl in Hm. by injection Hm as Hm%check_nil.
    + intros [?|(n & -> & Hn)] m' [= <-]; [done|]. simpl. f_equal. apply check_nil. by apply Hn.
Qed.

Lemma range_nil e maximum minimum :
  (match maximum with Some m => validateMaximum e m | None => [] end = [] /\
   match minimum with Some m => validateMinimum e m | None => [] end = []) <->
  range_ok e maximum minimum.
Proof.
  unfold range_ok, validateMaximum, validateMinimum.
  destruct maximum, minimum; rewrite ?check_nil; naive_solver.
Qed.

(** *** Equal elements *)
Lemma all2_refl {A} (f : A -> imm) l :
  Forall (fun x => is_ (f x) (f x) = true) l -> all2 is_ (map f l) (map f l) = true.
Proof. induction 1 as [|x l Hx _ IH]; simpl; [done|]. by rewrite Hx, IH. Qed.

Lemma identical_refl v : is_list v = false -> identical v v = true.
Proof.
  destruct v; simpl; try done; intros _; rewrite ?Nat.eqb_refl, ?bool_decide_eq_true_2 by done; try done.
  - by destruct b.
  - apply Qeq_bool_refl.
Qed.

Lemma is_as_imm_refl v : is_ (as_imm v) (as_imm v) = true.
Proof.
  induction v as [| | | | | |l IH| |] using value_ind'; try by apply identical_refl.
  simpl. by apply all2_refl.
Qed.
Lemma is_fromJS_refl v : is_ (fromJS v) (fromJS v) = true.
Proof.
  induction v as [| | | | |i l IH|l IH|i l IH|] using value_ind'; try by apply identical_refl.
  - simpl. by apply all2_refl.
  - apply (is_as_imm_refl (VList l)).
  - simpl. destruct (plain l); [|by apply identical_refl]. simpl. rewrite Nat.eqb_refl. simpl.
    apply forallb_forall. intros [k x] Hkx. apply existsb_exists. exists (k, x). split; [done|].
    rewrite bool_decide_eq_true_2 by done. simpl.
    apply in_map_iff in Hkx as ([k' v] & [= <- <-] & Hv). apply list_elem_of_In in Hv.
    rewrite Forall_forall in IH. by apply (IH _ Hv).
Qed.

Lemma set_size_le l : set_size l <= length l.
Proof. induction l as [|x l IH]; simpl; [done|]. destruct (existsb _ _); lia. Qed.
Lemma set_size_full l : set_size l = length l <-> no_repeats l.
Proof.
  induction l as [|x l IH]; simpl; [by split|]. destruct (existsb (is_ x) l) eqn:Ex.
  - pose proof (set_size_le l). split; [lia|]. intros Hno. exfalso.
    apply existsb_exists in Ex as (y & Hy%list_elem_of_In & He).
    apply list_elem_of_lookup in Hy as [j Hj].
    rewrite (Hno 0 (S j) x y) in He by (done || lia). done.
  - split.
    + intros [= Hl] [|i] [|j] v w Hij Hi Hj; simpl in *; try lia.
      * injection Hi as <-. apply not_true_iff_false. intros He. apply not_true_iff_false in Ex.
        destruct Ex. apply existsb_exists. exists w. split; [|done].
        by eapply list_elem_of_In, list_elem_of_lookup_2.
      * apply (proj1 IH Hl i j); [lia|done|done].
    + intros Hno. f_equal. apply IH. intros i j v w Hij Hi Hj. apply (Hno (S i) (S j)); [lia|done|done].
Qed.

Lemma occurrences_repeat l i j v w :
  i < j -> l !! i = Some v -> l !! j = Some w -> is_ v w = true -> is_ w w = true ->
  1 < occurrences l w.
Proof.
  intros Hij Hi Hj Hvw Hww. unfold occurrences.
  assert (forall l i v, l !! i = Some v -> is_ v w = true ->
    1 <= length (List.filter (fun u => is_ u w) l)) as Hone.
  { clear. induction l as [|x l IH]; intros i v Hi Hv; [done|]. simpl. destruct i as [|i]; simpl in Hi.
    - injection Hi as ->. rewrite Hv. simpl. lia.
    - specialize (IH i v Hi Hv). destruct (is_ x w); simpl; lia. }
  revert i j Hij Hi Hj. induction l as [|x l IH]; intros i j Hij Hi Hj; [done|].
  destruct j as [|j]; [lia|]. simpl in Hj. destruct i as [|i]; simpl in Hi.
  - injection Hi as ->. simpl. rewrite Hvw. simpl. specialize (Hone l j w Hj Hww). lia.
  - simpl. specialize (IH i j ltac:(lia) Hi Hj). destruct (is_ x w); simpl; lia.
Qed.

Lemma duplicated_nil es :
  duplicated es = [] <-> forall v, v ∈ map snd es -> occurrences (map snd es) v <= 1.
Proof.
  unfold duplicated. generalize (map snd es) at 1 3 as vs. intros vs. split.
  - intros Hd%map_eq_nil v Hv. apply list_elem_of_fmap in Hv as ([k v'] & -> & Hkv). simpl.
    destruct (decide (occurrences vs v' <= 1)) as [?|Hn]; [done|exfalso].
    assert (In (k, v') (List.filter (fun kv => 1 <? occurrences vs kv.2) es)) as Hin.
    { apply filter_In. split; [by apply list_elem_of_In|]. apply Nat.ltb_lt. simpl. lia. }
    by rewrite Hd in Hin.
  - intros Hv. assert (List.filter (fun kv => 1 <? occurrences vs kv.2) es = []) as ->; [|done].
    destruct (List.filter _ _) as [|kv d] eqn:E; [done|exfalso].
    assert (In kv (List.filter (fun kv => 1 <? occurrences vs kv.2) es)) as Hin by (rewrite E; by left).
    apply filter_In in Hin as [Hin Hlt%Nat.ltb_lt]. apply list_elem_of_In in Hin.
    assert (kv.2 ∈ map snd es) as Hs by (apply list_elem_of_fmap; by exists kv).
    specialize (Hv _ Hs). lia.
Qed.

(** A comparison of two natural numbers. *)
Lemma gt_nat n m : gt (Some (inject_Z (Z.of_nat n))) (inject_Z (Z.of_nat m)) = (m <? n).
Proof.
  unfold gt, Qlt_bool, Qle_bool. simpl. rewrite !Z.mul_1_r.
  destruct (Nat.ltb_spec m n); [apply negb_true_iff, Z.leb_gt|apply negb_false_iff, Z.leb_le]; lia.
Qed.

Context `{!JsRuntimeLaws}.

Lemma setToArray_nil l : setToArray l = [] <-> l = [].
Proof.
  split; intros Hl.
  - pose proof (setToArray_perm l) as Hp. rewrite Hl in Hp. by apply Permutation_nil in Hp.
  - apply Permutation_nil. rewrite setToArray_perm. by rewrite Hl.
Qed.

Lemma entries_values e es : entries e = Some es ->
  map snd es = match e with
               | VArr _ l => map fromJS l
               | VList l => map as_imm l
               | VObj _ l => map (fun kv => fromJS kv.2) l
               | _ => [] end.
Proof.
  assert (forall (f : value -> imm) l, map snd (imap (fun i v => (INum i, f v)) l) = map f l) as Himap.
  { intros f l. change (snd <$> imap (fun i v => (INum i, f v)) l = f <$> l).
    rewrite fmap_imap. apply imap_const. }
  destruct e; simpl; try done; [intros [= <-]; apply Himap..|].
  destruct (plain l); [|done]. intros [= <-]. rewrite map_map. apply map_ext. by intros [].
Qed.

(** Duplicates are reported of the entries that repeat, when they are looked for. *)
Lemma unique_nil e unique :
  validateUniqueItems e unique = Some [] <->
  (truthy e = true -> unique = true -> unique_ok e).
Proof.
  unfold validateUniqueItems. destruct (truthy e) eqn:Et, unique; simpl; [|naive_solver..].
  destruct (entries e) as [es|] eqn:Ee; simpl.
  2:{ split; [done|]. intros Hu. specialize (Hu eq_refl eq_refl). destruct e; simpl in *; try done.
      by destruct (plain l), Hu. }
  pose proof (entries_values e es Ee) as Hvs.
  destruct (length_of_present e (truthy_present e Et)) as [n Hn]. rewrite Hn. simpl.
  assert ((if gt n (inject_Z (Z.of_nat (set_size (map snd es)))) then
      if forallb readable (map snd es) then Some (map (fun i => EIndex i (EText "No duplicates allowed."))
        (setToArray (duplicated es))) else None else Some []) = Some [] <->
    (gt n (inject_Z (Z.of_nat (set_size (map snd es)))) = true ->
     (forall v, v ∈ map snd es -> readable v = true) /\
     forall v, v ∈ map snd es -> occurrences (map snd es) v <= 1)) as ->.
  { destruct (gt _ _); [|naive_solver]. rewrite <- duplicated_nil.
    assert ((forall v, v ∈ map snd es -> readable v = true) <-> forallb readable (map snd es) = true) as ->.
    { rewrite forallb_forall. by setoid_rewrite list_elem_of_In. }
    destruct (forallb _ _); [|naive_solver]. split.
    - intros [= Hm%map_eq_nil]. apply (proj1 (setToArray_nil _)) in Hm. intros _. by split.
    - intros Hd. destruct (Hd eq_refl) as [_ ->]. by rewrite (proj2 (setToArray_nil [])). }
  rewrite Hvs. destruct e as [| | | | |i l|l|i l|]; simpl in *; try done.
  - injection Hn as <-. rewrite gt_nat. pose proof (set_size_le (map fromJS l)) as Hle.
    rewrite length_map in Hle. rewrite <- set_size_full, length_map.
    split; [|intros Hs Hlt%Nat.ltb_lt; specialize (Hs eq_refl eq_refl); lia].
    intros Hd _ _. destruct (decide (set_size (map fromJS l) = length l)) as [?|Hne]; [done|exfalso].
    destruct Hd as [_ Hocc]; [apply Nat.ltb_lt; lia|].
    assert (~ no_repeats (map fromJS l)) as Hr by (rewrite <- set_size_full, length_map; done).
    apply Hr. intros i' j v w Hij Hi Hj. destruct (is_ v w) eqn:Hvw; [exfalso|done].
    assert (is_ w w = true) as Hw.
    { apply list_elem_of_lookup_2, list_elem_of_fmap in Hj as (x & -> & _). apply is_fromJS_refl. }
    pose proof (occurrences_repeat _ _ _ _ _ Hij Hi Hj Hvw Hw).
    apply list_elem_of_lookup_2, Hocc in Hj. lia.
  - injection Hn as <-. by split.
  - destruct (plain l); [|done]. split.
    + intros Hd _ _. split; [done|]. intros n' Hn'. assert (n' = n) as -> by congruence. exact Hd.
    + intros Hu. destruct (Hu eq_refl eq_refl) as [_ Hd]. by apply Hd.
Qed.

Lemma items_nil e unique maxItems minItems :
  (when (nonzero minItems) (validateMinItems e) = Some [] /\
   when (nonzero maxItems) (validateMaxItems e) = Some [] /\
   validateUniqueItems e unique = Some []) <->
  items_ok e unique maxItems minItems.
Proof.
  unfold items_ok, at_least, at_most. rewrite !when_nil, unique_nil.
  unfold validateMinItems, validateMaxItems. destruct (truthy e) eqn:Et.
  - destruct (length_of_present e (truthy_present e Et)) as [n ->]. split.
    + intros (Hmin & Hmax & Hu). split_and!; [intros _; exists n|done|done].
      split_and!; [done|intros m Hm; specialize (Hmin m Hm)|intros m Hm; specialize (Hmax m Hm)].
      * simpl in Hmin. by injection Hmin as Hmin%check_nil.
      * simpl in Hmax. by destruct (gt n (inject_Z m)).
    + intros (Hn & _ & Hu). destruct (Hn eq_refl) as (n' & [= <-] & Hmin & Hmax).
      split_and!; [|intros m Hm; simpl; by rewrite (Hmax m Hm)|done].
      intros m Hm. simpl. by rewrite (proj2 (check_nil _ _) (Hmin m Hm)).
  - split.
    + intros (Hmin & _ & Hu). split_and!; [done| |done]. intros _ m Hm. specialize (Hmin m Hm).
      simpl in Hmin. injection Hmin as Hmin%check_nil. by apply Z.leb_gt in Hmin.
    + intros (_ & Hmin & Hu). split_and!; [|done|done]. intros m Hm. specialize (Hmin eq_refl m Hm).
      simpl. by rewrite (proj2 (check_nil _ _) (proj2 (Z.leb_gt _ _) Hmin)).
Qed.

(** The parts of a schema in the shape the check has them. *)
Definition valid_part (media : option string) (t : schema) : Prop := forall e n,
  validateValueBySchema t e n false media = Some [] <-> conforms t e n media.

Lemma properties_nil media (M : value) keys props :
  match props with Some ps => Forall (fun kt => valid_part media kt.2) ps | None => True end ->
  (s ← missing_keys M keys;
   s' ← match props with
        | Some ps => each (fun '(k, t') =>
            v ← get_prop M k;
            n ← validateValueBySchema t' v false false media; Some (map (EProp k) n)) ps
        | None => Some []
        end;
   Some (s ++ s')) = Some [] <->
  (forall k, k ∈ keys -> exists v, get_prop M k = Some v /\ v <> VUndefined) /\
  match props with
  | Some ps => every (fun '(k, t') => exists v, get_prop M k = Some v /\
                                                conforms t' v false media) ps
  | None => True
  end.
Proof.
  intros Hps. set (m := match props with Some ps => each _ ps | None => _ end).
  assert (Hseq : (s ← missing_keys M keys; s' ← m; Some (s ++ s')) = Some [] <->
                 missing_keys M keys = Some [] /\ m = Some []).
  { destruct (missing_keys M keys) as [[|]|], m as [[|]|]; simpl; naive_solver. }
  rewrite Hseq. apply and_iff_compat.
  - unfold missing_keys. rewrite each_nil. apply forall_proper. intros k.
    split; intros Hk Hin; specialize (Hk Hin).
    + destruct (get_prop M k) as [v|]; [|done]. exists v. split; [done|]. by intros ->.
    + destruct Hk as (v & -> & Hv). by destruct v.
  - unfold m. destruct props as [ps|]; [|done]. rewrite each_nil, every_forall.
    apply forall_proper. intros [k t']. split; intros Hk Hin; specialize (Hk Hin);
      rewrite Forall_forall in Hps; specialize (Hps _ Hin); simpl in Hps.
    + destruct (get_prop M k) as [v|]; [|done]. exists v. split; [done|]. apply Hps.
      by apply (map_nil_some (EProp k)).
    + destruct Hk as (v & -> & Hv). simpl. apply map_nil_some. by apply Hps.
Qed.

Lemma elements_nil media e items :
  match items with Some t => valid_part media t | None => True end ->
  match items with
  | Some t' => each_index (fun i v =>
      n ← validateValueBySchema t' v false false media; Some (map (EIndex (INum i)) n)) 0 (elements e)
  | None => Some []
  end = Some [] <->
  match items with
  | Some t' => every (fun v => conforms t' v false media) (elements e)
  | None => True
  end.
Proof.
  destruct items as [t'|]; [|done]. intros Ht. rewrite each_index_nil, every_forall. split.
  - intros Hj v [j Hv]%list_elem_of_lookup. apply Ht. by apply (map_nil_some (EIndex (INum (0 + j)))), Hj.
  - intros Hv j v Hj. apply map_nil_some, Ht. apply Hv. by eapply list_elem_of_lookup_2.
Qed.

Lemma when_inl {A} (b : bool) (o : option A) (s : list verror) (k : option A -> option (list verror)) :
  s <> [] ->
  match (if b then match o with None => inr s | Some x => inl (Some x) end else inl None) with
  | inr s => Some s
  | inl M => k M
  end = Some [] <->
  (b = true -> exists x, o = Some x /\ k (Some x) = Some []) /\ (b = false -> k None = Some []).
Proof.
  intros Hs. destruct b; [destruct o|]; split; try naive_solver.
Qed.

(** The checks after the object branch. *)
Lemma rest_nil e p xl nl mx mn (array : bool) xi ni u (ms : option (list verror)) (R : Prop)
    (type : string) format :
  (ms = Some [] <-> R) ->
  (when p (fun p => if bool_decide (p = "") then Some [] else validatePattern e p) = Some [] /\
   when (only array (nonzero ni)) (validateMinItems e) = Some [] /\
   when (only array (nonzero xi)) (validateMaxItems e) = Some [] /\
   (if array then validateUniqueItems e u else Some []) = Some [] /\
   when xl (validateMaxLength e) = Some [] /\
   when (nonzero nl) (validateMinLength e) = Some [] /\
   match mx with Some m => validateMaximum e m | None => [] end = [] /\
   match mn with Some m => validateMinimum e m | None => [] end = [] /\
   (if array then ms else validateType type format e) = Some []) <->
  text_ok e p xl nl /\ range_ok e mx mn /\
  (if array then items_ok e u xi ni /\ R else validateType type format e = Some []).
Proof.
  intros Hms. rewrite <- text_nil, <- range_nil.
  destruct array; cbn [only]; [rewrite <- items_nil, <- Hms; tauto|].
  split; [tauto|]. intros. split_and!; tauto.
Qed.


(** ** Where an error points *)
Definition s_type (t : schema) : option string :=
  let '(Schema _ _ _ _ type _ _ _ _ _ _ _ _ _) := t in type.
Definition s_required (t : schema) : option requirement :=
  let '(Schema _ rq _ _ _ _ _ _ _ _ _ _ _ _) := t in rq.
Definition s_items (t : schema) : option schema :=
  let '(Schema _ _ _ _ _ _ _ _ _ _ _ _ items _) := t in items.
Definition s_properties (t : schema) : option (list (string * schema)) :=
  let '(Schema _ _ _ _ _ _ _ _ _ _ _ _ _ props) := t in props.

(** An array has its positions, and an object its keys. *)
Definition has_entry (e : value) (i : index) : Prop :=
  match e, i with
  | VArr _ l, INum i => i < length l
  | VObj _ l, IKey k => k ∈ map fst l
  | _, _ => False
  end.

(** An error belongs to a schema and a value: a path of indices and keys in it
    leads through the elements and the properties of the value, each with its own
    schema, to a message about that part. *)
Inductive placed : schema -> value -> verror -> Prop :=
| placed_text t e msg : placed t e (EText msg)
| placed_remove t e msg : s_type t = Some "array" -> placed t e (ERemove msg)
| placed_duplicate t e i msg : s_type t = Some "array" -> has_entry e i ->
    placed t e (EIndex i (EText msg))
| placed_item t e i t' v err : s_type t = Some "array" -> s_items t = Some t' ->
    elements e !! i = Some v -> placed t' v err -> placed t e (EIndex (INum i) err)
| placed_missing t e k msg : s_type t = Some "object" -> k ∈ required_keys (s_required t) ->
    placed t e (EProp k (EText msg))
| placed_property t e k M ps t' v err : s_type t = Some "object" -> s_properties t = Some ps ->
    (k, t') ∈ ps -> object_of e = Some M -> get_prop M k = Some v -> placed t' v err ->
    placed t e (EProp k err).

Lemma each_forall {A} (f : A -> option (list verror)) (P : verror -> Prop) l s :
  each f l = Some s -> (forall x s, x ∈ l -> f x = Some s -> Forall P s) -> Forall P s.
Proof.
  revert s. induction l as [|x l IH]; simpl; intros s.
  { intros [= <-] _. constructor. }
  intros (a & Ha & (b & Hb & [= <-])%bind_Some)%bind_Some Hf.
  apply Forall_app. split; [by apply (Hf x); [left|]|]. apply IH; [done|].
  intros y s' Hy. apply Hf. by right.
Qed.
Lemma each_index_forall {A} (g : nat -> A -> option (list verror)) (P : verror -> Prop) i l s :
  each_index g i l = Some s ->
  (forall j x s, l !! j = Some x -> g (i + j) x = Some s -> Forall P s) -> Forall P s.
Proof.
  revert i s. induction l as [|x l IH]; simpl; intros i s.
  { intros [= <-] _. constructor. }
  intros (a & Ha & (b & Hb & [= <-])%bind_Some)%bind_Some Hg.
  apply Forall_app. split; [apply (Hg 0 x); [done|by rewrite Nat.add_0_r]|].
  apply (IH (S i)); [done|]. intros j y s' Hj. rewrite Nat.add_succ_comm. by apply (Hg (S j)).
Qed.
Lemma check_forall (P : verror -> Prop) b msg : P (EText msg) -> Forall P (check b msg).
Proof. intros. by destruct b; repeat constructor. Qed.

Section texts.
Context (P : verror -> Prop) (Htext : forall msg, P (EText msg)).
Lemma when_text {A} (x : option A) f s :
  when x f = Some s -> (forall a s, x = Some a -> f a = Some s -> Forall P s) -> Forall P s.
Proof. destruct x as [a|]; simpl; [intros Hf Ha; by eapply Ha|intros [= <-] _; constructor]. Qed.

Lemma validateType_text type format e s : validateType type format e = Some s -> Forall P s.
Proof.
  unfold validateType. repeat (case_bool_decide; [|]); try (intros [= <-]); try apply check_forall; auto.
  destruct (present e); [|done]. intros [= <-]. by apply check_forall.
Qed.
Lemma limits_text e s : (exists n, validateMaxLength e n = Some s) \/
  (exists n, validateMinLength e n = Some s) \/ (exists n, validateMinItems e n = Some s) \/
  (exists p, validatePattern e p = Some s) -> Forall P s.
Proof.
  unfold validateMaxLength, validateMinLength, validateMinItems, validatePattern.
  intros [[n Hs]|[[n Hs]|[[n Hs]|[p Hs]]]]; apply bind_Some in Hs as (x & _ & [= <-]);
    by apply check_forall.
Qed.
End texts.

Lemma duplicated_entry e es i :
  entries e = Some es -> is_list e = false -> i ∈ duplicated es -> has_entry e i.
Proof.
  intros Ee He Hi. apply list_elem_of_In, in_map_iff in Hi as ([k v] & <- & [Hin _]%filter_In).
  apply list_elem_of_In in Hin. destruct e as [| | | | |i l|l|i l|]; simpl in *; try done.
  - injection Ee as <-. apply elem_of_lookup_imap in Hin as (j & x & [= -> ->] & Hj).
    by apply lookup_lt_Some in Hj.
  - destruct (plain l); [|done]. injection Ee as <-.
    apply list_elem_of_fmap in Hin as ([k' x] & [= -> ->] & Hx).
    apply list_elem_of_fmap. by exists (k', x).
Qed.

Lemma unique_placed t e unique s : s_type t = Some "array" ->
  validateUniqueItems e unique = Some s -> Forall (placed t e) s.
Proof.
  intros Ht. unfold validateUniqueItems.
  destruct (truthy e && unique); [|intros [= <-]; constructor].
  destruct (entries e) as [es|] eqn:Ee; simpl; [|done].
  destruct (length_of e) as [n|] eqn:Hn; simpl; [|done].
  destruct (gt n _) eqn:Hg; [|intros [= <-]; constructor].
  destruct (forallb _ _); [|done]. intros [= <-]. apply Forall_map, Forall_forall. intros j Hj.
  rewrite setToArray_perm in Hj. apply placed_duplicate; [done|].
  eapply duplicated_entry; [exact Ee| |exact Hj]. destruct e; try done. simpl in Hn. by injection Hn as <-.
Qed.

(** The errors of a schema, whatever the value. *)
Definition errors_placed (bypass : bool) (media : option string) (t : schema) : Prop :=
  forall e n s, validateValueBySchema t e n bypass media = Some s -> Forall (placed t e) s.

Lemma properties_placed bypass media t e M ps s :
  s_type t = Some "object" -> object_of e = Some M -> s_properties t = Some ps ->
  Forall (fun kt => errors_placed bypass media kt.2) ps ->
  each (fun '(k, t') =>
    v ← get_prop M k;
    n ← validateValueBySchema t' v false bypass media; Some (map (EProp k) n)) ps = Some s ->
  Forall (placed t e) s.
Proof.
  intros Ht HM Hps IH Hs. eapply each_forall; [exact Hs|]. intros [k t'] s' Hin.
  intros (v & Hv & (l & Hl & [= <-])%bind_Some)%bind_Some.
  rewrite Forall_forall in IH. specialize (IH _ Hin _ _ _ Hl). apply Forall_map.
  eapply Forall_impl; [exact IH|]. intros err Herr. by eapply placed_property.
Qed.
Lemma missing_placed t e M s :
  s_type t = Some "object" -> missing_keys M (required_keys (s_required t)) = Some s ->
  Forall (placed t e) s.
Proof.
  intros Ht Hs. eapply each_forall; [exact Hs|]. intros k s' Hk (v & _ & [= <-])%bind_Some.
  destruct v; repeat constructor; done.
Qed.
Lemma elements_placed bypass media t t' e s :
  s_type t = Some "array" -> s_items t = Some t' -> errors_placed bypass media t' ->
  each_index (fun i v =>
    n ← validateValueBySchema t' v false bypass media; Some (map (EIndex (INum i)) n)) 0 (elements e) = Some s ->
  Forall (placed t e) s.
Proof.
  intros Ht Hi IH Hs. eapply each_index_forall; [exact Hs|]. intros j v s' Hj.
  intros (l & Hl & [= <-])%bind_Some. specialize (IH _ _ _ Hl). apply Forall_map.
  eapply Forall_impl; [exact IH|]. intros err Herr. by eapply placed_item.
Qed.

(** The object branch goes on with an object only for the type object. *)
Lemma branch_cases {B} (type : string) (b : bool) (e : value) (err : B) x :
  (if bool_decide (type = "object") && b then
     match object_of e with None => inr err | Some M => inl (Some M) end
   else inl None) = x ->
  x = inr err \/ x = inl None \/
  exists M, x = inl (Some M) /\ type = "object" /\ b = true /\ object_of e = Some M.
Proof.
  intros <-. destruct (bool_decide_reflect (type = "object")) as [Ht|]; simpl; [|by right; left].
  destruct b; [|by right; left]. destruct (object_of e) as [M|]; [|by left].
  right. right. by exists M.
Qed.

(** The checks of the value itself. *)
Lemma rest_placed t e (array : bool) type format p ni xi u xl nl mx mn ms s0 s :
  Forall (placed t e) s0 ->
  (array = true -> s_type t = Some "array") ->
  (array = true -> forall s, ms = Some s -> Forall (placed t e) s) ->
  (s1 ← when p (fun p => if bool_decide (p = "") then Some [] else validatePattern e p);
   s2 ← when (only array (nonzero ni)) (validateMinItems e);
   s3 ← when (only array (nonzero xi)) (validateMaxItems e);
   s4 ← (if array then validateUniqueItems e u else Some []);
   s5 ← when xl (validateMaxLength e);
   s6 ← when (nonzero nl) (validateMinLength e);
   let s7 := match mx with Some m => validateMaximum e m | None => [] end in
   let s8 := match mn with Some m => validateMinimum e m | None => [] end in
   s9 ← (if array then ms else validateType type format e);
   Some (s0 ++ s1 ++ s2 ++ s3 ++ s4 ++ s5 ++ s6 ++ s7 ++ s8 ++ s9)) = Some s ->
  Forall (placed t e) s.
Proof.
  intros H0' Ha Hms. assert (Htext : forall msg, placed t e (EText msg)) by constructor.
  intros (s1 & E1 & (s2 & E2 & (s3 & E3 & (s4 & E4 & (s5 & E5 & (s6 & E6 &
    (s9 & E9 & [= <-])%bind_Some)%bind_Some)%bind_Some)%bind_Some)%bind_Some)%bind_Some)%bind_Some.
  rewrite !Forall_app. split_and!; [done|..].
  - eapply when_text; [exact E1|]. intros p' s' _. cbv beta. case_bool_decide; [intros [= <-]; constructor|].
    intros Hs. eapply (limits_text _ Htext e). eauto.
  - eapply when_text; [exact E2|]. intros n s' _ Hs. eapply (limits_text _ Htext e). eauto.
  - eapply when_text; [exact E3|]. intros n s' Hn. destruct array; [|done].
    unfold validateMaxItems. intros ([] & _ & [= <-])%bind_Some; [|constructor].
    repeat constructor. auto.
  - destruct array; [|injection E4 as <-; constructor]. eapply unique_placed; eauto.
  - eapply when_text; [exact E5|]. intros n s' _ Hs. eapply (limits_text _ Htext e). eauto.
  - eapply when_text; [exact E6|]. intros n s' _ Hs. eapply (limits_text _ Htext e). eauto.
  - destruct mx; [by apply check_forall|constructor].
  - destruct mn; [by apply check_forall|constructor].
  - destruct array; [by apply (Hms eq_refl)|]. by eapply validateType_text.
Qed.


(** ** When an exception leaves the check *)

(** A schema whose patterns compile. *)
Fixpoint quiet (t : schema) : Prop :=
  let '(Schema _ _ _ _ _ _ _ _ _ _ _ pattern items properties) := t in
  (forall p, pattern = Some p -> forall s, is_Some (regexpTest p s)) /\
  match items with Some t' => quiet t' | None => True end /\
  match properties with Some ps => every (fun '(k, t') => quiet t') ps | None => True end.

Lemma each_total {A} (f : A -> option (list verror)) l :
  (forall x, x ∈ l -> is_Some (f x)) -> is_Some (each f l).
Proof.
  induction l as [|x l IH]; intros Hf; simpl; [by eexists|].
  destruct (Hf x) as [a ->]; [left|]. destruct IH as [b ->]; [intros; apply Hf; by right|].
  by eexists.
Qed.
Lemma each_index_total {A} (g : nat -> A -> option (list verror)) i l :
  (forall j x, x ∈ l -> is_Some (g j x)) -> is_Some (each_index g i l).
Proof.
  revert i. induction l as [|x l IH]; intros i Hg; simpl; [by eexists|].
  destruct (Hg i x) as [a ->]; [left|]. destruct (IH (S i)) as [b ->]; [|by eexists].
  intros j y Hy. apply Hg. by right.
Qed.
Lemma when_total {A} (b : option A) f :
  (forall a, b = Some a -> is_Some (f a)) -> is_Some (when b f).
Proof. destruct b; simpl; eauto. Qed.

Lemma provided_present type e : provided type e = true -> present e = true.
Proof. destruct e; try done; unfold provided; simpl; by rewrite ?andb_false_r. Qed.

Lemma get_prop_present M k : present M = true -> is_Some (get_prop M k).
Proof. destruct M; simpl; try done; by eexists. Qed.

(** Where the schema has a text of the value read as an object, it is not the JSON null; and
    where it asks for unique items, they are those of a List or of an array without null. *)
Definition all_readable (e : value) : Prop :=
  is_list e = true \/ is_array e = true /\ forall v, v ∈ elements e -> present v = true.
Fixpoint calm (media : option string) (t : schema) (e : value) {struct t} : Prop :=
  let '(Schema _ _ _ _ type _ _ _ unique _ _ _ items properties) := t in
  (type = Some "object" -> is_json media = true -> forall M, object_of e = Some M ->
     (is_string e = true -> present M = true) /\
     match properties with
     | Some ps => every (fun '(k, t') => forall v, get_prop M k = Some v -> calm media t' v) ps
     | None => True
     end) /\
  (type = Some "array" ->
     (truthy e = true -> unique = true -> all_readable e) /\
     match items with Some t' => every (calm media t') (elements e) | None => True end).

Definition total (media : option string) (t : schema) : Prop :=
  forall e n, calm media t e -> is_Some (validateValueBySchema t e n false media).

Lemma checks_total e p xi ni xl nl (array : bool) type format ms :
  present e = true -> (forall p', p = Some p' -> forall s, is_Some (regexpTest p' s)) ->
  (array = true -> is_Some ms) ->
  is_Some (when p (fun p => if bool_decide (p = "") then Some [] else validatePattern e p)) /\
  is_Some (when (only array (nonzero ni)) (validateMinItems e)) /\
  is_Some (when (only array (nonzero xi)) (validateMaxItems e)) /\
  is_Some (when xl (validateMaxLength e)) /\
  is_Some (when (nonzero nl) (validateMinLength e)) /\
  is_Some (if array then ms else validateType type format e).
Proof.
  intros He Hp Hms. destruct (length_of_present e He) as [n Hn].
  assert (Hlen : forall f : option Q -> option (list verror), (forall x, is_Some (f x)) ->
    is_Some (n ← length_of e; f n)) by (intros f Hf; rewrite Hn; apply Hf).
  split_and!; [apply when_total; intros a Ha; cbv beta..|].
  - case_bool_decide; [by eexists|]. unfold validatePattern.
    destruct (Hp a Ha (toString_ e)) as [b ->]. by eexists.
  - unfold validateMinItems. destruct (truthy e); [rewrite Hn|]; by eexists.
  - unfold validateMaxItems. destruct (truthy e); [rewrite Hn|]; by eexists.
  - apply Hlen. by eexists.
  - apply Hlen. by eexists.
  - destruct array; [by apply Hms|]. unfold validateType. rewrite He.
    repeat case_bool_decide; by eexists.
Qed.

Lemma properties_total media M keys props :
  present M = true ->
  match props with
  | Some ps => Forall (fun kt => total media kt.2) ps /\
               every (fun '(k, t') => forall v, get_prop M k = Some v -> calm media t' v) ps
  | None => True end ->
  is_Some (s ← missing_keys M keys;
    s' ← match props with
         | Some ps => each (fun '(k, t') => v ← get_prop M k;
             n ← validateValueBySchema t' v false false media; Some (map (EProp k) n)) ps
         | None => Some [] end;
    Some (s ++ s')).
Proof.
  intros HM Hps. assert (Hm : is_Some (missing_keys M keys)).
  { apply each_total. intros k _. destruct (get_prop_present M k HM) as [v ->]. by eexists. }
  destruct Hm as [sm ->]. simpl. destruct props as [ps|]; [|by eexists].
  match goal with |- is_Some (each ?f ps ≫= _) => destruct (each_total f ps) as [sp ->] end;
    [|by eexists].
  intros [k t'] Hin. destruct Hps as [Hps Hcalm]. rewrite every_forall in Hcalm.
  specialize (Hcalm _ Hin). simpl in Hcalm. destruct (get_prop_present M k HM) as [v Hv].
  rewrite Hv. simpl. rewrite Forall_forall in Hps. destruct (Hps _ Hin v false (Hcalm v Hv)) as [l Hl].
  simpl in Hl. rewrite Hl. by eexists.
Qed.

Lemma fromJS_readable v : present v = true -> readable (fromJS v) = true.
Proof. destruct v; simpl; try done. by destruct (plain l). Qed.
Lemma unique_total e unique :
  (truthy e = true -> unique = true -> all_readable e) -> is_Some (validateUniqueItems e unique).
Proof.
  intros Hu. unfold validateUniqueItems. destruct (truthy e) eqn:Et, unique; simpl; try by eexists.
  destruct (Hu eq_refl eq_refl) as [Hl|[Ha Hp]]; destruct e as [| | | | |i l|l|i l|]; try done; simpl.
  destruct (Qlt_bool _ _); [|by eexists].
  rewrite (entries_values (VArr i l) _ eq_refl).
  assert (forallb readable (map fromJS l) = true) as ->; [|by eexists].
  apply forallb_forall. intros v (x & <- & Hx)%in_map_iff. apply fromJS_readable, Hp.
  by apply list_elem_of_In.
Qed.

(** Whether items conform is only asked of an array. *)
Lemma elements_total media t e : total media t -> every (calm media t) (elements e) ->
  is_Some (each_index (fun i v =>
    n ← validateValueBySchema t v false false media; Some (map (EIndex (INum i)) n)) 0 (elements e)).
Proof.
  intros Ht Hca. apply each_index_total. intros j v Hv. rewrite every_forall in Hca.
  destruct (Ht v false (Hca v Hv)) as [l ->]. by eexists.
Qed.


Lemma each_in {A} (f : A -> option (list verror)) l s x s' y :
  each f l = Some s -> x ∈ l -> f x = Some s' -> y ∈ s' -> y ∈ s.
Proof.
  revert s. induction l as [|z l IH]; intros s; [by intros _ ?%elem_of_nil|].
  intros (a & Ha & (b & Hb & [= <-])%bind_Some)%bind_Some [->|Hx]%elem_of_cons Hf Hy;
    apply elem_of_app; [left; by simplify_eq|right]. by apply (IH b Hb Hx Hf).
Qed.

(** A property that may be absent but whose own schema lists required keys is reported as a
    required field that is missing when the object does not have it: the list makes the
    schema of the property count as required. *)
Theorem optional_object_reported t ps k t' keys ref l required media s :
  s_type t = Some "object" -> s_properties t = Some ps -> (k, t') ∈ ps ->
  s_type t' = Some "object" -> s_required t' = Some (RList keys) ->
  is_json media = true -> get_prop (VObj ref l) k = Some VUndefined ->
  validateValueBySchema t (VObj ref l) required false media = Some s ->
  EProp k (EText "Required field is not provided") ∈ s.
Proof.
  destruct t as [nl rq mx mn ty fm xl nl' u xi ni p items props]. simpl.
  intros -> -> Hin Ht' Hr' Hm Hk. cbn [validateValueBySchema].
  rewrite !andb_false_r, orb_true_r. cbn [orb andb negb present].
  replace (provided "object" (VObj ref l)) with true by reflexivity.
  fold (is_json media). rewrite Hm, bool_decide_eq_true_2 by done. cbn [andb].
  intros (s0 & Hs0 & Hs)%bind_Some. cbn [when] in Hs0.
  apply bind_Some in Hs0 as (sm & _ & (sp & Hp & [= <-])%bind_Some).
  assert (He : EProp k (EText "Required field is not provided") ∈ sp).
  { eapply each_in; [exact Hp|exact Hin| |left]. cbn [get_prop]. rewrite Hk. simpl.
    destruct t' as [nl2 rq2 ? ? ty2 ? ? ? ? ? ? ? ? ?]. simpl in Ht', Hr'. subst ty2 rq2.
    cbn [validateValueBySchema]. simpl. by rewrite andb_false_r. }
  repeat (apply bind_Some in Hs as (? & _ & Hs)). injection Hs as <-. set_solver.
Qed.
End validator.
