(* ===== verification/SwaggerWitnesses.v ===== *)
(** * The theorems on the API pages at concrete inputs

    A small JavaScript engine that knows the texts used here, and each theorem on
    the helpers of the pages that has hypotheses applied to one input. *)

From S2P Require Import Prelude SwaggerUi JsStrings SwaggerCurl SwaggerBase64 SwaggerSearch SwaggerOauth SwaggerParams.
From Stdlib Require Import Ascii QArith.
Local Open Scope nat_scope.

(** ** Curl commands *)
Definition sample_request : request :=
  MkRequest "POST" "http://node/api?a=1&b=it's" [("accept", "*/*"); ("Content-Type", "text/plain")]
    (Some (BodyText "a; b")) (Some ["-g"]).

Lemma curl_bash_words_witness :
  requestSnippetGenerator_curl_bash sample_request ≫= sh_words =
  Some ["curl"; "-g"; "-X"; "POST"; "http://node/api?a=1&b=it's"; "-H"; "accept: */*";
        "-H"; "Content-Type: text/plain"; "-d"; "a; b"].
Proof.
  pose proof (curl_bash_words sample_request) as Hw.
  destruct (requestSnippetGenerator_curl_bash sample_request) as [cmd|] eqn:E; [|discriminate E].
  simpl. apply Hw. repeat (constructor; [split; [reflexivity|discriminate]|]). constructor.
Defined.

Definition relative_request : request := MkRequest "GET" "/api?a=1&b=2" [] None None.

Lemma curl_bash_unquoted_witness :
  requestSnippetGenerator_curl_bash relative_request ≫= sh_words = None.
Proof.
  destruct (requestSnippetGenerator_curl_bash relative_request) as [cmd|] eqn:E; [|reflexivity].
  simpl. apply (curl_bash_unquoted relative_request cmd ["curl"; "-X"; "GET"] "/api?a=1&b=2" []).
  - exact E.
  - reflexivity.
  - repeat (constructor; [split; [reflexivity|discriminate]|]). constructor.
  - split; [reflexivity|]. exists "/api", "?"%char, "a=1&b=2". split_and!; reflexivity.
Defined.

(** ** Base64 *)
Lemma bytes_ok l : forallb (fun x => (0 <=? x)%Z && (x <? 256)%Z) l = true -> Forall is_byte l.
Proof.
  induction l as [|x l IH]; [constructor|]. cbn [forallb]. rewrite !andb_true_iff, Z.leb_le, Z.ltb_lt.
  intros [[? ?] ?]. constructor; [split; assumption|by apply IH].
Qed.

Lemma base64_roundtrip_witness :
  fromByteArray [77; 97; 110; 255; 0]%Z = "TWFu/wA=" /\
  toByteArray "TWFu/wA=" = Some [77; 97; 110; 255; 0]%Z.
Proof.
  split; [vm_compute; reflexivity|].
  exact (proj1 (base64_roundtrip [77; 97; 110; 255; 0]%Z
    (bytes_ok [77; 97; 110; 255; 0]%Z eq_refl))).
Defined.

Definition sample_random : list Z := map Z.of_nat (seq 200 32).
Lemma generateCodeVerifier_bounds_witness :
  String.length (generateCodeVerifier sample_random) = 43.
Proof. exact (proj1 (generateCodeVerifier_bounds sample_random (bytes_ok sample_random eq_refl) eq_refl)). Defined.

(** ** The login *)
#[local] Instance sample_oauth : OauthEnv := {
  sha256 s := map (fun i => (Z.of_nat (i * String.length s) mod 256)%Z) (seq 1 32);
  url_resolve url base := base +:+ url;
  spec_url := "http://node";
  url_with_query url q := url;
  odd_query _ := None }.
Definition login_config : OauthConfig :=
  MkConfig (Some "http://node/oauth2-redirect.html") None (Some "a & b") true false
    [("audience", Some "grid=zos"); ("unset", None)] None.
Definition login_form (code : option string) : AuthState :=
  MkAuth "grid" "authorizationCode" "https://auth/login" "/token" ["read"; "write all"] (Some "ui") None
    "" "" "basic" None code None.
Definition login_page (code : option string) : Page :=
  MkPage (fun _ => login_form code) 1 0 None ∅.
Definition now : string := "Tue Nov 19 2024".
Definition server_query : string := "?state=forged&code=new%20code".
Definition server_answer : gmap string string := default ∅ (parse_qp (qp_text "" server_query)).

Lemma pkce_bound_witness :
  exists url headers form,
    filter is_fetch (run_actions login_config
      [Click now sample_random; Edit FUsername "me"; Scope false "read"; Redirect "" server_query]
      (login_page None)).2 = [Fetch 0 url headers (buildFormData form)] /\
    exchanges (Some "new code") (Some (generateCodeVerifier sample_random))
      "http://node/oauth2-redirect.html" form.
Proof.
  destruct (pkce_bound login_config (login_page None) now sample_random "http://node/oauth2-redirect.html"
    [Edit FUsername "me"; Scope false "read"] "" server_query server_answer "new code")
    as (url & headers & form & _ & _ & Hfetch & Hform & _).
  1: by split; [simpl; lia|].
  all: try (vm_compute; reflexivity).
  1: by repeat constructor.
  1: discriminate.
  exists url, headers, form. split; [exact Hfetch|exact Hform].
Defined.

Lemma old_code_sent_witness :
  exists url headers form,
    (do_action login_config (Redirect "" server_query)
      (do_action login_config (Click now sample_random)
        (run_actions login_config [Logout] (login_page (Some "old code"))).1).1).2 =
      [Fetch 0 url headers (buildFormData form); Closed] /\ ("code", Some "old code") ∈ form.
Proof.
  destruct (old_code_sent login_config (login_page (Some "old code")) "old code" [Logout] now sample_random
    "" server_query server_answer "http://node/oauth2-redirect.html")
    as (url & headers & form & verifier & Hev & Hform & _).
  1: by split; [simpl; lia|].
  all: try (vm_compute; reflexivity).
  1: discriminate.
  exists url, headers, form. split; [exact Hev|by apply (proj1 Hform)].
Defined.

Lemma authorize_query_witness :
  exists q, (authorize login_config now sample_random (login_page None)).2 =
      [Cleared; Open ("https://auth/login?" +:+ q)] /\
    mapM parse_pair (split_char "&" q) =
    Some [("response_type", "code"); ("client_id", "ui");
          ("redirect_uri", "http://node/oauth2-redirect.html"); ("scope", "read write all");
          ("state", btoa now); ("realm", "a & b");
          ("code_challenge", createCodeChallenge (generateCodeVerifier sample_random));
          ("code_challenge_method", "S256"); ("audience", "grid=zos")].
Proof.
  destruct (authorize_query login_config (login_page None) now sample_random
    "http://node/oauth2-redirect.html") as (q & Hopen & Hq).
  1,2: discriminate.
  1: reflexivity.
  1: by apply bytes_ok; vm_compute.
  1,2: repeat constructor.
  exists q. split; [exact Hopen|exact Hq].
Defined.

Lemma redirect_reads_witness :
  parse_qp (join "&" (map written [("state", "x=y"); ("code", "a&b"); ("code", "c d")])) =
  Some (list_to_map [("code", "c d"); ("code", "a&b"); ("state", "x=y")]).
Proof.
  exact (redirect_reads [("state", "x=y"); ("code", "a&b"); ("code", "c d")] ltac:(discriminate)
    ltac:(repeat (constructor; [split_and!; [discriminate|reflexivity..]|]); constructor)).
Defined.

(** ** The query of the address *)
Lemma search_roundtrip_witness :
  exists m, parseSearch ("?" +:+ serializeSearch [("url", Some "http://x/a b"); ("q", None)]) = Some m /\
    m !! "url" = Some "http://x/a+b".
Proof.
  destruct (search_roundtrip [("url", Some "http://x/a b"); ("q", None)] "url" "http://x/a b")
    as (m & Hp & Hm & _).
  - discriminate.
  - repeat constructor. intros Hin. apply elem_of_nil in Hin. exact Hin.
  - repeat constructor.
  - left.
  - discriminate.
  - exists m. split; [exact Hp|exact Hm].
Defined.

(** ** Schemas *)
#[export] Instance sample_runtime : JsRuntime := {|
  toNumber v := match v with
                | VNum x => Some x
                | VStr s => if bool_decide (s = "3") then Some 3%Q else None
                | _ => None end;
  toString_ v := match v with VStr s => s | VUndefined => "undefined" | _ => "[object Object]" end;
  numString _ := "5";
  regexpTest p s := Some (String.prefix p s);
  dateParses _ := true;
  jsonParse s := if bool_decide (s = "{}") then Some (VObj 0 [])
                 else if bool_decide (s = "null") then Some VNull else None;
  inherited _ _ := VUndefined;
  setToArray l := reverse l |}.
#[export] Instance sample_runtime_laws : JsRuntimeLaws.
Proof. intros l. apply reverse_Permutation. Qed.

Definition plain_schema (type : string) (required : option requirement) (minItems : option Z)
    (items : option schema) (props : option (list (string * schema))) : schema :=
  Schema false required None None (Some type) None None None false None minItems None items props.
Definition name_schema := plain_schema "string" None None None None.
Definition names_schema := plain_schema "array" None (Some 2%Z) (Some name_schema) None.
Definition address_schema :=
  plain_schema "object" (Some (RList ["street"])) None None (Some [("street", name_schema)]).
Definition person_schema := plain_schema "object" None None None (Some [("address", address_schema)]).




(** Two equal objects are found in an array, and not in a List. *)
Definition tags_schema : schema :=
  Schema false None None None (Some "array") None None None true None None None None None.
Lemma duplicates_reported :
  validateValueBySchema tags_schema (VArr 0 [VObj 1 [("a", VNum 3)]; VStr "b"; VObj 2 [("a", VNum 3)]])
    true false None =
  Some [EIndex (INum 2) (EText "No duplicates allowed."); EIndex (INum 0) (EText "No duplicates allowed.")] /\
  validateValueBySchema tags_schema (VList [VStr "b"; VStr "b"]) true false None = Some [].
Proof. split; vm_compute; reflexivity. Qed.

Lemma optional_object_reported_witness :
  EProp "address" (EText "Required field is not provided") ∈
  default [] (validateValueBySchema person_schema (VObj 1 []) true false None).
Proof.
  assert (Hs : validateValueBySchema person_schema (VObj 1 []) true false None =
    Some [EProp "address" (EText "Required field is not provided")]) by (vm_compute; reflexivity).
  rewrite Hs.
  exact (optional_object_reported person_schema [("address", address_schema)] "address"
    address_schema ["street"] 1 [] true None _ eq_refl eq_refl ltac:(left) eq_refl eq_refl eq_refl
    eq_refl Hs).
Defined.
