(* ===== verification/BootstrapWitnesses.v ===== *)
(** * The theorems on the bootstrap program at concrete inputs

    A node with the kernel parameters "runmode=test version=v4", a hub list whose
    first hub is down, and a tag of two packages. *)

From S2P Require Import Prelude JsStrings BootstrapHub Bootstrap.
From Stdlib Require Import Ascii.

Definition flist_a : Flist := MkFlist Symlink 1 "" "a.flist" (Some "bins/a.flist") "".
Definition flist_b : Flist := MkFlist Symlink 2 "" "b.flist" (Some "bins/b.flist") "".
Definition tag_v4 : Flist := MkFlist TagLink 3 "" "testing-v4" (Some "bins/tags/v4.1") "".

Definition has_suffix (suffix s : string) : bool :=
  bool_decide (rfind suffix s = Some (String.length s - String.length suffix)).

Definition hub_answer (u : string) : res response :=
  if bool_decide (u = "https://a/api/flist") then Err (Fresh "refused")
  else if has_suffix "testing.json" u then Val (MkResponse 200 "config")
  else if has_suffix "tf-zos" u then Val (MkResponse 200 "lists")
  else if has_suffix "v4.1" u then Val (MkResponse 200 "packages")
  else Val (MkResponse 200 u).

(** The state counts the attempts to see a mount: every other one fails. *)
#[export] Instance sample_boot : BootEnv nat := {|
  readParams s := (Val "runmode=test version=v4", s);
  shlex_split s := Some (split_char " " s);
  cliArgs := (Val 2%N, false);
  httpGet u s := (hub_answer u, s);
  parseFlists b := Val (if bool_decide (b = "lists") then [tag_v4] else [flist_a; flist_b]);
  parseFlist _ := Val flist_a;
  parseConfig _ := Val ["https://a"; "https://b"];
  fsOpen _ s := (None, s);
  fsWrite _ _ s := (None, s);
  fsWriteAll _ _ s := (None, s);
  createDirAll _ s := (None, s);
  spawnG8ufs _ _ _ s := (None, s);
  mountpoint _ s := (Val (Nat.odd s), Datatypes.S s);
  killChild s := (None, s);
  umount _ s := (None, s);
  waitChild s := (None, s);
  walkDir _ s := ([Val ("", FtDir); Val ("bin/zos", FtFile); Val ("bin/sh", FtSymlink)], s);
  fsCopy _ _ s := (None, s);
  fsRename _ _ s := (None, s);
  readLink _ s := (Val "/bin/busybox", s);
  removeFile _ s := (Some IoKnown, s);
  symlink _ _ s := (None, s);
  readDir _ s := (Some (Val [Val ("zos.yaml", true); Val ("readme", true)]), s);
  zinitMonitor _ s := (None, s);
  currentDir s := (Val "/", s);
  createDir _ s := (None, s);
  mountTmpfs _ s := (None, s);
  setCurrentDir _ s := (None, s);
  removeDirAll _ s := (None, s);
  toJson _ := Val "json";
  binName := "/sbin/bootstrap";
  execve _ s := (None, s) |}.

Lemma get_working_hub_spec_witness :
  result (Repo_new "tf-zos") 0 = Ok (MkRepo "tf-zos" ["https://a"; "https://b"]) /\
  result (get_working_hub (MkRepo "tf-zos" ["https://a"; "https://b"])) 5 = Ok "https://b".
Proof.
  split; [vm_compute; reflexivity|].
  pose proof (get_working_hub_spec "tf-zos" 0 (MkRepo "tf-zos" ["https://a"; "https://b"])) as Hw.
  destruct (Hw eq_refl 5) as (pre & post & rs & h & _ & Hr & _). vm_compute in Hr |- *.
  reflexivity.
Defined.

(** Stage 2 installs both packages of the tag, each after one failed look at the mount. *)
Example app_stage_2 : result (app 3) 0 = Ok tt.
Proof. vm_compute. reflexivity. Qed.
Example app_serves :
  served <$> mounts (idle [] "") (calls (app 3) 0) = Some ["a.flist"; "b.flist"].
Proof. vm_compute. reflexivity. Qed.
