(* ===== verification/NodeWitnesses.v ===== *)
(** * The engine's queue, the managers and the provision daemon at concrete inputs

    A run with a crash in it, a provisioner with one manager, and a daemon whose
    interfaces all act on the world of [Sample], whose deployments are the old storage. *)

From S2P Require Import Prelude GridTypes Provisioner Sorting StartupOrder Engine EngineApi.
From S2P Require Import EngineLaws EngineWorkloads EngineDeployments EngineQueue EngineWorker.
From S2P Require Import Gateway Capacity Migration Auth EngineSystem EngineProvisioner Daemon Provisiond.
From S2P Require Import Sample.

(** ** The queue: a crash while the first job is in hand, and a request *)
Definition sample_job : engineJob := MkJob opProvision sample_deployment None "".
Definition resume_request : request := RResume 1 1.

Lemma sample_callback_keeps_jobs : callback_keeps_jobs sample_engine.
Proof. intros cb Hcb. discriminate Hcb. Defined.
Lemma sample_twins_keep_jobs : twins_keep_jobs sample_engine.
Proof. by intros id s. Defined.

Lemma queue_at_least_once_witness :
  exists l n, handled l = [sample_job; sample_job] /\ removed l = 1 /\
    served (MkNode sample_world None) l n.
Proof.
  assert (exists l n, runs (crashing_step sample_engine Background) (MkNode sample_world None) l n /\
    handled l = [sample_job; sample_job] /\ removed l = 1) as (l & n & Hrun & Hh & Hr).
  { eexists _, _. split.
    - eapply runs_step; [eapply runs_step; [eapply runs_step; [eapply runs_step|]|]|].
      + apply runs_refl.
      + left. apply step_take.
      + right. apply (crash_before _ _ sample_world). reflexivity.
      + left. apply step_take.
      + left. apply step_handle.
    - split; vm_compute; reflexivity. }
  exists l, n. split; [exact Hh|split; [exact Hr|]].
  exact (queue_at_least_once sample_engine Background sample_world l n
    sample_callback_keeps_jobs sample_twins_keep_jobs Hrun).
Defined.

Lemma queue_exactly_once_witness :
  exists l n, handled l = [sample_job] /\ jobs (outside n) = [MkJob opResume sample_deployment None ""].
Proof.
  assert (exists l n, runs (node_step sample_engine Background) (MkNode sample_world None) l n /\
    removed l = 1 /\ in_hand n = None /\ accepted l = [MkJob opResume sample_deployment None ""] /\
    dequeues_served l) as (l & n & Hrun & Hr & Hn & Ha & Hdq).
  { eexists _, _. split.
    - eapply runs_step; [eapply runs_step; [eapply runs_step|]|].
      + apply runs_refl.
      + apply step_take.
      + apply (step_request _ _ resume_request).
      + apply step_handle.
    - split; [|split; [|split]]; [vm_compute; reflexivity..|]. intros err Hin. vm_compute in Hin.
      repeat (apply elem_of_cons in Hin as [Hin|Hin]; [discriminate Hin|]).
      by apply elem_of_nil in Hin. }
  exists l, n.
  destruct (queue_exactly_once sample_engine Background sample_world l n
    sample_callback_keeps_jobs sample_twins_keep_jobs
    Hrun Hdq) as [Hj Hh].
  split; [rewrite Hh, Hr, Hn, Ha|rewrite Hj, Hr, Ha]; reflexivity.
Defined.

(** ** A provisioner with one manager, which has no way of its own to pause *)
Definition vm_manager : Manager world string :=
  MkManager _ _ (fun _ w s => (("vm " +:+ Name (wl_of w), None), s)) (fun _ _ s => (None, s))
    None None None.
Definition vm_managers : gmap string (Manager world string) := {["zmachine" := vm_manager]}.
Definition marshal (v : string) : res string := Val v.
Definition vm_env : EngineEnv world := engine_with_managers sample_env marshal vm_managers.

Lemma vm_managers_keep {B} (f : world -> B) : map_Forall (fun _ mgr => manager_keeps f mgr) vm_managers.
Proof.
  apply map_Forall_singleton. split; [by intros ctx w s|]. split; [by intros ctx w s|]. split; discriminate.
Defined.

Definition vm_key : wl_key := (1%Z, 1%Z, "vm").
Definition vm_deployment : Deployment := MkDeployment 0 1 1 "" "" "" [sample_vm].
Definition vm_world : world := MkWorld {[vm_key := sample_vm]} [] ∅ 5.
Definition empty : world := MkWorld ∅ [] ∅ 5.
Definition paused_vm : Workload :=
  MkWorkload "vm" "zmachine" "" (MkResult 5 "paused" "paused" "").
Definition paused_deployment : Deployment := MkDeployment 0 1 1 "" "" "" [paused_vm].

(** No call of a concrete trace is a failed one of the storage. *)
Ltac no_failure Hf :=
  intros Hf; vm_compute in Hf;
  repeat (apply Exists_cons in Hf as [Hf|Hf]; [done|]); by apply Exists_nil in Hf.

Lemma vm_plain (w : Workload) : Name w = "vm" -> Type_ w = "zmachine" ->
  plain_workload vm_managers [with_id w] (with_id w) vm_key.
Proof.
  intros Hn Ht. assert (keyed (with_id w) vm_key) as Hk by (split; simpl; by rewrite Hn).
  split; [split|split; [left|split; [done|]]].
  - constructor; [by eexists|constructor].
  - simpl. apply NoDup_singleton.
  - exists vm_manager. split; [|done]. simpl. by rewrite Ht.
Defined.

Lemma stale_resume_lost_witness :
  let s1 := final (dispatch (EngineEnv0 := vm_env) sample_engine Background
    (MkJob opPause vm_deployment None "")) vm_world in
  let s2 := final (dispatch (EngineEnv0 := vm_env) sample_engine Background
    (MkJob opResume vm_deployment None "")) s1 in
  w_db s2 = w_db s1 /\ State <$> (WResult <$> w_db s2 !! vm_key) = Some "paused".
Proof.
  intros s1 s2.
  destruct (stale_resume_lost sample_env marshal vm_managers (vm_managers_keep _) (vm_managers_keep _)
    sample_engine Background Background vm_deployment (with_id sample_vm) vm_key sample_vm vm_world)
    as (Heq & time & Ht).
  - no_failure Hf.
  - exact (vm_plain sample_vm eq_refl eq_refl).
  - reflexivity.
  - reflexivity.
  - reflexivity.
  - constructor; [discriminate|constructor].
  - split; [exact Heq|]. exact (f_equal (fmap State) (f_equal (fmap WResult) Ht)).
Defined.

Lemma pause_then_resume_witness :
  let s1 := final (dispatch (EngineEnv0 := vm_env) sample_engine Background
    (MkJob opPause vm_deployment None "")) vm_world in
  let s2 := final (dispatch (EngineEnv0 := vm_env) sample_engine Background
    (MkJob opResume paused_deployment None "")) s1 in
  State <$> (WResult <$> w_db s2 !! vm_key) = Some "ok".
Proof.
  intros s1 s2.
  destruct (pause_then_resume sample_env marshal vm_managers (vm_managers_keep _) (vm_managers_keep _)
    sample_engine Background Background vm_deployment paused_deployment (with_id sample_vm)
    (with_id paused_vm) vm_key sample_vm vm_world) as (time & Ht).
  - exact (vm_plain sample_vm eq_refl eq_refl).
  - reflexivity.
  - reflexivity.
  - reflexivity.
  - no_failure Hf.
  - exact (vm_plain paused_vm eq_refl eq_refl).
  - vm_compute. reflexivity.
  - no_failure Hf.
  - exact (f_equal (fmap State) (f_equal (fmap WResult) Ht)).
Defined.

Lemma install_records_manager_witness :
  let s := final (installWorkload (EngineEnv0 := vm_env) Background (with_id sample_vm)) empty in
  exists time, w_db s !! vm_key = Some (WithResults sample_vm (MkResult time "ok" "" "vm vm")).
Proof.
  intros s.
  destruct (install_records_manager sample_env marshal vm_managers (vm_managers_keep _)
    (vm_managers_keep _) Background (with_id sample_vm) vm_key empty) as (time & Ht).
  - by split.
  - reflexivity.
  - no_failure Hf.
  - exists time. exact Ht.
Defined.

(** ** The provision daemon *)
#[local] Instance world_migration : MigrationEnv world := {|
  fsTwins s := (Val [1%Z], s);
  fsByTwin t s := (Val [1%Z], s);
  fsGet t d s := (match w_deployments s !! (t, d) with Some d => Val d | None => Err not_exists end, s);
  migrate _ s := (None, s);
  fsDelete d s := (None, set_deployments (delete (GridTypes.TwinID d, ContractID d)) s);
  osStat _ s := (None, s);
  osMkdirAll _ s := (None, s);
  osSymlink _ _ s := (None, s);
  IsNotExist _ := false;
  NetworkID _ name := "n-" +:+ name |}.
#[local] Instance world_capacity : CapacityEnv world := {|
  cStorageGet t d s := (Err not_exists, s);
  cSetContractConsumption _ s := (None, s) |}.
#[local] Instance world_auth : AuthEnv world := {|
  lruGet _ s := (None, s);
  lruAdd _ _ s := (tt, s);
  auGetTwin id s := (Val (MkAccount id "aGVsbG8="), s);
  auGetFarm id s := (Val (MkFarm id "farm" 3), s) |}.
#[local] Instance world_provisiond : ProvisiondEnv world := {|
  pdServer s := (None, s);
  pdClient s := (None, s);
  pdReportChecks _ s := (None, s);
  pdPushErrors _ s := (None, s);
  pdRunIntegrity s := (("", None), s);
  pdRemoveAll _ s := (None, s);
  pdCheckFlag s := (false, s);
  pdMkdirAll _ s := (None, s);
  pdEnvironment s := (Val (MkEnvironment_ false 1), s);
  pdPrivateKey s := (tt, s);
  pdOpenStore _ s := (None, s);
  pdStat _ s := (None, s);
  pdOpenFs _ s := (None, s);
  pdCleanDeleted s := (None, s);
  pdCapacityTotal s := (None, s);
  pdIsFirstBoot s := (true, s);
  pdStoreCapacity s := (([], None), s);
  pdTwins s := (None, s);
  pdTwinByPubKey s := (Val 3%Z, s);
  pdNodeByTwinID _ s := (Val 7%Z, s);
  pdNewConsumer s := (None, s);
  pdMarkBooted s := (None, s);
  pdRemove _ s := (tt, s);
  pdNewReporter _ s := (None, s);
  pdServe s := (None, s);
  pdJoin a b := a +:+ "/" +:+ b;
  pdIsCanceled _ := false;
  pdCallback _ _ _ s := (false, s);
  pdTwinKeys := nullKeyGetter_GetKey;
  pdAdminKeys _ := nullKeyGetter_GetKey;
  QuantumSafeFSType := "qsfs";
  NetworkLightType := "network-light";
  ZMachineLightType := "zmachine-light";
  ZLogsType := "zlogs";
  pdRangeSet := elements;
  pdInitialize s := (None, s);
  pdCache s := (Val 0%Z, s);
  Max := Z.max;
  Gigabyte := (2 ^ 30)%Z |}.

Lemma old_store_removed_witness :
  exists twins m, FsTwins (Val twins) ∈ m /\ Forall (twin_migrated m) twins /\ deleted_after [] m.
Proof.
  destruct (old_store_removed 1 "/root" None sample_world) as (twins & m & _ & Hm).
  - discriminate.
  - apply (list_elem_of_lookup_2 _ 16). vm_compute. reflexivity.
  - by exists twins, m.
Defined.
(** The workload types of the node, those of the start first. *)
#[local] Instance daemon_grid : GridTypes := {|
  StateOk := @StateOk sample_grid;
  StateError := @StateError sample_grid;
  StateDeleted := @StateDeleted sample_grid;
  StateUnChanged := @StateUnChanged sample_grid;
  StatePaused := @StatePaused sample_grid;
  IsOkay := @IsOkay sample_grid;
  IsAny := @IsAny sample_grid;
  ErrText := @ErrText sample_grid;
  Types := ["zmount"; "volume"; "qsfs"; "network-light"; "ipv4"; "ip"; "zmachine-light"; "zlogs"; "zdb"];
  ZMountType := @ZMountType sample_grid;
  VolumeType := @VolumeType sample_grid;
  NetworkType := @NetworkType sample_grid;
  PublicIPv4Type := @PublicIPv4Type sample_grid;
  PublicIPType := @PublicIPType sample_grid;
  ZMachineType := @ZMachineType sample_grid;
  WithResults := @WithResults sample_grid;
  Parts := @Parts sample_grid;
  NewWorkloadID := @NewWorkloadID sample_grid;
  NewUncheckedWorkloadID := @NewUncheckedWorkloadID sample_grid;
  WorkloadData_ := @WorkloadData_ sample_grid;
  WCapacity := @WCapacity sample_grid;
  CapacityAdd := @CapacityAdd sample_grid;
  UnmarshalPublicIP := @UnmarshalPublicIP sample_grid;
  ByType := @ByType sample_grid;
  IsActive := @IsActive sample_grid;
  Upgrade := @Upgrade sample_grid;
  Valid := @Valid sample_grid;
  ChallengeHash := @ChallengeHash sample_grid |}.

Definition daemon_startup : Startup :=
  MkStartup Types (list_to_map (zip Types [1; 2; 3; 4; 5; 6; 7; 8; 9]%Z)).
Definition daemon_engine (key : string) : NativeEngine world :=
  MkEngine pdTwinKeys (pdAdminKeys (MkAdmins 3 key)) daemon_startup true 7 true (Some pdCallback).

Lemma engine_started_witness :
  exists env twin node first,
    env_Orphan env = false /\
    preceded (DCheckFlag false :: DEnvironment (Val env) :: DOpenStore "/root/workloads.bolt" None ::
              node_known twin node first)
      (DGo (GoEngine (daemon_engine "hello"))) (calls (action 1 "/root" false) sample_world).
Proof.
  destruct (engine_started 1 "/root" (daemon_engine "hello") sample_world)
    as (env & twin & node & first & adm & s' & Ho & _ & Hpre & _).
  - apply (list_elem_of_lookup_2 _ 33). vm_compute. reflexivity.
  - exists env, twin, node, first. split; [exact Ho|exact Hpre].
Defined.
