(* ===== verification/DaemonWitnesses.v ===== *)
(** * The daemons at concrete inputs

    A power daemon whose chain wants the node down, a node daemon whose registrar
    answers, and an identity daemon that finds a new version. *)

From S2P Require Import Prelude Paths GridTypes Provisioner Sorting StartupOrder Engine Gateway Capacity.
From S2P Require Import Events Reporter Migration Power UpgradeFiles Upgrade Registrar Auth.
From S2P Require Import UpdateWorker Identity Sample SampleNode Daemon Powerd Noded Identityd.

(** ** Power *)
#[local] Instance sample_powerd : PowerdEnv (bool * bool) := {|
  wdMustGet s := (Some 1%Z, s);
  wdClient s := (None, s);
  wdPushErrors _ _ s := (None, s);
  wdNodeID s := (Val 7%Z, s);
  wdTwinID s := (Val 3%Z, s);
  wdPrivateKey s := ("secret", s);
  wdIdentity _ s := ((false, None), s);
  wdConsumer s := (None, s) |}.

(** The chain has the node up and wants it down. *)
Definition power_calls : list pdcall := calls (Powerd.action 0) (true, false).

Lemma powerd_off_witness :
  exists node twin bridge nics nic,
    [WNodeID (Val node); WTwinID (Val twin); WGoUptime; WPower (PListNics bridge (Val nics));
     WPower (PSetWol nic None); WConsumer None] `sublist_of` power_calls /\ only_nic nics nic.
Proof.
  assert (exists i, power_calls !! i = Some (WPower (PShutdown None))) as [i Hi].
  { exists 18. vm_compute. reflexivity. }
  apply list_elem_of_lookup_2, list_elem_of_split in Hi as (pre & post & Hi).
  destruct (powerd_off 0 (true, false) pre (PShutdown None) post Hi eq_refl)
    as (farm & node & twin & bridge & nics & nic & before & within & after & s' & _ & Hnic & -> & Hb & _).
  exists node, twin, bridge, nics, nic. split; [|exact Hnic].
  rewrite Hi. by apply sublist_inserts_r, sublist_inserts_r.
Defined.

(** ** The node *)
#[local] Instance sample_noded : NodedEnv bool := {|
  ndMustGet s := (Some 1%Z, s);
  ndClient s := (None, s);
  ndServer s := (None, s);
  ndTotal s := (Val (MkCapacity 8 1 2 1024 0), s);
  ndIsSecureBoot s := ((true, None), s);
  ndDMI s := (Val "board", s);
  ndGetHypervisor s := (Val "kvm", s);
  ndGPUs s := (Val ["gpu1"; "gpu2"], s);
  ndPerfMonitor s := (None, s);
  ndNTPCheck s := (tt, s);
  ndPerfRun s := (None, s);
  ndCheckFlag s := (false, s);
  (* the first attempt finds the node not registered yet *)
  ndNodeID (s : bool) := (if s then Val 7%Z else Err (Fresh "in progress"), true);
  ndTwinID s := (Val 3%Z, s);
  ndBackoffStop s := (false, s);
  ndSubstrate s := (None, s);
  ndNewStream _ _ s := (None, s);
  ndSystemMonitor _ s := (None, s);
  ndHostMonitor s := (None, s);
  ndRegister _ s := (None, s);
  ndServe s := (None, s);
  ndIsCanceled _ := false |}.

Definition node_calls : list ncall := calls (Noded.action 1 2 false false) false.

Lemma node_registers_witness :
  exists cap board, [NCapacity (Val cap); NDmi (Val board)] `sublist_of` node_calls.
Proof.
  destruct (node_registers 1 2 false false
    (MkInfo (MkCapacity 8 1 2 1024 0) (MkLocation "" "" "" "") true true "board" {["gpu1"; "gpu2"]}) false)
    as (cap & secure & err & board & hyp & gpus & _ & pre & post & Heq & Hpre).
  - apply (list_elem_of_lookup_2 _ 7). vm_compute. reflexivity.
  - exists cap, board. unfold node_calls. rewrite Heq. apply sublist_inserts_r.
    etrans; [|exact Hpre]. apply sublist_cons, sublist_skip, sublist_cons, sublist_skip, sublist_nil_l.
Defined.

Lemma node_served_witness :
  exists info farm twin,
    preceded [NServer None; NGoRegistration info; NPerfRun None; NCheckFlag false;
              NNodeID (Val 7%Z); NTwinID (Val twin); NSubstrate None; NNewStream farm 7 None]
      (NGoEvents 7) node_calls.
Proof.
  apply (node_served 1 2 false false 7 false).
  apply (list_elem_of_lookup_2 _ 22). vm_compute. reflexivity.
Defined.

(** ** The identity: the key is a file, and a new version is out *)
#[local] Instance files_identity : IdentityEnv (gmap string string) := {|
  newStore _ _ s := (None, s);
  storeKind s := ("file", s);
  storeGet s := (match s !! "key" with Some k => Val k
                 | None => Err (Sentinel ErrKeyDoesNotExist_id "no key") end, s);
  storeSet k s := (None, <["key" := k]> s);
  storeAnnihilate s := (None, delete "key" s);
  GenerateKeyPair s := (Val (MkKeyPair "secret" "public"), s);
  KeyPairFromKey k := MkKeyPair k "public";
  KeyIdentity k := PublicKey_ k;
  environmentGet s := (Val (MkEnvironment 1 "" "url" RunningMain), s);
  registrarURL u := Val u;
  idNewClient _ s := (None, s);
  idGetFarm _ s := ((MkFarm 1 "farm" 3, None), s);
  cryptoSign _ m := Val m;
  cryptoVerify _ _ _ := None;
  cryptoEncrypt m _ := Val m;
  cryptoDecrypt m _ := Val m;
  cryptoEncryptECDH m _ _ := Val m;
  cryptoDecryptECDH m _ _ := Val m |}.
#[local] Instance files_ssh : SshEnv (gmap string string) := {|
  sshUser := ("", false);
  sshEnvironment := MkEnvironment 1 "" "url" RunningMain;
  sshRemove _ s := (None, s);
  sshIsNotExist _ := false;
  authorizedUsers s := (Val [], s);
  authorizedTest s := (Val [], s);
  sshOpen _ s := (None, s);
  httpGet _ s := (Val (200%Z, "key"), s);
  copyKeys _ s := (None, s) |}.
#[local] Instance files_identityd : IdentitydEnv (gmap string string) := {|
  daClient s := (("client", None), s);
  daMustGet s := (Some ("1", "production"), s);
  daPrivateKey s := ("secret", s);
  daMkdirAll _ s := (None, s);
  daVersion s := ("v1.0.0", s);
  daServer s := (None, s);
  daPublicText k := k;
  daShowAndExit := 0 |}.

Definition no_flags : flags := MkFlags false false false false false.

