(* ===== verification/Witnesses.v ===== *)
(** * The theorems at concrete inputs

    Each lemma applies one theorem of the development to the environments of
    [Sample] and [SampleNode]. *)

From S2P Require Import Prelude Paths GridTypes Provisioner Sorting StartupOrder Engine EngineApi.
From S2P Require Import EngineLaws EngineWorkloads EngineDeployments EngineQueue EngineWorker.
From S2P Require Import Gateway Capacity Events Reporter Migration Power UpgradeFiles Upgrade.
From S2P Require Import Registrar Auth UpdateWorker Identity EventsEngine Sample SampleNode.
From Stdlib Require Import Sorted.

Definition empty_world : world := MkWorld ∅ [] ∅ 5.
Definition disk_key : Z * Z * string := (1%Z, 1%Z, "disk").
Definition disk_world : world := MkWorld {[disk_key := sample_disk]} [] ∅ 5.
Definition failed_disk : Workload := sample_workload "disk" "zmount" "size" "error".
Definition failed_world : world := MkWorld {[disk_key := failed_disk]} [] ∅ 5.

(** ** Workloads *)
Lemma installWorkload_refines_witness :
  let m := installWorkload (S:=world) Background (with_id sample_disk) in
  install_step (with_id sample_disk) 1 1 (calls m empty_world) None None
    (w_db (final m empty_world) !! disk_key).
Proof.
  exact (proj1 (installWorkload_refines Background (with_id sample_disk) 1 1 empty_world eq_refl)).
Defined.

Lemma uninstallWorkload_refines_witness :
  let m := uninstallWorkload (S:=world) Background (with_id sample_disk) "gone" in
  uninstall_step (with_id sample_disk) 1 1 "gone" (calls m disk_world) None
    (Some sample_disk) (w_db (final m disk_world) !! disk_key).
Proof.
  exact (proj1 (uninstallWorkload_refines Background (with_id sample_disk) "gone" 1 1 disk_world eq_refl)).
Defined.

Lemma installWorkload_terminal_witness :
  result (installWorkload (S:=world) Background (with_id sample_disk)) failed_world = None.
Proof.
  destruct (installWorkload_terminal Background (with_id sample_disk) 1 1 "disk" failed_world failed_disk)
    as (_ & Hr & _); [reflexivity|reflexivity|by right|exact Hr].
Defined.

Lemma installWorkload_error_recorded_witness :
  exists created res,
    last (calls (installWorkload (S:=world) Background (with_id sample_bad)) empty_world) =
    Some (StTransaction 1 1 (WithResults sample_bad (MkResult created "error" "failed" "")) res).
Proof.
  pose proof (installWorkload_error_recorded Background (with_id sample_bad) 1 1 "broken" empty_world
    zero_result (Fresh "failed") eq_refl) as Hw.
  destruct Hw as (created & res & Hl & _).
  - right; right; left.
  - exists created, res. exact Hl.
Defined.

Lemma lockWorkload_refines_witness :
  let m := lockWorkload (S:=world) Background (with_id sample_disk) true in
  lock_step (with_id sample_disk) 1 1 true (calls m disk_world) None
    (Some sample_disk) (w_db (final m disk_world) !! disk_key).
Proof.
  exact (proj1 (lockWorkload_refines Background (with_id sample_disk) true 1 1 disk_world eq_refl)).
Defined.

Lemma updateWorkload_refines_witness :
  let m := updateWorkload (S:=world) Background (with_id sample_vm) in
  update_step (with_id sample_vm) 1 1 true (calls m disk_world) (result m disk_world)
    None (w_db (final m disk_world) !! (1%Z, 1%Z, "vm")).
Proof.
  exact (proj1 (updateWorkload_refines Background (with_id sample_vm) 1 1 disk_world eq_refl)).
Defined.

(** ** Deployments *)
Lemma sample_indexed : indexed (order (startup sample_engine)) (typeIndex (startup sample_engine)).
Proof.
  split; [apply (bool_decide_unpack _); vm_compute; exact I|].
  intros [|[|[|i]]] typ Hi; simpl in Hi; simplify_eq; reflexivity.
Qed.

Lemma installDeployment_order_witness :
  exists groups, Forall2 (install_group sample_deployment) sample_types groups /\
    sublist (provisioned (calls (installDeployment sample_engine Background sample_deployment) empty_world))
      (mjoin groups).
Proof.
  destruct (installDeployment_order sample_engine sample_indexed Background sample_deployment empty_world)
    as (groups & Hg & _ & Hs & _).
  by exists groups.
Defined.

Lemma uninstallDeployment_order_witness :
  StronglySorted (fun a b => (type_index sample_engine b <= type_index sample_engine a)%Z)
    (deprovisioned (calls (uninstallDeployment sample_engine Background sample_deployment "bye") disk_world)).
Proof.
  exact (proj2 (proj2 (uninstallDeployment_order sample_engine sample_indexed Background sample_deployment "bye"
    disk_world))).
Defined.

Lemma withStartupOrder_spec_witness :
  exists st, withStartupOrder_apply elements ["network"] (MkStartup sample_types ∅) = Some st /\
    exists rest, order st = "network" :: rest.
Proof.
  assert (Hnd : NoDup (order (MkStartup sample_types ∅)))
    by (apply (bool_decide_unpack _); vm_compute; exact I).
  pose proof (withStartupOrder_spec elements (fun X => reflexivity _) ["network"]
    (MkStartup sample_types ∅) Hnd) as Hw.
  destruct (withStartupOrder_apply _ _ _) as [st|] eqn:Hs; [|vm_compute in Hs; discriminate Hs].
  exists st. split; [reflexivity|]. exact (proj1 (proj2 Hw)).
Defined.

Definition sample_ops : list UpgradeOp :=
  [MkUpgradeOp (with_id sample_disk) OpAdd; MkUpgradeOp (with_id sample_net) OpRemove;
   MkUpgradeOp (with_id sample_vm) OpRemove].

Lemma sortOperations_spec_witness :
  exists removes others, sortOperations (startup sample_engine) sample_ops = removes ++ others /\
    removes ≡ₚ filter is_remove sample_ops.
Proof.
  destruct (sortOperations_spec (startup sample_engine) sample_ops) as (r & o & Ho & Hr & _).
  - intros op Hop. repeat (apply elem_of_cons in Hop as [->|Hop]; [vm_compute; congruence|]).
    by apply elem_of_nil in Hop.
  - by exists r, o.
Defined.

(** ** Requests and the queue *)
Definition sample_update : Deployment :=
  MkDeployment 1 1 1 "new" "" "" [sample_vm; sample_net].

Lemma Update_queue_witness :
  let m := Update (S:=world) Background sample_update in
  result m sample_world = None /\
  w_jobs (final m sample_world) =
    w_jobs sample_world ++ [MkJob opUpdate sample_update (Some sample_deployment) ""].
Proof.
  split; [reflexivity|].
  destruct (Update_queue Background sample_update sample_world) as (d & ops & Hd & _ & _ & _ & Hj).
  assert (Heq : Val (A:=Deployment) sample_deployment = Val d) by exact Hd.
  injection Heq as <-. exact Hj.
Defined.

Lemma Provision_queue_witness :
  let m := Engine.Provision (S:=world) sample_deployment in
  w_jobs (final m empty_world) = [MkJob opProvision sample_deployment None ""].
Proof. exact (proj2 (proj2 (Provision_queue sample_deployment empty_world))). Defined.

Lemma schedule_queue_witness :
  let m := schedule (S:=world) 1 1 opPause "" in
  exists d, w_jobs (final m sample_world) = w_jobs sample_world ++ [MkJob opPause d None ""].
Proof. destruct (schedule_queue 1 1 opPause "" sample_world) as (d & _ & Hj). by exists d. Defined.

Lemma CreateOrUpdate_gate_witness :
  let m := CreateOrUpdate (S:=world) sample_engine 1 sample_deployment false in
  (exists before c rest, calls m empty_world = before ++ [c; VerifySignature sample_deployment None] ++ rest /\
     kyc_verified 1 c) /\
  kyc_sent (calls m empty_world) <= 36.
Proof.
  destruct (CreateOrUpdate_gate sample_engine 1 sample_deployment false empty_world) as (Hg & _ & _ & Hl).
  split; [|exact Hl]. destruct Hg as (_ & _ & before & c & rest & Hc & Hk & _).
  - apply Exists_exists. exists (StCreate sample_deployment None). split; [|exact I].
    right; right; left.
  - by exists before, c, rest.
Defined.

Lemma handle_job_invalid_witness :
  let job := MkJob opProvision (MkDeployment 0 1 1 "other" "" "" []) None "" in
  w_jobs (final (handle_job sample_engine Background job) sample_world) = [].
Proof.
  simpl. destruct (handle_job_invalid sample_engine Background
    (MkJob opProvision (MkDeployment 0 1 1 "other" "" "" []) None "") sample_world
    (Fresh "contract hash does not match deployment hash")) as (_ & _ & Hj);
    [reflexivity|reflexivity|exact Hj].
Defined.

Lemma sample_queue_serves : queue_serves (S:=world).
Proof. split; [|reflexivity]. intros s job js Hj. simpl in Hj |- *. by rewrite Hj. Qed.


Lemma boot_queue_witness :
  w_jobs (final (boot Background) sample_world) =
  w_jobs sample_world ++ accepted (calls (boot Background) sample_world).
Proof. exact (proj1 (proj2 (boot_queue Background sample_world eq_refl))). Defined.

(** ** The stub gateway *)
Definition stub_env : EngineEnv world := {|
  stCreate := stCreate; stGet := stGet; stUpdate := stUpdate; stError := stError; stAdd := stAdd;
  stRemove := stRemove; stTransaction := stTransaction; stCurrent := stCurrent;
  stDelete := stDelete; stChanges := stChanges; stTwins := stTwins; stByTwin := stByTwin;
  pvProvision := pvProvision; pvDeprovision := pvDeprovision; pvUpdate := pvUpdate;
  pvPause := pvPause; pvResume := pvResume; pvCanUpdate := pvCanUpdate; qOpen := qOpen;
  qRemoveAll := qRemoveAll; qEnqueue := qEnqueue; qPeekBlock := qPeekBlock; qDequeue := qDequeue;
  gwGetContract id s := (GetContract no_error id, s);
  gwGetNodeRentContract node s := (GetNodeRentContract no_error node, s);
  kycURL := kycURL; kycGet := kycGet; dlVerify := dlVerify; now := now; backoffStop := backoffStop |}.

Lemma stub_laws : @EngineLaws _ _ stub_env sample_view.
Proof.
  split; try (intros; reflexivity);
    try (intros; simpl; by rewrite sample_run_world); simpl.
  - intros twin dl name s w. by destruct (w_db s !! _) eqn:E; intros; simplify_eq.
  - intros twin dl name s err. by destruct (w_db s !! _) eqn:E.
  - intros s j. destruct (w_jobs s); intros; by simplify_eq/=.
  - intros. lia.
Qed.

Lemma gateway_nothing_installed_witness :
  let job := MkJob opProvision sample_deployment None "" in
  filter is_provisioner (calls (@handle_job _ _ _ stub_env sample_engine Background job) sample_world) = [].
Proof.
  exact (proj1 (@gateway_nothing_installed _ _ _ stub_env sample_view stub_laws sample_engine no_error
    eq_refl Background (MkJob opProvision sample_deployment None "") sample_world
    (fun _ _ => eq_refl) eq_refl)).
Defined.

(** ** Provisioner *)
Definition sample_manager : Manager unit string :=
  Provisioner.MkManager _ _ (fun _ _ s => (("data", None), s)) (fun _ _ s => (None, s)) None None None.

Definition sample_managers : gmap string (Manager unit string) := {["zmount" := sample_manager]}.

Lemma Pause_Resume_roundtrip_witness :
  State (result (Provisioner.Pause (fun s : unit => (1%Z, s)) sample_managers
    Background (with_id sample_disk)) ()).1 = "paused".
Proof.
  assert (Hm : sample_managers !! Type_ (wl_of (with_id sample_disk)) = Some sample_manager)
    by (vm_compute; reflexivity).
  exact (proj1 (Pause_Resume_roundtrip (fun s : unit => (1%Z, s)) sample_managers
    Background (with_id sample_disk) sample_manager () Hm eq_refl eq_refl)).
Defined.

(** ** The registrar side *)
Lemma sync_deprovisions_witness :
  (1%Z, 1%Z) ∈ deprovisions (calls (sync (S:=unit) 7) ()) /\
  (2%Z, 20%Z) ∉ deprovisions (calls (sync (S:=unit) 7) ()).
Proof.
  destruct (sync_deprovisions 7 [sample_deployment; sample_paused] [20%Z] ()) as (_ & _ & Hd);
    [reflexivity|reflexivity|].
  split.
  - apply Hd. split; [intros Hin; apply list_elem_of_singleton in Hin; discriminate Hin|].
    exists sample_deployment. split; [vm_compute; reflexivity|reflexivity].
  - intros Hin. apply Hd in Hin as [Hin _]. apply Hin. left.
Defined.

Lemma sync_changes_justified_witness :
  20%Z ∈ [20%Z] /\ exists d, by_contract [sample_deployment; sample_paused] !! 20%Z = Some d /\
    GridTypes.TwinID d = 2%Z.
Proof.
  destruct (sync_changes_justified 7 [sample_deployment; sample_paused] [20%Z] () 2 20 false)
    as (Hin & d & ct & err & Hd & Ht & _); [reflexivity|reflexivity| |].
  - vm_compute. do 4 right. left.
  - split; [exact Hin|]. exists d. by split.
Defined.

Lemma sync_locks_witness :
  exists ans, EvGetContract 20 ans ∈ calls (sync (S:=unit) 7) ().
Proof.
  destruct (sync_locks 7 [sample_deployment; sample_paused] [20%Z] () 20 sample_paused)
    as (ans & Ha & _); [reflexivity|reflexivity|left|vm_compute; reflexivity|by exists ans].
Defined.

(** ** The handler over the engine *)

(** A node whose only contract is not on the chain any more. *)
#[export] Instance sample_sources : EventSources world := {|
  esCapacity s := (Val [sample_deployment], s);
  esNodeContracts _ s := (Val [], s);
  esGetContract _ s := ((MkContract true (MkNodeContract 7 "") false, no_error), s);
  esContractCancelled s := (None, s);
  esContractLocked s := (None, s) |}.
#[export] Instance sample_stored : StoredView world := w_deployments.
#[export] Instance sample_handler_laws : HandlerLaws (S:=world).
Proof.
  split; try (intros; reflexivity). intros twin id s d. unfold stored, sample_stored. simpl.
  by destruct (w_deployments s !! _); intros; simplify_eq.
Qed.

Lemma sample_storage_serves : storage_serves (S:=world).
Proof. intros s twin id d Hd. unfold stored, sample_stored in Hd. simpl. by rewrite Hd. Qed.

Definition dropped_world : world := set_jobs (fun _ => []) sample_world.

Lemma sync_queues_jobs_witness :
  exists removals locks,
    w_jobs (final (sync (S:=world) 7) dropped_world) = [] ++ removals ++ locks /\
    removals ≡ₚ [MkJob opDeprovision sample_deployment None not_on_chain].
Proof.
  destruct (sync_queues_jobs 7 [sample_deployment] [] dropped_world)
    as (rem & locks & Hj & Hrem & _);
    [exact sample_storage_serves|intros j s; reflexivity|reflexivity|reflexivity|].
  exists rem, locks. split; [exact Hj|exact Hrem].
Defined.

Lemma sync_then_worker_witness :
  let s' := final (sync (S:=world) 7) dropped_world in
  let m := Engine.Run_loop sample_engine (length (jobs s')) Background in
  jobs (final m s') = [] /\ removed_in sample_engine sample_deployment (calls m s').
Proof.
  destruct (sync_then_worker sample_engine 7 Background [sample_deployment] [] dropped_world 1
    sample_deployment) as (Hj & d & Hd & Hr).
  - intros cb Hcb. discriminate Hcb.
  - reflexivity.
  - reflexivity.
  - vm_compute. reflexivity.
  - intros Hin. apply elem_of_nil in Hin. exact Hin.
  - intros reason err Hin. vm_compute in Hin.
    repeat (apply elem_of_cons in Hin as [Hin|Hin]; [discriminate Hin|]). by apply elem_of_nil in Hin.
  - intros Hf. vm_compute in Hf. repeat (apply Exists_cons in Hf as [Hf|Hf]; [exact Hf|]).
    by apply Exists_nil in Hf.
  - split; [exact Hj|]. assert (d = sample_deployment) as ->; [|exact Hr].
    vm_compute in Hd. by injection Hd.
Defined.

Lemma contract_resources_sum_witness :
  cr_Used (contract_resources sample_deployment) = MkResources 0 4 3 3072.
Proof. rewrite (contract_resources_sum sample_deployment). vm_compute. reflexivity. Defined.

Definition sample_callbacks : list (DeploymentID * bool) :=
  [(MkDeploymentID 1 10, false); (MkDeploymentID 1 11, true); (MkDeploymentID 2 20, false)].

Lemma Run_reports_callbacks_witness :
  exists c, callbacks NewCapacitySetter sample_callbacks = Some c /\
    looked_up (calls (Capacity.Run 5 c) ()) = [MkDeploymentID 1 10; MkDeploymentID 2 20].
Proof.
  eexists. split; [reflexivity|].
  destruct (Run_reports_callbacks sample_callbacks _ 5 () eq_refl) as (_ & Hl & _). exact Hl.
Defined.

Lemma make_report_spec_witness :
  MkNru 1 (uint64 (Unix 4600)) (uint64 (Z.quot (4600 - 1000) (10 ^ 9))) 5
    ∈ Consumption (make_report 4600 1000 sample_counters).
Proof.
  apply (proj2 (make_report_spec 4600 1000 sample_counters)). exists 1%Z.
  assert (Ht : uint64 (total 1 (map_to_list sample_counters)) = 5%Z) by (vm_compute; reflexivity).
  rewrite Ht. split; [discriminate|reflexivity].
Defined.

Lemma int64_of_float_roundtrip_witness : int64_of_float (float64_of_int 1700000000) = 1700000000%Z.
Proof. apply (int64_of_float_roundtrip 1700000000). lia. Defined.

Lemma report_delay_spec_witness : report_delay 1000 1600 = 3000%Z.
Proof.
  exact (proj1 (report_delay_spec 1000 1600 ltac:(lia) ltac:(lia))).
Defined.

Definition one_report : list Report := [MkReport [MkNru 1 2 3 4]].

Lemma pusher_delivers_witness :
  final (pusher 1) one_report = [] /\
  sent (calls (pusher 1) one_report) = [[MkNru 1 2 3 4]].
Proof.
  assert (Hpeek : forall (s : list Report) r q, s = r :: q -> (queuePeekBlock s).1 = Val r)
    by (intros s r q ->; reflexivity).
  destruct (pusher_delivers (fun s : list Report => s)) with (n := 1) (s := one_report) as [_ Hall].
  - intros s r Hr. destruct s as [|r' s]; [discriminate Hr|]. by injection Hr as ->.
  - reflexivity.
  - reflexivity.
  - reflexivity.
  - apply Hall; [exact Hpeek|reflexivity|reflexivity|simpl; lia].
Defined.

Definition old_storage : gmap (Z * Z) Deployment := {[(1%Z, 1%Z) := sample_deployment]}.

Lemma storageMigration_safe_witness :
  deleted_after [] (calls storageMigration old_storage).
Proof. exact (proj1 (storageMigration_safe old_storage)). Defined.

(** ** Power *)
Lemma disabled_never_off_witness :
  Forall (fun c => turns_off c = false) (calls (Start (MkPowerServer false 1 7 3) 2) (true, false)).
Proof. exact (disabled_never_off (MkPowerServer false 1 7 3) 2 (true, false) eq_refl). Defined.

Lemma SendNow_spec_witness :
  exists u t, last (calls SendNow (true, true)) = Some (PUptime u t None).
Proof.
  destruct (SendNow_spec (S:=bool * bool) (true, true)) as (_ & _ & Hl); [|exact Hl].
  exists 100%Z, 5%Z, None. right; right; right; left.
Defined.

(** ** Upgrades *)
Lemma sample_no_skip : NoSkip (gmap string string).
Proof.
  split; simpl; intros; repeat case_match; repeat case_bool_decide; simpl; discriminate.
Qed.

Lemma install_complete_witness :
  exists before cache db store after,
    calls (install sample_upgrader "tf-zos" "noded:2.flist") (∅ : gmap string string) =
      before ++ [UDownload cache "tf-zos" "noded:2.flist" (Val db); UNewStore db (Val (Some store))] ++ after /\
    store_installed store after.
Proof.
  pose proof sample_no_skip as Hn.
  apply (install_complete sample_upgrader "tf-zos" "noded:2.flist" ∅). reflexivity.
Defined.

Lemma updateTo_order_witness :
  exists done, downloads done
    (calls (updateTo sample_upgrader (MkTagLink "tf-zos/v1.1.0") (Some (MkTagLink "tf-zos/v1.0.0")))
       (∅ : gmap string string)) /\
    done = [("tf-zos", "noded:2.flist"); ("tf-zos", "zos:v1.1.0.flist")].
Proof.
  destruct (updateTo_order sample_upgrader (MkTagLink "tf-zos/v1.1.0")
    (Some (MkTagLink "tf-zos/v1.0.0")) "tf-zos" "v1.1.0"
    [MkPackage "zos.flist" "zos:v1.1.0.flist"; MkPackage "noded.flist" "noded:2.flist";
     MkPackage "redis.flist" "redis:1.flist"] (∅ : gmap string string)) as (dn & Hd & _ & He);
    [vm_compute; reflexivity|vm_compute; reflexivity|].
  exists dn. split; [exact Hd|]. rewrite (He ltac:(vm_compute; reflexivity)). vm_compute. reflexivity.
Defined.

Definition old_noded : gmap string string := {["/bin/noded" := "old"]}.
Definition torn_file : Meta := MkMeta "noded" false 493 RegularType "" "torn".

Lemma copyFile_installs_witness :
  exists x, final (copyFile "/bin/noded" noded_file "") old_noded !! "/bin/noded" = Some x.
Proof.
  destruct (copyFile_installs "/bin/noded" noded_file "" old_noded) as (x & _ & Hx & _);
    [vm_compute; reflexivity|by exists x].
Defined.

Lemma copyFile_failure_witness :
  exists part, final (copyFile "/bin/noded" torn_file "") old_noded !! "/bin/noded" = Some part /\
    final (copyFile "/bin/noded" torn_file "") old_noded !! "/bin/noded.old" = None.
Proof.
  destruct (copyFile_failure "/bin/noded" torn_file "" old_noded "old" (Fresh "torn"))
    as [[Hl _]|[[Hl _]|(r & _ & Hl & part & Hp & Hr)]].
  - reflexivity.
  - vm_compute. reflexivity.
  - exfalso. vm_compute in Hl. repeat (apply elem_of_cons in Hl as [Hl|Hl]; [discriminate Hl|]).
    by apply elem_of_nil in Hl.
  - exfalso. apply (Hl (Fresh "torn")). vm_compute. do 4 right. left.
  - exists part. split; [exact Hp|]. apply Hr. vm_compute in Hl. by injection Hl as <-.
Defined.

(** ** Registration, keys and identity *)
Definition sample_zos : Interface := MkInterface "zos" "cc:dd" ["10.0.0.2"].

Lemma registerNode_spec_witness :
  exists real, own_node sample_info 3 sample_zos real /\
    created (calls (registerNode sample_info) ()) = [real] /\
    updated (calls (registerNode sample_info) ()) = [set_NodeID 7 (set_Virtualized false real)].
Proof.
  destruct (registerNode_spec sample_info () 7 3)
    as (infs & account & real & answer & on & Hi & _ & _ & Hown & Ha & Hc & Hon & Hu); [vm_compute; reflexivity|].
  assert (Hinf : Val (A:=gmap string Interface) {["zos" := sample_zos]} = Val infs) by exact Hi.
  injection Hinf as <-. exists real. split; [exact Hown|].
  vm_compute in Hon, Ha.
  assert (Hs : on = sample_node).
  { repeat (apply elem_of_cons in Hon as [Hon|Hon]; [try discriminate Hon|]).
    - by injection Hon.
    - by apply elem_of_nil in Hon. }
  assert (He : answer.2 = Some (Fresh "error: node not found")).
  { repeat (apply elem_of_cons in Ha as [Ha|Ha]; [try discriminate Ha|]).
    - by injection Ha as ->.
    - by apply elem_of_nil in Ha. }
  subst on. rewrite He in Hc. split; [exact (proj1 (proj2 Hc))|exact Hu].
Defined.

Lemma GetKey_sound_witness :
  result (GetKey 3) (final (GetKey 3) (∅ : gmap Z string)) = Val "hello".
Proof.
  destruct (GetKey_sound (fun _ => "hello")) with (id := 3%Z) (s := (∅ : gmap Z string)) as [_ Hg].
  - intros id s user key Hu Hk. change (Val (MkAccount (uint64 id) "aGVsbG8=") = Val user) in Hu.
    assert (user = MkAccount (uint64 id) "aGVsbG8=") as -> by congruence.
    assert (Val (A:=string) "hello" = Val key) by exact Hk. congruence.
  - intros id k Hk. vm_compute in Hk. discriminate Hk.
  - exact (proj1 (proj2 Hg)).
Defined.

Definition sample_identity_manager : identityManager :=
  Identity.MkManager "file" (MkKeyPair "secret" "public") (MkEnvironment 1 "" "url" RunningMain) "".

Lemma NewManager_stable_witness :
  exists m', result (NewManager "/root" false) (Some "secret") = Val m' /\
    Identity.NodeID m' = Identity.NodeID sample_identity_manager.
Proof.
  exists sample_identity_manager. split; [reflexivity|].
  exact (proj1 (NewManager_stable "/root" false "/root" false (None : option string)
    sample_identity_manager sample_identity_manager eq_refl eq_refl)).
Defined.

Lemma updateZosVersion_links_witness :
  let m := updateZosVersion sample_worker "qa-v4" "url" in
  exists t, final m (∅ : gmap string string) !! "/srv/tf-zos/qa-v4" = Some t.
Proof.
  destruct (updateZosVersion_links sample_worker "qa-v4" "url" "v1.1.0" (∅ : gmap string string))
    as [(t & Ht & _) _]; [reflexivity..|]. by exists t.
Defined.
